(* ===== verification/_CoqProject ===== *)
-Q . S2P
Prelude.v
Bitset.v
Checksum.v
Handshake.v
Codec.v
Socket.v
Transfer.v
Faults.v
Config.v
NetSocket.v
Sender.v
Receiver.v
System.v
Liveness.v
AckSound.v
Shutdown.v
Console.v
Startup.v
OldPacket.v
OldThreads.v
OldSender.v
