(* ===== verification/Prelude.v ===== *)
(** * A verification library for the Network-Sliding-Window-Protocols file transfer

    The repository is a reliable file transfer over a TCP byte stream written
    in C++: a sender ([src/sender.cpp]) cuts a file into fixed-size chunks,
    wraps each in a [Packet] ([src/Packet.cpp], [src/Packet.h]) whose header
    is a text of '0'/'1' digits (32-bit sequence number, 2-bit ack code,
    16-bit checksum) followed by the raw payload, and sends it through a
    [NetSocket] ([src/NetSockets.cpp]).  A receiver ([src/receiver.cpp])
    validates the checksum, suppresses duplicates, buffers out-of-order
    packets, writes the in-order run to the output file and answers every
    packet with an ACK (code 1) or NACK (code 2).  The sender keeps a
    sliding window of unacknowledged packets, retransmits on timeout or
    NACK, and can inject faults (forced drop, forced NACK, lost ACK) from
    user-given queues or with probability 1/51 per decision.  A second
    sender thread reads ACKs; both threads share the window under one mutex.

    ** Files, in dependency order

    - [Prelude] (this file): the [proto_scope] notations, the crash/result
      type [res] with its bind notation modelling C++ exceptions and
      undefined reads, [substr], [c_div]/[c_rem], the byte and 32-bit
      integer helpers ([signed32]), consecutive numbers [zrange], the
      generic lemmas on lists, folds and reachability ([rtc_invariant]),
      the tactics [invc], [zlia], [case_zbool], [zify_bool] and the hint
      databases [proto] (resolve), [zbool] and [proto_rw] (rewrite).
    - [Bitset]: [bitset<N>(v).to_string()] and [bitset<N>(str).to_ulong()]
      as [Packet::createPacketString] and [Packet::reversePacket] use them;
      their round trip.
    - [Checksum]: [Packet::createChecksum] (bytes widened by sign
      extension of [char], end-around carry, complement) and
      [Packet::isValidChecksum]; equivalence with a one's-complement sum,
      bounds, which byte changes it detects and which (0x00 <-> 0xFF) it
      does not.
    - [Handshake]: [std::to_string], the zero padding, [stoi], the
      handshake payload of [sendInitialFilePacket] and
      [readInitialPacket] of the receiver; their round trip.
    - [Codec]: the [Packet] record and its setters, [createPacketString]
      (with [forceNACK]), [reversePacket] (errors for short or non-binary
      headers), timeouts; packet round trips, forced NACK.
    - [Socket]: [NetSocket::sendData] and [NetSocket::getFromSocket] over
      a byte stream whose [recv] sizes come from an oracle; exact framing
      of full packets and ACKs, misframing of short messages, fragments of
      a handshake read with [packetSize = 0]; termination of the read loop
      (fuel: the stream length plus one, each round reads a byte).
    - [Transfer]: the sender's [main] before the window protocol:
      protocol check, packet counts, the chunk loop over the file (fuel:
      [numPackets] reads, enough since the loop reads [numPackets - 1]
      chunks), [calculateDynamicTimeout] and its PING wait, the handshake
      packet and its wait, the statistics (a division by a 0 ms time).
    - [Faults]: the fault modes, the queue head test and pop, the
      [rand() % 51 < 1] decision, [atoi] and [promptForUserErrors]'s list
      parsing; round trip of printed lists and the leading-blank defect.
    - [Config]: the prompt phase of the sender's [main] and
      [promptForUserErrors] over [std::cin] modelled as characters with
      [eofbit] and [failbit] and the library's extraction rules
      ([operator>>] on strings and [int]s, [ignore], [getline]); what a
      started transfer's configuration satisfies on every input, the
      read-back of typed answers, the narrowing of [tellg()] to [int], and
      the fault lists repeated at the end of the input.
    - [NetSocket]: socket set-up and teardown ([createServerSocket],
      [createClientSocket], [setType], [closeSocket] and the descriptor
      [sendData] and [getFromSocket] use) over a descriptor table in which
      [socket] and [accept] return the lowest free descriptor, with the
      outcome of each call that can fail for outside reasons given as
      [Verdicts]; the receiver's [argv] parsing and start, the sender's
      connect, the socket test client.  Theorems: the wrong failure test
      of [socket()], the receiver's start that never reports a socket
      failure, the accepted ports, what each side closes.
    - [Sender]: the sender's globals, [processChunkData], one iteration of
      [readACKMessages], one pass of [checkPacketQueue] and its exit test,
      and the interleaving of the main thread with the ACK thread as a step
      relation [sstep] (and an executable scheduler [run_sched] with the
      same steps).  The clock and [rand()] are Section variables: every
      theorem holds for every clock and every random sequence.  Theorems:
      the window invariant on every reachable state, completion, the
      retransmission count, monotone front, the fault behaviours.
    - [Receiver]: the receiver's globals and [main]'s locals, one
      iteration of its loop as [step], the loop over the messages read as
      [run]; in-order delivery whatever the order, duplication or
      corruption of the packets, one reply per packet, duplicate
      suppression, the early exit before the handshake; the count of
      packets received never falls behind the packets accepted
      ([run_counts]).
    - [System]: the two programs and the two byte streams between them as
      one step relation [sys_step] (a sender step, an ACK read by the ACK
      thread, or a receiver iteration on what [getFromSocket] returns,
      with [recv]'s sizes chosen by the network) and an executable
      scheduler [sys_run]; the receiver's handshake iteration; end-to-end
      delivery, completion and the whole-program theorem [file_transfer].
    - [Liveness]: the transfer can finish: without faults, for every clock
      and random sequence, one send / receive / ACK / pass round per chunk
      and the final wait form a run of [4 n + 2] steps that ends with the
      sender finished and the receiver stopped with the whole file
      ([transfer_finishes]).  Together with [System.system_complete] this
      is the protocol's progress and its correctness at the end.  With a
      lost ACK at the end the sender never finishes, since the receiver
      has stopped reading ([lost_ack_never_finishes]).  A file with a
      short last packet can crash the receiver in a fault-free run
      ([short_last_packet_crash]).
    - [AckSound]: the acknowledgements are sound: in every run of
      [System.sys_step], whatever the faults, once the sender's main
      thread is past its final wait the receiver's file holds the whole
      file ([finished_delivered]).  Its invariant follows a number from
      the receiver's [donePackets] through the [ACK_OK] strings on the
      way back to the sender's acknowledged packets and window front;
      every recorded number is below [curPktNum] or buffered
      ([done_bound]); the receiver's count never passes [numPackets]
      ([count_inv]), so at that point its loop has ended as well.
    - [Shutdown]: the end of the sender's [main] ([keepReadACK = false],
      the spin on [hasACKClosed], [closeSocket]) beside the ACK thread's
      loop test, its last read and return, and the receiver's exit, as
      the step relation [shut_step]; from every state after a finished
      transfer the end can be reached, nothing moves there, and once the
      flag is cleared every run ends within four steps
      ([shutdown_completes]).  The flags are sequentially consistent in
      the model (they are plain [bool]s in the source).
    - [Console]: the two [showSlidingWindow] functions, with [int]
      arithmetic at its width and the measure [max - i + 2] as the loop's
      fuel, against a reference text; the loop that never ends when the
      window reaches [INT_MAX]; the receiver's statistics, never negative
      at the end of a complete transfer.
    - [Startup]: the phase between connecting and the ACK thread's start:
      the sender's PING round trips and handshake with the receiver's
      echoes and handshake iteration ([boot_step]); the phase reaches the
      start of the transfer ([startup_reaches]); and the whole program,
      from the answers typed at the prompts to the file written, can run
      to its end ([program_transfers_file]).
    - [OldPacket]: the archived [src/archive/packet.cpp]: a TCP-like
      header of 192 digits, each payload byte as 8 digits, the same
      checksum loop as the current code; its [reversePacket] adds the
      ports, sequence number and ack to the packet's own values
      ([reversePacket_accumulates]).
    - [OldThreads]: the archived [src/archive/sender copy.cpp]: its
      prompts, counts and reads ([oldBuffers]: the last byte is never
      read, a size that is a multiple of the packet size throws), and a
      thread per chunk as the step relation [ot_step] with main's hold on
      the oldest thread; every finished run outputs the chunks once each,
      in an order the scheduler chooses ([oldThreads_output]), at most
      [slidingWindowSize] threads pending ([oldThreads_window]).
    - [OldSender]: the copy of a later sender appended to
      [src/receiver.cpp] after its [main] (lines 323-836): globals,
      handshake, [readACKMessages], [processChunkData],
      [checkPacketQueue] and [main] with its inner read loop, as the step
      relation [ostep]; no run ever hands a chunk to [processChunkData]
      ([old_never_sends_data]), and a NACK is answered by echoing the
      reply ([onAck_nack_echo]).

    ** How the parts interact

    The sender's [main] ([Transfer]) computes the chunks of the file, sends
    the handshake ([Handshake], [Codec]) and runs the window protocol
    ([Sender]) whose packets ([Codec], [Checksum], [Faults]) go through
    [Socket.sendData]; the receiver reads them with
    [Socket.getFromSocket] and runs [Receiver.step] on each string.
    Before that, [Startup] composes the PING round trips and the
    handshake of both programs, and [program_transfers_file] chains the
    prompts ([Config]), the chunking ([Transfer]), the start-up and the
    transfer run of [Liveness] into one run of the whole program.  The
    two sides are verified separately, each against every possible input
    from the other (every ACK string for the sender, every message list
    for the receiver), and the stream between them by the framing
    theorems of [Socket], which also show that every read ends and takes
    at least one byte of a non-empty stream.  [NetSocket] puts the
    stream behind the descriptors the two [main]s create.  [System] composes the three: its invariant is
    the sender's window invariant, the receiver's delivery invariant and
    the shape of the stream (the strings the sender sent, each with its
    NUL), so the receiver reads exactly one sent string per iteration;
    [AckSound] adds the stream back (ACK and NACK strings whose [ACK_OK]
    names a number the receiver recorded), so the ACK thread reads exactly
    one reply per iteration and never acknowledges an unrecorded packet;
    [Shutdown] continues a run whose sender has finished with the end of
    both programs.
    The composition is proved for files whose size is a multiple of the
    packet size: the receiver sizes its read of the last packet by
    [fileSize % packetSize] and, when that is not 0, the shorter last
    packet is misframed (see [Socket.getFromSocket_short], and the
    fault-free crash [Liveness.short_last_packet_crash]).

    Not modelled: [inet_pton] and the address bytes of [sockaddr_in]
    (an invalid host shows as a refused [connect]); the per-packet log
    lines both programs print; file opening (the file is given as a byte
    list and its size as the value [tellg()] returns); the [sleep] calls
    of the test client; the C++ memory model of the two shared flags
    [keepReadACK] and [hasACKClosed] (sequentially consistent in
    [Shutdown]); the floating-point throughput the sender prints.  The
    old sender copies ([OldPacket], [OldThreads], [OldSender]) are not
    part of the two programs and are modelled on their own: the header
    they were written against is not in the repository, so their packet
    fields are unbounded integers and the copy in [src/receiver.cpp] is
    modelled against the current [Packet] and [NetSocket]; a buffer taken
    as a C string without a NUL is a read past its end ([ReadPastEnd]);
    [sleep] is a delay without effect, and a thread's [sleep(2)] after its
    append is merged with its return. *)

From Stdlib Require Export ZArith Lia List.
From stdpp Require Export base relations list.
From stdpp Require Import gmap.

Open Scope Z_scope.

(** ** Results: the C++ exceptions and undefined reads the code can hit *)

Inductive crash :=
| ExcInvalidArgument   (** [std::invalid_argument], e.g. a bitset digit *)
| ExcOutOfRange        (** [std::out_of_range], e.g. [substr] past the end *)
| ExcLengthError       (** [std::length_error], e.g. [string(n, c)] with a huge [n] *)
| DivByZero            (** an integer [/] or [%] by zero: undefined *)
| ReadPastEnd          (** an iterator moved past [end()]: undefined *)
| Indeterminate.       (** a read of a variable never initialised: undefined *)

Inductive res (A : Type) : Type :=
| Ok (a : A)
| Crash (c : crash).
Arguments Ok {A} a.
Arguments Crash {A} c.

Definition res_bind {A B} (r : res A) (k : A -> res B) : res B :=
  match r with
  | Ok a => k a
  | Crash c => Crash c
  end.

Declare Scope proto_scope.
Delimit Scope proto_scope with proto.
Notation "x <- c ;; k" := (res_bind c (fun x => k))
  (at level 100, c at next level, right associativity) : proto_scope.
Open Scope proto_scope.

Definition res_ok {A} (r : res A) : bool :=
  match r with Ok _ => true | Crash _ => false end.

Lemma res_bind_Ok {A B} (r : res A) (k : A -> res B) b :
  res_bind r k = Ok b <-> exists a, r = Ok a /\ k a = Ok b.
Proof. destruct r; simpl; split; intros H; try destruct H as (? & ? & ?); naive_solver. Qed.

(** ** Bytes, characters and 32-bit integers *)

(** A [char] of the code is held as its unsigned byte value. *)
Definition byte_ok (b : Z) : Prop := 0 <= b < 256.
#[export] Instance byte_ok_dec b : Decision (byte_ok b).
Proof. unfold byte_ok. apply _. Defined.

Definition bytes_ok (l : list Z) : Prop := Forall byte_ok l.

(** ASCII codes the code compares against. *)
Definition CH0 : Z := 48.    (** '0' *)
Definition CH1 : Z := 49.    (** '1' *)
Definition NUL : Z := 0.     (** '\0' *)

(** [a % b] on [int]: C truncates toward zero. *)
Definition c_rem (a b : Z) : res Z := if b =? 0 then Crash DivByZero else Ok (Z.rem a b).

(** [a / b] on [int]. *)
Definition c_div (a b : Z) : res Z := if b =? 0 then Crash DivByZero else Ok (Z.quot a b).

(** [std::string::substr(pos, n)]: throws [std::out_of_range] when
    [pos > size()], and is cut at the end of the string otherwise. *)
Definition substr (pos n : nat) (s : list Z) : res (list Z) :=
  if Nat.ltb (length s) pos then Crash ExcOutOfRange else Ok (take n (drop pos s)).

Lemma substr_ok pos n s : (pos <= length s)%nat -> substr pos n s = Ok (take n (drop pos s)).
Proof. intros H. unfold substr. destruct (Nat.ltb_spec (length s) pos); [lia|done]. Qed.

Lemma substr_crash pos n s : (length s < pos)%nat -> substr pos n s = Crash ExcOutOfRange.
Proof. intros H. unfold substr. destruct (Nat.ltb_spec (length s) pos); [done|lia]. Qed.

(** The two's-complement view of a 32-bit value, as [int] holds it. *)
Definition signed32 (z : Z) : Z :=
  let u := z mod 2 ^ 32 in if u <? 2 ^ 31 then u else u - 2 ^ 32.

Lemma signed32_small z : 0 <= z < 2 ^ 31 -> signed32 z = z.
Proof.
  intros H. unfold signed32. rewrite Z.mod_small by lia.
  destruct (Z.ltb_spec z (2 ^ 31)); lia.
Qed.

(** Every value of [int]'s range is kept as it is. *)
Lemma signed32_int z : - 2 ^ 31 <= z < 2 ^ 31 -> signed32 z = z.
Proof.
  intros H. unfold signed32. destruct (Z.leb_spec 0 z).
  - rewrite Z.mod_small by lia. destruct (Z.ltb_spec z (2 ^ 31)); lia.
  - replace (z mod 2 ^ 32) with (z + 2 ^ 32).
    + destruct (Z.ltb_spec (z + 2 ^ 32) (2 ^ 31)); lia.
    + apply (Z.mod_unique _ _ (-1)); lia.
Qed.

Lemma signed32_range z : - 2 ^ 31 <= signed32 z < 2 ^ 31.
Proof.
  unfold signed32. pose proof (Z.mod_pos_bound z (2 ^ 32)).
  destruct (Z.ltb_spec (z mod 2 ^ 32) (2 ^ 31)); lia.
Qed.

(** [a, a+1, ..., a+n-1]: sequence numbers of consecutive packets. *)
Definition zrange (a : Z) (n : nat) : list Z := map (fun i => a + Z.of_nat i) (seq 0 n).

Lemma zrange_S a n : zrange a (S n) = zrange a n ++ [a + Z.of_nat n].
Proof. unfold zrange. by rewrite seq_S, map_app. Qed.

Lemma zrange_cons a n : zrange a (S n) = a :: zrange (a + 1) n.
Proof.
  unfold zrange. cbn. f_equal; [lia|]. rewrite <- seq_shift, map_map.
  apply map_ext. intros i. lia.
Qed.

Lemma length_zrange a n : length (zrange a n) = n.
Proof. unfold zrange. by rewrite length_map, length_seq. Qed.

Lemma map_drop {A B} (f : A -> B) n l : map f (drop n l) = drop n (map f l).
Proof. revert n; induction l; intros [|n]; cbn; auto. Qed.

Lemma zrange_drop a n k : drop k (zrange a n) = zrange (a + Z.of_nat k) (n - k).
Proof.
  revert a n; induction k as [|k IH]; intros a n.
  - by rewrite drop_0, Nat.sub_0_r, Z.add_0_r.
  - destruct n as [|n]; [done|]. rewrite zrange_cons. cbn [drop Nat.sub].
    rewrite IH. f_equal. lia.
Qed.

(** A set of numbers holding [a .. a + n - 1] has at least [n] elements. *)
Lemma zrange_size (X : gset Z) a n :
  (forall i, a <= i < a + Z.of_nat n -> i ∈ X) -> (n <= size X)%nat.
Proof.
  intros H.
  assert (Hnd : NoDup (zrange a n)).
  { unfold zrange. apply NoDup_fmap_2; [intros ? ? ?; lia|apply NoDup_seq]. }
  assert (Hsub : list_to_set (C:=gset Z) (zrange a n) ⊆ X).
  { intros i Hi. apply elem_of_list_to_set, list_elem_of_In in Hi. unfold zrange in Hi.
    apply in_map_iff in Hi as (j & <- & Hj). apply in_seq in Hj. apply H. lia. }
  apply subseteq_size in Hsub. by rewrite size_list_to_set, length_zrange in Hsub.
Qed.

(** Adding one element adds at most one to the size. *)
Lemma size_union_singleton (X : gset Z) x : (size ({[x]} ∪ X) <= S (size X))%nat.
Proof.
  rewrite size_union_alt, size_singleton.
  assert (Hs : X ∖ {[x]} ⊆ X) by (intros y; rewrite elem_of_difference; tauto).
  pose proof (subseteq_size _ _ Hs). lia.
Qed.

(** ** Tactics and hint databases *)

Create HintDb proto discriminated.
Create Rewrite HintDb zbool.
Create Rewrite HintDb proto_rw.

#[export] Hint Rewrite Z.eqb_eq Z.ltb_lt Z.leb_le Z.eqb_neq Z.ltb_ge Z.leb_gt
  andb_true_iff orb_true_iff negb_true_iff : zbool.

Ltac invc H := inversion H; subst; clear H.

(** Turn the boolean comparisons of the modelled code into propositions. *)
Ltac zify_bool :=
  repeat match goal with
  | H : context [Z.eqb _ _ = _] |- _ => autorewrite with zbool in H
  | H : context [Z.ltb _ _ = _] |- _ => autorewrite with zbool in H
  | H : context [Z.leb _ _ = _] |- _ => autorewrite with zbool in H
  end.

(** [lia] after turning every [/] and [mod] by a constant into equations. *)
Ltac zlia := Z.div_mod_to_equations; lia.

(** Case on every boolean test [if a <? b] / [if a =? b] in the goal. *)
Ltac case_zbool :=
  repeat match goal with
  | |- context [if Z.eqb ?a ?b then _ else _] => destruct (Z.eqb_spec a b)
  | |- context [if Z.ltb ?a ?b then _ else _] => destruct (Z.ltb_spec a b)
  | |- context [if Z.leb ?a ?b then _ else _] => destruct (Z.leb_spec a b)
  end.

(** ** Generic lemmas on lists and folds *)

(** An invariant kept by every step of a left fold holds of its result. *)
Lemma fold_left_inv {A B} (P : A -> Prop) (f : A -> B -> A) (l : list B) a :
  P a -> (forall x b, In b l -> P x -> P (f x b)) -> P (fold_left f l a).
Proof.
  revert a; induction l as [|b l IH]; simpl; intros a Ha Hf; [done|].
  apply IH; [apply Hf; auto | intros; apply Hf; auto].
Qed.

(** An invariant kept by every step of a relation holds of every state
    reachable from a state where it holds. *)
Lemma rtc_invariant {A} (R : relation A) (I : A -> Prop) x y :
  (forall a b, I a -> R a b -> I b) -> I x -> rtc R x y -> I y.
Proof. intros Hs Hx Hr. induction Hr; eauto. Qed.

#[export] Hint Resolve signed32_small signed32_range : proto.
