(* ===== verification/Bitset.v ===== *)
(** * std::bitset as the packet code uses it

    [Packet::createPacketString] writes each header field with
    [bitset<N>(v).to_string()]: N characters '0'/'1', most significant bit
    first, of the low N bits of [v].  [Packet::reversePacket] reads them
    back with [bitset<N>(str).to_ulong()], which reads the first
    [min(N, size)] characters and throws [std::invalid_argument] on a
    character other than '0' or '1'.  This file holds those two functions
    and their round trip. *)

From S2P Require Import Prelude.

Module Bitset.

(** [bitset<n>(v).to_string()] *)
Fixpoint to_string (n : nat) (v : Z) : list Z :=
  match n with
  | O => []
  | S k => (if Z.testbit v (Z.of_nat k) then CH1 else CH0) :: to_string k v
  end.

(** The digit loop of the [bitset(const string&)] constructor. *)
Fixpoint of_digits (acc : Z) (s : list Z) : res Z :=
  match s with
  | [] => Ok acc
  | c :: s' =>
      if c =? CH0 then of_digits (2 * acc) s'
      else if c =? CH1 then of_digits (2 * acc + 1) s'
      else Crash ExcInvalidArgument
  end.

(** [bitset<n>(str).to_ulong()] *)
Definition of_string (n : nat) (s : list Z) : res Z := of_digits 0 (take n s).

(** The characters a bitset prints. *)
Definition is_digit (c : Z) : bool := (c =? CH0) || (c =? CH1).

Lemma length_to_string n v : length (to_string n v) = n.
Proof. induction n; simpl; auto. Qed.

Lemma to_string_digits n v : Forall (fun c => is_digit c = true) (to_string n v).
Proof.
  induction n; simpl; constructor; auto.
  destruct (Z.testbit _ _); reflexivity.
Qed.

Lemma to_string_bytes n v : bytes_ok (to_string n v).
Proof.
  induction n; simpl; constructor; auto.
  destruct (Z.testbit _ _); unfold byte_ok, CH0, CH1; lia.
Qed.

(** Peeling the top bit off [v mod 2^(k+1)]. *)
Lemma mod_pow2_succ v k :
  0 <= k ->
  v mod 2 ^ (k + 1) = Z.b2z (Z.testbit v k) * 2 ^ k + v mod 2 ^ k.
Proof.
  intros Hk. rewrite Z.pow_add_r by lia. rewrite Z.rem_mul_r by lia.
  rewrite Z.testbit_spec', Z.pow_1_r by lia. ring.
Qed.

Lemma of_digits_to_string n v acc :
  of_digits acc (to_string n v) = Ok (acc * 2 ^ Z.of_nat n + v mod 2 ^ Z.of_nat n).
Proof.
  revert acc; induction n as [|k IH]; intros acc; cbn [to_string of_digits].
  - rewrite Z.mod_1_r. f_equal; lia.
  - rewrite Nat2Z.inj_succ, <- Z.add_1_r, mod_pow2_succ, Z.pow_add_r by lia.
    destruct (Z.testbit v (Z.of_nat k)); cbn [CH0 CH1 Z.eqb Pos.eqb Z.b2z];
      rewrite IH; f_equal; ring.
Qed.

(** Round trip: reading back what [to_string] printed gives the low
    [n] bits of the value. *)
Lemma of_string_to_string n v :
  of_string n (to_string n v) = Ok (v mod 2 ^ Z.of_nat n).
Proof.
  unfold of_string. rewrite take_ge by (rewrite length_to_string; lia).
  rewrite of_digits_to_string. f_equal; lia.
Qed.

Lemma take_to_string_app n v rest : take n (to_string n v ++ rest) = to_string n v.
Proof. apply take_app_length'. by rewrite length_to_string. Qed.

Lemma of_string_app n v rest :
  of_string n (to_string n v ++ rest) = Ok (v mod 2 ^ Z.of_nat n).
Proof.
  unfold of_string. rewrite take_app_length'; [|by rewrite length_to_string].
  rewrite <- (take_ge (to_string n v) n) at 1 by (rewrite length_to_string; lia).
  apply of_string_to_string.
Qed.

(** A character other than '0'/'1' among the digits read makes the
    constructor throw. *)
Lemma of_digits_bad acc s :
  Exists (fun c => is_digit c = false) s -> of_digits acc s = Crash ExcInvalidArgument.
Proof.
  revert acc; induction s as [|c s IH]; intros acc Hex; [inversion Hex|].
  unfold is_digit in *; simpl.
  inversion Hex as [? ? Hc|? ? Hs]; subst.
  - apply orb_false_iff in Hc as [-> ->]. reflexivity.
  - destruct (c =? CH0), (c =? CH1); auto.
Qed.

Lemma of_digits_ok acc s :
  Forall (fun c => is_digit c = true) s -> exists v, of_digits acc s = Ok v.
Proof.
  revert acc; induction s as [|c s IH]; intros acc Hs; simpl; [eauto|].
  inversion Hs as [|? ? Hc Hs']; subst. unfold is_digit in Hc.
  destruct (c =? CH0); [auto|]. destruct (c =? CH1); [auto|discriminate].
Qed.

End Bitset.

#[export] Hint Resolve Bitset.length_to_string Bitset.to_string_bytes : proto.
#[export] Hint Rewrite Bitset.of_string_app Bitset.of_string_to_string
  Bitset.length_to_string Bitset.take_to_string_app : proto_rw.
