(* ===== verification/Checksum.v ===== *)
(** * The packet checksum: [Packet::createChecksum] and [isValidChecksum]

    [src/Packet.cpp] lines 107-132 widen every payload [char] to a 16-bit
    word with [bitset<16>(data[i])] -- a [char] is signed on the targets
    the code is built for, so a byte >= 0x80 is sign-extended to
    [0xFF00 | b] -- then add the words into an [u_long] with an
    end-around carry and return the complement of the low 16 bits.

    Here: the loop as [fold_left add_word], its bounds, the reference
    form [65535 - ones_sum] (a one's-complement sum, i.e. a sum modulo
    0xFFFF with 0 kept apart), and what the checksum detects: any change of
    one byte except 0x00 <-> 0xFF, which it never detects when another
    byte is non-zero. *)

From S2P Require Import Prelude.

Module Checksum.

(** [bitset<16>(this->data[i]).to_ulong()] for a signed [char]. *)
Definition widen (c : Z) : Z := if c <? 128 then c else Z.lor 0xFF00 c.

(** One iteration of the [while (dataCSArrayLen--)] loop:
    [sum += *buffer++; if (sum & 0xFFFF0000) { sum &= 0xFFFF; sum++; }] *)
Definition add_word (sum w : Z) : Z :=
  let s := sum + w in
  if negb (Z.land s 0xFFFF0000 =? 0) then Z.land s 0xFFFF + 1 else s.

(** [Packet::createChecksum]: [return ~(sum & 0xFFFF)] as an [u_short]. *)
Definition createChecksum (data : list Z) : Z :=
  let sum := fold_left add_word (map widen data) 0 in
  Z.land (Z.lnot (Z.land sum 0xFFFF)) 0xFFFF.

(** [Packet::isValidChecksum]: the stored checksum against a new one. *)
Definition isValidChecksum (stored : Z) (data : list Z) : bool :=
  stored =? createChecksum data.

(** ** Reference definition *)

Definition zsum (l : list Z) : Z := fold_right Z.add 0 l.

(** The one's-complement sum of 16-bit words: 0 for an all-zero input,
    otherwise the sum modulo 0xFFFF taken in [1, 0xFFFF]. *)
Definition ones_sum_of (total : Z) : Z :=
  if total =? 0 then 0 else 1 + (total - 1) mod 65535.

Definition ones_sum (ws : list Z) : Z := ones_sum_of (zsum ws).

(** ** Lemmas on the bit operations of the loop *)

(** [0xFF00 | c] for a byte [c] is an addition: the bits are disjoint. *)
Lemma lor_FF00 c : byte_ok c -> Z.lor 0xFF00 c = 0xFF00 + c.
Proof.
  unfold byte_ok; intros Hc.
  assert (Z.land 0xFF00 c = 0) as H0.
  { rewrite <- (Z.mod_small c (2 ^ 8)) by (simpl; lia).
    rewrite <- Z.land_ones, (Z.land_comm c), Z.land_assoc by lia. reflexivity. }
  rewrite <- Z.lxor_lor, <- Z.add_nocarry_lxor by exact H0. reflexivity.
Qed.

Lemma widen_eq c : byte_ok c -> widen c = if c <? 128 then c else c + 65280.
Proof. intros Hc. unfold widen. case_zbool; [done|]. rewrite lor_FF00; [lia|done]. Qed.

Lemma widen_range c : byte_ok c -> 0 <= widen c <= 65535.
Proof. intros Hc. rewrite widen_eq by done. unfold byte_ok in Hc. case_zbool; lia. Qed.

Lemma land_FFFF s : Z.land s 0xFFFF = s mod 65536.
Proof. change 0xFFFF with (Z.ones 16). rewrite Z.land_ones by lia. reflexivity. Qed.

(** The carry test [sum & 0xFFFF0000] on the sums the loop can form. *)
Lemma carry_test s :
  0 <= s < 131072 -> (Z.land s 0xFFFF0000 =? 0) = (s <? 65536).
Proof.
  intros Hs. destruct (Z.ltb_spec s 65536) as [Hlt|Hge]; apply Z.eqb_eq || apply Z.eqb_neq.
  - rewrite <- (Z.mod_small s (2 ^ 16)) by (simpl; lia).
    rewrite <- Z.land_ones, <- Z.land_assoc by lia. apply Z.land_0_r.
  - intros E.
    assert (Z.testbit s 16 = true) as Hb.
    { apply Z.testbit_true; [lia|].
      replace (s / 2 ^ 16) with 1 by (simpl; zlia). reflexivity. }
    pose proof (f_equal (fun x => Z.testbit x 16) E) as Ht; cbv beta in Ht.
    rewrite Z.land_spec, Hb in Ht. discriminate.
Qed.

(** One loop iteration on 16-bit operands: add, and on a carry fold it
    back in (which subtracts 0xFFFF). *)
Lemma add_word_spec sum w :
  0 <= sum <= 65535 -> 0 <= w <= 65535 ->
  add_word sum w = if sum + w <? 65536 then sum + w else sum + w - 65535.
Proof.
  intros Hs Hw. unfold add_word. rewrite carry_test by lia.
  case_zbool; simpl; [reflexivity|]. rewrite land_FFFF. zlia.
Qed.

Lemma ones_sum_of_range S : 0 <= S -> 0 <= ones_sum_of S <= 65535.
Proof. unfold ones_sum_of. case_zbool; zlia. Qed.

(** The loop computes the one's-complement sum, one word at a time. *)
Lemma add_word_ones S w :
  0 <= S -> 0 <= w <= 65535 -> add_word (ones_sum_of S) w = ones_sum_of (S + w).
Proof.
  intros HS Hw. rewrite add_word_spec by (try apply ones_sum_of_range; lia).
  unfold ones_sum_of. case_zbool; zlia.
Qed.

Lemma fold_add_word ws S :
  0 <= S -> Forall (fun w => 0 <= w <= 65535) ws ->
  fold_left add_word ws (ones_sum_of S) = ones_sum_of (S + zsum ws).
Proof.
  revert S; induction ws as [|w ws IH]; intros S HS Hws; simpl; [f_equal; lia|].
  inversion Hws as [|? ? Hw Hws']; subst.
  rewrite add_word_ones, IH by (assumption || lia). f_equal; lia.
Qed.

Lemma widen_words l : bytes_ok l -> Forall (fun w => 0 <= w <= 65535) (map widen l).
Proof. intros Hl. apply Forall_map. eapply Forall_impl; [exact Hl|]. apply widen_range. Qed.

Lemma lnot_16 x : 0 <= x <= 65535 -> Z.land (Z.lnot x) 0xFFFF = 65535 - x.
Proof.
  intros Hx. rewrite land_FFFF, Z.lnot_eq_pred_opp. zlia.
Qed.

Lemma zsum_app l1 l2 : zsum (l1 ++ l2) = zsum l1 + zsum l2.
Proof. induction l1; simpl; [lia|]. unfold zsum in *; simpl; lia. Qed.

Lemma zsum_widen_nonneg l : bytes_ok l -> 0 <= zsum (map widen l).
Proof.
  induction l as [|c l IH]; intros Hl; [simpl; lia|].
  inversion Hl as [|? ? Hc Hl']; subst. pose proof (widen_range c Hc).
  specialize (IH Hl'). unfold zsum in *; simpl. lia.
Qed.

(** ** The loop against the reference *)

(** C27. [createChecksum] is the 16-bit complement of the one's-complement
    sum of the sign-extended bytes. *)
Theorem createChecksum_ref data :
  bytes_ok data -> createChecksum data = 65535 - ones_sum (map widen data).
Proof.
  intros Hd. unfold createChecksum, ones_sum.
  change 0 with (ones_sum_of 0) at 1.
  rewrite fold_add_word, Z.add_0_l by (lia || apply widen_words, Hd).
  pose proof (ones_sum_of_range (zsum (map widen data)) (zsum_widen_nonneg data Hd)).
  rewrite (land_FFFF (ones_sum_of _)), Z.mod_small by lia. apply lnot_16; lia.
Qed.

(** Witness of C27 on "A\xFF". *)
Example createChecksum_ref_witness :
  bytes_ok [65; 255] /\ createChecksum [65; 255] = 65535 - ones_sum (map widen [65; 255]).
Proof.
  assert (H : bytes_ok [65; 255]) by (repeat constructor; unfold byte_ok; lia).
  split; [exact H | apply (createChecksum_ref [65; 255] H)].
Defined.

Lemma createChecksum_range data : 0 <= createChecksum data <= 65535.
Proof.
  unfold createChecksum. rewrite land_FFFF. zlia.
Qed.

(** ** What the checksum detects *)

Lemma ones_sum_of_eq_mod S1 S2 :
  0 <= S1 -> 0 <= S2 -> ones_sum_of S1 = ones_sum_of S2 -> S1 mod 65535 = S2 mod 65535.
Proof. unfold ones_sum_of. case_zbool; intros; subst; zlia. Qed.

Lemma zsum_cons x l : zsum (x :: l) = x + zsum l.
Proof. reflexivity. Qed.

(** The checksum of a payload with one distinguished byte [b]. *)
Lemma createChecksum_split pre b post :
  bytes_ok pre -> bytes_ok post -> byte_ok b ->
  createChecksum (pre ++ b :: post) =
  65535 - ones_sum_of (zsum (map widen (pre ++ post)) + widen b).
Proof.
  intros Hpre Hpost Hb. rewrite createChecksum_ref.
  - unfold ones_sum. rewrite !map_app, !zsum_app. cbn [map]. rewrite zsum_cons.
    do 2 f_equal. lia.
  - apply Forall_app; split; [|constructor]; assumption.
Qed.

Lemma zsum_widen_pos l :
  bytes_ok l -> Exists (fun c => c <> 0) l -> 0 < zsum (map widen l).
Proof.
  intros Hl Hex. induction Hex as [c l Hc|c l Hex IH]; inversion Hl as [|? ? Hb Hl']; subst;
    cbn [map]; rewrite zsum_cons; pose proof (zsum_widen_nonneg l Hl');
    pose proof (widen_range c Hb).
  - rewrite widen_eq by exact Hb. unfold byte_ok in Hb. case_zbool; lia.
  - specialize (IH Hl'). lia.
Qed.

#[export] Hint Resolve widen_range createChecksum_range zsum_widen_nonneg : proto.

(** The checksum detects every change of one payload byte except a
    change between 0x00 and 0xFF: the two payloads then have different
    checksums. *)
Theorem createChecksum_detects_byte_change pre post b b' :
  bytes_ok pre -> bytes_ok post -> byte_ok b -> byte_ok b' -> b <> b' ->
  ~ ((b = 0 /\ b' = 255) \/ (b = 255 /\ b' = 0)) ->
  createChecksum (pre ++ b :: post) <> createChecksum (pre ++ b' :: post).
Proof.
  intros Hpre Hpost Hb Hb' Hne Hpair Heq.
  rewrite !createChecksum_split in Heq by assumption.
  pose proof (zsum_widen_nonneg (pre ++ post) ltac:(apply Forall_app; auto)) as HP.
  pose proof (widen_range b Hb). pose proof (widen_range b' Hb').
  apply Z.sub_cancel_l, ones_sum_of_eq_mod in Heq; [|lia..].
  rewrite !widen_eq in Heq by assumption. unfold byte_ok in *.
  destruct (Z.ltb_spec b 128), (Z.ltb_spec b' 128); zlia.
Qed.

(** C32. The blind spot: when some other byte of the payload is non-zero,
    turning a 0x00 byte into 0xFF (or back) leaves the checksum unchanged,
    because the sign-extended 0xFF is the word 0xFFFF, a zero of the
    one's-complement sum. *)
Theorem createChecksum_blind_00_FF pre post :
  bytes_ok pre -> bytes_ok post -> Exists (fun c => c <> 0) (pre ++ post) ->
  createChecksum (pre ++ 0 :: post) = createChecksum (pre ++ 255 :: post).
Proof.
  intros Hpre Hpost Hex.
  rewrite !createChecksum_split by (assumption || (unfold byte_ok; lia)).
  pose proof (zsum_widen_pos (pre ++ post) ltac:(apply Forall_app; auto) Hex).
  change (widen 0) with 0. change (widen 255) with 65535.
  unfold ones_sum_of. case_zbool; zlia.
Qed.

(** Witness of C32: [05 00] and [05 FF] have the same checksum. *)
Example createChecksum_blind_00_FF_witness :
  Exists (fun c => c <> 0) [5] /\
  createChecksum ([5] ++ 0 :: []) = createChecksum ([5] ++ 255 :: []).
Proof.
  assert (Hex : Exists (fun c => c <> 0) ([5] ++ [])) by (left; lia).
  split; [left; lia|].
  apply (createChecksum_blind_00_FF [5] []); [repeat constructor; unfold byte_ok; lia
                                              | constructor | exact Hex].
Defined.

(** Witness: changing [05 01] into [05 02] changes the checksum. *)
Example createChecksum_detects_byte_change_witness :
  createChecksum ([5] ++ 1 :: []) <> createChecksum ([5] ++ 2 :: []).
Proof.
  apply (createChecksum_detects_byte_change [5] [] 1 2);
    try (repeat constructor; unfold byte_ok; lia); lia.
Defined.

End Checksum.
