(* ===== verification/Handshake.v ===== *)
(** * The handshake payload: [sendInitialFilePacket] and [readInitialPacket]

    The sender's sequence-0 packet ([src/sender.cpp] lines 119-179) carries
    the transfer parameters as text: five zero-padded 16-digit decimal
    fields and a 3-character space-padded protocol tag, then the output
    file name and a NUL byte.  The receiver ([src/receiver.cpp] lines
    37-70) reads the payload as a C string and parses the fields with
    [stoi].

    Here: [std::to_string] on [int] (with its fuel of 10 digits, enough for
    every [int]), the padding [string(n, c) + s], [stoi], the C-string view
    of a [vector<char>], the payload builder and the parser, and their
    round trip.  A negative sequence range does not survive it. *)

From S2P Require Import Prelude.

Module Handshake.

(** ** Decimal text *)

Definition is_digit (c : Z) : bool := (48 <=? c) && (c <=? 57).

(** Digits of [v >= 0], least significant first; [fuel] bounds the count. *)
Fixpoint digits_rev (fuel : nat) (v : Z) : list Z :=
  match fuel with
  | O => []
  | S f => (48 + v mod 10) :: (if v <? 10 then [] else digits_rev f (v / 10))
  end.

(** [std::to_string(int)]: an optional '-' and at most 10 digits. *)
Definition to_string (v : Z) : list Z :=
  if v <? 0 then 45 :: rev (digits_rev 10 (- v)) else rev (digits_rev 10 v).

(** [string(w - s.length(), c).append(s)]: the count is a [size_t], so a
    string longer than [w] makes it huge and the constructor throws. *)
Definition pad_left (w : nat) (c : Z) (s : list Z) : res (list Z) :=
  if Nat.leb (length s) w then Ok (repeat c (w - length s) ++ s) else Crash ExcLengthError.

(** The value of a run of digits. *)
Fixpoint dec_value (acc : Z) (s : list Z) : Z :=
  match s with
  | [] => acc
  | c :: s' => dec_value (10 * acc + (c - 48)) s'
  end.

Fixpoint take_digits (s : list Z) : list Z :=
  match s with
  | c :: s' => if is_digit c then c :: take_digits s' else []
  | [] => []
  end.

Definition is_space (c : Z) : bool := (c =? 32) || ((9 <=? c) && (c <=? 13)).

Fixpoint skip_spaces (s : list Z) : list Z :=
  match s with
  | c :: s' => if is_space c then skip_spaces s' else s
  | [] => []
  end.

(** [std::stoi(s)]: leading white space, an optional sign, at least one
    digit ([invalid_argument] otherwise), a value within [int]
    ([out_of_range] otherwise); the rest of the string is ignored. *)
Definition stoi (s : list Z) : res Z :=
  let s1 := skip_spaces s in
  let '(neg, s2) :=
    match s1 with
    | c :: r => if c =? 45 then (true, r) else if c =? 43 then (false, r) else (false, s1)
    | [] => (false, [])
    end in
  match take_digits s2 with
  | [] => Crash ExcInvalidArgument
  | ds =>
      let v := if neg then - dec_value 0 ds else dec_value 0 ds in
      if (- 2 ^ 31 <=? v) && (v <? 2 ^ 31) then Ok v else Crash ExcOutOfRange
  end.

(** [string packetData = rawPacketData.data();]: the bytes up to the first
    NUL; without a NUL the read runs past the vector. *)
Fixpoint c_str (v : list Z) : res (list Z) :=
  match v with
  | [] => Crash ReadPastEnd
  | c :: v' => if c =? NUL then Ok [] else s <- c_str v' ;; Ok (c :: s)
  end.

(** ** The payload *)

(** [protocolType == "GBN"] *)
Definition GBN : list Z := [71; 66; 78].
Definition SR : list Z := [83; 82].

Definition list_eqb (a b : list Z) : bool := bool_decide (a = b).

(** The string [packetData] of [sendInitialFilePacket] followed by the
    pushed NUL byte ([packetDataChar]). *)
Definition initialPayload (outFileName : list Z) (fileSize numPackets packetSize
    slidingWindowSize : Z) (protocolType : list Z) (seqNumRange : Z) : res (list Z) :=
  padFileSize <- pad_left 16 48 (to_string fileSize) ;;
  padNumPackets <- pad_left 16 48 (to_string numPackets) ;;
  padPacketSize <- pad_left 16 48 (to_string packetSize) ;;
  let slidingWindowSizeStr :=
    if list_eqb protocolType GBN then [49] else to_string slidingWindowSize in
  padSlidingWindowSize <- pad_left 16 48 slidingWindowSizeStr ;;
  padProtocolType <- pad_left 3 32 protocolType ;;
  padSeqNumRange <- pad_left 16 48 (to_string seqNumRange) ;;
  Ok (padFileSize ++ padNumPackets ++ padPacketSize ++ padSlidingWindowSize ++
      padProtocolType ++ padSeqNumRange ++ outFileName ++ [NUL]).

(** The globals [readInitialPacket] sets. *)
Record Params := mkParams {
  fileSize : Z;
  numPackets : Z;
  packetSize : Z;
  slidingWindowSize : Z;
  protocol : list Z;
  seqNumRange : Z;
  outputFileName : list Z
}.

(** [readInitialPacket(rawPacketData)] *)
Definition readInitialPacket (raw : list Z) : res Params :=
  packetData <- c_str raw ;;
  f1 <- substr 0 16 packetData ;; fs <- stoi f1 ;;
  f2 <- substr 16 16 packetData ;; np <- stoi f2 ;;
  f3 <- substr 32 16 packetData ;; ps <- stoi f3 ;;
  f4 <- substr 48 16 packetData ;; ws <- stoi f4 ;;
  proto <- substr 64 3 packetData ;;
  f6 <- substr 67 16 packetData ;; sr <- stoi f6 ;;
  name <- substr 83 (length packetData) packetData ;;
  Ok (mkParams fs np ps ws proto sr name).

(** ** Lemmas on the decimal text *)

Lemma dec_value_app acc s1 s2 : dec_value acc (s1 ++ s2) = dec_value (dec_value acc s1) s2.
Proof. revert acc; induction s1; simpl; auto. Qed.

Lemma digits_rev_value k v acc :
  0 <= v < 10 ^ Z.of_nat k ->
  dec_value acc (rev (digits_rev k v)) = acc * 10 ^ Z.of_nat (length (digits_rev k v)) + v.
Proof.
  revert v acc; induction k as [|k IH]; intros v acc Hv.
  - simpl in *. lia.
  - cbn [digits_rev rev length]. rewrite dec_value_app. cbn [dec_value].
    destruct (Z.ltb_spec v 10) as [Hlt|Hge]; cbn [rev app length dec_value].
    + rewrite Z.mod_small by lia. simpl. lia.
    + rewrite IH by (rewrite Nat2Z.inj_succ, Z.pow_succ_r in Hv by lia; zlia).
      rewrite Nat2Z.inj_succ, Z.pow_succ_r by lia. zlia.
Qed.

Lemma digits_rev_digits k v : 0 <= v -> Forall (fun c => is_digit c = true) (digits_rev k v).
Proof.
  revert v; induction k as [|k IH]; intros v Hv; simpl; constructor.
  - unfold is_digit. apply andb_true_iff; split; apply Z.leb_le; zlia.
  - destruct (v <? 10); [constructor|apply IH; zlia].
Qed.

Lemma length_digits_rev k v : (length (digits_rev k v) <= k)%nat.
Proof.
  revert v; induction k as [|k IH]; intros v; simpl; [lia|].
  destruct (v <? 10); simpl; [lia|]. specialize (IH (v / 10)); lia.
Qed.

Lemma digits_rev_nonempty k v : (0 < k)%nat -> digits_rev k v <> [].
Proof. destruct k; simpl; [lia|discriminate]. Qed.

Lemma dec_value_zeros n s : dec_value 0 (repeat 48 n ++ s) = dec_value 0 s.
Proof. induction n; simpl; auto. Qed.

Lemma take_digits_all s : Forall (fun c => is_digit c = true) s -> take_digits s = s.
Proof. induction 1 as [|c s Hc _ IH]; simpl; [done|]. by rewrite Hc, IH. Qed.

(** A digit is neither white space nor a sign. *)
Lemma is_digit_facts c :
  is_digit c = true -> is_space c = false /\ (c =? 45) = false /\ (c =? 43) = false.
Proof.
  unfold is_digit, is_space. intros Hc. apply andb_true_iff in Hc as [Hc1 Hc2].
  apply Z.leb_le in Hc1, Hc2. split_and!.
  - apply orb_false_iff; split; [apply Z.eqb_neq; lia|].
    apply andb_false_iff; right; apply Z.leb_gt; lia.
  - apply Z.eqb_neq; lia.
  - apply Z.eqb_neq; lia.
Qed.

(** [stoi] on a non-empty run of digits. *)
Lemma stoi_digits s :
  s <> [] -> Forall (fun c => is_digit c = true) s -> 0 <= dec_value 0 s < 2 ^ 31 ->
  stoi s = Ok (dec_value 0 s).
Proof.
  intros Hne Hs Hv. destruct s as [|c s']; [done|].
  inversion Hs as [|? ? Hc _]; subst. destruct (is_digit_facts c Hc) as (E1 & E2 & E3).
  unfold stoi. cbn [skip_spaces]. rewrite E1, E2, E3, take_digits_all by exact Hs.
  replace ((- 2 ^ 31 <=? dec_value 0 (c :: s')) && (dec_value 0 (c :: s') <? 2 ^ 31)) with true
    by (symmetry; apply andb_true_iff; split; [apply Z.leb_le|apply Z.ltb_lt]; lia).
  reflexivity.
Qed.

Lemma to_string_nonneg v : 0 <= v -> to_string v = rev (digits_rev 10 v).
Proof. intros Hv. unfold to_string. destruct (Z.ltb_spec v 0); [lia|done]. Qed.

(** A non-negative [int] printed and zero-padded to 16 characters. *)
Lemma pad_to_string v :
  0 <= v < 2 ^ 31 ->
  exists p, pad_left 16 48 (to_string v) = Ok p /\ length p = 16%nat /\
            Forall (fun c => is_digit c = true) p /\ stoi p = Ok v.
Proof.
  intros Hv. rewrite to_string_nonneg by lia.
  pose proof (length_digits_rev 10 v) as Hlen.
  unfold pad_left. rewrite length_rev.
  destruct (Nat.leb_spec (length (digits_rev 10 v)) 16); [|lia].
  eexists; split; [reflexivity|]. split; [rewrite length_app, repeat_length, length_rev; lia|].
  assert (Hd : Forall (fun c => is_digit c = true) (repeat 48 (16 - length (digits_rev 10 v)) ++ rev (digits_rev 10 v))).
  { apply Forall_app; split; [apply Forall_forall; intros x Hx; apply list_elem_of_In, repeat_spec in Hx; subst; reflexivity|].
    apply Forall_rev, digits_rev_digits; lia. }
  split; [exact Hd|].
  assert (Hval : dec_value 0 (rev (digits_rev 10 v)) = v)
    by (rewrite digits_rev_value by (simpl; lia); lia).
  rewrite stoi_digits; [by rewrite dec_value_zeros, Hval | | exact Hd |].
  - intros Hnil. apply app_eq_nil in Hnil as [_ Hnil].
    apply (f_equal (@rev Z)) in Hnil. rewrite rev_involutive in Hnil.
    by apply (digits_rev_nonempty 10 v).
  - rewrite dec_value_zeros, Hval. lia.
Qed.

Lemma c_str_app s r : Forall (fun c => c <> NUL) s -> c_str (s ++ NUL :: r) = Ok s.
Proof.
  induction 1 as [|c s Hc _ IH]; simpl; [done|].
  replace (c =? NUL) with false by (symmetry; by apply Z.eqb_neq). by rewrite IH.
Qed.

(** [substr] of the field that follows a prefix of its offset's length. *)
Lemma substr_mid (A B C : list Z) n :
  length B = n -> substr (length A) n (A ++ B ++ C) = Ok B.
Proof.
  intros HB. rewrite substr_ok by (rewrite !length_app; lia).
  rewrite drop_app_length. f_equal. by apply take_app_length'.
Qed.

(** [readInitialPacket] on a payload made of six fields, the file name
    and the NUL byte: the fields are parsed in order. *)
Lemma readInitialPacket_fields P1 P2 P3 P4 P5 P6 name r :
  length P1 = 16%nat -> length P2 = 16%nat -> length P3 = 16%nat -> length P4 = 16%nat ->
  length P5 = 3%nat -> length P6 = 16%nat ->
  Forall (fun c => c <> NUL) (P1 ++ P2 ++ P3 ++ P4 ++ P5 ++ P6 ++ name) ->
  readInitialPacket (P1 ++ P2 ++ P3 ++ P4 ++ P5 ++ P6 ++ name ++ NUL :: r) =
  (fs <- stoi P1 ;; np <- stoi P2 ;; ps <- stoi P3 ;; ws <- stoi P4 ;; sr <- stoi P6 ;;
   Ok (mkParams fs np ps ws P5 sr name)).
Proof.
  intros H1 H2 H3 H4 H5 H6 Hnz. unfold readInitialPacket.
  set (pd := P1 ++ P2 ++ P3 ++ P4 ++ P5 ++ P6 ++ name) in *.
  assert (E0 : c_str (P1 ++ P2 ++ P3 ++ P4 ++ P5 ++ P6 ++ name ++ NUL :: r) = Ok pd).
  { replace (P1 ++ P2 ++ P3 ++ P4 ++ P5 ++ P6 ++ name ++ NUL :: r) with (pd ++ NUL :: r)
      by (subst pd; rewrite <- !app_assoc; reflexivity).
    by apply c_str_app. }
  assert (E1 : substr 0 16 pd = Ok P1) by (subst pd; exact (substr_mid [] P1 _ 16 H1)).
  assert (E2 : substr 16 16 pd = Ok P2).
  { subst pd. replace 16%nat with (length P1) at 1 by lia. by apply substr_mid. }
  assert (E3 : substr 32 16 pd = Ok P3).
  { subst pd. rewrite (app_assoc P1 P2).
    replace 32%nat with (length (P1 ++ P2)) by (rewrite length_app; lia). by apply substr_mid. }
  assert (E4 : substr 48 16 pd = Ok P4).
  { subst pd. rewrite (app_assoc P1 P2), (app_assoc (P1 ++ P2) P3).
    replace 48%nat with (length ((P1 ++ P2) ++ P3)) by (rewrite !length_app; lia).
    by apply substr_mid. }
  assert (E5 : substr 64 3 pd = Ok P5).
  { subst pd. rewrite (app_assoc P1 P2), (app_assoc (P1 ++ P2) P3), (app_assoc _ P4).
    replace 64%nat with (length (((P1 ++ P2) ++ P3) ++ P4)) by (rewrite !length_app; lia).
    by apply substr_mid. }
  assert (E6 : substr 67 16 pd = Ok P6).
  { subst pd. rewrite (app_assoc P1 P2), (app_assoc (P1 ++ P2) P3), (app_assoc _ P4),
      (app_assoc _ P5).
    replace 67%nat with (length ((((P1 ++ P2) ++ P3) ++ P4) ++ P5)) by (rewrite !length_app; lia).
    by apply substr_mid. }
  assert (E7 : substr 83 (length pd) pd = Ok name).
  { assert (Hpd : pd = ((((P1 ++ P2) ++ P3) ++ P4) ++ P5 ++ P6) ++ name)
      by (subst pd; rewrite !app_assoc; reflexivity).
    rewrite substr_ok by (rewrite Hpd, !length_app; lia).
    rewrite Hpd at 2. rewrite drop_app_length' by (rewrite !length_app; lia).
    rewrite take_ge; [done|]. rewrite Hpd, !length_app; lia. }
  rewrite E0; cbn [res_bind]. rewrite E1; cbn [res_bind].
  destruct (stoi P1) as [fs|]; cbn [res_bind]; [|done]. rewrite E2; cbn [res_bind].
  destruct (stoi P2) as [np|]; cbn [res_bind]; [|done]. rewrite E3; cbn [res_bind].
  destruct (stoi P3) as [ps|]; cbn [res_bind]; [|done]. rewrite E4; cbn [res_bind].
  destruct (stoi P4) as [ws|]; cbn [res_bind]; [|done]. rewrite E5, E6; cbn [res_bind].
  destruct (stoi P6) as [sr|]; cbn [res_bind]; [|done]. by rewrite E7.
Qed.

Lemma digits_not_nul p : Forall (fun c => is_digit c = true) p -> Forall (fun c => c <> NUL) p.
Proof.
  intros Hp. eapply Forall_impl; [exact Hp|]. unfold is_digit, NUL; intros c Hc.
  apply andb_true_iff in Hc as [Hc _]. apply Z.leb_le in Hc. lia.
Qed.

Lemma pad_protocol proto :
  (length proto <= 3)%nat -> Forall (fun c => c <> NUL) proto ->
  pad_left 3 32 proto = Ok (repeat 32 (3 - length proto) ++ proto) /\
  length (repeat 32 (3 - length proto) ++ proto) = 3%nat /\
  Forall (fun c => c <> NUL) (repeat 32 (3 - length proto) ++ proto).
Proof.
  intros Hl Hp. unfold pad_left. destruct (Nat.leb_spec (length proto) 3); [|lia].
  split; [done|]. split; [rewrite length_app, repeat_length; lia|].
  apply Forall_app; split; [|done]. apply Forall_forall. intros x Hx.
  apply list_elem_of_In, repeat_spec in Hx. subst. unfold NUL; lia.
Qed.

(** The payload [sendInitialFilePacket] builds parses back to its
    parameters. *)
Lemma initialPayload_read name fs np ps ws proto sr :
  0 <= fs < 2 ^ 31 -> 0 <= np < 2 ^ 31 -> 0 <= ps < 2 ^ 31 -> 0 <= ws < 2 ^ 31 ->
  0 <= sr < 2 ^ 31 -> (length proto <= 3)%nat ->
  Forall (fun c => c <> NUL) proto -> Forall (fun c => c <> NUL) name ->
  exists payload,
    initialPayload name fs np ps ws proto sr = Ok payload /\
    readInitialPacket payload =
      Ok (mkParams fs np ps (if list_eqb proto GBN then 1 else ws)
                   (repeat 32 (3 - length proto) ++ proto) sr name).
Proof.
  intros Hfs Hnp Hps Hws Hsr Hl Hproto Hname.
  destruct (pad_to_string fs Hfs) as (P1 & E1 & L1 & D1 & S1).
  destruct (pad_to_string np Hnp) as (P2 & E2 & L2 & D2 & S2).
  destruct (pad_to_string ps Hps) as (P3 & E3 & L3 & D3 & S3).
  destruct (pad_to_string sr Hsr) as (P6 & E6 & L6 & D6 & S6).
  assert (Hw : exists P4, pad_left 16 48 (if list_eqb proto GBN then [49] else to_string ws) = Ok P4
    /\ length P4 = 16%nat /\ Forall (fun c => is_digit c = true) P4
    /\ stoi P4 = Ok (if list_eqb proto GBN then 1 else ws)).
  { destruct (list_eqb proto GBN); [change [49] with (to_string 1)|];
      apply pad_to_string; lia. }
  destruct Hw as (P4 & E4 & L4 & D4 & S4).
  destruct (pad_protocol proto Hl Hproto) as (E5 & L5 & N5).
  unfold initialPayload. rewrite E1, E2, E3; cbn [res_bind]. rewrite E4, E5, E6; cbn [res_bind].
  eexists; split; [reflexivity|].
  rewrite readInitialPacket_fields; try assumption.
  - by rewrite S1, S2, S3, S4, S6.
  - apply Forall_app in N5 as [N5a N5b].
    repeat (apply Forall_app; split); try (apply digits_not_nul; assumption); assumption.
Qed.

(** C31. Handshake round trip: for non-negative [int] parameters, a
    protocol tag of at most 3 characters and a file name without NUL, the
    receiver's [readInitialPacket] reads back from the sender's payload
    the file size, packet count, packet size, sequence range and file
    name, the window size (1 under "GBN") and the space-padded tag. *)
Theorem handshake_roundtrip name fs np ps ws proto sr :
  0 <= fs < 2 ^ 31 -> 0 <= np < 2 ^ 31 -> 0 <= ps < 2 ^ 31 -> 0 <= ws < 2 ^ 31 ->
  0 <= sr < 2 ^ 31 -> (length proto <= 3)%nat ->
  Forall (fun c => c <> NUL) proto -> Forall (fun c => c <> NUL) name ->
  exists payload,
    initialPayload name fs np ps ws proto sr = Ok payload /\
    readInitialPacket payload =
      Ok (mkParams fs np ps (if list_eqb proto GBN then 1 else ws)
                   (repeat 32 (3 - length proto) ++ proto) sr name).
Proof. exact (initialPayload_read name fs np ps ws proto sr). Qed.

(** Witness of C31: file "f" of 1000 bytes, 11 packets of 100 bytes,
    window 4, Selective Repeat, no sequence range. *)
Example handshake_roundtrip_witness :
  exists payload,
    initialPayload [102] 1000 11 100 4 SR 0 = Ok payload /\
    readInitialPacket payload = Ok (mkParams 1000 11 100 4 [32; 83; 82] 0 [102]).
Proof.
  apply (handshake_roundtrip [102] 1000 11 100 4 SR 0); simpl; try lia;
    repeat constructor; unfold NUL; lia.
Defined.

Lemma pad_left_length w c s r : pad_left w c s = Ok r -> length r = w.
Proof.
  unfold pad_left. destruct (Nat.leb_spec (length s) w); intros E; [|discriminate].
  injection E as <-. rewrite length_app, repeat_length. lia.
Qed.

(** The handshake payload: six fixed fields (83 characters), the name
    and its NUL. *)
Lemma initialPayload_length name fs np ps ws proto sr payload :
  initialPayload name fs np ps ws proto sr = Ok payload -> length payload = (84 + length name)%nat.
Proof.
  unfold initialPayload.
  destruct (pad_left 16 48 (to_string fs)) as [a1|] eqn:E1; [cbn [res_bind]|discriminate].
  destruct (pad_left 16 48 (to_string np)) as [a2|] eqn:E2; [cbn [res_bind]|discriminate].
  destruct (pad_left 16 48 (to_string ps)) as [a3|] eqn:E3; [cbn [res_bind]|discriminate].
  destruct (pad_left 16 48 (if list_eqb proto GBN then [49] else to_string ws)) as [a4|] eqn:E4; [cbn [res_bind]|discriminate].
  destruct (pad_left 3 32 proto) as [a5|] eqn:E5; [cbn [res_bind]|discriminate].
  destruct (pad_left 16 48 (to_string sr)) as [a6|] eqn:E6; [cbn [res_bind]|discriminate].
  intros E. injection E as <-. rewrite !length_app.
  rewrite (pad_left_length _ _ _ _ E1), (pad_left_length _ _ _ _ E2), (pad_left_length _ _ _ _ E3),
    (pad_left_length _ _ _ _ E4), (pad_left_length _ _ _ _ E5), (pad_left_length _ _ _ _ E6).
  cbn [length]. lia.
Qed.

End Handshake.
