(* ===== verification/Codec.v ===== *)
(** * The packet codec: [src/Packet.h], [src/Packet.cpp]

    A [Packet] holds an unsigned 32-bit sequence number, a display range,
    an ack code (0 none, 1 OK, 2 FAIL), a stored checksum, the payload
    bytes and a timeout instant (milliseconds of the system clock).
    [createPacketString] prints the 50-character header -- 32, 2 and 16
    binary digits -- and appends the payload verbatim; with [forceNACK]
    the checksum field is printed as 0.  [reversePacket] parses it back,
    crashing on a header shorter than 50 characters or not made of
    binary digits.

    Theorems: the header and payload round trip, the checksum round trip
    (a packet printed without [forceNACK] decodes as valid), forced NACK
    against a payload whose checksum is 0 (it still decodes as valid),
    decoding of short input fails, and the sequence number at the width
    of its fields ([unsigned int] stored, [int] read back: negative from
    [2^31] on). *)

From S2P Require Import Prelude Bitset Checksum.

Module Codec.

Import Checksum.

(** [class Packet], without the methods. *)
Record Packet := mkPacket {
  seqNum : Z;            (** [unsigned int seqNum] *)
  seqNumRange : Z;       (** [int seqNumRange = 0] *)
  ack : Z;               (** [int ack = 0] *)
  checksum : Z;          (** [int checksum] *)
  data : list Z;         (** [vector<char> data] *)
  timeoutTimePoint : Z   (** [chrono::system_clock::time_point], in ms *)
}.

Definition ACK_OK : Z := 1.
Definition ACK_FAIL : Z := 2.

(** [Packet::Packet()]: [seqNumRange] and [ack] start at 0; the other
    scalar fields are left uninitialised by the code and start at 0 here. *)
Definition newPacket : Packet := mkPacket 0 0 0 0 [] 0.

(** [setSeqNum(int)] stores into an [unsigned int]. *)
Definition setSeqNum (n : Z) (p : Packet) : Packet :=
  mkPacket (n mod 2 ^ 32) p.(seqNumRange) p.(ack) p.(checksum) p.(data) p.(timeoutTimePoint).

(** [getSeqNum()] returns the field as an [int]. *)
Definition getSeqNum (p : Packet) : Z := signed32 p.(seqNum).

Definition setSeqNumRange (r : Z) (p : Packet) : Packet :=
  mkPacket p.(seqNum) r p.(ack) p.(checksum) p.(data) p.(timeoutTimePoint).

Definition setAck (a : Z) (p : Packet) : Packet :=
  mkPacket p.(seqNum) p.(seqNumRange) a p.(checksum) p.(data) p.(timeoutTimePoint).

Definition setChecksum (c : Z) (p : Packet) : Packet :=
  mkPacket p.(seqNum) p.(seqNumRange) p.(ack) c p.(data) p.(timeoutTimePoint).

Definition setData (d : list Z) (p : Packet) : Packet :=
  mkPacket p.(seqNum) p.(seqNumRange) p.(ack) p.(checksum) d p.(timeoutTimePoint).

(** [setTimeout(timeout)]: the deadline is [now() + timeout]. *)
Definition setTimeout (now timeout : Z) (p : Packet) : Packet :=
  mkPacket p.(seqNum) p.(seqNumRange) p.(ack) p.(checksum) p.(data) (now + timeout).

(** [hasTimedOut()]: [now() > timeoutTimePoint]. *)
Definition hasTimedOut (now : Z) (p : Packet) : bool := p.(timeoutTimePoint) <? now.

(** [showSeqNum()]: the sequence number modulo the range when there is
    one ([unsigned % int] is computed on unsigned values). *)
Definition showSeqNum (p : Packet) : Z :=
  if 0 <? p.(seqNumRange) then signed32 (p.(seqNum) mod (p.(seqNumRange) mod 2 ^ 32))
  else signed32 p.(seqNum).

(** [isValidChecksum()] *)
Definition isValid (p : Packet) : bool := isValidChecksum p.(checksum) p.(data).

(** [createPacketString(forceNACK)] *)
Definition createPacketString (p : Packet) (forceNACK : bool) : list Z :=
  Bitset.to_string 32 (getSeqNum p) ++
  Bitset.to_string 2 p.(ack) ++
  Bitset.to_string 16 (if forceNACK then 0 else createChecksum p.(data)) ++
  p.(data).

(** [reversePacket(inputData)]: the fields are read in the code's order;
    [inputData.begin() + 50] past the end is an undefined read. *)
Definition reversePacket (input : list Z) (p : Packet) : res Packet :=
  s <- substr 0 32 input ;;
  seq <- Bitset.of_string 32 s ;;
  a <- substr 32 2 input ;;
  ackNum <- Bitset.of_string 2 a ;;
  c <- substr 34 16 input ;;
  cs <- Bitset.of_string 16 c ;;
  if Nat.ltb (length input) 50 then Crash ReadPastEnd
  else Ok (setData (drop 50 input) (setChecksum cs (setAck ackNum (setSeqNum seq p)))).

(** ** Lemmas *)

Lemma length_header p f :
  length (createPacketString p f) = (50 + length p.(data))%nat.
Proof.
  unfold createPacketString. rewrite !length_app, !Bitset.length_to_string. lia.
Qed.

Lemma signed32_mod z : signed32 z mod 2 ^ 32 = z mod 2 ^ 32.
Proof.
  unfold signed32. pose proof (Z.mod_pos_bound z (2 ^ 32)).
  destruct (Z.ltb_spec (z mod 2 ^ 32) (2 ^ 31)).
  - apply Z.mod_mod; lia.
  - rewrite <- Zminus_mod_idemp_r, Z.mod_same, Z.sub_0_r by lia. apply Z.mod_mod; lia.
Qed.

(** Parsing the header that [createPacketString] printed. *)
Lemma reversePacket_createPacketString p f q :
  reversePacket (createPacketString p f) q =
  Ok (setData p.(data)
        (setChecksum ((if f then 0 else createChecksum p.(data)) mod 2 ^ 16)
           (setAck (p.(ack) mod 2 ^ 2) (setSeqNum (p.(seqNum) mod 2 ^ 32) q)))).
Proof.
  unfold reversePacket. pose proof (length_header p f) as Hl.
  rewrite !substr_ok by lia. unfold createPacketString in *.
  set (A := Bitset.to_string 32 _) in *. set (B := Bitset.to_string 2 _) in *.
  set (C := Bitset.to_string 16 _) in *.
  assert (length A = 32%nat) by apply Bitset.length_to_string.
  assert (length B = 2%nat) by apply Bitset.length_to_string.
  assert (length C = 16%nat) by apply Bitset.length_to_string.
  rewrite drop_0. subst A.
  rewrite Bitset.take_to_string_app; cbn [res_bind].
  rewrite Bitset.of_string_to_string; cbn [res_bind].
  rewrite drop_app_length' by done. subst B.
  rewrite Bitset.take_to_string_app; cbn [res_bind].
  rewrite Bitset.of_string_to_string; cbn [res_bind].
  rewrite app_assoc, drop_app_length' by (rewrite length_app; lia).
  subst C. rewrite Bitset.take_to_string_app; cbn [res_bind].
  rewrite Bitset.of_string_to_string; cbn [res_bind].
  match goal with |- context [Nat.ltb ?n 50] =>
    replace (Nat.ltb n 50) with false by (symmetry; apply Nat.ltb_ge; rewrite ?length_app in *; lia)
  end.
  rewrite !app_assoc, drop_app_length' by (rewrite !length_app; lia).
  unfold getSeqNum. rewrite signed32_mod. reflexivity.
Qed.

Lemma createChecksum_mod16 d : createChecksum d mod 2 ^ 16 = createChecksum d.
Proof. pose proof (createChecksum_range d). apply Z.mod_small. simpl; lia. Qed.

#[export] Hint Rewrite createChecksum_mod16 reversePacket_createPacketString : proto_rw.

(** C17. Checksum round trip: a packet printed without [forceNACK] is
    parsed back with its payload, and the receiver's [isValidChecksum]
    accepts it. *)
Theorem createPacketString_valid p q :
  exists p', reversePacket (createPacketString p false) q = Ok p' /\
             p'.(data) = p.(data) /\ isValid p' = true.
Proof.
  eexists; split; [apply reversePacket_createPacketString|]. split; [done|].
  unfold isValid, isValidChecksum; cbn. rewrite createChecksum_mod16. apply Z.eqb_refl.
Qed.

(** Header round trip: for a sequence number and an ack code within
    their field widths, parsing the printed packet gives back the
    sequence number, the ack code, the printed checksum (the true one, or
    0 under [forceNACK]) and the payload. *)
Theorem reversePacket_roundtrip p f q :
  0 <= p.(seqNum) < 2 ^ 32 -> 0 <= p.(ack) < 4 ->
  reversePacket (createPacketString p f) q =
  Ok (setData p.(data)
        (setChecksum (if f then 0 else createChecksum p.(data))
           (setAck p.(ack) (setSeqNum p.(seqNum) q)))).
Proof.
  intros Hs Ha. rewrite reversePacket_createPacketString.
  rewrite (Z.mod_small (seqNum p)), (Z.mod_small (ack p)) by (simpl; lia).
  destruct f; [done|]. by rewrite createChecksum_mod16.
Qed.

(** Witness: packet 7 with ack OK and payload "hi". *)
Example reversePacket_roundtrip_witness :
  (0 <= (mkPacket 7 0 1 0 [104; 105] 0).(seqNum) < 2 ^ 32 /\
   0 <= (mkPacket 7 0 1 0 [104; 105] 0).(ack) < 4) /\
  reversePacket (createPacketString (mkPacket 7 0 1 0 [104; 105] 0) false) newPacket =
  Ok (setData [104; 105] (setChecksum (createChecksum [104; 105])
        (setAck 1 (setSeqNum 7 newPacket)))).
Proof.
  split; [cbn; lia|].
  apply (reversePacket_roundtrip (mkPacket 7 0 1 0 [104; 105] 0) false newPacket); cbn; lia.
Defined.

(** C33. Forced NACK is decided by the true checksum: the packet printed
    with [forceNACK] decodes as valid exactly when the payload's checksum
    is 0 -- then the receiver accepts a packet meant to be rejected. *)
Theorem forceNACK_valid_iff p q :
  exists p', reversePacket (createPacketString p true) q = Ok p' /\
             isValid p' = (createChecksum p.(data) =? 0).
Proof.
  eexists; split; [apply reversePacket_createPacketString|].
  unfold isValid, isValidChecksum; cbn. apply Z.eqb_sym.
Qed.

(** A payload for which forced NACK does not work: the single byte 0xFF
    (sign-extended to the word 0xFFFF) has checksum 0. *)
Example forceNACK_ineffective_FF :
  createChecksum [255] = 0 /\
  exists p', reversePacket (createPacketString (setData [255] newPacket) true) newPacket = Ok p' /\
             isValid p' = true.
Proof.
  split; [reflexivity|]. destruct (forceNACK_valid_iff (setData [255] newPacket) newPacket)
    as (p' & Hp & Hv). exists p'. split; [exact Hp|]. rewrite Hv. reflexivity.
Qed.

(** Decoding fails on input shorter than the 50-character header:
    [reversePacket] throws or reads past the end, never returns a packet. *)
Theorem reversePacket_short s q :
  (length s < 50)%nat -> res_ok (reversePacket s q) = false.
Proof.
  intros Hs. unfold reversePacket. rewrite substr_ok by lia. cbn [res_bind].
  destruct (Bitset.of_string 32 _); [cbn [res_bind]|done].
  destruct (Nat.lt_ge_cases (length s) 32); [by rewrite substr_crash|].
  rewrite substr_ok by lia. cbn [res_bind].
  destruct (Bitset.of_string 2 _); [cbn [res_bind]|done].
  destruct (Nat.lt_ge_cases (length s) 34); [by rewrite substr_crash|].
  rewrite substr_ok by lia. cbn [res_bind].
  destruct (Bitset.of_string 16 _); [cbn [res_bind]|done].
  destruct (Nat.ltb_spec (length s) 50); [done|lia].
Qed.

(** Example: a 40-character all-'0' string. *)
Example reversePacket_short_witness :
  (length (repeat CH0 40) < 50)%nat /\ res_ok (reversePacket (repeat CH0 40) newPacket) = false.
Proof. split; [cbn; lia|]. apply reversePacket_short. cbn; lia. Defined.

(** Sequence numbers at the width of the fields: [setSeqNum(int)]
    stores into the [unsigned int] field and [getSeqNum()] reads it back
    as an [int], so every [int] comes back unchanged, while the unsigned
    values from [2^31] on (the sender's [unsigned int curSeqNum] after
    [2^31 - 1] packets) come back negative, [n - 2^32]. *)
Theorem getSeqNum_setSeqNum_wrap n p :
  (- 2 ^ 31 <= n < 2 ^ 31 -> getSeqNum (setSeqNum n p) = n) /\
  (2 ^ 31 <= n < 2 ^ 32 -> getSeqNum (setSeqNum n p) = n - 2 ^ 32).
Proof.
  unfold getSeqNum, setSeqNum, signed32. cbn [seqNum]. rewrite Z.mod_mod by lia.
  split; intros H.
  - destruct (Z.leb_spec 0 n).
    + rewrite Z.mod_small by lia. destruct (Z.ltb_spec n (2 ^ 31)); lia.
    + rewrite <- (Z.mod_unique n (2 ^ 32) (-1) (n + 2 ^ 32)) by lia.
      match goal with |- context [?a <? ?b] => destruct (Z.ltb_spec a b) end; lia.
  - rewrite Z.mod_small by lia. destruct (Z.ltb_spec n (2 ^ 31)); lia.
Qed.

(** Witness: packet number [2^31] is read back as [-2^31], and
    [-1] as [-1]. *)
Example getSeqNum_setSeqNum_wrap_witness :
  getSeqNum (setSeqNum (2 ^ 31) newPacket) = - 2 ^ 31 /\ getSeqNum (setSeqNum (-1) newPacket) = -1.
Proof.
  split; [apply (proj2 (getSeqNum_setSeqNum_wrap (2 ^ 31) newPacket)); lia|].
  apply (proj1 (getSeqNum_setSeqNum_wrap (-1) newPacket)); lia.
Defined.

End Codec.
