(* ===== verification/Socket.v ===== *)
(** * The byte stream between the two programs: [src/NetSockets.cpp]

    Both programs talk over one TCP connection, a byte stream in each
    direction.  [NetSocket::sendData(s)] sends the bytes of [s] and the
    terminating NUL ([length()+1] bytes from [data()]).
    [NetSocket::getFromSocket(packetSize)] reads: with [packetSize > 0] it
    loops on [recv] until [packetSize + 51] bytes have arrived; with
    [packetSize = 0] it makes one [recv] of at most 65535 bytes.  It
    returns what it read minus the last byte, or "" when [recv] returned 0
    (the peer closed the connection).

    Here the stream of one direction is a [list Z] of the bytes not yet
    read.  How many bytes each [recv] returns is up to the network: the
    model takes it from an oracle, a list of sizes ([k] means "at most
    [k + 1] bytes"), and when the oracle is used up, [recv] returns all it
    may.  An empty stream stands for a closed connection ([recv] returns
    0).

    Theorems: [getFromSocket] with [packetSize > 0] reads exactly
    [packetSize + 51] bytes whenever they are there, however [recv] splits
    them; so a message of exactly that size sent by [sendData] is read back
    whole ([getFromSocket_sendData]), a data packet of a full chunk and an
    ACK (one data byte) are framed exactly, and a shorter message takes
    bytes of the next one ([getFromSocket_short]).  The read loop
    terminates: its fuel, the stream length plus one, is never used up
    ([readLoop_fuel]). *)

From S2P Require Import Prelude.
Open Scope Z_scope.

Module Socket.

(** [NetSocket::sendData(dataToSend)]: the string and its NUL go to the
    end of the stream. *)
Definition sendData (stream dataToSend : list Z) : list Z := stream ++ dataToSend ++ [NUL].

(** How many bytes one [recv] into a buffer of [remainToRead] bytes takes. *)
Definition recvSize (remainToRead : Z) (sizes : list nat) : nat :=
  match sizes with
  | [] => Z.to_nat remainToRead
  | k :: _ => Nat.min (S k) (Z.to_nat remainToRead)
  end.

(** The [do ... while] loop of [getFromSocket] (lines 152-178): it returns
    the bytes read ([fullBufferData]), the stream left and the oracle left. *)
Fixpoint readLoop (fuel : nat) (packetSize buffPacketSize hasRead : Z)
    (fullBufferData stream : list Z) (sizes : list nat) : list Z * list Z * list nat :=
  match fuel with
  | O => (fullBufferData, stream, sizes)
  | S fuel' =>
      let remainToRead := buffPacketSize - hasRead in
      if remainToRead =? 0 then (fullBufferData, stream, sizes) else
      let n := recvSize remainToRead sizes in
      let recvBuffer := take n stream in
      let dataSize := Z.of_nat (length recvBuffer) in
      if dataSize =? 0 then (fullBufferData, stream, sizes) else
      let hasRead' := hasRead + dataSize in
      let full' := fullBufferData ++ recvBuffer in
      if negb (packetSize =? 0) && (hasRead' <? packetSize) then
        readLoop fuel' packetSize buffPacketSize hasRead' full' (drop n stream) (tail sizes)
      else (full', drop n stream, tail sizes)
  end.

(** [NetSocket::getFromSocket(packetSize)] (lines 139-185). *)
Definition getFromSocket (packetSize : Z) (stream : list Z) (sizes : list nat)
    : list Z * list Z * list nat :=
  let packetSize' := if 0 <? packetSize then packetSize + 51 else packetSize in
  let buffPacketSize := if 0 <? packetSize' then packetSize' else 65535 in
  let '(full, stream', sizes') :=
    readLoop (S (length stream)) packetSize' buffPacketSize 0 [] stream sizes in
  (take (length full - 1) full, stream', sizes').

(** ** Lemmas *)

Lemma recvSize_pos r sizes : 0 < r -> (0 < recvSize r sizes)%nat.
Proof. intros Hr. destruct sizes; cbn [recvSize]; lia. Qed.

Lemma recvSize_le r sizes : 0 <= r -> (recvSize r sizes <= Z.to_nat r)%nat.
Proof. intros Hr. destruct sizes; cbn [recvSize]; lia. Qed.

(** The loop reads nothing it was not given: each iteration takes at least
    one byte off the stream, so [length stream + 1] rounds are enough. *)
Lemma readLoop_fuel fuel ps buff h full stream sizes :
  (length stream < fuel)%nat ->
  readLoop (S fuel) ps buff h full stream sizes = readLoop fuel ps buff h full stream sizes.
Proof.
  revert ps buff h full stream sizes; induction fuel as [|f IH]; intros ps buff h full stream sizes Hf;
    [lia|].
  cbn [readLoop]. destruct (_ =? 0); [done|].
  set (n := recvSize _ _). rewrite length_take.
  destruct (Z.eqb_spec (Z.of_nat (Nat.min n (length stream))) 0) as [E|E]; [done|].
  destruct (_ && _); [|done].
  apply IH. rewrite length_drop. lia.
Qed.

Lemma readLoop_fuel_ge fuel ps buff h full stream sizes :
  (length stream < fuel)%nat ->
  readLoop fuel ps buff h full stream sizes = readLoop (S (length stream)) ps buff h full stream sizes.
Proof.
  induction fuel as [|f IH]; intros Hf; [lia|].
  destruct (Nat.eq_dec f (length stream)) as [->|]; [done|].
  rewrite readLoop_fuel by lia. apply IH. lia.
Qed.

(** The loop leaves a suffix of the stream. *)
Lemma readLoop_suffix fuel ps buff h full stream sizes :
  exists pre, stream = pre ++ (readLoop fuel ps buff h full stream sizes).1.2.
Proof.
  revert h full stream sizes; induction fuel as [|f IH]; intros h full stream sizes; cbn [readLoop].
  - by exists [].
  - destruct (_ =? 0); [by exists []|]. destruct (_ =? 0); [by exists []|].
    destruct (_ && _).
    + destruct (IH (h + Z.of_nat (length (take (recvSize (buff - h) sizes) stream)))
                  (full ++ take (recvSize (buff - h) sizes) stream)
                  (drop (recvSize (buff - h) sizes) stream) (tail sizes)) as [pre E].
      exists (take (recvSize (buff - h) sizes) stream ++ pre). by rewrite <- app_assoc, <- E, take_drop.
    + exists (take (recvSize (buff - h) sizes) stream). cbn. by rewrite take_drop.
Qed.

(** While [remain] bytes are still to come and the stream holds them,
    the loop returns exactly them, however [recv] splits them. *)
Lemma readLoop_exact fuel P h full S rest sizes :
  0 < P -> h + Z.of_nat (length S) = P -> S <> [] -> (length S < fuel)%nat ->
  exists sizes', readLoop fuel P P h full (S ++ rest) sizes = (full ++ S, rest, sizes').
Proof.
  revert h full S sizes; induction fuel as [|f IH]; intros h full S sizes HP Hh HS Hf; [lia|].
  assert (HL : (0 < length S)%nat) by (destruct S; cbn; [done|lia]).
  cbn [readLoop].
  replace (P - h =? 0) with false by (symmetry; apply Z.eqb_neq; lia).
  pose proof (recvSize_pos (P - h) sizes ltac:(lia)) as Hn1.
  pose proof (recvSize_le (P - h) sizes ltac:(lia)) as Hn2.
  set (n := recvSize (P - h) sizes) in *.
  rewrite take_app_le by lia. rewrite drop_app_le by lia. rewrite length_take.
  replace (Z.of_nat (Nat.min n (length S)) =? 0) with false by (symmetry; apply Z.eqb_neq; lia).
  replace (Nat.min n (length S)) with n by lia.
  replace (negb (P =? 0)) with true by (symmetry; apply negb_true_iff, Z.eqb_neq; lia).
  cbn [andb]. destruct (Z.ltb_spec (h + Z.of_nat n) P).
  - destruct (IH (h + Z.of_nat n) (full ++ take n S) (drop n S) (tail sizes)) as [s' E];
      [lia|rewrite length_drop; lia| |rewrite length_drop; lia|].
    + intros Hd. apply (f_equal length) in Hd. rewrite length_drop in Hd. cbn in Hd. lia.
    + exists s'. rewrite E, <- app_assoc, take_drop. done.
  - exists (tail sizes). rewrite take_ge, drop_ge by lia. done.
Qed.

(** ** Framing *)

(** With [packetSize > 0], [getFromSocket] consumes exactly
    [packetSize + 51] bytes when the stream holds that many, whatever sizes
    [recv] returns, and yields the first [packetSize + 50] of them. *)
Lemma getFromSocket_exact P stream sizes :
  0 < P -> (Z.to_nat P + 51 <= length stream)%nat ->
  exists sizes', getFromSocket P stream sizes =
    (take (Z.to_nat P + 50) stream, drop (Z.to_nat P + 51) stream, sizes').
Proof.
  intros HP Hl. unfold getFromSocket.
  replace (0 <? P) with true by (symmetry; apply Z.ltb_lt; lia).
  replace (0 <? P + 51) with true by (symmetry; apply Z.ltb_lt; lia).
  destruct (readLoop_exact (S (length stream)) (P + 51) 0 [] (take (Z.to_nat P + 51) stream)
              (drop (Z.to_nat P + 51) stream) sizes) as [s' E].
  - lia.
  - rewrite length_take. lia.
  - intros Ht. apply (f_equal length) in Ht. rewrite length_take in Ht. cbn in Ht. lia.
  - rewrite length_take. lia.
  - rewrite take_drop in E. rewrite E. exists s'. cbn [app].
    rewrite length_take, take_take. do 3 f_equal. lia.
Qed.

(** With [packetSize = 0] (the receiver before the handshake, the sender
    waiting for its handshake ACK or a PING), [getFromSocket] makes one
    [recv] of at most 65535 bytes. *)
Lemma getFromSocket_zero stream sizes :
  stream <> [] ->
  let n := recvSize 65535 sizes in
  getFromSocket 0 stream sizes = (take (Nat.min n (length stream) - 1) stream, drop n stream, tail sizes).
Proof.
  intros Hs n. unfold getFromSocket. cbn -[recvSize take drop]. rewrite Z.sub_0_r.
  fold n. rewrite length_take.
  assert (Hn : (0 < n)%nat) by (apply recvSize_pos; lia).
  assert (Hl : (0 < length stream)%nat) by (destruct stream; cbn; [done|lia]).
  replace (Z.of_nat (Nat.min n (length stream)) =? 0) with false by (symmetry; apply Z.eqb_neq; lia).
  cbn -[take drop]. rewrite length_take, take_take. do 3 f_equal. lia.
Qed.

(** A message of less than 65535 bytes alone in the stream is read
    whole by [getFromSocket(0)] when [recv] returns all it may. *)
Lemma getFromSocket_zero_whole m :
  Z.of_nat (length m) < 65535 -> getFromSocket 0 (sendData [] m) [] = (m, [], []).
Proof.
  intros Hm. unfold sendData. cbn [app].
  rewrite getFromSocket_zero by (destruct m; discriminate).
  cbn [recvSize tail]. rewrite length_app. cbn [length].
  replace (Nat.min (Z.to_nat 65535) (length m + 1) - 1)%nat with (length m) by lia.
  rewrite take_app_length, drop_ge by (rewrite length_app; cbn; lia). done.
Qed.

(** C18. Framing round trip: a string of [packetSize + 50] characters
    (a data packet with a full chunk, or an ACK with its one data byte when
    [packetSize = 1]) sent by [sendData] is read back whole by
    [getFromSocket(packetSize)], however the network splits the bytes, and
    the bytes after it are left for the next read. *)
Theorem getFromSocket_sendData P msg rest sizes :
  0 < P -> length msg = (Z.to_nat P + 50)%nat ->
  exists sizes', getFromSocket P (sendData [] msg ++ rest) sizes = (msg, rest, sizes').
Proof.
  intros HP Hm. unfold sendData. cbn [app]. rewrite <- app_assoc. cbn [app].
  destruct (getFromSocket_exact P (msg ++ NUL :: rest) sizes) as [s' E];
    [done|rewrite length_app; cbn; lia|].
  exists s'. rewrite E, <- Hm, take_app_length. f_equal. f_equal.
  rewrite drop_app, drop_ge by lia.
  by replace (Z.to_nat P + 51 - length msg)%nat with 1%nat by lia.
Qed.

(** Witness of C18: a 51-character ACK read with [getFromSocket(1)]. *)
Lemma getFromSocket_sendData_witness :
  exists sizes', getFromSocket 1 (sendData [] (repeat 48 51) ++ [7]) [3; 0]%nat = (repeat 48 51, [7], sizes').
Proof. apply getFromSocket_sendData; [lia|reflexivity]. Defined.

(** Misframing: a message shorter than [packetSize + 50] characters
    (the last, short data packet when the receiver still reads full
    packets) is read together with the first bytes of the next message,
    which the next read then misses. *)
Theorem getFromSocket_short P msg rest sizes :
  0 < P -> (length msg < Z.to_nat P + 50)%nat ->
  (Z.to_nat P + 51 <= length msg + 1 + length rest)%nat ->
  let k := (Z.to_nat P + 50 - length msg - 1)%nat in
  exists sizes', getFromSocket P (sendData [] msg ++ rest) sizes =
    (msg ++ NUL :: take k rest, drop (S k) rest, sizes').
Proof.
  intros HP Hm Hr k. unfold sendData. cbn [app]. rewrite <- app_assoc. cbn [app].
  destruct (getFromSocket_exact P (msg ++ NUL :: rest) sizes) as [s' E];
    [done|rewrite length_app; cbn; lia|].
  exists s'. rewrite E, take_app, drop_app, take_ge, drop_ge by lia.
  replace (Z.to_nat P + 50 - length msg)%nat with (S k) by lia.
  replace (Z.to_nat P + 51 - length msg)%nat with (S (S k)) by lia. done.
Qed.

(** A short message read with the full packet size. *)
Lemma getFromSocket_short_witness :
  exists sizes', getFromSocket 1 (sendData [] (repeat 48 50) ++ [7; 8; 9]) [] =
    (repeat 48 50 ++ [NUL], [8; 9], sizes').
Proof.
  exact (getFromSocket_short 1 (repeat 48 50) [7; 8; 9] [] ltac:(lia) ltac:(cbn; lia) ltac:(cbn; lia)).
Defined.

(** A handshake read with [packetSize = 0] is whole only when one
    [recv] returns all of it: when the network delivers just its first [k]
    bytes, [getFromSocket(0)] returns a fragment and leaves the rest of
    the message in the stream. *)
Theorem getFromSocket_zero_fragment msg rest k sizes :
  (k < length msg)%nat -> Z.of_nat k < 65535 ->
  getFromSocket 0 (sendData [] msg ++ rest) (k :: sizes) =
    (take k msg, drop (S k) msg ++ NUL :: rest, sizes).
Proof.
  intros Hk Hk'. unfold sendData. cbn [app]. rewrite <- app_assoc. cbn [app].
  rewrite getFromSocket_zero by (destruct msg; cbn in *; [lia|done]). cbn [recvSize tail].
  rewrite length_app. cbn [length].
  replace (Nat.min (Nat.min (S k) (Z.to_nat 65535)) (length msg + S (length rest)) - 1)%nat
    with k by lia.
  replace (Nat.min (S k) (Z.to_nat 65535)) with (S k) by lia.
  by rewrite take_app_le, drop_app_le by lia.
Qed.

(** Witness. *)
Lemma getFromSocket_zero_fragment_witness :
  getFromSocket 0 (sendData [] [1; 2; 3; 4] ++ [9]) [2%nat] = ([1; 2], [4; NUL; 9], []).
Proof. exact (getFromSocket_zero_fragment [1; 2; 3; 4] [9] 2 [] ltac:(cbn; lia) ltac:(lia)). Defined.



End Socket.
