(* ===== verification/Transfer.v ===== *)
(** * The sender's [main]: set-up and file chunking ([src/sender.cpp])

    Before the window protocol runs, [main] validates the operator's
    answers (the protocol must be "GBN" or "SR", the window and the RTT
    factor are raised to at least 1), computes the number of packets
    ([numPackets = fileSize / packetSize + 1], one more when
    [fileSize % packetSize > 0]; the 1 is the handshake packet), measures a
    timeout when none was given ([calculateDynamicTimeout]: three PING
    round trips), sends the handshake ([sendInitialFilePacket]) and waits
    for any reply, and then reads the file chunk by chunk (the loop of
    lines 665-702), handing each chunk to [processChunkData].

    Here: those computations as functions; the file as a byte list and a
    read that fails when fewer bytes are left than asked; the round-trip
    times as the durations the clock measured.  Theorems: the chunks read
    are the file cut in [packetSize] pieces, their number is
    [numPackets - 1] (the chunk loop terminates after that many reads), an
    empty file makes the read fail, a zero packet size divides by zero,
    the dynamic timeout is [max 1 (sum / 3)], and the statistics printed
    at the end divide by zero for a transfer measured as 0 ms. *)

From S2P Require Import Prelude Checksum Handshake Codec.
Open Scope Z_scope.

Module Transfer.

Import Codec.

(** [main], lines 561-566: any other protocol ends the program. *)
Definition validProtocol (protocolType : list Z) : bool :=
  Handshake.list_eqb protocolType Handshake.GBN || Handshake.list_eqb protocolType Handshake.SR.

(** [main], lines 574-578 and 584-589: at least 1. *)
Definition atLeastOne (v : Z) : Z := if v <? 1 then 1 else v.

(** [main], lines 620-626: [numPackets] (with the handshake packet) and
    [finalChunkSize]. *)
Definition packetCounts (fileSize packetSize : Z) : res (Z * Z) :=
  q <- c_div fileSize packetSize ;;
  finalChunkSize <- c_rem fileSize packetSize ;;
  let numPackets := q + 1 in
  Ok (if 0 <? finalChunkSize then numPackets + 1 else numPackets, finalChunkSize).

(** The chunk loop of [main] (lines 665-702): [curChunkNum] starts at 1
    and is incremented before each read; the read of the last packet
    takes [finalChunkSize] bytes when that is positive; a read of more
    bytes than are left fails ("Read Failed", the program returns 1,
    here [None]); the loop stops after the read of packet [numPackets].
    [inFile.eof()] only becomes true through a failed read.  The fuel
    bounds the number of reads. *)
Fixpoint chunkLoop (fuel : nat) (packetSize numPackets finalChunkSize curChunkNum : Z)
    (file : list Z) : option (list (list Z)) :=
  match fuel with
  | O => None
  | S fuel' =>
      let cur := curChunkNum + 1 in
      let amountToRead :=
        if (cur =? numPackets) && (0 <? finalChunkSize) then finalChunkSize else packetSize in
      if Z.of_nat (length file) <? amountToRead then None
      else
        let chunk := take (Z.to_nat amountToRead) file in
        if cur =? numPackets then Some [chunk]
        else option_map (cons chunk)
               (chunkLoop fuel' packetSize numPackets finalChunkSize cur (drop (Z.to_nat amountToRead) file))
  end.

(** The chunks [main] reads from a file of [length file] bytes.  One
    read per remaining packet, and at least one read, suffice: fuel
    [numPackets]. *)
Definition readChunks (file : list Z) (packetSize : Z) : res (option (list (list Z))) :=
  counts <- packetCounts (Z.of_nat (length file)) packetSize ;;
  let '(numPackets, finalChunkSize) := counts in
  Ok (chunkLoop (Z.to_nat numPackets) packetSize numPackets finalChunkSize 1 file).

(** One round trip of [calculateDynamicTimeout] (lines 432-437): a
    round trip measured as 0 ms counts as 1 ms. *)
Definition rttContribution (timeoutMulti rttMS : Z) : Z :=
  if rttMS =? 0 then timeoutMulti else rttMS * timeoutMulti.

(** [calculateDynamicTimeout] (lines 399-444) on the three measured
    round-trip times: [max(1, totalTimeMS / 3)]. *)
Definition calculateDynamicTimeout (timeoutMulti : Z) (rttMS : list Z) : Z :=
  let totalTimeMS := fold_left (fun total r => total + rttContribution timeoutMulti r) rttMS 0 in
  Z.max 1 (Z.quot totalTimeMS 3).

(** ["PING"], sent by [calculateDynamicTimeout] and echoed by the
    receiver. *)
Definition PING : list Z := [80; 73; 78; 71].

(** The wait loop of [calculateDynamicTimeout] (lines 418-427): reads
    until a string starting with "PING"; the strings after it are left.
    [None]: the strings run out first, the sender waits for ever. *)
Fixpoint awaitPing (reads : list (list Z)) : option (list (list Z)) :=
  match reads with
  | [] => None
  | s :: rest => if Handshake.list_eqb (take 4 s) PING then Some rest else awaitPing rest
  end.

(** The packet of [sendInitialFilePacket] (lines 152-158): number 0, the
    handshake payload as data. *)
Definition initialPacketString (outFileName : list Z) (fileSize numPackets packetSize
    slidingWindowSize : Z) (protocolType : list Z) (seqNumRange : Z) : res (list Z) :=
  payload <- Handshake.initialPayload outFileName fileSize numPackets packetSize
               slidingWindowSize protocolType seqNumRange ;;
  Ok (createPacketString (setData payload (setSeqNum 0 newPacket)) false).

(** The wait loop of [sendInitialFilePacket] (lines 164-178): the first
    non-empty string is decoded, whatever its number and ack code, and
    ends the wait; a string [reversePacket] rejects throws. *)
Fixpoint awaitInitialAck (reads : list (list Z)) : option (res (list (list Z))) :=
  match reads with
  | [] => None
  | s :: rest =>
      if Nat.eqb (length s) 0 then awaitInitialAck rest
      else Some (_ <- reversePacket s newPacket ;; Ok rest)
  end.

(** The statistics at the end of [main] (lines 709-716): the elapsed
    time in whole milliseconds ([timeNumMS.count()], a [long long]), the
    whole minutes, and the throughput numerator
    [(fileSize / timeNumMS.count()) * 1000], an integer division. *)
Definition transferStats (fileSize elapsedMS : Z) : res (Z * Z) :=
  let timeNumMin := Z.quot elapsedMS 60000 in
  q <- c_div fileSize elapsedMS ;;
  Ok (timeNumMin, q * 1000).

(** ** Lemmas *)

(** The size of the last chunk. *)
Definition lastChunkSize (packetSize finalChunkSize : Z) : Z :=
  if 0 <? finalChunkSize then finalChunkSize else packetSize.

(** With [m] packets left to read and the bytes for them, the loop reads
    [m] chunks: full ones, then one of [lastChunkSize] bytes, which make up
    the rest of the file. *)
Lemma chunkLoop_spec fuel ps N r cur f m :
  0 < ps -> r < ps -> (m <= fuel)%nat -> (1 <= m)%nat -> N = cur + Z.of_nat m ->
  Z.of_nat (length f) = (Z.of_nat m - 1) * ps + lastChunkSize ps r ->
  exists full lastc, chunkLoop fuel ps N r cur f = Some (full ++ [lastc]) /\
    length full = (m - 1)%nat /\ concat (full ++ [lastc]) = f /\
    Forall (fun c => Z.of_nat (length c) = ps) full /\
    Z.of_nat (length lastc) = lastChunkSize ps r.
Proof.
  unfold lastChunkSize. intros Hps Hr.
  revert fuel cur f; induction m as [|m IH]; intros fuel cur f Hf Hm HN Hl; [lia|].
  destruct fuel as [|fuel]; [lia|]. cbn [chunkLoop].
  destruct (Z.eqb_spec (cur + 1) N) as [HE|HE]; cbn [andb].
  - (* the last read *)
    assert (m = 0%nat) as -> by lia.
    replace (if 0 <? r then r else ps) with (Z.of_nat (length f)) by (destruct (Z.ltb_spec 0 r); lia).
    rewrite Z.ltb_irrefl, Nat2Z.id, take_ge by lia.
    exists [], f. cbn. rewrite app_nil_r. split_and!; [done|done|done|constructor|lia].
  - (* a full chunk *)
    replace (Z.of_nat (length f) <? ps) with false by (symmetry; apply Z.ltb_ge; destruct (Z.ltb_spec 0 r); nia).
    destruct (IH fuel (cur + 1) (drop (Z.to_nat ps) f)) as (full & lastc & E & H1 & H2 & H3 & H4);
      [lia|lia|lia|rewrite length_drop; destruct (Z.ltb_spec 0 r); nia|].
    rewrite E. cbn [option_map].
    exists (take (Z.to_nat ps) f :: full), lastc. split_and!; [done|cbn; lia| | |done].
    + cbn [app concat]. rewrite H2. apply take_drop.
    + constructor; [|done]. rewrite length_take. destruct (Z.ltb_spec 0 r); nia.
Qed.

Lemma packetCounts_pos L ps :
  0 <= L -> 0 < ps ->
  packetCounts L ps = Ok (if 0 <? L mod ps then L / ps + 1 + 1 else L / ps + 1, L mod ps).
Proof.
  intros HL Hps. unfold packetCounts, c_div, c_rem.
  replace (ps =? 0) with false by (symmetry; apply Z.eqb_neq; lia). cbn [res_bind].
  rewrite Z.quot_div_nonneg, Z.rem_mod_nonneg by lia.
  done.
Qed.

Lemma fold_rttContribution m l a :
  Forall (fun r => 0 <= r) l ->
  fold_left (fun total r => total + rttContribution m r) l a =
  a + m * fold_right Z.add 0 (map (Z.max 1) l).
Proof.
  intros Hl. revert a; induction Hl as [|r l Hr _ IH]; intros a; cbn [fold_left fold_right map]; [lia|].
  rewrite IH. unfold rttContribution. destruct (Z.eqb_spec r 0); [rewrite e, Z.max_l by lia; ring|].
  rewrite Z.max_r by lia. ring.
Qed.

(** A file of whole packets: [numPackets] is one more than the number of
    chunks, and the chunks, all of [packetSize] bytes, make up the file. *)
Lemma readChunks_whole file ps :
  0 < ps -> file <> [] -> Z.of_nat (length file) mod ps = 0 ->
  exists cs, packetCounts (Z.of_nat (length file)) ps = Ok (Z.of_nat (length cs) + 1, 0) /\
    readChunks file ps = Ok (Some cs) /\ concat cs = file /\
    Forall (fun c => length c = Z.to_nat ps) cs /\ Z.of_nat (length cs) = Z.of_nat (length file) / ps.
Proof.
  intros Hps Hf Hr. set (L := Z.of_nat (length file)) in *.
  assert (HL : 0 < L) by (subst L; destruct file; cbn; [done|lia]).
  pose proof (Z.div_mod L ps ltac:(lia)) as Hd. set (q := L / ps) in *.
  assert (Hq : 1 <= q) by nia.
  destruct (chunkLoop_spec (Z.to_nat (q + 1)) ps (q + 1) 0 1 file (Z.to_nat q))
    as (full & lastc & E & H1 & H2 & H3 & H4); unfold lastChunkSize in *; cbn [Z.ltb Z.compare] in *; try lia.
  exists (full ++ [lastc]).
  rewrite length_app, H1. cbn [length].
  replace (Z.of_nat (Z.to_nat q - 1 + 1)) with q by lia.
  unfold readChunks. fold L. rewrite packetCounts_pos by lia. rewrite Hr. cbn [res_bind Z.ltb Z.compare].
  fold q. rewrite E. split_and!; try done.
  apply Forall_app. split; [|constructor; [by rewrite <- H4, Nat2Z.id|done]].
  eapply Forall_impl; [exact H3|]. intros c Hc. by rewrite <- Hc, Nat2Z.id.
Qed.

(** ** Properties of the set-up *)

(** C30. Chunking: for a non-empty file and a positive packet size, the
    chunk loop terminates after [numPackets - 1] reads, and the chunks it
    hands to [processChunkData] are the file cut into pieces of
    [packetSize] bytes, the last one holding the rest (1 to [packetSize]
    bytes). *)
Theorem readChunks_file file ps :
  0 < ps -> file <> [] ->
  exists N r full lastc,
    packetCounts (Z.of_nat (length file)) ps = Ok (N, r) /\
    readChunks file ps = Ok (Some (full ++ [lastc])) /\
    length (full ++ [lastc]) = Z.to_nat (N - 1) /\
    concat (full ++ [lastc]) = file /\
    Forall (fun c => Z.of_nat (length c) = ps) full /\
    0 < Z.of_nat (length lastc) <= ps.
Proof.
  intros Hps Hf. set (L := Z.of_nat (length file)).
  assert (HL : 0 < L) by (subst L; destruct file; cbn; [done|lia]).
  pose proof (Z.mod_pos_bound L ps Hps) as Hr. pose proof (Z.div_mod L ps ltac:(lia)) as Hd.
  pose proof (Z.div_pos L ps ltac:(lia) Hps) as Hq.
  set (r := L mod ps) in *. set (q := L / ps) in *.
  set (N := if 0 <? r then q + 1 + 1 else q + 1).
  assert (Hq1 : r = 0 -> 1 <= q) by nia.
  destruct (chunkLoop_spec (Z.to_nat N) ps N r 1 file (Z.to_nat (N - 1)))
    as (full & lastc & E & H1 & H2 & H3 & H4);
    unfold lastChunkSize, N in *; try (destruct (Z.ltb_spec 0 r); lia).
  exists N, r, full, lastc. unfold readChunks. fold L. rewrite packetCounts_pos by lia.
  cbn [res_bind]. fold r q. unfold N. rewrite E.
  split_and!; try done; rewrite ?length_app; cbn [length]; unfold lastChunkSize in H4;
    destruct (Z.ltb_spec 0 r); lia.
Qed.

(** Witness of C30. *)
Lemma readChunks_file_witness :
  exists N r full lastc,
    packetCounts 10 4 = Ok (N, r) /\
    readChunks (seqZ 1 10) 4 = Ok (Some (full ++ [lastc])) /\
    length (full ++ [lastc]) = Z.to_nat (N - 1) /\
    concat (full ++ [lastc]) = seqZ 1 10 /\
    Forall (fun c => Z.of_nat (length c) = 4) full /\
    0 < Z.of_nat (length lastc) <= 4.
Proof. apply (readChunks_file (seqZ 1 10) 4); [lia|discriminate]. Defined.

(** Set-up errors: a packet size of 0 makes [fileSize / packetSize]
    divide by zero, and an empty file cannot be sent: [numPackets] is 1,
    so the first read asks for [packetSize] bytes, fails, and [main]
    returns 1 ("Read Failed"). *)
Theorem readChunks_errors file ps :
  readChunks file 0 = Crash DivByZero /\ (0 < ps -> readChunks [] ps = Ok None).
Proof.
  split; [done|]. intros Hps. unfold readChunks. rewrite packetCounts_pos by (cbn; lia).
  cbn [length Z.of_nat]. rewrite Z.mod_0_l, Z.div_0_l by lia.
  destruct ps as [|p|p]; [lia|reflexivity|lia].
Qed.

(** The lemma above at a concrete input. *)
Lemma readChunks_errors_witness :
  readChunks [1; 2] 0 = Crash DivByZero /\ (0 < 512 -> readChunks [] 512 = Ok None).
Proof. exact (readChunks_errors [1; 2] 512). Defined.

(** [calculateDynamicTimeout] is the timeout of the spec: the sum of
    the measured round trips, each counted as at least 1 ms, times the
    factor, divided by 3 (rounded down), and at least 1 ms. *)
Theorem calculateDynamicTimeout_spec m rtts :
  0 <= m -> Forall (fun r => 0 <= r) rtts ->
  calculateDynamicTimeout m rtts = Z.max 1 (m * fold_right Z.add 0 (map (Z.max 1) rtts) / 3).
Proof.
  intros Hm Hr. unfold calculateDynamicTimeout. rewrite fold_rttContribution by done.
  rewrite Z.add_0_l, Z.quot_div_nonneg; [done| |lia].
  apply Z.mul_nonneg_nonneg; [done|].
  clear -Hr. induction Hr as [|x l Hx _ IH]; cbn [fold_right map]; [lia|]. pose proof (Z.le_max_l 1 x). lia.
Qed.

(** Example: round trips of 10, 20 and 30 ms with factor 2 give
    40 ms. *)
Lemma calculateDynamicTimeout_spec_witness :
  calculateDynamicTimeout 2 [10; 20; 30] = 40 /\
  calculateDynamicTimeout 2 [10; 20; 30] = Z.max 1 (2 * fold_right Z.add 0 (map (Z.max 1) [10; 20; 30]) / 3).
Proof.
  split; [vm_compute; reflexivity|].
  apply calculateDynamicTimeout_spec; [lia|repeat constructor; lia].
Defined.

(** The handshake wait accepts any reply: the first non-empty string
    that decodes ends it, whatever its number and ack code (a NACK of
    another packet included). *)
Theorem awaitInitialAck_any empties s p rest :
  Forall (fun e => e = []) empties -> s <> [] -> reversePacket s newPacket = Ok p ->
  awaitInitialAck (empties ++ s :: rest) = Some (Ok rest).
Proof.
  intros He Hs Hp. induction He as [|e empties -> _ IH]; cbn [app awaitInitialAck]; [|done].
  replace (Nat.eqb (length s) 0) with false by (destruct s; [done|reflexivity]).
  by rewrite Hp.
Qed.

(** Example: a NACK of packet 7 ends the wait. *)
Lemma awaitInitialAck_any_witness :
  awaitInitialAck ([[]] ++ createPacketString (setAck ACK_FAIL (setSeqNum 7 newPacket)) false :: [])
    = Some (Ok []).
Proof.
  apply (awaitInitialAck_any [[]] _ (setChecksum (Checksum.Checksum.createChecksum []) (setAck ACK_FAIL (setSeqNum 7 newPacket))));
    [repeat constructor|vm_compute; discriminate|vm_compute; reflexivity].
Defined.

(** A transfer measured as 0 ms (a small file over a fast link: the
    clock starts after the handshake) divides the file size by zero when
    the statistics are printed, after the whole file was delivered; any
    positive time gives the statistics. *)
Theorem transferStats_zero_ms fileSize ms :
  transferStats fileSize 0 = Crash DivByZero /\
  (0 < ms -> transferStats fileSize ms = Ok (Z.quot ms 60000, Z.quot fileSize ms * 1000)).
Proof.
  unfold transferStats, c_div. split; [reflexivity|].
  intros Hms. replace (ms =? 0) with false by lia. reflexivity.
Qed.

(** Witness: a file of 1000 bytes in 0 ms, and in 5 ms. *)
Lemma transferStats_zero_ms_witness :
  transferStats 1000 0 = Crash DivByZero /\ transferStats 1000 5 = Ok (0, 200000).
Proof.
  split; [apply (transferStats_zero_ms 1000 5)|].
  apply (proj2 (transferStats_zero_ms 1000 5)). lia.
Defined.

End Transfer.
