(* ===== verification/Faults.v ===== *)
(** * The fault injector of [src/sender.cpp]

    The sender can simulate three faults: a packet not sent ([errorDrop]),
    a packet sent with checksum field 0 ([errorNACK]) and an ACK ignored
    ([errorLostAck]).  In the "User" mode each fault has a sorted queue of
    sequence numbers typed by the operator ([promptForUserErrors], lines
    454-523); a decision pops the queue when its head is the sequence
    number at hand.  In the "Random" mode a decision draws [rand()] and
    faults when [rand() % 51 < 1].  The mode string is read in [main]
    (lines 598-607).

    Here: the mode, the head test and pop, the random test, [atoi] and the
    parsing of the operator's lists.  A leading blank, or two blanks in a
    row, make [atoi("")] add a 0, which sorts to the front of the queue;
    a 0 at the head is never popped by a data packet, so every fault of
    that kind is lost. *)

From S2P Require Import Prelude Handshake.
From stdpp Require Import sorting sets.
Open Scope Z_scope.

Module Faults.

(** [artificialErrors]: "None", "Random" or "User". *)
Inductive ErrorMode := ErrNone | ErrRandom | ErrUser.

#[export] Instance ErrorMode_eq_dec : EqDecision ErrorMode.
Proof. solve_decision. Defined.

Definition NoneStr : list Z := [78; 111; 110; 101].
Definition RandomStr : list Z := [82; 97; 110; 100; 111; 109].
Definition UserStr : list Z := [85; 115; 101; 114].

(** [main], lines 601-607: any other answer becomes "None". *)
Definition errorModeOf (s : list Z) : ErrorMode :=
  if bool_decide (s = UserStr) then ErrUser
  else if bool_decide (s = RandomStr) then ErrRandom
  else ErrNone.

(** [!q.empty() && seq == q.front()], and [q.erase(q.begin())] when it
    holds. *)
Definition popIfHead (q : list Z) (seq : Z) : bool * list Z :=
  match q with
  | x :: q' => if seq =? x then (true, q') else (false, q)
  | [] => (false, [])
  end.

(** [(rand() % 51) < 1] *)
Definition randomFault (r : Z) : bool := Z.rem r 51 <? 1.

(** [atoi]: leading white space, an optional sign, the digits that follow;
    0 when there are none. *)
Definition atoi (s : list Z) : Z :=
  let s1 := Handshake.skip_spaces s in
  let '(neg, s2) :=
    match s1 with
    | c :: r => if c =? 45 then (true, r) else if c =? 43 then (false, r) else (false, s1)
    | [] => (false, [])
    end in
  let v := Handshake.dec_value 0 (Handshake.take_digits s2) in
  if neg then - v else v.

(** The [for] loop of [promptForUserErrors] on one input line: a white
    space character ends the current number (even an empty one), and the
    last number is added when it is not empty. *)
Fixpoint parseNumbers (s : list Z) (curNumber : list Z) (acc : list Z) : list Z :=
  match s with
  | [] => if Nat.ltb 0 (length curNumber) then acc ++ [atoi curNumber] else acc
  | c :: s' =>
      if Handshake.is_space c then parseNumbers s' [] (acc ++ [atoi curNumber])
      else parseNumbers s' (curNumber ++ [c]) acc
  end.

(** [sort(v.begin(), v.end())] on [int]s. *)
Definition sortInts (l : list Z) : list Z := merge_sort Z.le l.

(** One of the three lists of [promptForUserErrors]. *)
Definition parseErrorList (line : list Z) : list Z := sortInts (parseNumbers line [] []).

(** ** Lemmas *)

Lemma popIfHead_hit x q : popIfHead (x :: q) x = (true, q).
Proof. cbn. by rewrite Z.eqb_refl. Qed.

Lemma popIfHead_miss q seq : hd_error q <> Some seq -> popIfHead q seq = (false, q).
Proof.
  destruct q as [|x q]; cbn; [done|]. intros H.
  destruct (Z.eqb_spec seq x); [subst; congruence|done].
Qed.

Lemma popIfHead_sub q seq b q' : popIfHead q seq = (b, q') -> (if b then q = seq :: q' else q' = q).
Proof.
  destruct q as [|x q]; cbn; [intros E; by invc E|].
  destruct (Z.eqb_spec seq x); intros E; invc E; done.
Qed.

(** [atoi] on a non-empty run of digits. *)
Lemma atoi_digits s :
  s <> [] -> Forall (fun c => Handshake.is_digit c = true) s -> atoi s = Handshake.dec_value 0 s.
Proof.
  intros Hne Hs. destruct s as [|c s']; [done|].
  inversion Hs as [|? ? Hc _]; subst. destruct (Handshake.is_digit_facts c Hc) as (E1 & E2 & E3).
  unfold atoi. cbn [Handshake.skip_spaces]. by rewrite E1, E2, E3, Handshake.take_digits_all.
Qed.

(** [atoi(to_string(n))] for a non-negative [int]. *)
Lemma atoi_to_string n : 0 <= n < 2 ^ 31 -> atoi (Handshake.to_string n) = n.
Proof.
  intros Hn. rewrite Handshake.to_string_nonneg by lia. rewrite atoi_digits.
  - rewrite Handshake.digits_rev_value by (cbn; lia). lia.
  - intros E. apply (f_equal (@length Z)) in E. rewrite length_rev in E.
    pose proof (Handshake.digits_rev_nonempty 10 n ltac:(lia)). destruct (Handshake.digits_rev 10 n); [done|discriminate].
  - apply Forall_rev, Handshake.digits_rev_digits. lia.
Qed.

(** Reading a word without white space up to a white space character
    adds [atoi] of the word to the list. *)
Lemma parseNumbers_word w c rest cur acc :
  Forall (fun x => Handshake.is_space x = false) w -> Handshake.is_space c = true ->
  parseNumbers (w ++ c :: rest) cur acc = parseNumbers rest [] (acc ++ [atoi (cur ++ w)]).
Proof.
  intros Hw Hc. revert cur; induction Hw as [|x w Hx _ IH]; intros cur; cbn [app parseNumbers].
  - by rewrite Hc, app_nil_r.
  - rewrite Hx, IH. by rewrite <- app_assoc.
Qed.

(** The numbers read so far stay at the front. *)
Lemma parseNumbers_prefix s cur acc : exists more, parseNumbers s cur acc = acc ++ more.
Proof.
  revert cur acc; induction s as [|c s IH]; intros cur acc; cbn [parseNumbers].
  - destruct (Nat.ltb _ _); [by eexists|exists []; by rewrite app_nil_r].
  - destruct (Handshake.is_space c).
    + destruct (IH [] (acc ++ [atoi cur])) as [m ->]. exists ([atoi cur] ++ m). by rewrite app_assoc.
    + apply IH.
Qed.

Lemma digits_no_space s :
  Forall (fun c => Handshake.is_digit c = true) s -> Forall (fun c => Handshake.is_space c = false) s.
Proof. intros H. eapply Forall_impl; [exact H|]. intros c Hc. apply (Handshake.is_digit_facts c Hc). Qed.

(** ** Properties of the fault lists *)

(** Round trip of the operator's lists: numbers printed in decimal,
    each followed by a blank, are read back by [promptForUserErrors] as
    the sorted list of those numbers. *)
Theorem parseErrorList_print l :
  Forall (fun n => 0 <= n < 2 ^ 31) l ->
  parseErrorList (concat (map (fun n => Handshake.to_string n ++ [32]) l)) = sortInts l.
Proof.
  intros Hl. unfold parseErrorList. f_equal.
  enough (H : forall acc, parseNumbers (concat (map (fun n => Handshake.to_string n ++ [32]) l)) [] acc = acc ++ l)
    by apply H.
  induction Hl as [|n l Hn _ IH]; intros acc; cbn [map concat].
  - cbn. by rewrite app_nil_r.
  - assert (Hw : Forall (fun x => Handshake.is_space x = false) (Handshake.to_string n)).
    { rewrite Handshake.to_string_nonneg by lia.
      apply digits_no_space, Forall_rev, Handshake.digits_rev_digits. lia. }
    rewrite <- app_assoc. cbn [app]. rewrite parseNumbers_word by done. cbn [app].
    rewrite atoi_to_string, IH by lia. by rewrite <- app_assoc.
Qed.

(** The lemma above at a concrete input. *)
Lemma parseErrorList_print_witness :
  parseErrorList (concat (map (fun n => Handshake.to_string n ++ [32]) [31; 7; 12])) = sortInts [31; 7; 12].
Proof. apply parseErrorList_print. repeat constructor; lia. Defined.

(** A list typed with a leading blank (or two blanks in a row) gets
    [atoi("") = 0] in it, and after sorting a number at most 0 is at its
    head. *)
Theorem parseErrorList_leading_blank c rest :
  Handshake.is_space c = true -> exists x q, parseErrorList (c :: rest) = x :: q /\ x <= 0.
Proof.
  intros Hc. unfold parseErrorList. cbn [parseNumbers]. rewrite Hc. cbn [app].
  destruct (parseNumbers_prefix rest [] [atoi []]) as [more E]. rewrite E. cbn [app].
  unfold sortInts.
  assert (Hin : 0 ∈ merge_sort Z.le (0 :: more)).
  { rewrite (merge_sort_Permutation Z.le (0 :: more)). set_solver. }
  pose proof (Sorted_merge_sort Z.le (0 :: more)) as Hs.
  destruct (merge_sort Z.le (0 :: more)) as [|x q] eqn:Em; [set_solver|].
  exists x, q. split; [done|].
  apply Sorted_StronglySorted in Hs; [|intros a b d; lia].
  apply StronglySorted_inv in Hs as [_ Hx].
  apply elem_of_cons in Hin as [->|Hin]; [lia|].
  rewrite Forall_forall in Hx. apply Hx. exact Hin.
Qed.

(** Witness: the line " 3 5". *)
Lemma parseErrorList_leading_blank_witness :
  Handshake.is_space 32 = true /\ exists x q, parseErrorList [32; 51; 32; 53] = x :: q /\ x <= 0.
Proof. split; [reflexivity|]. apply parseErrorList_leading_blank. reflexivity. Defined.

End Faults.
