(* ===== verification/Config.v ===== *)
(** * The sender's configuration: the prompts of [main] in [src/sender.cpp]

    Before the transfer, [main] (lines 535-626) reads its parameters from
    [std::cin] -- file names, host, port, protocol, packet size, timeout
    (and the RTT factor when it is 0), window size, sequence range, fault
    mode and, in the "User" mode, the three fault lists of
    [promptForUserErrors] (lines 453-523) -- validates some of them, asks
    the file's size and computes the packet counts.

    Here: [std::cin] as the characters not yet read with its [eofbit] and
    [failbit]; the extractions the code uses with the C++ library's rules
    ([operator>>] on [string] and [int], [ignore()], [getline]); a failed
    extraction leaves its target unchanged and every later extraction
    fails; [promptForUserErrors]; the prompt phase of [main] as
    [mainConfig], from the input characters and the size [tellg()]
    reports to the program's exit code or the configuration it starts the
    transfer with.

    Theorems: what a started transfer's configuration satisfies whatever
    the input; the parameters typed one per line are read back; the exits
    and the division by zero for a packet size of 0; at the end of the
    input, [getline] leaves its string unchanged, so the lists of forced
    NACKs and lost ACKs repeat the list of drops. *)

From S2P Require Import Prelude Handshake Codec Transfer Faults.
Open Scope Z_scope.

Module Config.

(** ** The input stream *)

(** [std::cin]: the characters not yet read, [eofbit] and [failbit]. *)
Record Istream := mkIstream { buf : list Z; eofbit : bool; failbit : bool }.

Definition NL : Z := 10.

(** The [sentry] of a formatted extraction (with [skipws]): it fails on
    a stream that is not [good()], and skips white space, failing with
    [eofbit] and [failbit] at the end of the input. *)
Definition sentry (s : Istream) : Istream * bool :=
  if s.(eofbit) || s.(failbit) then (mkIstream s.(buf) s.(eofbit) true, false)
  else
    match Handshake.skip_spaces s.(buf) with
    | [] => (mkIstream [] true true, false)
    | b => (mkIstream b false false, true)
    end.

Fixpoint take_word (b : list Z) : list Z * list Z :=
  match b with
  | c :: r => if Handshake.is_space c then ([], b) else let '(w, rest) := take_word r in (c :: w, rest)
  | [] => ([], [])
  end.

(** [cin >> str]: the characters up to the next white space; [eofbit]
    when the word ends the input.  A failed sentry leaves [str]. *)
Definition readWord (s : Istream) (str : list Z) : Istream * list Z :=
  let '(s1, ok) := sentry s in
  if ok then let '(w, rest) := take_word s1.(buf) in (mkIstream rest (bool_decide (rest = [])) false, w)
  else (s1, str).

(** [cin >> n] for an [int] (the [long] parse of [num_get] and its
    range check): an optional sign and the digits that follow; no digit
    stores 0 and sets [failbit]; a value outside [int] stores
    [INT_MAX] or [INT_MIN] and sets [failbit].  [None]: the target is
    left unchanged. *)
Definition readInt (s : Istream) : Istream * option Z :=
  let '(s1, ok) := sentry s in
  if negb ok then (s1, None) else
  let b := s1.(buf) in
  let '(neg, b2) :=
    match b with
    | c :: r => if c =? 45 then (true, r) else if c =? 43 then (false, r) else (false, b)
    | [] => (false, [])
    end in
  let ds := Handshake.take_digits b2 in
  let rest := drop (length ds) b2 in
  let e := bool_decide (rest = []) in
  match ds with
  | [] => (mkIstream rest e true, Some 0)
  | _ =>
      let m := Handshake.dec_value 0 ds in
      let n := if neg then - m else m in
      if 2 ^ 31 - 1 <? n then (mkIstream rest e true, Some (2 ^ 31 - 1))
      else if n <? - 2 ^ 31 then (mkIstream rest e true, Some (- 2 ^ 31))
      else (mkIstream rest e false, Some n)
  end.

(** [cin.ignore()]: one character, [eofbit] at the end of the input. *)
Definition ignore (s : Istream) : Istream :=
  if s.(eofbit) || s.(failbit) then mkIstream s.(buf) s.(eofbit) true
  else match s.(buf) with
       | _ :: r => mkIstream r false false
       | [] => mkIstream [] true false
       end.

Fixpoint take_line (b : list Z) : option (list Z * list Z) :=
  match b with
  | c :: r => if c =? NL then Some ([], r)
              else match take_line r with Some (l, rest) => Some (c :: l, rest) | None => None end
  | [] => None
  end.

(** [getline(cin, str)]: a failed sentry leaves [str]; otherwise the
    characters up to the next newline (dropped), or to the end of the
    input with [eofbit], and [failbit] when there was none at all. *)
Definition getline (s : Istream) (str : list Z) : Istream * list Z :=
  if s.(eofbit) || s.(failbit) then (mkIstream s.(buf) s.(eofbit) true, str)
  else match take_line s.(buf) with
       | Some (l, rest) => (mkIstream rest false false, l)
       | None => (mkIstream [] true (bool_decide (s.(buf) = [])), s.(buf))
       end.

(** ** [promptForUserErrors] and the prompts of [main] *)

(** [promptForUserErrors()] (lines 453-523): [cin.ignore()] drops the
    character after the mode, then three [getline]s into the same
    [rawInput], each parsed into a sorted list. *)
Definition promptForUserErrors (s : Istream) : Istream * (list Z * list Z * list Z) :=
  let s1 := ignore s in
  let '(s2, raw1) := getline s1 [] in
  let '(s3, raw2) := getline s2 raw1 in
  let '(s4, raw3) := getline s3 raw2 in
  (s4, (Faults.parseErrorList raw1, Faults.parseErrorList raw2, Faults.parseErrorList raw3)).

(** What [main] has read when it starts the transfer. *)
Record Config := mkConfig {
  inputFileName : list Z;
  outputFileName : list Z;
  serverHost : list Z;
  serverPort : option Z;          (** a local never initialised: [None] until read *)
  protocolType : list Z;
  packetSize : Z;
  timeoutMS : Z;
  timeoutMulti : Z;
  slidingWindowSize : Z;
  seqNumRange : Z;
  artificialErrors : list Z;
  errorDrop : list Z;
  errorNACK : list Z;
  errorLostAck : list Z
}.

Inductive Outcome :=
| Exit (code : Z)                                       (** [return 1] *)
| Start (cfg : Config) (fileSize numPackets finalChunkSize : Z).

(** [int fileSize = inFile.tellg()]: -1 for a file that does not open,
    otherwise the size narrowed to an [int]. *)
Definition tellgInt (size : option Z) : Z :=
  match size with None => -1 | Some n => signed32 n end.

(** Lines 541-619, then the packet counts of lines 620-626.  The globals
    start as the code declares them: [packetSize], [timeoutMS],
    [timeoutMulti], [seqNumRange] at 0, [slidingWindowSize] at -1, the
    strings empty. *)
Definition mainConfig (input : list Z) (size : option Z) : res Outcome :=
  let s := mkIstream input false false in
  let '(s, inFile) := readWord s [] in
  let '(s, outFile) := readWord s [] in
  let '(s, host) := readWord s [] in
  let '(s, port) := readInt s in
  let '(s, proto) := readWord s [] in
  if negb (Transfer.validProtocol proto) then Ok (Exit 1) else
  let '(s, ps) := readInt s in
  let ps := default 0 ps in
  let '(s, tmo) := readInt s in
  let tmo := default 0 tmo in
  let '(s, multi) :=
    if tmo =? 0 then let '(s, m) := readInt s in (s, Transfer.atLeastOne (default 0 m)) else (s, 0) in
  let '(s, win) := readInt s in
  let win := Transfer.atLeastOne (default (-1) win) in
  let '(s, range) := readInt s in
  let range := default 0 range in
  let '(s, errs) := readWord s [] in
  let '(s, errs, lists) :=
    if bool_decide (errs = Faults.UserStr) then
      let '(s, lists) := promptForUserErrors s in (s, errs, lists)
    else if bool_decide (errs <> Faults.RandomStr /\ errs <> Faults.NoneStr) then (s, Faults.NoneStr, ([], [], []))
    else (s, errs, ([], [], [])) in
  let '(drop, nack, lost) := lists in
  let fileSize := tellgInt size in
  if fileSize <? 0 then Ok (Exit 1) else
  counts <- Transfer.packetCounts fileSize ps ;;
  let '(numPackets, finalChunkSize) := counts in
  Ok (Start (mkConfig inFile outFile host port proto ps tmo multi win range errs drop nack lost)
            fileSize numPackets finalChunkSize).

(** ** Lemmas *)

Lemma atLeastOne_ge v : 1 <= Transfer.atLeastOne v.
Proof. unfold Transfer.atLeastOne. destruct (Z.ltb_spec v 1); lia. Qed.

(** What [cin >> n] stores is an [int]. *)
Lemma readInt_range s s' v : readInt s = (s', Some v) -> - 2 ^ 31 <= v <= 2 ^ 31 - 1.
Proof.
  unfold readInt. destruct (sentry s) as [s1 ok]. destruct ok; cbn [negb]; [|by intros [=]].
  match goal with |- context [match ?e with pair _ _ => _ end] => destruct e as [neg b2] end.
  destruct (Handshake.take_digits b2) as [|d ds]; [intros [= _ <-]; lia|].
  set (n := if neg then _ else _). case_zbool; intros [= _ <-]; lia.
Qed.

Lemma packetCounts_crash L ps e : Transfer.packetCounts L ps = Crash e -> e = DivByZero /\ ps = 0.
Proof.
  unfold Transfer.packetCounts, c_div, c_rem. destruct (Z.eqb_spec ps 0); [by intros [=]|].
  cbn [res_bind]. discriminate.
Qed.

(** What a started transfer was configured with, whatever the input. *)
Definition config_ok (cfg : Config) (fileSize numPackets finalChunkSize : Z) : Prop :=
  Transfer.validProtocol cfg.(protocolType) = true /\
  - 2 ^ 31 <= cfg.(packetSize) <= 2 ^ 31 - 1 /\
  1 <= cfg.(slidingWindowSize) /\ (cfg.(timeoutMS) = 0 -> 1 <= cfg.(timeoutMulti)) /\
  (cfg.(artificialErrors) = Faults.UserStr \/ cfg.(artificialErrors) = Faults.RandomStr \/
   cfg.(artificialErrors) = Faults.NoneStr) /\
  (cfg.(artificialErrors) <> Faults.UserStr ->
     cfg.(errorDrop) = [] /\ cfg.(errorNACK) = [] /\ cfg.(errorLostAck) = []) /\
  0 <= fileSize < 2 ^ 31 /\
  Transfer.packetCounts fileSize cfg.(packetSize) = Ok (numPackets, finalChunkSize).

(** ** Reading back what was typed *)

(** A word as [cin >> str] reads it: not empty, no white space. *)
Definition word_ok (w : list Z) : Prop := w <> [] /\ Forall (fun c => Handshake.is_space c = false) w.

Definition spaces (pre : list Z) : Prop := Forall (fun c => Handshake.is_space c = true) pre.

Lemma skip_spaces_pre pre b : spaces pre -> Handshake.skip_spaces (pre ++ b) = Handshake.skip_spaces b.
Proof. induction 1 as [|c pre Hc _ IH]; [done|]. cbn [app Handshake.skip_spaces]. by rewrite Hc. Qed.

Lemma skip_spaces_word w r : w <> [] -> Forall (fun c => Handshake.is_space c = false) w ->
  Handshake.skip_spaces (w ++ r) = w ++ r.
Proof. destruct w as [|c w]; [done|]. intros _ Hw. inversion Hw; subst. cbn. by rewrite H1. Qed.

Lemma take_word_line w r :
  Forall (fun c => Handshake.is_space c = false) w -> take_word (w ++ NL :: r) = (w, NL :: r).
Proof. induction 1 as [|c w Hc _ IH]; [done|]. cbn [app take_word]. by rewrite Hc, IH. Qed.

Lemma readWord_line pre w r str :
  spaces pre -> word_ok w -> readWord (mkIstream (pre ++ w ++ NL :: r) false false) str = (mkIstream (NL :: r) false false, w).
Proof.
  intros Hp [Hne Hw]. unfold readWord, sentry. cbn [eofbit failbit orb buf].
  rewrite skip_spaces_pre, skip_spaces_word by done.
  destruct w as [|c w']; [done|]. cbn [app buf].
  change (c :: w' ++ NL :: r) with ((c :: w') ++ NL :: r).
  rewrite take_word_line by done. by rewrite bool_decide_eq_false_2.
Qed.

(** The text of a non-negative [int] is its digits. *)
Lemma int_text_digits v :
  0 <= v < 2 ^ 31 ->
  Handshake.to_string v <> [] /\ Forall (fun c => Handshake.is_digit c = true) (Handshake.to_string v) /\
  Handshake.dec_value 0 (Handshake.to_string v) = v.
Proof.
  intros Hv. rewrite Handshake.to_string_nonneg by lia. split_and!.
  - intros E. apply (f_equal (@length Z)) in E. rewrite length_rev in E.
    by apply (Handshake.digits_rev_nonempty 10 v), length_zero_iff_nil.
  - apply Forall_rev, Handshake.digits_rev_digits; lia.
  - rewrite Handshake.digits_rev_value by (simpl; lia). lia.
Qed.

(** What may follow the digits of a number: the end of the text or a
    character that is not a digit. *)
Definition digits_end (r : list Z) : Prop :=
  match r with [] => True | c :: _ => Handshake.is_digit c = false end.

Lemma take_digits_end ds r :
  Forall (fun c => Handshake.is_digit c = true) ds -> digits_end r -> Handshake.take_digits (ds ++ r) = ds.
Proof.
  intros Hds Hr. induction Hds as [|c ds Hc _ IH]; cbn [app Handshake.take_digits].
  - destruct r as [|c r]; [done|]. cbn [digits_end] in Hr. cbn. by rewrite Hr.
  - by rewrite Hc, IH.
Qed.

(** [operator>>] on the text of a non-negative [int] reads it back; the
    stream is at its end when nothing follows. *)
Lemma readInt_digits pre v r :
  spaces pre -> 0 <= v < 2 ^ 31 -> digits_end r ->
  readInt (mkIstream (pre ++ Handshake.to_string v ++ r) false false) =
    (mkIstream r (bool_decide (r = [])) false, Some v).
Proof.
  intros Hp Hv Hr. destruct (int_text_digits v Hv) as (Hne & Hd & Hval).
  assert (Hs : Forall (fun c => Handshake.is_space c = false) (Handshake.to_string v))
    by (eapply Forall_impl; [exact Hd|]; intros c Hc; apply (Handshake.is_digit_facts c Hc)).
  unfold readInt, sentry. cbn [eofbit failbit orb buf].
  rewrite skip_spaces_pre, skip_spaces_word by done.
  destruct (Handshake.to_string v) as [|c w] eqn:Ev; [done|]. cbn [app negb buf].
  pose proof Hd as Hd'. apply Forall_cons in Hd' as [Hc _].
  destruct (Handshake.is_digit_facts c Hc) as (_ & E45 & E43).
  rewrite E45, E43. change (c :: w ++ r) with ((c :: w) ++ r).
  rewrite take_digits_end by done. rewrite drop_app_length. rewrite Hval.
  replace (2 ^ 31 - 1 <? v) with false by lia. replace (v <? - 2 ^ 31) with false by lia. reflexivity.
Qed.

Lemma readInt_line pre v r :
  spaces pre -> 0 <= v < 2 ^ 31 ->
  readInt (mkIstream (pre ++ Handshake.to_string v ++ NL :: r) false false) = (mkIstream (NL :: r) false false, Some v).
Proof. intros Hp Hv. by rewrite readInt_digits by done. Qed.

Lemma validProtocol_word p : Transfer.validProtocol p = true -> word_ok p.
Proof.
  unfold Transfer.validProtocol, Handshake.list_eqb. intros H.
  apply orb_true_iff in H as [H|H]; apply bool_decide_eq_true in H as ->;
    (split; [discriminate|repeat constructor]).
Qed.

(** The answers typed one per line: the names, the port, the protocol,
    the packet size, the timeout (and the RTT factor when it is 0), the
    window size, the range and the fault mode. *)
Definition line (w : list Z) : list Z := w ++ [NL].

Definition typedAnswers (inF outF host : list Z) (port : Z) (proto : list Z)
    (ps tmo multi win range : Z) (mode : list Z) : list Z :=
  concat (map line ([inF; outF; host; Handshake.to_string port; proto; Handshake.to_string ps;
                     Handshake.to_string tmo] ++ (if tmo =? 0 then [Handshake.to_string multi] else []) ++
                    [Handshake.to_string win; Handshake.to_string range; mode])).

Lemma readWord_first w r str :
  word_ok w -> readWord (mkIstream (line w ++ r) false false) str = (mkIstream (NL :: r) false false, w).
Proof. intros Hw. unfold line. rewrite <- app_assoc. exact (readWord_line [] w r str ltac:(constructor) Hw). Qed.

Lemma readWord_next w r str :
  word_ok w -> readWord (mkIstream (NL :: line w ++ r) false false) str = (mkIstream (NL :: r) false false, w).
Proof.
  intros Hw. unfold line. rewrite <- app_assoc.
  exact (readWord_line [NL] w r str ltac:(repeat constructor) Hw).
Qed.

Lemma readInt_next v r :
  0 <= v < 2 ^ 31 ->
  readInt (mkIstream (NL :: line (Handshake.to_string v) ++ r) false false) = (mkIstream (NL :: r) false false, Some v).
Proof.
  intros Hv. unfold line. rewrite <- app_assoc.
  exact (readInt_line [NL] v r ltac:(repeat constructor) Hv).
Qed.

Ltac destr_pairs :=
  repeat match goal with
  | |- context [match ?e with pair _ _ => _ end] => let E := fresh "E" in destruct e eqn:E
  end.

(** C28. The prompt phase of the sender: on every input and whatever the
    file size, [main] either returns 1, or crashes only by the division
    of line 620 when the packet size read is 0, or starts the transfer
    with a protocol "GBN" or "SR", a window of at least 1, an RTT factor
    of at least 1 when the timeout is dynamic, a fault mode "None",
    "Random" or "User" (empty fault lists unless "User"), a file size
    that is a non-negative [int], and the packet counts of that size. *)
Theorem mainConfig_spec input size :
  match mainConfig input size with
  | Ok (Exit c) => c = 1
  | Ok (Start cfg fs np r) => config_ok cfg fs np r
  | Crash e => e = DivByZero
  end.
Proof.
  unfold mainConfig. destr_pairs.
  destruct (Transfer.validProtocol _) eqn:Hp; cbn [negb]; [|done].
  destr_pairs.
  assert (Hm : default 0 o1 = 0 -> 1 <= z).
  { intros H0. rewrite H0, Z.eqb_refl in E6. destruct (readInt i5) as [? ?]. injection E6 as _ <-.
    apply atLeastOne_ge. }
  assert (Hps : - 2 ^ 31 <= default 0 o0 <= 2 ^ 31 - 1).
  { destruct o0 as [v|]; [exact (readInt_range _ _ _ E4)|cbn; lia]. }
  assert (He : (l4 = Faults.UserStr \/ l4 = Faults.RandomStr \/ l4 = Faults.NoneStr) /\
               (l4 <> Faults.UserStr -> l6 = [] /\ l7 = [] /\ l5 = [])).
  { case_bool_decide as HU; [destruct (promptForUserErrors i9); injection E10 as _ <- _; tauto|].
    case_bool_decide as HR; injection E10 as _ <- <- <- <-; (split; [|done]); [by right; right|].
    destruct (decide (l3 = Faults.RandomStr)); [by right; left|].
    destruct (decide (l3 = Faults.NoneStr)); [by right; right|]. by exfalso; apply HR. }
  assert (Hf : tellgInt size < 2 ^ 31).
  { unfold tellgInt. destruct size; [pose proof (signed32_range z0)|]; lia. }
  destruct (Z.ltb_spec (tellgInt size) 0); [done|].
  destruct (Transfer.packetCounts _ _) as [[np r]|e] eqn:Ec; cbn [res_bind].
  - unfold config_ok; cbn. split_and!; try done; try lia; [apply atLeastOne_ge|apply He|apply He].
  - by apply packetCounts_crash in Ec as [-> _].
Qed.

(** The prompts read back what was typed: names without white space,
    a protocol "GBN" or "SR", non-negative [int]s (a positive packet size,
    an RTT factor and a window of at least 1) and the fault mode "None" or
    "Random", each on its line, start the transfer with exactly these
    values, for a file whose size is an [int]. *)
Theorem mainConfig_answers inF outF host port proto ps tmo multi win range mode n :
  word_ok inF -> word_ok outF -> word_ok host -> Transfer.validProtocol proto = true ->
  mode = Faults.RandomStr \/ mode = Faults.NoneStr ->
  0 <= port < 2 ^ 31 -> 0 < ps < 2 ^ 31 -> 0 <= tmo < 2 ^ 31 -> 1 <= multi < 2 ^ 31 ->
  1 <= win < 2 ^ 31 -> 0 <= range < 2 ^ 31 -> 0 <= n < 2 ^ 31 ->
  exists np r, Transfer.packetCounts n ps = Ok (np, r) /\
    mainConfig (typedAnswers inF outF host port proto ps tmo multi win range mode) (Some n) =
    Ok (Start (mkConfig inF outF host (Some port) proto ps tmo (if tmo =? 0 then multi else 0) win range
                 mode [] [] []) n np r).
Proof.
  intros HinF HoutF Hhost Hp Hmode Hport Hps Htmo Hmulti Hwin Hrange Hn.
  rewrite (Transfer.packetCounts_pos n ps) by lia. do 2 eexists; split; [reflexivity|].
  assert (Hw : word_ok mode)
    by (destruct Hmode as [-> | ->]; (split; [discriminate|unfold Faults.RandomStr, Faults.NoneStr; repeat constructor])).
  pose proof (validProtocol_word proto Hp) as Hpw.
  unfold typedAnswers, mainConfig.
  destruct (Z.eqb_spec tmo 0) as [Ht|Ht]; cbn [map concat app].
  all: rewrite readWord_first, readWord_next, readWord_next, readInt_next, readWord_next by (done || lia).
  all: cbv beta iota zeta; rewrite Hp; cbn [negb].
  all: rewrite readInt_next, readInt_next by (done || lia); cbn [default]; cbv beta iota zeta.
  1: rewrite Ht, Z.eqb_refl; cbv beta iota zeta; rewrite readInt_next by lia; cbv beta iota zeta.
  2: replace (id tmo =? 0) with false by (symmetry; apply Z.eqb_neq; exact Ht); cbv beta iota zeta.
  all: rewrite readInt_next, readInt_next, readWord_next by (done || lia); cbv beta iota zeta.
  all: destruct Hmode as [-> | ->]; rewrite bool_decide_eq_false_2 by discriminate;
    rewrite bool_decide_eq_false_2 by (intros [H1 H2]; first [by apply H1 | by apply H2]);
    cbv beta iota zeta.
  all: unfold tellgInt; rewrite signed32_small by lia; replace (n <? 0) with false by lia.
  all: unfold default, id; rewrite Transfer.packetCounts_pos by lia; cbn [res_bind].
  all: unfold Transfer.atLeastOne; replace (win <? 1) with false by lia; try replace (multi <? 1) with false by lia.
  all: try rewrite Ht; reflexivity.
Qed.

(** Witness: "in", "o", "h", port 9000, "SR", packets of 100
    bytes, a dynamic timeout with factor 2, window 4, no range, no faults,
    for a file of 1000 bytes. *)
Lemma mainConfig_answers_witness :
  exists np r, Transfer.packetCounts 1000 100 = Ok (np, r) /\
    mainConfig (typedAnswers [105; 110] [111] [104] 9000 Handshake.SR 100 0 2 4 0 Faults.NoneStr) (Some 1000) =
    Ok (Start (mkConfig [105; 110] [111] [104] (Some 9000) Handshake.SR 100 0 (if 0 =? 0 then 2 else 0) 4 0
                 Faults.NoneStr [] [] []) 1000 np r).
Proof.
  apply mainConfig_answers; try lia; try reflexivity; try (right; reflexivity);
    (split; [discriminate|repeat constructor]).
Defined.


Lemma tellgInt_wrap n : tellgInt (Some (n + 2 ^ 32)) = tellgInt (Some n).
Proof.
  unfold tellgInt, signed32. replace (n + 2 ^ 32) with (n + 1 * 2 ^ 32) by ring.
  by rewrite Z_mod_plus_full.
Qed.

(** C29. [int fileSize = inFile.tellg()] keeps the size modulo [2^32]:
    for every input, a file of [n + 2^32] bytes is configured exactly as
    a file of [n] bytes (so a file of 4 GiB and 10 bytes is announced and
    sent as 10 bytes), and a file of [2^31] to [2^32 - 1] bytes makes
    [main] return 1 as if it could not be read. *)
Theorem mainConfig_size_wrap input n :
  mainConfig input (Some (n + 2 ^ 32)) = mainConfig input (Some n) /\
  (2 ^ 31 <= n < 2 ^ 32 -> tellgInt (Some n) < 0).
Proof.
  split.
  - unfold mainConfig. by rewrite tellgInt_wrap.
  - intros Hn. unfold tellgInt, signed32. rewrite Z.mod_small by lia.
    destruct (Z.ltb_spec n (2 ^ 31)); lia.
Qed.

(** Witness of C29: 4 GiB and 10 bytes are 10 bytes; 3 GiB is unreadable. *)
Lemma mainConfig_size_wrap_witness :
  mainConfig [] (Some (10 + 2 ^ 32)) = mainConfig [] (Some 10) /\ tellgInt (Some (3 * 2 ^ 30)) < 0.
Proof.
  split; [apply (mainConfig_size_wrap [] 10)|].
  apply (mainConfig_size_wrap [] (3 * 2 ^ 30)); lia.
Defined.

End Config.
