(* ===== verification/NetSocket.v ===== *)
(** * Socket set-up and teardown: [src/NetSockets.cpp] and the [main]s

    [NetSocket] wraps the socket system calls.  [createServerSocket]
    (lines 44-95) makes a socket, sets [SO_REUSEADDR], binds it to the
    port, listens and accepts one connection; [createClientSocket] (lines
    100-121) makes a socket and connects it; [sendData] and
    [getFromSocket] use [srv_file_desc] on a client and [client_socket]
    on a server (lines 128 and 141); [closeSocket] (lines 190-192) closes
    [srv_file_desc].  The receiver's [main] reads its port from [argv]
    (lines 184-204), creates the server socket without looking at the
    result (line 208) and reads; the sender's [main] connects and returns
    1 when that fails (lines 631-633) and closes the socket at the end
    (line 705); [src/socket-client-test.cpp] parses a host and a port the
    same way, connects without looking at the result and sends three
    strings.

    Here the kernel is the table of the descriptors the process holds
    ([gmap Z FdKind]); [socket] and [accept] return the lowest free
    descriptor, as POSIX requires; whether a call that can fail for
    outside reasons (no descriptor left, the port in use, no peer)
    succeeds is a [Verdicts] record given from outside.  A call on a
    descriptor that is not open fails with -1.  The members of a
    [NetSocket] are [option Z]: the receiver's object is a local that is
    never initialised ([None]), the sender's a global, zero-initialised.
    The console lines the functions print are a list of [Msg].

    Theorems: a failing [socket()] (-1) is not reported as such, and a
    descriptor 0 is ([createServerSocket_socket_check]); the receiver
    never stops with a diagnostic when it cannot set up its socket: its
    first read is undefined or throws ([receiver_startup]); the port
    arguments accepted are exactly [1025 .. 65535] and a port's text is
    read back ([receiverArgs_spec]); the sender either connects or exits
    with 1, and its [closeSocket] closes the connection, while the
    receiver's closes only the listening socket ([teardown]). *)

From S2P Require Import Prelude Handshake Socket Config.
From stdpp Require Import gmap.
Open Scope Z_scope.

Module NetSocket.

(** ** The kernel *)

(** What an open descriptor is. *)
Inductive FdKind := Unbound | Bound | Listening | Connected.

#[export] Instance FdKind_eq_dec : EqDecision FdKind.
Proof. solve_decision. Defined.

Abbreviation Kernel := (gmap Z FdKind).

(** Whether each call that can fail for reasons outside the program
    succeeds. *)
Record Verdicts := mkVerdicts {
  v_socket : bool; v_setsockopt : bool; v_bind : bool; v_listen : bool;
  v_accept : bool; v_connect : bool
}.

(** The lowest descriptor from [n] on that is not open. *)
Fixpoint firstFree (k : Kernel) (n : Z) (fuel : nat) : Z :=
  match fuel with
  | O => n
  | S f => if decide (k !! n = None) then n else firstFree k (n + 1) f
  end.

Definition lowestFree (k : Kernel) : Z := firstFree k 0 (S (size k)).

Definition isOpen (k : Kernel) (fd : Z) : bool := bool_decide (is_Some (k !! fd)).

(** [socket(AF_INET, SOCK_STREAM, 0)] *)
Definition sys_socket (k : Kernel) (ok : bool) : Kernel * Z :=
  if ok then let fd := lowestFree k in (<[fd := Unbound]> k, fd) else (k, -1).

(** [setsockopt(fd, SOL_SOCKET, SO_REUSEADDR, ...)] *)
Definition sys_setsockopt (k : Kernel) (fd : Z) (ok : bool) : Z :=
  if isOpen k fd && ok then 0 else -1.

(** [bind(fd, ...)]: only an unbound socket can be bound. *)
Definition sys_bind (k : Kernel) (fd : Z) (ok : bool) : Kernel * Z :=
  match k !! fd with
  | Some Unbound => if ok then (<[fd := Bound]> k, 0) else (k, -1)
  | _ => (k, -1)
  end.

(** [listen(fd, 3)] *)
Definition sys_listen (k : Kernel) (fd : Z) (ok : bool) : Kernel * Z :=
  match k !! fd with
  | Some Bound => if ok then (<[fd := Listening]> k, 0) else (k, -1)
  | _ => (k, -1)
  end.

(** [accept(fd, ...)]: a new descriptor for the connection. *)
Definition sys_accept (k : Kernel) (fd : Z) (ok : bool) : Kernel * Z :=
  match k !! fd with
  | Some Listening => if ok then let c := lowestFree k in (<[c := Connected]> k, c) else (k, -1)
  | _ => (k, -1)
  end.

(** [connect(fd, ...)] *)
Definition sys_connect (k : Kernel) (fd : Z) (ok : bool) : Kernel * Z :=
  match k !! fd with
  | Some Unbound => if ok then (<[fd := Connected]> k, 0) else (k, -1)
  | _ => (k, -1)
  end.

(** [close(fd)] *)
Definition sys_close (k : Kernel) (fd : Z) : Kernel := delete fd k.

(** ** The [NetSocket] object *)

Definition TYPE_SERVER : Z := 1.
Definition TYPE_CLIENT : Z := 2.

(** [class NetSocket] (NetSockets.h lines 7-24): the port of [address],
    [socketType], [srv_file_desc] and [client_socket]. *)
Record NetSocket := mkNetSocket {
  port : option Z;
  socketType : option Z;
  srv_file_desc : option Z;
  client_socket : option Z
}.

(** A local [NetSocket] (the receiver's, the test client's): nothing set. *)
Definition localSocket : NetSocket := mkNetSocket None None None None.
(** The sender's global [NetSocket]: zero-initialised. *)
Definition globalSocket : NetSocket := mkNetSocket (Some 0) (Some 0) (Some 0) (Some 0).

(** [NetSocket::setType] (lines 27-29). *)
Definition setType (s : NetSocket) (t : Z) : NetSocket :=
  mkNetSocket s.(port) (Some t) s.(srv_file_desc) s.(client_socket).

Definition setSrv (s : NetSocket) (fd : Z) : NetSocket :=
  mkNetSocket s.(port) s.(socketType) (Some fd) s.(client_socket).
Definition setClient (s : NetSocket) (fd : Z) : NetSocket :=
  mkNetSocket s.(port) s.(socketType) s.(srv_file_desc) (Some fd).
Definition setPort (s : NetSocket) (p : Z) : NetSocket :=
  mkNetSocket (Some p) s.(socketType) s.(srv_file_desc) s.(client_socket).

(** The console lines the functions print. *)
Inductive Msg :=
| MsgCreateSocket | MsgSocketFailed | MsgAttach | MsgSetSockOptFailed | MsgBindFailed
| MsgCreateListener | MsgAwaiting (p : Z) | MsgClientConnected
| MsgConnecting (p : Z) | MsgConnectionFailed | MsgSendFailed.

(** [NetSocket::createServerSocket(usePort)] (lines 44-95): the failure
    test of [socket()] is [!srv_file_desc]; the results of [listen] and
    [accept] are not looked at. *)
Definition createServerSocket (s : NetSocket) (k : Kernel) (v : Verdicts) (usePort : Z)
  : NetSocket * Kernel * list Msg * bool :=
  let s := setType s TYPE_SERVER in
  let '(k, fd) := sys_socket k v.(v_socket) in
  let s := setSrv s fd in
  if fd =? 0 then (s, k, [MsgCreateSocket; MsgSocketFailed], false) else
  if sys_setsockopt k fd v.(v_setsockopt) <? 0 then
    (s, k, [MsgCreateSocket; MsgAttach; MsgSetSockOptFailed], false) else
  let s := setPort s usePort in
  let '(k, rb) := sys_bind k fd v.(v_bind) in
  if rb <? 0 then (s, k, [MsgCreateSocket; MsgAttach; MsgBindFailed], false) else
  let '(k, _) := sys_listen k fd v.(v_listen) in
  let '(k, c) := sys_accept k fd v.(v_accept) in
  (setClient s c, k, [MsgCreateSocket; MsgAttach; MsgCreateListener; MsgAwaiting usePort; MsgClientConnected], true).

(** [NetSocket::createClientSocket(serverIp, usePort)] (lines 100-121):
    the result of [socket()] is not looked at. *)
Definition createClientSocket (s : NetSocket) (k : Kernel) (v : Verdicts) (usePort : Z)
  : NetSocket * Kernel * list Msg * bool :=
  let s := setType s TYPE_CLIENT in
  let '(k, fd) := sys_socket k v.(v_socket) in
  let s := setPort (setSrv s fd) usePort in
  let '(k, rc) := sys_connect k fd v.(v_connect) in
  if rc <? 0 then (s, k, [MsgConnecting usePort; MsgConnectionFailed], false)
  else (s, k, [MsgConnecting usePort], true).

(** [int socketToUse = (getType() == TYPE_CLIENT) ? srv_file_desc :
    client_socket] (lines 128 and 141); reading a member never set is
    undefined. *)
Definition socketToUse (s : NetSocket) : res Z :=
  match s.(socketType) with
  | None => Crash Indeterminate
  | Some t =>
      match (if t =? TYPE_CLIENT then s.(srv_file_desc) else s.(client_socket)) with
      | Some fd => Ok fd
      | None => Crash Indeterminate
      end
  end.

(** [NetSocket::sendData] on the descriptor (lines 126-134): on a
    connection the bytes and the NUL go to the stream; otherwise [send]
    returns -1 and the program prints a message and goes on. *)
Definition sendDataFd (s : NetSocket) (k : Kernel) (out dataToSend : list Z) : res (list Z * list Msg) :=
  fd <- socketToUse s ;;
  if decide (k !! fd = Some Connected) then Ok (Socket.sendData out dataToSend, [])
  else Ok (out, [MsgSendFailed]).

(** [NetSocket::getFromSocket] on the descriptor (lines 139-185): on a
    connection it is [Socket.getFromSocket]; otherwise the first [recv]
    returns -1, which is not 0, and [recvBuffer.resize(-1)] asks for
    [SIZE_MAX] bytes and throws [std::length_error]. *)
Definition getFromSocketFd (s : NetSocket) (k : Kernel) (packetSize : Z) (stream : list Z)
    (sizes : list nat) : res (list Z * list Z * list nat) :=
  fd <- socketToUse s ;;
  if decide (k !! fd = Some Connected) then Ok (Socket.getFromSocket packetSize stream sizes)
  else Crash ExcLengthError.

(** [NetSocket::closeSocket()] (lines 190-192). *)
Definition closeSocket (s : NetSocket) (k : Kernel) : res Kernel :=
  match s.(srv_file_desc) with
  | Some fd => Ok (sys_close k fd)
  | None => Crash Indeterminate
  end.

(** ** The programs' use of the socket *)

(** [istringstream iss(arg); if (iss >> portNum)] and the range check
    (receiver.cpp lines 191-204, socket-client-test.cpp lines 28-41). *)
Definition parsePort (arg : list Z) : option Z :=
  let '(st, v) := Config.readInt (Config.mkIstream arg false false) in
  if st.(Config.failbit) then None else
  match v with
  | Some p => if (p <? 1025) || (65535 <? p) then None else Some p
  | None => None
  end.

(** The receiver's [argc != 2] test and its port (lines 184-204);
    [argv] holds the program's name first. *)
Definition receiverArgs (argv : list (list Z)) : option Z :=
  match argv with [_; a] => parsePort a | _ => None end.

(** How the receiver's [main] goes on after its arguments. *)
Inductive Start :=
| Exit (code : Z)
| Serving (s : NetSocket) (k : Kernel) (msgs : list Msg).

(** Lines 184-208: the result of [createServerSocket] is not looked at. *)
Definition receiverStart (argv : list (list Z)) (k : Kernel) (v : Verdicts) : Start :=
  match receiverArgs argv with
  | None => Exit 1
  | Some p => let '(s, k', msgs, _) := createServerSocket localSocket k v p in Serving s k' msgs
  end.

(** The first read of the receive loop, [getFromSocket(packetSize)] with
    [packetSize] still 0 (line 212). *)
Definition receiverFirstRead (argv : list (list Z)) (k : Kernel) (v : Verdicts) (stream : list Z)
    (sizes : list nat) : res (option (list Z * list Z * list nat)) :=
  match receiverStart argv k v with
  | Exit _ => Ok None
  | Serving s k' _ => r <- getFromSocketFd s k' 0 stream sizes ;; Ok (Some r)
  end.

(** The sender's [if (!clientSocket.createClientSocket(...)) return 1;]
    (lines 631-633) on its global socket; [None] is the exit. *)
Definition senderConnect (k : Kernel) (v : Verdicts) (serverPort : Z) : option (NetSocket * Kernel) :=
  let '(s, k', _, ok) := createClientSocket globalSocket k v serverPort in
  if ok then Some (s, k') else None.

(** ["Hello"], ["Hello2"], ["STOP"] *)
Definition Hello : list Z := [72; 101; 108; 108; 111].
Definition Hello2 : list Z := [72; 101; 108; 108; 111; 50].
Definition STOP : list Z := [83; 84; 79; 80].

(** [main] of [src/socket-client-test.cpp] (lines 13-65): the exit code,
    the bytes sent and the failures printed; the result of
    [createClientSocket] is not looked at. *)
Definition clientTestMain (argv : list (list Z)) (k : Kernel) (v : Verdicts)
  : res (Z * list Z * list Msg) :=
  match argv with
  | [_; _; a] =>
      match parsePort a with
      | None => Ok (1, [], [])
      | Some p =>
          let '(s, k', msgs, _) := createClientSocket localSocket k v p in
          r1 <- sendDataFd s k' [] Hello ;;
          r2 <- sendDataFd s k' r1.1 Hello2 ;;
          r3 <- sendDataFd s k' r2.1 STOP ;;
          Ok (0, r3.1, msgs ++ r1.2 ++ r2.2 ++ r3.2)
      end
  | _ => Ok (1, [], [])
  end.

(** ** The descriptor table *)

(** Descriptors are never negative: -1 is never open. *)
Definition kernel_ok (k : Kernel) : Prop := forall fd x, k !! fd = Some x -> 0 <= fd.

(** Every call that can fail for outside reasons in [createServerSocket]
    succeeds. *)
Definition setup_ok (v : Verdicts) : bool :=
  v.(v_socket) && v.(v_setsockopt) && v.(v_bind) && v.(v_listen) && v.(v_accept).

Lemma firstFree_ge k n f : n <= firstFree k n f.
Proof.
  revert n; induction f as [|f IH]; intros n; cbn [firstFree]; [lia|].
  case_decide; [lia|]. specialize (IH (n + 1)). lia.
Qed.

Lemma lowestFree_pos k : is_Some (k !! 0) -> 1 <= lowestFree k.
Proof.
  intros [x Hx]. unfold lowestFree. cbn [firstFree].
  rewrite decide_False by congruence. apply firstFree_ge.
Qed.

Lemma lowestFree_0 k : k !! 0 = None -> lowestFree k = 0.
Proof. intros H. unfold lowestFree. cbn [firstFree]. by rewrite decide_True. Qed.

Lemma firstFree_spec k n f :
  k !! firstFree k n f = None \/
  (firstFree k n f = n + Z.of_nat f /\ forall i, n <= i < n + Z.of_nat f -> is_Some (k !! i)).
Proof.
  revert n; induction f as [|f IH]; intros n; cbn [firstFree].
  - right. split; [lia|]. intros; lia.
  - case_decide as H; [by left|]. destruct (IH (n + 1)) as [E|[E Hall]]; [by left|right].
    split; [lia|]. intros i Hi. destruct (Z.eq_dec i n) as [->|]; [by apply not_eq_None_Some|].
    apply Hall. lia.
Qed.

(** [socket] and [accept] return a descriptor that is not open: among
    [0 .. size k] one is free. *)
Lemma lowestFree_fresh k : k !! lowestFree k = None.
Proof.
  unfold lowestFree. destruct (firstFree_spec k 0 (S (size k))) as [E|[_ Hall]]; [done|exfalso].
  assert (Hs : (S (size k) <= size (dom k))%nat).
  { apply (zrange_size (dom k) 0). intros i Hi. apply elem_of_dom, Hall. lia. }
  rewrite size_dom in Hs. lia.
Qed.

Lemma kernel_ok_insert k fd x : kernel_ok k -> 0 <= fd -> kernel_ok (<[fd := x]> k).
Proof.
  intros Hk Hfd fd' y. rewrite lookup_insert_Some. intros [[<- _]|[_ H]]; [lia|eauto].
Qed.

Lemma kernel_ok_neg k : kernel_ok k -> k !! (-1) = None.
Proof. intros Hk. destruct (k !! (-1)) eqn:E; [apply Hk in E; lia|done]. Qed.

Lemma kernel_ok_empty : kernel_ok ∅.
Proof. intros fd x H. by rewrite lookup_empty in H. Qed.

(** Standard input open, nothing else. *)
Lemma kernel_ok_stdin : kernel_ok {[0 := Connected]}.
Proof. intros fd x H. apply lookup_singleton_Some in H as [<- _]. lia. Qed.

#[local] Hint Resolve kernel_ok_insert kernel_ok_neg : core.

(** The server socket when every call succeeds: the listening
    descriptor and the connection, each the lowest free one. *)
Lemma createServerSocket_ok s k v p :
  is_Some (k !! 0) -> setup_ok v = true ->
  let fd := lowestFree k in
  let k2 := <[fd := Listening]> (<[fd := Bound]> (<[fd := Unbound]> k)) in
  let c := lowestFree k2 in
  createServerSocket s k v p =
    (mkNetSocket (Some p) (Some TYPE_SERVER) (Some fd) (Some c), <[c := Connected]> k2,
     [MsgCreateSocket; MsgAttach; MsgCreateListener; MsgAwaiting p; MsgClientConnected], true).
Proof.
  intros H0 Hv fd k2 c. pose proof (lowestFree_pos k H0) as Hfd.
  destruct v as [[] [] [] [] [] vc]; try discriminate.
  unfold createServerSocket, sys_socket, sys_setsockopt, isOpen, sys_bind, sys_listen, sys_accept.
  cbn [v_socket v_setsockopt v_bind v_listen v_accept].
  fold fd. replace (fd =? 0) with false by (symmetry; apply Z.eqb_neq; lia).
  rewrite !lookup_insert_eq. rewrite bool_decide_eq_true_2 by done. cbn. reflexivity.
Qed.

(** When a call fails, [createServerSocket] returns with [client_socket]
    never set, or with the -1 of a failed [accept]. *)
Lemma createServerSocket_fail k v p :
  kernel_ok k -> is_Some (k !! 0) -> setup_ok v = false ->
  let '(s', k', _, _) := createServerSocket localSocket k v p in
  s'.(socketType) = Some TYPE_SERVER /\
  (s'.(client_socket) = None \/ (s'.(client_socket) = Some (-1) /\ kernel_ok k')).
Proof.
  intros Hk H0 Hv. pose proof (lowestFree_pos k H0) as Hfd.
  unfold createServerSocket, sys_socket, sys_setsockopt, isOpen, sys_bind, sys_listen, sys_accept.
  destruct v as [[] [] [] [] [] vc]; try discriminate; cbn [v_socket v_setsockopt v_bind v_listen v_accept];
    rewrite ?lookup_insert_eq, ?(kernel_ok_neg k Hk); cbn -[lowestFree];
    try (replace (lowestFree k =? 0) with false by (symmetry; apply Z.eqb_neq; lia));
    rewrite ?lookup_insert_eq; cbn -[lowestFree];
    try rewrite bool_decide_eq_true_2 by done; cbn -[lowestFree]; rewrite ?lookup_insert_eq; cbn -[lowestFree];
    (split; [done|]); first [by left | right; split; [done|]; repeat apply kernel_ok_insert; auto; lia].
Qed.

(** ** Failure detection in [createServerSocket] *)

(** C24. [!srv_file_desc] tests for 0, not for the -1 of a failed [socket()]:
    a failed [socket()] is reported as a failure of [setsockopt] on -1,
    and a socket that got descriptor 0 (standard input closed) is
    reported as a failed [socket()] and left open. *)
Theorem createServerSocket_socket_check s k v p :
  kernel_ok k ->
  (v.(v_socket) = false ->
     exists s', createServerSocket s k v p = (s', k, [MsgCreateSocket; MsgAttach; MsgSetSockOptFailed], false)) /\
  (v.(v_socket) = true -> k !! 0 = None ->
     exists s', createServerSocket s k v p = (s', <[0 := Unbound]> k, [MsgCreateSocket; MsgSocketFailed], false)).
Proof.
  intros Hk. unfold createServerSocket, sys_socket. split.
  - intros ->. unfold sys_setsockopt, isOpen. rewrite (kernel_ok_neg k Hk). cbn. by eexists.
  - intros -> H0. rewrite (lowestFree_0 k H0). cbn. by eexists.
Qed.

(** Witness of C24: With no descriptor at all, [socket()] fails, and with only
    standard output and error open it returns 0. *)
Lemma createServerSocket_socket_check_witness :
  (exists s', createServerSocket localSocket ∅ (mkVerdicts false true true true true true) 9000 =
     (s', ∅, [MsgCreateSocket; MsgAttach; MsgSetSockOptFailed], false)) /\
  (exists s', createServerSocket localSocket (<[1 := Connected]> (<[2 := Connected]> ∅))
     (mkVerdicts true true true true true true) 9000 =
     (s', <[0 := Unbound]> (<[1 := Connected]> (<[2 := Connected]> ∅)), [MsgCreateSocket; MsgSocketFailed], false)).
Proof.
  split.
  - apply (createServerSocket_socket_check localSocket ∅ (mkVerdicts false true true true true true) 9000);
      [exact kernel_ok_empty|reflexivity].
  - apply (createServerSocket_socket_check localSocket (<[1 := Connected]> (<[2 := Connected]> ∅))
             (mkVerdicts true true true true true true) 9000).
    + repeat apply kernel_ok_insert; try lia. exact kernel_ok_empty.
    + reflexivity.
    + reflexivity.
Defined.

(** ** The receiver's start *)

(** C19. The receiver does not look at the result of [createServerSocket]:
    when every call succeeds its first read is [getFromSocket] on the
    accepted connection; when one fails it does not stop with a
    diagnostic, its first read uses a [client_socket] never set
    (undefined) or the -1 of a failed [accept] ([std::length_error]). *)
Theorem receiver_startup argv k v p stream sizes :
  kernel_ok k -> is_Some (k !! 0) -> receiverArgs argv = Some p ->
  (setup_ok v = true ->
     receiverFirstRead argv k v stream sizes = Ok (Some (Socket.getFromSocket 0 stream sizes))) /\
  (setup_ok v = false ->
     receiverFirstRead argv k v stream sizes = Crash Indeterminate \/
     receiverFirstRead argv k v stream sizes = Crash ExcLengthError).
Proof.
  intros Hk H0 Ha. unfold receiverFirstRead, receiverStart. rewrite Ha. split.
  - intros Hv. rewrite createServerSocket_ok by done.
    unfold getFromSocketFd, socketToUse. cbn -[lowestFree]. by rewrite decide_True by (by rewrite lookup_insert_eq).
  - intros Hv. pose proof (createServerSocket_fail k v p Hk H0 Hv) as Hf.
    destruct (createServerSocket localSocket k v p) as [[[s' k'] msgs] b].
    destruct Hf as (Ht & [Hc | [Hc Hk']]); unfold getFromSocketFd, socketToUse; rewrite Ht; cbn [Z.eqb TYPE_SERVER TYPE_CLIENT Pos.eqb];
      rewrite Hc; cbn [res_bind]; [by left|right].
    by rewrite decide_False by (by rewrite (kernel_ok_neg k' Hk')).
Qed.

(** Witness of C19: Port 9000 with standard input open; every call succeeds,
    then [bind] fails, then [accept] fails. *)
Lemma receiver_startup_witness :
  receiverFirstRead [[114]; [57; 48; 48; 48]] {[0 := Connected]} (mkVerdicts true true true true true true)
    [65; 0] [] = Ok (Some (Socket.getFromSocket 0 [65; 0] [])) /\
  receiverFirstRead [[114]; [57; 48; 48; 48]] {[0 := Connected]} (mkVerdicts true true false true true true)
    [65; 0] [] = Crash Indeterminate /\
  receiverFirstRead [[114]; [57; 48; 48; 48]] {[0 := Connected]} (mkVerdicts true true true true false true)
    [65; 0] [] = Crash ExcLengthError.
Proof.
  pose proof kernel_ok_stdin as Hk.
  assert (H0 : is_Some ({[0 := Connected]} !! 0)) by (rewrite lookup_singleton_eq; eauto).
  split_and!.
  - apply (receiver_startup [[114]; [57; 48; 48; 48]] _ (mkVerdicts true true true true true true) 9000);
      [exact Hk|exact H0|reflexivity|reflexivity].
  - destruct (receiver_startup [[114]; [57; 48; 48; 48]] _ (mkVerdicts true true false true true true) 9000
                [65; 0] [] Hk H0 eq_refl) as [_ H]. destruct (H eq_refl) as [E|E]; [exact E|].
    vm_compute in E. discriminate.
  - destruct (receiver_startup [[114]; [57; 48; 48; 48]] _ (mkVerdicts true true true true false true) 9000
                [65; 0] [] Hk H0 eq_refl) as [_ H]. destruct (H eq_refl) as [E|E]; [|exact E].
    vm_compute in E. discriminate.
Defined.

(** ** Arguments *)

(** C26. The receiver starts only with one argument, a port in
    [1025 .. 65535], and the decimal text of such a port is read back. *)
Theorem receiverArgs_spec argv p :
  (receiverArgs argv = Some p -> length argv = 2%nat /\ 1025 <= p <= 65535) /\
  (forall prog, 1025 <= p <= 65535 -> receiverArgs [prog; Handshake.to_string p] = Some p).
Proof.
  split.
  - destruct argv as [|x [|a [|y l]]]; try discriminate. cbn [receiverArgs]. unfold parsePort.
    destruct (Config.readInt _) as [st [q|]]; destruct (Config.failbit st); try discriminate.
    destruct (Z.ltb_spec q 1025), (Z.ltb_spec 65535 q); cbn; intros E; try discriminate.
    injection E as <-. split; [done|lia].
  - intros prog Hp. cbn [receiverArgs]. unfold parsePort.
    pose proof (Config.readInt_digits [] p [] ltac:(constructor) ltac:(lia) I) as E.
    rewrite app_nil_l, app_nil_r in E. rewrite E. cbn [Config.failbit].
    replace (p <? 1025) with false by lia. by replace (65535 <? p) with false by lia.
Qed.

(** Witness of C26: Port 9000; "1024" and "9000x" show the two edges of the
    parse: the first is refused, the second read as 9000. *)
Lemma receiverArgs_spec_witness :
  (length [[114]; [57; 48; 48; 48]] = 2%nat /\ 1025 <= 9000 <= 65535) /\
  receiverArgs [[114]; Handshake.to_string 9000] = Some 9000 /\
  receiverArgs [[114]; [49; 48; 50; 52]] = None /\
  receiverArgs [[114]; [57; 48; 48; 48; 120]] = Some 9000.
Proof.
  split; [apply (proj1 (receiverArgs_spec [[114]; [57; 48; 48; 48]] 9000)); reflexivity|].
  split_and!; [apply (proj2 (receiverArgs_spec [] 9000)); lia|reflexivity|reflexivity].
Defined.

(** ** Teardown *)

(** C21. The sender goes on only with a connected socket (it exits with 1
    otherwise, also when [socket()] failed, since [connect] on -1 fails),
    reads and writes on that connection and its [closeSocket] closes it.
    The receiver, once set up, reads on the accepted connection, and its
    [closeSocket] closes the listening socket only: the connection stays
    open until the process ends. *)
Theorem teardown k v p argv q :
  kernel_ok k -> is_Some (k !! 0) ->
  (senderConnect k v p = None <-> v.(v_socket) && v.(v_connect) = false) /\
  (forall s k', senderConnect k v p = Some (s, k') ->
     exists fd, socketToUse s = Ok fd /\ k' !! fd = Some Connected /\ closeSocket s k' = Ok (delete fd k')) /\
  (receiverArgs argv = Some q -> setup_ok v = true ->
     exists s k' msgs c l, receiverStart argv k v = Serving s k' msgs /\ socketToUse s = Ok c /\
       s.(srv_file_desc) = Some l /\ k' !! l = Some Listening /\
       closeSocket s k' = Ok (delete l k') /\ delete l k' !! c = Some Connected).
Proof.
  intros Hk H0. split_and!.
  - unfold senderConnect, createClientSocket, sys_socket, sys_connect.
    destruct v as [[] ? ? ? ? []]; cbn -[lowestFree]; rewrite ?lookup_insert_eq, ?(kernel_ok_neg k Hk);
      cbn -[lowestFree]; split; done.
  - intros s k'. unfold senderConnect, createClientSocket, sys_socket, sys_connect.
    destruct v as [[] ? ? ? ? []]; cbn -[lowestFree]; rewrite ?lookup_insert_eq, ?(kernel_ok_neg k Hk);
      cbn -[lowestFree]; intros E; try discriminate. injection E as <- <-.
    exists (lowestFree k). unfold socketToUse, closeSocket. cbn. split_and!; [done| |done].
    apply lookup_insert_eq.
  - intros Ha Hv. unfold receiverStart. rewrite Ha, createServerSocket_ok by done.
    set (fd := lowestFree k). set (k2 := <[fd := Listening]> _).
    assert (Hc : lowestFree k2 <> fd).
    { intros E. pose proof (lowestFree_fresh k2) as F. rewrite E in F. subst k2.
      by rewrite lookup_insert_eq in F. }
    do 5 eexists. split_and!; [reflexivity|reflexivity|reflexivity| |reflexivity|].
    + rewrite lookup_insert_ne by congruence. apply lookup_insert_eq.
    + rewrite lookup_delete_ne by congruence. apply lookup_insert_eq.
Qed.

(** Witness of C21: Standard input open, port 9000, every call succeeds. *)
Lemma teardown_witness :
  (senderConnect {[0 := Connected]} (mkVerdicts true true true true true true) 9000 = None <->
     true && true = false) /\
  (forall s k', senderConnect {[0 := Connected]} (mkVerdicts true true true true true true) 9000 = Some (s, k') ->
     exists fd, socketToUse s = Ok fd /\ k' !! fd = Some Connected /\ closeSocket s k' = Ok (delete fd k')) /\
  (receiverArgs [[114]; [57; 48; 48; 48]] = Some 9000 -> setup_ok (mkVerdicts true true true true true true) = true ->
     exists s k' msgs c l, receiverStart [[114]; [57; 48; 48; 48]] {[0 := Connected]}
         (mkVerdicts true true true true true true) = Serving s k' msgs /\ socketToUse s = Ok c /\
       s.(srv_file_desc) = Some l /\ k' !! l = Some Listening /\
       closeSocket s k' = Ok (delete l k') /\ delete l k' !! c = Some Connected).
Proof.
  apply (teardown {[0 := Connected]} (mkVerdicts true true true true true true) 9000 [[114]; [57; 48; 48; 48]] 9000).
  - exact kernel_ok_stdin.
  - rewrite lookup_singleton_eq. eauto.
Defined.

(** The test client: connected, it sends the three strings with their
    NULs; refused, it prints three send failures and still exits with 0. *)
Example clientTestMain_runs :
  clientTestMain [[116]; [104]; [57; 48; 48; 48]] {[0 := Connected]} (mkVerdicts true true true true true true) =
    Ok (0, Hello ++ [0] ++ Hello2 ++ [0] ++ STOP ++ [0], [MsgConnecting 9000]) /\
  clientTestMain [[116]; [104]; [57; 48; 48; 48]] {[0 := Connected]} (mkVerdicts true true true true true false) =
    Ok (0, [], [MsgConnecting 9000; MsgConnectionFailed; MsgSendFailed; MsgSendFailed; MsgSendFailed]).
Proof. split; vm_compute; reflexivity. Qed.

End NetSocket.
