(* ===== verification/Sender.v ===== *)
(** * The sender: [src/sender.cpp]

    The sender's state is a set of globals shared, under [ackMutex], by
    the main thread and the ACK thread: the last sequence number
    [curSeqNum], the window [slidingWindowFront .. slidingWindowEnd] of
    capacity [slidingWindowSize], the in-flight list [packetList], the
    fault queues and counters.  The main thread calls [processChunkData]
    for each chunk and then [checkPacketQueue()], which repeats passes over
    [packetList] -- dropping acknowledged packets at the window front and
    retransmitting timed-out ones -- until the window has room; at the end
    [checkPacketQueue(true)] repeats them until the list is empty.  The
    ACK thread ([readACKMessages]) marks packets acknowledged or
    retransmits them on a NACK.

    Here: the state record, with the strings handed to [sendData] and the
    numbers of clock reads and [rand()] draws made so far; the clock and
    [rand()] as the Section variables [now] and [rand] (the i-th reading);
    [processChunkData]; one ACK of [readACKMessages] as [onAck]; one pass
    of [checkPacketQueue] as [checkPass] and its exit test.  The lock makes
    each of them atomic, so a run is an interleaving: [sstep] is the step
    relation of the two threads (the main thread's position as [Main]),
    [run_sched] an executable scheduler with the same steps.

    Theorems: a pass removes exactly the acknowledged run at the window
    front ([checkPass_spec]); in every reachable state the in-flight list
    is the window [front .. end], at most [slidingWindowSize] long, each
    packet with its chunk ([sender_window_invariant]); at the end every
    chunk was acknowledged ([sender_finished]); the retransmission count
    ([sender_retrans_count]); the front is monotone; forced NACK, lost ACK
    and timeout retransmission; an ACK code other than OK retransmits; an
    acknowledged packet behind the front can be retransmitted; a drop queue
    headed by 0 is never used. *)

From S2P Require Import Prelude Bitset Checksum Codec Handshake Faults.
From stdpp Require Import list sets.
Open Scope Z_scope.

Module Sender.

Import Codec Faults.

Record Sender := mkSender {
  curSeqNum : Z;                 (** [unsigned int curSeqNum] *)
  numRetrans : Z;
  timeoutMS : Z;
  slidingWindowSize : Z;
  slidingWindowFront : Z;
  slidingWindowEnd : Z;
  seqNumRange : Z;
  packetList : list Packet;      (** [vector<unique_ptr<Packet>> packetList] *)
  artificialErrors : ErrorMode;
  errorDrop : list Z;
  errorNACK : list Z;
  errorLostAck : list Z;
  sent : list (list Z);          (** strings passed to [clientSocket.sendData] *)
  clockReads : nat;              (** calls of [system_clock::now()] so far *)
  randDraws : nat                (** calls of [rand()] so far *)
}.

(** The globals at the start of the transfer ([main] sets [slidingWindowFront = 1]
    after the handshake; the first data packet is number 1). *)
Definition initSender (timeout size range : Z) (mode : ErrorMode) (drop nack lost : list Z) : Sender :=
  mkSender 0 0 timeout size 1 0 range [] mode drop nack lost [] 0 0.

Section Env.

(** The i-th reading of [system_clock::now()], in ms, and the i-th value
    returned by [rand()]. *)
Variable now : nat -> Z.
Variable rand : nat -> Z.

Definition isRandom (st : Sender) : bool := bool_decide (st.(artificialErrors) = ErrRandom).

(** The packet [processChunkData] builds (lines 264-272): number
    [curSeqNum + 1] (an [unsigned int] increment), deadline [now() +
    timeoutMS]. *)
Definition chunkPacket (st : Sender) (chunkData : list Z) : Packet :=
  setData chunkData (setSeqNumRange st.(seqNumRange)
    (setSeqNum ((st.(curSeqNum) + 1) mod 2 ^ 32)
       (setTimeout (now st.(clockReads)) st.(timeoutMS) newPacket))).

(** [processChunkData(chunkData)] (lines 253-315). *)
Definition processChunkData (st : Sender) (chunkData : list Z) : Sender :=
  let cur := (st.(curSeqNum) + 1) mod 2 ^ 32 in
  let wend := st.(slidingWindowEnd) + 1 in
  let p := chunkPacket st chunkData in
  let '(nackHit, qN) := popIfHead st.(errorNACK) (getSeqNum p) in
  let '(forceNACK, r1) :=
    if isRandom st then (nackHit || randomFault (rand st.(randDraws)), S st.(randDraws))
    else (nackHit, st.(randDraws)) in
  let '(dropHit, qD) := popIfHead st.(errorDrop) (getSeqNum p) in
  let '(sendPacketData, r2) :=
    if dropHit then (false, r1)
    else if isRandom st then (negb (randomFault (rand r1)), S r1)
    else (true, r1) in
  mkSender cur st.(numRetrans) st.(timeoutMS) st.(slidingWindowSize) st.(slidingWindowFront)
    wend st.(seqNumRange) (st.(packetList) ++ [p]) st.(artificialErrors) qD qN
    st.(errorLostAck)
    (if sendPacketData then st.(sent) ++ [createPacketString p forceNACK] else st.(sent))
    (S st.(clockReads)) r2.

(** [findPacketBySeqNum(findSeqNum)] (lines 87-105): the first packet of
    the list with that number, and its index. *)
Definition findPacketBySeqNum (l : list Packet) (n : Z) : option (nat * Packet) :=
  list_find (fun p => getSeqNum p = n) l.

(** Lines 215-240: the packet the ACK names gets a new deadline of 500 ms;
    on [ACK_OK] it is marked acknowledged, on any other code retransmitted. *)
Definition handleAck (st : Sender) (ackPacket : Packet) : Sender :=
  match findPacketBySeqNum st.(packetList) (getSeqNum ackPacket) with
  | None => st
  | Some (i, p) =>
      let p1 := setTimeout (now st.(clockReads)) 500 p in
      if ackPacket.(ack) =? ACK_OK then
        mkSender st.(curSeqNum) st.(numRetrans) st.(timeoutMS) st.(slidingWindowSize)
          st.(slidingWindowFront) st.(slidingWindowEnd) st.(seqNumRange)
          (<[i := setAck 1 p1]> st.(packetList)) st.(artificialErrors) st.(errorDrop)
          st.(errorNACK) st.(errorLostAck) st.(sent) (S st.(clockReads)) st.(randDraws)
      else
        mkSender st.(curSeqNum) (st.(numRetrans) + 1) st.(timeoutMS) st.(slidingWindowSize)
          st.(slidingWindowFront) st.(slidingWindowEnd) st.(seqNumRange)
          (<[i := p1]> st.(packetList)) st.(artificialErrors) st.(errorDrop)
          st.(errorNACK) st.(errorLostAck) (st.(sent) ++ [createPacketString p1 false])
          (S st.(clockReads)) st.(randDraws)
  end.

Definition setLostAck (st : Sender) (q : list Z) (r : nat) : Sender :=
  mkSender st.(curSeqNum) st.(numRetrans) st.(timeoutMS) st.(slidingWindowSize)
    st.(slidingWindowFront) st.(slidingWindowEnd) st.(seqNumRange) st.(packetList)
    st.(artificialErrors) st.(errorDrop) st.(errorNACK) q st.(sent) st.(clockReads) r.

(** One iteration of [readACKMessages] on a non-empty string read from the
    socket (lines 192-241): decode, the lost-ACK queue, the random lost
    ACK, then [handleAck]. *)
Definition onAck (st : Sender) (socketData : list Z) : res Sender :=
  ap <- reversePacket socketData newPacket ;;
  let ackPacket := setSeqNumRange st.(seqNumRange) ap in
  let '(lost, qL) := popIfHead st.(errorLostAck) (getSeqNum ackPacket) in
  if lost then Ok (setLostAck st qL st.(randDraws))
  else if isRandom st then
    if randomFault (rand st.(randDraws)) then Ok (setLostAck st qL (S st.(randDraws)))
    else Ok (handleAck (setLostAck st qL (S st.(randDraws))) ackPacket)
  else Ok (handleAck st ackPacket).

(** The globals one pass of [checkPacketQueue] updates: the window
    front, the retransmission count, the strings sent and the clock. *)
Record Pass := mkPass { psFront : Z; psRetrans : Z; psSent : list (list Z); psClock : nat }.

(** The inner [while] of [checkPacketQueue] (lines 335-372) over the
    list; it returns the list left.  The acknowledged packet at the window
    front is erased and the front advanced, without a clock read; any other
    packet past its deadline gets a new one and is sent again. *)
Fixpoint scanList (timeout : Z) (l : list Packet) (ps : Pass) : list Packet * Pass :=
  match l with
  | [] => ([], ps)
  | p :: rest =>
      if (getSeqNum p =? ps.(psFront)) && (p.(ack) =? 1) then
        scanList timeout rest (mkPass (ps.(psFront) + 1) ps.(psRetrans) ps.(psSent) ps.(psClock))
      else if hasTimedOut (now ps.(psClock)) p then
        let p' := setTimeout (now (S ps.(psClock))) timeout p in
        let '(l', ps') := scanList timeout rest
          (mkPass ps.(psFront) (ps.(psRetrans) + 1) (ps.(psSent) ++ [createPacketString p' false])
             (S (S ps.(psClock)))) in
        (p' :: l', ps')
      else
        let '(l', ps') := scanList timeout rest
          (mkPass ps.(psFront) ps.(psRetrans) ps.(psSent) (S ps.(psClock))) in
        (p :: l', ps')
  end.

(** One iteration of the outer [while (1)] of [checkPacketQueue], under
    the lock. *)
Definition checkPass (st : Sender) : Sender :=
  let '(l', ps) := scanList st.(timeoutMS) st.(packetList)
                     (mkPass st.(slidingWindowFront) st.(numRetrans) st.(sent) st.(clockReads)) in
  mkSender st.(curSeqNum) ps.(psRetrans) st.(timeoutMS) st.(slidingWindowSize)
    ps.(psFront) st.(slidingWindowEnd) st.(seqNumRange) l'
    st.(artificialErrors) st.(errorDrop) st.(errorNACK) st.(errorLostAck) ps.(psSent)
    ps.(psClock) st.(randDraws).

(** The exit test at the end of an iteration (lines 375-389). *)
Definition checkExit (waitTillFinish : bool) (st : Sender) : bool :=
  if waitTillFinish then Nat.eqb (length st.(packetList)) 0
  else st.(slidingWindowEnd) <? st.(slidingWindowFront) + st.(slidingWindowSize) - 1.

(** ** The two threads *)

(** Where the main thread of [main] is (lines 665-709): about to read a
    chunk (the chunks still to read), in [checkPacketQueue()] after
    sending one, in the final [checkPacketQueue(true)], or past it. *)
Inductive Main :=
| Reading (cs : list (list Z))
| Checking (cs : list (list Z))
| Draining
| Finished.

Definition remaining (m : Main) : list (list Z) :=
  match m with Reading cs | Checking cs => cs | _ => [] end.

(** One atomic step of the sender: a step of the main thread, or one ACK
    handled by [readACKMessages] on whatever string the socket yields.
    [ackMutex] makes each of [processChunkData], a pass of
    [checkPacketQueue] and an ACK iteration atomic, so an execution is an
    interleaving of these steps.  The chunk loop stops after the last
    chunk ([curChunkNum == numPackets]). *)
Inductive sstep : Main * Sender -> Main * Sender -> Prop :=
| s_chunk c cs st :
    sstep (Reading (c :: cs), st) (Checking cs, processChunkData st c)
| s_last st :
    sstep (Reading [], st) (Draining, st)
| s_wait cs st :
    checkExit false (checkPass st) = false ->
    sstep (Checking cs, st) (Checking cs, checkPass st)
| s_go cs st :
    checkExit false (checkPass st) = true ->
    sstep (Checking cs, st) (Reading cs, checkPass st)
| s_drain st :
    checkExit true (checkPass st) = false ->
    sstep (Draining, st) (Draining, checkPass st)
| s_done st :
    checkExit true (checkPass st) = true ->
    sstep (Draining, st) (Finished, checkPass st)
| s_ack m socketData st st' :
    onAck st socketData = Ok st' ->
    sstep (m, st) (m, st').

(** The same steps as an executable scheduler: [EMain] runs the main
    thread's next step, [EAck s] has the ACK thread handle the string
    [s]. *)
Inductive Event := EMain | EAck (socketData : list Z).

Definition main_step (x : Main * Sender) : option (Main * Sender) :=
  match x with
  | (Reading (c :: cs), st) => Some (Checking cs, processChunkData st c)
  | (Reading [], st) => Some (Draining, st)
  | (Checking cs, st) =>
      let st' := checkPass st in Some (if checkExit false st' then Reading cs else Checking cs, st')
  | (Draining, st) =>
      let st' := checkPass st in Some (if checkExit true st' then Finished else Draining, st')
  | (Finished, _) => None
  end.

Definition sched_step (x : Main * Sender) (e : Event) : option (Main * Sender) :=
  match e with
  | EMain => main_step x
  | EAck s => match onAck x.2 s with Ok st' => Some (x.1, st') | Crash _ => None end
  end.

Fixpoint run_sched (x : Main * Sender) (es : list Event) : option (Main * Sender) :=
  match es with
  | [] => Some x
  | e :: es' => match sched_step x e with Some y => run_sched y es' | None => None end
  end.

(** The globals neither a pass nor an ACK changes. *)
Definition config (st : Sender) :=
  (st.(curSeqNum), st.(timeoutMS), st.(slidingWindowSize), st.(slidingWindowEnd),
   st.(seqNumRange), st.(artificialErrors), st.(errorDrop), st.(errorNACK)).

(** ** One pass of [checkPacketQueue] *)

(** A packet the pass keeps: itself, or itself with a new deadline. *)
Definition retimed (t : Z) (p q : Packet) : Prop := q = p \/ exists c, q = setTimeout c t p.

(** What an operation sent, from the log [s] and count [r] to [s'] and
    [r']: strings appended to the log, each the retransmission of a packet
    of the list [l'] it leaves, one [numRetrans] each. *)
Definition resent (s : list (list Z)) (r : Z) (s' : list (list Z)) (r' : Z) (l' : list Packet) : Prop :=
  exists extra, s' = s ++ extra /\ r' = r + Z.of_nat (length extra) /\
    Forall (fun x => exists q, q ∈ l' /\ x = createPacketString q false) extra.

Definition pass_resent (ps ps' : Pass) (l' : list Packet) : Prop :=
  resent ps.(psSent) ps.(psRetrans) ps'.(psSent) ps'.(psRetrans) l'.

Lemma retimed_fields t p q :
  retimed t p q -> getSeqNum q = getSeqNum p /\ q.(data) = p.(data) /\ q.(ack) = p.(ack).
Proof. intros [->|[c ->]]; done. Qed.

Lemma resent_nil s r l : resent s r s r l.
Proof. exists []. cbn. rewrite app_nil_r. repeat split; [lia|constructor]. Qed.

Lemma resent_sub s r s' r' l1 l2 :
  resent s r s' r' l1 -> (forall q, q ∈ l1 -> q ∈ l2) -> resent s r s' r' l2.
Proof.
  intros (extra & Hs & Hr & Hf) Hsub. exists extra. split_and!; [done|done|].
  eapply Forall_impl; [exact Hf|]. intros x (q & Hq & ->). eauto.
Qed.

Lemma resent_keep s r s' r' p l' :
  resent s r s' r' l' -> resent s r s' r' (p :: l').
Proof. intros H. eapply resent_sub; [exact H|set_solver]. Qed.

Lemma resent_retrans s r s' r' p l' :
  resent (s ++ [createPacketString p false]) (r + 1) s' r' l' ->
  resent s r s' r' (p :: l').
Proof.
  intros H. apply (resent_sub _ _ _ _ _ (p :: l')) in H; [|set_solver].
  destruct H as (extra & Hs & Hr & Hf).
  exists (createPacketString p false :: extra). rewrite Hs, <- app_assoc. split_and!; [done| |].
  - cbn [length]. lia.
  - constructor; [exists p; split; [set_solver|done]|exact Hf].
Qed.

(** A pass over packets none of which is an acknowledged packet at the
    window front removes nothing: it keeps every packet and leaves the
    front. *)
Lemma scanList_keep t l ps :
  Forall (fun p => ~ (getSeqNum p = ps.(psFront) /\ p.(ack) = 1)) l ->
  Forall2 (retimed t) l (scanList t l ps).1 /\
  (scanList t l ps).2.(psFront) = ps.(psFront) /\
  pass_resent ps (scanList t l ps).2 (scanList t l ps).1.
Proof.
  revert ps; induction l as [|p l IH]; intros ps Hl; cbn [scanList fst snd].
  { split_and!; [constructor|done|apply resent_nil]. }
  apply Forall_cons in Hl as [Hp Hl].
  replace ((getSeqNum p =? ps.(psFront)) && (p.(ack) =? 1)) with false
    by (symmetry; apply not_true_iff_false; autorewrite with zbool; tauto).
  destruct (hasTimedOut _ _).
  - set (ps1 := mkPass _ _ _ _).
    destruct (IH ps1 Hl) as (H1 & H2 & H3).
    destruct (scanList t l ps1) as [l1 q1]; cbn in *.
    split_and!; [constructor; [right; eauto|done]|done|].
    by apply resent_retrans.
  - set (ps1 := mkPass _ _ _ _).
    destruct (IH ps1 Hl) as (H1 & H2 & H3).
    destruct (scanList t l ps1) as [l1 q1]; cbn in *.
    split_and!; [constructor; [left; done|done]|done|by apply resent_keep].
Qed.

(** Sequence numbers of a list that are [a, a+1, ...] are at least [a]. *)
Lemma zrange_lower {A} (f : A -> Z) l a n :
  map f l = zrange a n -> Forall (fun x => a <= f x) l.
Proof.
  revert a n; induction l as [|x l IH]; intros a [|n]; cbn [map]; try done.
  rewrite zrange_cons. intros [= Hx Hl]. constructor; [lia|].
  eapply Forall_impl; [exact (IH _ _ Hl)|]. cbn. lia.
Qed.

(** Whatever the list, a pass counts one retransmission per string it
    sends, and never moves the front back. *)
Lemma scanList_resent t l ps :
  pass_resent ps (scanList t l ps).2 (scanList t l ps).1 /\
  ps.(psFront) <= (scanList t l ps).2.(psFront).
Proof.
  revert ps; induction l as [|p l IH]; intros ps; cbn [scanList]; [split; [apply resent_nil|cbn; lia]|].
  destruct (_ && _).
  { destruct (IH (mkPass (ps.(psFront) + 1) ps.(psRetrans) ps.(psSent) ps.(psClock))) as [H1 H2].
    cbn in H2. split; [exact H1|lia]. }
  destruct (hasTimedOut _ _); set (ps1 := mkPass _ _ _ _); destruct (IH ps1) as [H1 H2];
    destruct (scanList t l ps1) as [l1 q1]; cbn in *.
  - split; [by apply resent_retrans|lia].
  - split; [by apply resent_keep|lia].
Qed.

(** A pass over the in-flight list, whose numbers run from the window
    front on, removes the longest run of acknowledged packets at its head,
    advances the front past them, keeps the others (possibly with a new
    deadline), and counts one retransmission per string it sends. *)
Lemma scanList_spec t l ps n :
  map getSeqNum l = zrange ps.(psFront) n ->
  exists k, (k <= n)%nat /\
    Forall (fun p => p.(ack) = 1) (take k l) /\
    (forall p rest, drop k l = p :: rest -> p.(ack) <> 1) /\
    Forall2 (retimed t) (drop k l) (scanList t l ps).1 /\
    (scanList t l ps).2.(psFront) = ps.(psFront) + Z.of_nat k /\
    pass_resent ps (scanList t l ps).2 (scanList t l ps).1.
Proof.
  revert ps n; induction l as [|p l IH]; intros ps [|n]; cbn [map scanList]; try done.
  { intros _. exists 0%nat. split_and!; [lia|constructor|by intros ? ? ?|constructor|cbn; lia|apply resent_nil]. }
  rewrite zrange_cons. intros [= Hp Hl].
  destruct (Z.eqb_spec p.(ack) 1) as [Ha|Ha].
  - rewrite Hp, Z.eqb_refl. cbn [andb].
    destruct (IH (mkPass (psFront ps + 1) (psRetrans ps) (psSent ps) (psClock ps)) n Hl)
      as (k & Hk & H1 & H0 & H2 & H3 & H4).
    exists (S k). cbn [take drop]. split_and!; [lia|by constructor|done|done| |].
    + rewrite H3. cbn. lia.
    + destruct H4 as (extra & E1 & E2 & E3). by exists extra.
  - exists 0%nat. rewrite take_0, drop_0.
    pose proof (scanList_keep t (p :: l) ps) as Hk. cbn [scanList] in Hk.
    destruct Hk as (H1 & H2 & H3).
    { constructor; [tauto|]. eapply Forall_impl; [exact (zrange_lower _ _ _ _ Hl)|]. cbn. lia. }
    rewrite (proj2 (Z.eqb_neq _ _) Ha) in H1, H2, H3.
    split_and!; [lia|constructor|by intros ? ? [= -> ->]|exact H1|lia|exact H3].
Qed.

(** A pass never removes a packet that is not acknowledged: it keeps it,
    possibly with a new deadline. *)
Lemma scanList_unacked t l ps p :
  p ∈ l -> p.(ack) <> 1 -> exists q, q ∈ (scanList t l ps).1 /\ q.(ack) = p.(ack).
Proof.
  revert ps; induction l as [|a l IH]; intros ps Hin Ha; [set_solver|].
  apply elem_of_cons in Hin as [<-|Hin]; cbn [scanList].
  - replace ((getSeqNum p =? ps.(psFront)) && (p.(ack) =? 1)) with false
      by (symmetry; apply andb_false_iff; right; by apply Z.eqb_neq).
    destruct (hasTimedOut _ _).
    + destruct (scanList _ _ _) as [l' ps']. eexists; split; [apply elem_of_cons; by left|done].
    + destruct (scanList _ _ _) as [l' ps']. eexists; split; [apply elem_of_cons; by left|done].
  - destruct (_ && _); [by apply IH|].
    destruct (hasTimedOut _ _); set (ps1 := mkPass _ _ _ _);
      destruct (IH ps1 Hin Ha) as (q & Hq & Hqa); destruct (scanList t l ps1) as [l' ps'];
      exists q; (split; [apply elem_of_cons; by right|done]).
Qed.

(** ** Passes and ACKs on the sender state *)

(** Two packets with the same number and payload. *)
Definition same_pkt (p q : Packet) : Prop := getSeqNum q = getSeqNum p /\ q.(data) = p.(data).

Lemma same_pkt_refl l : Forall2 same_pkt l l.
Proof. apply Forall_Forall2_diag, Forall_forall. done. Qed.

Lemma retimed_same t l l' : Forall2 (retimed t) l l' -> Forall2 same_pkt l l'.
Proof.
  intros H. eapply Forall2_impl; [exact H|].
  intros p q Hpq. unfold same_pkt. by destruct (retimed_fields _ _ _ Hpq) as (-> & -> & _).
Qed.

Lemma same_pkt_insert l i p q :
  l !! i = Some p -> same_pkt p q -> Forall2 same_pkt l (<[i := q]> l).
Proof.
  intros Hi Hq. rewrite <- (list_insert_id l i p) at 1 by done.
  apply Forall2_insert; [apply same_pkt_refl|done].
Qed.

Lemma checkPass_config st : config (checkPass st) = config st.
Proof. unfold checkPass. by destruct (scanList _ _ _). Qed.

Lemma checkPass_resent st :
  resent st.(sent) st.(numRetrans) (checkPass st).(sent) (checkPass st).(numRetrans)
    (checkPass st).(packetList) /\
  st.(slidingWindowFront) <= (checkPass st).(slidingWindowFront).
Proof.
  unfold checkPass.
  pose proof (scanList_resent st.(timeoutMS) st.(packetList)
    (mkPass st.(slidingWindowFront) st.(numRetrans) st.(sent) st.(clockReads))) as H.
  by destruct (scanList _ _ _).
Qed.

(** A pass removes the acknowledged head of the in-flight list and
    advances the front by as many packets; what it keeps are the same
    packets in the same order. *)
Lemma checkPass_spec st n :
  map getSeqNum st.(packetList) = zrange st.(slidingWindowFront) n ->
  exists k, (k <= n)%nat /\
    Forall (fun p => p.(ack) = 1) (take k st.(packetList)) /\
    (forall p rest, drop k st.(packetList) = p :: rest -> p.(ack) <> 1) /\
    Forall2 same_pkt (drop k st.(packetList)) (checkPass st).(packetList) /\
    (checkPass st).(slidingWindowFront) = st.(slidingWindowFront) + Z.of_nat k /\
    resent st.(sent) st.(numRetrans) (checkPass st).(sent) (checkPass st).(numRetrans)
      (checkPass st).(packetList).
Proof.
  intros Hl. unfold checkPass.
  destruct (scanList_spec st.(timeoutMS) st.(packetList)
    (mkPass st.(slidingWindowFront) st.(numRetrans) st.(sent) st.(clockReads)) n Hl)
    as (k & Hk & H1 & H0 & H2 & H3 & H4).
  destruct (scanList _ _ _) as [l' ps]; cbn in *.
  exists k. split_and!; [done|done|done|by eapply retimed_same|done|exact H4].
Qed.

(** An ACK changes no window bound: it can only mark a packet
    acknowledged or give it a new deadline, and send it again. *)
Definition ack_effect (st st' : Sender) : Prop :=
  config st' = config st /\
  st'.(slidingWindowFront) = st.(slidingWindowFront) /\
  Forall2 same_pkt st.(packetList) st'.(packetList) /\
  resent st.(sent) st.(numRetrans) st'.(sent) st'.(numRetrans) st'.(packetList).

Lemma ack_effect_refl st : ack_effect st st.
Proof. split_and!; [done|done|apply same_pkt_refl|apply resent_nil]. Qed.

Lemma handleAck_spec st a : ack_effect st (handleAck st a).
Proof.
  unfold handleAck, findPacketBySeqNum.
  destruct (list_find _ _) as [[i p]|] eqn:E.
  2:{ apply ack_effect_refl. }
  apply list_find_Some in E as (Hi & _ & _).
  pose proof (lookup_lt_Some _ _ _ Hi) as Hlt.
  destruct (_ =? ACK_OK); unfold ack_effect; cbn [config packetList slidingWindowFront sent numRetrans].
  - split_and!; [done|done|by eapply same_pkt_insert|apply resent_nil].
  - split_and!; [done|done|by eapply same_pkt_insert|].
    eapply resent_sub; [apply resent_retrans, resent_nil|].
    intros q ->%list_elem_of_singleton. by apply list_elem_of_insert.
Qed.

(** An ACK string, whatever it holds, is lost, ignored, or handled as
    above; one the decoder rejects makes the thread throw. *)
Lemma onAck_spec st socketData st' :
  onAck st socketData = Ok st' -> ack_effect st st'.
Proof.
  unfold onAck. destruct (reversePacket _ _) as [ap|]; cbn [res_bind]; [|discriminate].
  destruct (popIfHead _ _) as [lost qL].
  destruct lost; [intros [= <-]; exact (ack_effect_refl st)|].
  destruct (isRandom st); [destruct (randomFault _)|]; intros [= <-];
    [exact (ack_effect_refl st)|exact (handleAck_spec (setLostAck st qL _) _)|apply handleAck_spec].
Qed.

(** What sending one chunk does: the next number, one more packet at the
    end of the list, the packet sent (possibly with a forced NACK) unless
    dropped; with no drop queue and no random faults, never dropped. *)
Lemma processChunkData_spec st c :
  let st' := processChunkData st c in
  st'.(curSeqNum) = (st.(curSeqNum) + 1) mod 2 ^ 32 /\
  st'.(slidingWindowEnd) = st.(slidingWindowEnd) + 1 /\
  st'.(slidingWindowFront) = st.(slidingWindowFront) /\
  st'.(slidingWindowSize) = st.(slidingWindowSize) /\
  st'.(numRetrans) = st.(numRetrans) /\
  st'.(artificialErrors) = st.(artificialErrors) /\
  st'.(packetList) = st.(packetList) ++ [chunkPacket st c] /\
  (exists f, st'.(sent) = st.(sent) \/ st'.(sent) = st.(sent) ++ [createPacketString (chunkPacket st c) f]) /\
  (st.(artificialErrors) <> ErrRandom -> st.(errorDrop) = [] ->
   st'.(errorDrop) = [] /\ exists f, st'.(sent) = st.(sent) ++ [createPacketString (chunkPacket st c) f]).
Proof.
  unfold processChunkData.
  destruct (popIfHead st.(errorNACK) _) as [nh qN].
  destruct (if isRandom st then _ else _) as [fN r1].
  destruct (popIfHead st.(errorDrop) _) as [dh qD] eqn:ED.
  destruct (if dh then _ else _) as [sp r2] eqn:E2. cbn.
  split_and!; try done.
  - exists fN. destruct sp; auto.
  - intros Hm Hd. rewrite Hd in ED. cbn in ED. injection ED as <- <-.
    unfold isRandom in E2. rewrite bool_decide_false in E2 by done.
    injection E2 as <- _. eauto.
Qed.

(** ** The window invariant *)

(** A packet carrying chunk number [getSeqNum p] (from 1) of the file's
    chunks [cs0], and a string that encodes such a packet. *)
Definition pkt_ok (cs0 : list (list Z)) (p : Packet) : Prop :=
  1 <= getSeqNum p /\ cs0 !! Z.to_nat (getSeqNum p - 1) = Some p.(data).

Definition sent_ok (cs0 : list (list Z)) (x : list Z) : Prop :=
  exists p f, pkt_ok cs0 p /\ x = createPacketString p f.

(** Packets between the window front and end. *)
Definition inflight (st : Sender) : Z := st.(slidingWindowEnd) + 1 - st.(slidingWindowFront).

(** The invariant of a sender run over the chunks [cs0]: the list holds
    exactly the packets [front .. end], at most [slidingWindowSize] of them
    (fewer when the main thread may send another), each with its chunk;
    every string sent encodes a packet with its chunk; [numRetrans] counts
    every string sent beyond one per chunk. *)
Definition window_inv (cs0 : list (list Z)) (m : Main) (st : Sender) : Prop :=
  1 <= st.(slidingWindowSize) /\
  1 <= st.(slidingWindowFront) <= st.(slidingWindowEnd) + 1 /\
  st.(curSeqNum) = st.(slidingWindowEnd) /\
  st.(slidingWindowEnd) <= Z.of_nat (length cs0) < 2 ^ 31 /\
  drop (Z.to_nat st.(slidingWindowEnd)) cs0 = remaining m /\
  map getSeqNum st.(packetList) = zrange st.(slidingWindowFront) (Z.to_nat (inflight st)) /\
  inflight st <= st.(slidingWindowSize) /\
  (forall cs, m = Reading cs -> inflight st < st.(slidingWindowSize)) /\
  (m = Finished -> st.(packetList) = []) /\
  Forall (pkt_ok cs0) st.(packetList) /\
  Forall (sent_ok cs0) st.(sent) /\
  st.(numRetrans) <= Z.of_nat (length st.(sent)) <= st.(numRetrans) + st.(slidingWindowEnd).

Lemma same_pkt_seqs l l' : Forall2 same_pkt l l' -> map getSeqNum l' = map getSeqNum l.
Proof. induction 1 as [|p q l l' [Hs _] _ IH]; cbn; congruence. Qed.

Lemma same_pkt_ok cs0 l l' :
  Forall2 same_pkt l l' -> Forall (pkt_ok cs0) l -> Forall (pkt_ok cs0) l'.
Proof.
  induction 1 as [|p q l l' [Hs Hd] _ IH]; intros Hl; [constructor|].
  apply Forall_cons in Hl as [[H1 H2] Hl]. constructor; [|auto].
  unfold pkt_ok. rewrite Hs, Hd. auto.
Qed.

Lemma resent_count s r s' r' l' :
  resent s r s' r' l' -> Z.of_nat (length s') - r' = Z.of_nat (length s) - r.
Proof. intros (extra & -> & -> & _). rewrite length_app. lia. Qed.

(** What a pass or an ACK resends keeps the log well formed and
    [numRetrans] in step with it. *)
Lemma resent_inv cs0 s r s' r' l' :
  resent s r s' r' l' -> Forall (pkt_ok cs0) l' -> Forall (sent_ok cs0) s ->
  Forall (sent_ok cs0) s' /\ Z.of_nat (length s') - r' = Z.of_nat (length s) - r.
Proof.
  intros Hr Hl Hs. split; [|by eapply resent_count].
  destruct Hr as (extra & -> & -> & Hx). apply Forall_app. split; [done|].
  eapply Forall_impl; [exact Hx|]. intros x (q & Hq & ->).
  exists q, false. split; [|done]. by eapply Forall_forall in Hl.
Qed.

(** The packet of the next chunk carries number [curSeqNum + 1] while it
    stays below [2^31]. *)
Lemma chunkPacket_seq st c :
  0 <= st.(curSeqNum) -> st.(curSeqNum) + 1 < 2 ^ 31 ->
  getSeqNum (chunkPacket st c) = st.(curSeqNum) + 1 /\ (chunkPacket st c).(data) = c.
Proof.
  intros H0 H1. unfold getSeqNum, chunkPacket; cbn.
  rewrite Z.mod_mod, Z.mod_small by lia. split; [by apply signed32_small; lia|done].
Qed.

Lemma window_inv_chunk cs0 c cs st :
  window_inv cs0 (Reading (c :: cs)) st -> window_inv cs0 (Checking cs) (processChunkData st c).
Proof.
  intros (Hsz & Hfr & Hcur & Hlen & Hdrop & Hmap & _ & Hr & _ & Hpk & Hsent & Hcnt).
  specialize (Hr _ eq_refl).
  destruct (processChunkData_spec st c) as (E1 & E2 & E3 & E4 & E5 & _ & E7 & [f E8] & _).
  set (e := st.(slidingWindowEnd)) in *.
  assert (He : (Z.to_nat e < length cs0)%nat).
  { apply (f_equal length) in Hdrop. rewrite length_drop in Hdrop. cbn in Hdrop. lia. }
  assert (Hc : cs0 !! Z.to_nat e = Some c).
  { by rewrite <- (Nat.add_0_r (Z.to_nat e)), <- lookup_drop, Hdrop. }
  destruct (chunkPacket_seq st c) as [Hs Hd]; [lia|lia|].
  assert (Hp : pkt_ok cs0 (chunkPacket st c)).
  { unfold pkt_ok. rewrite Hs, Hd, Hcur. split; [lia|]. by replace (e + 1 - 1) with e by lia. }
  unfold window_inv, inflight in *. rewrite E1, E2, E3, E4, E5, E7.
  split_and!; try done; try lia.
  - rewrite Hcur, Z.mod_small; lia.
  - replace (Z.to_nat (e + 1)) with (Z.to_nat e + 1)%nat by lia. by rewrite <- drop_drop, Hdrop.
  - rewrite map_app, Hmap. cbn [map]. rewrite Hs, Hcur.
    replace (Z.to_nat (e + 1 + 1 - slidingWindowFront st))
      with (S (Z.to_nat (e + 1 - slidingWindowFront st))) by lia.
    rewrite zrange_S. do 2 f_equal. lia.
  - apply Forall_app. auto.
  - destruct E8 as [-> | ->]; [done|]. apply Forall_app. split; [done|]. constructor; [|done].
    by exists (chunkPacket st c), f.
  - destruct E8 as [-> | ->]; rewrite ?length_app; cbn [length]; lia.
  - destruct E8 as [-> | ->]; rewrite ?length_app; cbn [length]; lia.
Qed.

Lemma window_inv_pass cs0 m m' st :
  window_inv cs0 m st -> remaining m' = remaining m ->
  (forall cs, m' = Reading cs -> checkExit false (checkPass st) = true) ->
  (m' = Finished -> checkExit true (checkPass st) = true) ->
  window_inv cs0 m' (checkPass st).
Proof.
  intros (Hsz & Hfr & Hcur & Hlen & Hdrop & Hmap & Hb & _ & _ & Hpk & Hsent & Hcnt) Hrem Hgo Hfin.
  destruct (checkPass_spec st _ Hmap) as (k & Hk & _ & _ & Hsame & Hfront & Hres).
  pose proof (checkPass_config st) as Hc. unfold config in Hc.
  injection Hc as C1 C2 C3 C4 C5 C6 C7 C8.
  assert (Hpk' : Forall (pkt_ok cs0) (checkPass st).(packetList))
    by (eapply same_pkt_ok; [exact Hsame|by apply Forall_drop]).
  destruct (resent_inv cs0 _ _ _ _ _ Hres Hpk' Hsent) as [Hs1 Hs2].
  unfold checkExit in Hgo, Hfin.
  unfold window_inv, inflight in *. rewrite C1, C3, C4, Hfront, Hrem in *.
  split_and!; try done; try lia.
  - rewrite (same_pkt_seqs _ _ Hsame), map_drop, Hmap, zrange_drop. f_equal. lia.
  - intros cs ->. specialize (Hgo _ eq_refl). zify_bool. lia.
  - intros ->. specialize (Hfin eq_refl). apply Nat.eqb_eq in Hfin. by apply nil_length_inv.
Qed.

Lemma window_inv_ack cs0 m st st' :
  window_inv cs0 m st -> ack_effect st st' -> window_inv cs0 m st'.
Proof.
  intros (Hsz & Hfr & Hcur & Hlen & Hdrop & Hmap & Hb & Hr & Hf & Hpk & Hsent & Hcnt)
    (Hc & Hfront & Hsame & Hres).
  unfold config in Hc. injection Hc as C1 C2 C3 C4 C5 C6 C7 C8.
  assert (Hpk' : Forall (pkt_ok cs0) st'.(packetList)) by (eapply same_pkt_ok; eauto).
  destruct (resent_inv cs0 _ _ _ _ _ Hres Hpk' Hsent) as [Hs1 Hs2].
  unfold window_inv, inflight in *. rewrite C1, C3, C4, Hfront in *.
  split_and!; try done; try lia.
  - by rewrite (same_pkt_seqs _ _ Hsame).
  - intros ->. specialize (Hf eq_refl). rewrite Hf in Hsame. by apply Forall2_nil_inv_l in Hsame.
Qed.

Lemma window_inv_step cs0 x y :
  window_inv cs0 x.1 x.2 -> sstep x y -> window_inv cs0 y.1 y.2.
Proof.
  intros Hi Hs. destruct Hs as [c cs st|st|cs st E|cs st E|st E|st E|m a st st' E]; cbn in *.
  - by apply window_inv_chunk.
  - destruct Hi as (H1 & H2 & H3 & H4 & H5 & H6 & H7 & H8 & H9 & H10 & H11 & H12).
    split_and!; try done; try lia; congruence.
  - apply (window_inv_pass _ _ _ _ Hi); try done; intros; congruence.
  - apply (window_inv_pass _ _ _ _ Hi); try done; intros; congruence.
  - apply (window_inv_pass _ _ _ _ Hi); try done; intros; congruence.
  - apply (window_inv_pass _ _ _ _ Hi); try done; intros; congruence.
  - eapply window_inv_ack; [exact Hi|]. by eapply onAck_spec.
Qed.

Lemma window_inv_init cs0 t size range mode d n l :
  1 <= size -> Z.of_nat (length cs0) < 2 ^ 31 ->
  window_inv cs0 (Reading cs0) (initSender t size range mode d n l).
Proof.
  intros Hs Hl. unfold window_inv, inflight; cbn.
  split_and!; try done; try lia.
Qed.

Lemma window_inv_reach cs0 t size range mode d n l x :
  1 <= size -> Z.of_nat (length cs0) < 2 ^ 31 ->
  rtc sstep (Reading cs0, initSender t size range mode d n l) x ->
  window_inv cs0 x.1 x.2.
Proof.
  intros Hs Hl Hr.
  refine (rtc_invariant _ (fun x => window_inv cs0 x.1 x.2) _ _ (window_inv_step cs0) _ Hr).
  by apply window_inv_init.
Qed.

(** The scheduler and the step relation have the same steps. *)
Lemma sched_step_sound x e y : sched_step x e = Some y -> sstep x y.
Proof.
  destruct e as [|a]; cbn [sched_step].
  - destruct x as [[[|c cs]|cs| |] st]; cbn [main_step]; intros E; try discriminate; injection E as <-.
    + constructor.
    + constructor.
    + destruct (checkExit false (checkPass st)) eqn:Ex; cbv [checkExit] in Ex; rewrite Ex; by constructor.
    + destruct (checkExit true (checkPass st)) eqn:Ex; cbv [checkExit] in Ex; rewrite Ex; by constructor.
  - destruct (onAck x.2 a) eqn:E; intros Hy; invc Hy.
    destruct x. by eapply s_ack.
Qed.

Lemma sched_step_complete x y : sstep x y -> exists e, sched_step x e = Some y.
Proof.
  destruct 1 as [c cs st|st|cs st E|cs st E|st E|st E|m a st st' E].
  1-2: by exists EMain.
  1-4: exists EMain; cbn [sched_step main_step]; cbv [checkExit] in E |- *; by rewrite E.
  exists (EAck a). cbn. by rewrite E.
Qed.

Lemma run_sched_sound x es y : run_sched x es = Some y -> rtc sstep x y.
Proof.
  revert x; induction es as [|e es IH]; intros x; cbn.
  - intros [= ->]. constructor.
  - destruct (sched_step x e) as [z|] eqn:E; [|discriminate].
    intros Hz. eapply rtc_l; [by eapply sched_step_sound|auto].
Qed.

(** ** Counting retransmissions when nothing is dropped *)

Definition nodrop_inv (st : Sender) : Prop :=
  st.(artificialErrors) <> ErrRandom /\ st.(errorDrop) = [] /\
  Z.of_nat (length st.(sent)) = st.(numRetrans) + st.(slidingWindowEnd).

Lemma nodrop_inv_step x y : nodrop_inv x.2 -> sstep x y -> nodrop_inv y.2.
Proof.
  intros (Hm & Hd & Hc) Hs.
  destruct Hs as [c cs st|st|cs st _|cs st _|st _|st _|m a st st' E]; cbn [fst snd] in *; try done.
  { destruct (processChunkData_spec st c) as (_ & E2 & _ & _ & E5 & E6 & _ & _ & E9).
    destruct (E9 Hm Hd) as [Hd' [f Hs']]. unfold nodrop_inv.
    rewrite E2, E5, E6, Hd', Hs', length_app. cbn [length]. split_and!; [done|done|lia]. }
  all: match goal with
       | E : onAck _ _ = Ok _ |- _ => pose proof (onAck_spec _ _ _ E) as (C & _ & _ & R)
       | |- nodrop_inv (checkPass ?st) =>
           pose proof (checkPass_config st) as C; pose proof (proj1 (checkPass_resent st)) as R
       end.
  all: unfold config in C; injection C as C1 C2 C3 C4 C5 C6 C7 C8;
    apply resent_count in R; unfold nodrop_inv; rewrite C4, C6, C7; split_and!; [done|done|lia].
Qed.

(** The drop queue after sending a chunk: popped when its head is the
    new packet's number. *)
Lemma processChunkData_drop st c :
  (processChunkData st c).(errorDrop) = (popIfHead st.(errorDrop) (getSeqNum (chunkPacket st c))).2.
Proof.
  unfold processChunkData.
  destruct (popIfHead st.(errorNACK) _) as [nh qN].
  destruct (isRandom st); destruct (popIfHead st.(errorDrop) _) as [[] qD]; reflexivity.
Qed.

(** A drop queue whose head is at most 0 is never popped: data packets
    are numbered from 1. *)
Lemma drop_head_step cs0 x0 q x y :
  x0 <= 0 -> window_inv cs0 x.1 x.2 -> x.2.(errorDrop) = x0 :: q -> sstep x y -> y.2.(errorDrop) = x0 :: q.
Proof.
  intros Hx0 Hi Hd Hs.
  destruct Hs as [c cs st|st|cs st _|cs st _|st _|st _|m a st st' E]; cbn [fst snd] in *; try done.
  2-5: pose proof (checkPass_config st) as C; unfold config in C; injection C as C1 C2 C3 C4 C5 C6 C7 C8; rewrite C7; exact Hd.
  - destruct Hi as (_ & Hfr & Hcur & Hlen & Hdrop & _).
    assert (Hlt : (Z.to_nat st.(slidingWindowEnd) < length cs0)%nat).
    { apply (f_equal length) in Hdrop. rewrite length_drop in Hdrop. cbn in Hdrop. lia. }
    destruct (chunkPacket_seq st c) as [Hs _]; [lia|lia|].
    rewrite processChunkData_drop, Hd, Hs, popIfHead_miss; [done|cbn; intros [= Heq]; lia].
  - destruct (onAck_spec _ _ _ E) as (C & _). unfold config in C. injection C as C1 C2 C3 C4 C5 C6 C7 C8. rewrite C7; exact Hd.
Qed.

(** The window front never moves back. *)
Lemma sstep_front_mono x y :
  sstep x y -> x.2.(slidingWindowFront) <= y.2.(slidingWindowFront).
Proof.
  destruct 1 as [c cs st|st|cs st _|cs st _|st _|st _|m a st st' E]; cbn [fst snd].
  3-6: apply checkPass_resent.
  - destruct (processChunkData_spec st c) as (_ & _ & -> & _). lia.
  - lia.
  - destruct (onAck_spec _ _ _ E) as (_ & -> & _). lia.
Qed.

End Env.

(** ** A concrete run

    Two one-byte chunks, a window of 2, a 1000 ms timeout, a clock that
    advances 1 ms per reading and no faults: both packets are sent, both
    ACKs arrive, one pass slides the window past them and the final pass
    ends the transfer. *)
Definition demo_now (i : nat) : Z := Z.of_nat i.
Definition demo_rand (_ : nat) : Z := 1.
Definition demo_chunks : list (list Z) := [[65]; [66]].
Definition demo_init : Sender := initSender 1000 2 0 ErrNone [] [] [].
Definition demo_ack (k : Z) : list Z := createPacketString (setAck ACK_OK (setSeqNum k newPacket)) false.
Definition demo_events : list Event :=
  [EMain; EMain; EMain; EAck (demo_ack 1); EAck (demo_ack 2); EMain; EMain; EMain].
Definition demo_final : Main * Sender :=
  match run_sched demo_now demo_rand (Reading demo_chunks, demo_init) demo_events with
  | Some x => x
  | None => (Reading demo_chunks, demo_init)
  end.

Lemma demo_reach : rtc (sstep demo_now demo_rand) (Reading demo_chunks, demo_init) demo_final.
Proof. apply (run_sched_sound demo_now demo_rand _ demo_events). vm_compute. reflexivity. Qed.

(** A lost ACK (spec 8): one chunk, window 1, timeout 1500 ms, a clock
    advancing 1000 ms per reading, ACK 1 in the lost-ACK queue.  The ACK
    arrives and is ignored; the first pass finds the packet in time, the
    second finds it late and sends it again. *)
Definition lost_now (i : nat) : Z := 1000 * Z.of_nat i.
Definition lost_init : Sender := initSender 1500 1 0 ErrUser [] [] [1].
Definition lost_events : list Event := [EMain; EAck (demo_ack 1); EMain; EMain].
Definition lost_final : Main * Sender :=
  match run_sched lost_now demo_rand (Reading [[65]], lost_init) lost_events with
  | Some x => x
  | None => (Reading [[65]], lost_init)
  end.

(** An acknowledged packet behind an unacknowledged front: packet 1 is
    in time and not acknowledged, packet 2 is acknowledged but past its
    deadline. *)
Definition behind_p1 : Packet := setTimeout 100 0 (setSeqNum 1 newPacket).
Definition behind_p2 : Packet := setAck 1 (setTimeout 0 0 (setSeqNum 2 newPacket)).
Definition behind_st : Sender :=
  mkSender 2 0 1000 2 1 2 0 [behind_p1; behind_p2] ErrNone [] [] [] [] 0 0.

(** ** Properties of the sender *)

(** C13. Window invariant (spec 4.2 and 7): in every state of a sender
    run over chunks [cs0] -- any interleaving of the main thread with ACKs
    of any content -- the in-flight list holds exactly the packets
    numbered [front .. end] in order, there are at most
    [slidingWindowSize] of them, each carries the chunk of its number, and
    every string handed to the socket encodes a packet carrying the chunk
    of its number. *)
Theorem sender_window_invariant now rand cs0 t size range mode d n l x :
  1 <= size -> Z.of_nat (length cs0) < 2 ^ 31 ->
  rtc (sstep now rand) (Reading cs0, initSender t size range mode d n l) x ->
  0 <= inflight x.2 <= x.2.(slidingWindowSize) /\
  map getSeqNum x.2.(packetList) = zrange x.2.(slidingWindowFront) (Z.to_nat (inflight x.2)) /\
  Forall (pkt_ok cs0) x.2.(packetList) /\ Forall (sent_ok cs0) x.2.(sent).
Proof.
  intros Hs Hl Hr.
  destruct (window_inv_reach _ _ _ _ _ _ _ _ _ _ _ Hs Hl Hr)
    as (_ & Hf & _ & _ & _ & Hmap & Hb & _ & _ & Hpk & Hsent & _).
  unfold inflight in *. split_and!; auto with lia.
Qed.

(** Witness of C13. *)
Lemma sender_window_invariant_witness :
  0 <= inflight demo_final.2 <= demo_final.2.(slidingWindowSize) /\
  map getSeqNum demo_final.2.(packetList) =
    zrange demo_final.2.(slidingWindowFront) (Z.to_nat (inflight demo_final.2)) /\
  Forall (pkt_ok demo_chunks) demo_final.2.(packetList) /\ Forall (sent_ok demo_chunks) demo_final.2.(sent).
Proof.
  apply (sender_window_invariant demo_now demo_rand demo_chunks 1000 2 0 ErrNone [] [] [] demo_final);
    [lia|vm_compute; reflexivity|exact demo_reach].
Defined.

(** The window of a sender past its final wait: nothing in flight, the
    front one past the last chunk. *)
Lemma finished_window cs0 st :
  window_inv cs0 Finished st ->
  st.(packetList) = [] /\
  st.(slidingWindowEnd) = Z.of_nat (length cs0) /\
  st.(slidingWindowFront) = Z.of_nat (length cs0) + 1.
Proof.
  intros (_ & Hf & _ & Hlen & Hdrop & Hmap & _ & _ & Hfin & _).
  specialize (Hfin eq_refl). rewrite Hfin in Hmap.
  apply (f_equal length) in Hmap, Hdrop. rewrite length_zrange in Hmap.
  rewrite length_drop in Hdrop. cbn in Hmap, Hdrop. unfold inflight in Hmap.
  split_and!; [done|lia|lia].
Qed.

(** C14. Completion: when the main thread is past [checkPacketQueue(true)],
    the in-flight list is empty and the window front is one past the last
    chunk: every chunk's packet was acknowledged and removed in order. *)
Theorem sender_finished now rand cs0 t size range mode d n l x :
  1 <= size -> Z.of_nat (length cs0) < 2 ^ 31 ->
  rtc (sstep now rand) (Reading cs0, initSender t size range mode d n l) x ->
  x.1 = Finished ->
  x.2.(packetList) = [] /\
  x.2.(slidingWindowEnd) = Z.of_nat (length cs0) /\
  x.2.(slidingWindowFront) = Z.of_nat (length cs0) + 1.
Proof.
  intros Hs Hl Hr Hx. apply finished_window.
  rewrite <- Hx. exact (window_inv_reach _ _ _ _ _ _ _ _ _ _ _ Hs Hl Hr).
Qed.

(** Witness of C14. *)
Lemma sender_finished_witness :
  demo_final.1 = Finished /\ demo_final.2.(packetList) = [] /\
  demo_final.2.(slidingWindowEnd) = Z.of_nat (length demo_chunks) /\
  demo_final.2.(slidingWindowFront) = Z.of_nat (length demo_chunks) + 1.
Proof.
  assert (E : demo_final.1 = Finished) by (vm_compute; reflexivity).
  split; [exact E|].
  apply (sender_finished demo_now demo_rand demo_chunks 1000 2 0 ErrNone [] [] [] demo_final);
    [lia|vm_compute; reflexivity|exact demo_reach|exact E].
Defined.

(** Retransmission count: when nothing is dropped (no drop queue,
    no random faults), the strings sent are exactly one per chunk sent so
    far plus [numRetrans]. *)
Theorem sender_retrans_count now rand cs0 t size range mode n l x :
  mode <> ErrRandom ->
  rtc (sstep now rand) (Reading cs0, initSender t size range mode [] n l) x ->
  Z.of_nat (length x.2.(sent)) = x.2.(numRetrans) + x.2.(slidingWindowEnd).
Proof.
  intros Hm Hr.
  refine (proj2 (proj2 (rtc_invariant _ (fun y => nodrop_inv y.2) _ _ (nodrop_inv_step now rand) _ Hr))).
  unfold nodrop_inv; cbn. done.
Qed.

(** The lemma above at a concrete input. *)
Lemma sender_retrans_count_witness :
  ErrNone <> ErrRandom /\
  Z.of_nat (length demo_final.2.(sent)) = demo_final.2.(numRetrans) + demo_final.2.(slidingWindowEnd).
Proof.
  split; [done|].
  apply (sender_retrans_count demo_now demo_rand demo_chunks 1000 2 0 ErrNone [] [] demo_final);
    [done|exact demo_reach].
Defined.

(** The window front never moves back, whatever the interleaving. *)
Theorem sender_front_monotone now rand x y :
  rtc (sstep now rand) x y -> x.2.(slidingWindowFront) <= y.2.(slidingWindowFront).
Proof.
  induction 1 as [|a b c Hab _ IH]; [lia|].
  pose proof (sstep_front_mono now rand _ _ Hab). lia.
Qed.

(** The lemma above at a concrete input. *)
Lemma sender_front_monotone_witness :
  demo_init.(slidingWindowFront) <= demo_final.2.(slidingWindowFront).
Proof. exact (sender_front_monotone demo_now demo_rand (Reading demo_chunks, demo_init) demo_final demo_reach). Defined.

(** Forced NACK (spec 8): when the next packet's number is at the
    head of the NACK queue, the entry is consumed and the packet, unless
    dropped, is sent with the checksum field forced ([forceNACK]). *)
Theorem processChunkData_forced_nack now rand st c q :
  0 <= st.(curSeqNum) -> st.(curSeqNum) + 1 < 2 ^ 31 ->
  st.(errorNACK) = (st.(curSeqNum) + 1) :: q ->
  (processChunkData now rand st c).(errorNACK) = q /\
  ((processChunkData now rand st c).(sent) = st.(sent) \/
   (processChunkData now rand st c).(sent) = st.(sent) ++ [createPacketString (chunkPacket now st c) true]).
Proof.
  intros H0 H1 Hq. destruct (chunkPacket_seq now st c H0 H1) as [Hs _].
  unfold processChunkData. rewrite Hs, Hq, popIfHead_hit.
  replace (if isRandom st then _ else _) with (true, if isRandom st then S st.(randDraws) else st.(randDraws))
    by (by destruct (isRandom st)).
  destruct (popIfHead st.(errorDrop) _) as [dh qD].
  destruct (if dh then _ else _) as [[] r2]; cbn; auto.
Qed.

(** The lemma above at a concrete input. *)
Lemma processChunkData_forced_nack_witness :
  (processChunkData demo_now demo_rand (initSender 1000 2 0 ErrUser [] [1] []) [65]).(errorNACK) = [] /\
  ((processChunkData demo_now demo_rand (initSender 1000 2 0 ErrUser [] [1] []) [65]).(sent) = [] \/
   (processChunkData demo_now demo_rand (initSender 1000 2 0 ErrUser [] [1] []) [65]).(sent) =
     [] ++ [createPacketString (chunkPacket demo_now (initSender 1000 2 0 ErrUser [] [1] []) [65]) true]).
Proof. apply processChunkData_forced_nack; [cbn; lia|cbn; lia|reflexivity]. Defined.

(** C34. An ACK whose code is not [ACK_OK] -- [ACK_FAIL], but also 0 or 3,
    which the spec does not list -- for a packet in flight makes the ACK
    thread send that packet again at once and count a retransmission; its
    deadline becomes 500 ms from now whatever [timeoutMS] is. *)
Theorem handleAck_not_ok now st a i p :
  findPacketBySeqNum st.(packetList) (getSeqNum a) = Some (i, p) -> a.(ack) <> ACK_OK ->
  (handleAck now st a).(numRetrans) = st.(numRetrans) + 1 /\
  (handleAck now st a).(sent) = st.(sent) ++ [createPacketString (setTimeout (now st.(clockReads)) 500 p) false] /\
  (handleAck now st a).(packetList) = <[i := setTimeout (now st.(clockReads)) 500 p]> st.(packetList).
Proof.
  intros Hf Ha. unfold handleAck. rewrite Hf.
  by replace (a.(ack) =? ACK_OK) with false by (symmetry; by apply Z.eqb_neq).
Qed.

(** Witness of C34: an ACK of packet 1 with code 0. *)
Lemma handleAck_not_ok_witness :
  findPacketBySeqNum (processChunkData demo_now demo_rand demo_init [65]).(packetList)
    (getSeqNum (setSeqNum 1 newPacket)) = Some (0%nat, chunkPacket demo_now demo_init [65]) /\
  (handleAck demo_now (processChunkData demo_now demo_rand demo_init [65]) (setSeqNum 1 newPacket)).(numRetrans)
    = (processChunkData demo_now demo_rand demo_init [65]).(numRetrans) + 1.
Proof.
  assert (Hf : findPacketBySeqNum (processChunkData demo_now demo_rand demo_init [65]).(packetList)
                 (getSeqNum (setSeqNum 1 newPacket)) = Some (0%nat, chunkPacket demo_now demo_init [65]))
    by (vm_compute; reflexivity).
  split; [exact Hf|]. apply (handleAck_not_ok demo_now _ _ _ _ Hf). cbn. discriminate.
Defined.

(** Lost ACK (spec 8): an ACK whose number is at the head of the
    lost-ACK queue consumes the entry and changes nothing else. *)
Theorem onAck_lost now rand st s a q :
  reversePacket s newPacket = Ok a -> st.(errorLostAck) = getSeqNum a :: q ->
  onAck now rand st s = Ok (setLostAck st q st.(randDraws)).
Proof.
  intros Hp Hq. unfold onAck. rewrite Hp. cbn [res_bind].
  replace (getSeqNum (setSeqNumRange _ a)) with (getSeqNum a) by done.
  by rewrite Hq, popIfHead_hit.
Qed.

(** The lemma above at a concrete input. *)
Lemma onAck_lost_witness :
  reversePacket (demo_ack 1) newPacket =
    Ok (mkPacket 1 0 1 (Checksum.createChecksum []) [] 0) /\
  onAck demo_now demo_rand lost_init (demo_ack 1) = Ok (setLostAck lost_init [] 0).
Proof.
  assert (H : reversePacket (demo_ack 1) newPacket = Ok (mkPacket 1 0 1 (Checksum.createChecksum []) [] 0))
    by (vm_compute; reflexivity).
  split; [exact H|]. by apply (onAck_lost demo_now demo_rand lost_init _ _ [] H).
Defined.

(** Timeout-driven retransmission (spec 8): in the lost-ACK run, the
    packet whose ACK was lost is sent again once its deadline has passed,
    and [numRetrans] counts exactly that one retransmission. *)
Example lost_ack_retransmitted :
  lost_final.1 = Checking [] /\ lost_final.2.(errorLostAck) = [] /\
  lost_final.2.(numRetrans) = 1 /\ length lost_final.2.(sent) = 2%nat /\
  rtc (sstep lost_now demo_rand) (Reading [[65]], lost_init) lost_final.
Proof.
  split_and!; [vm_compute; reflexivity..|].
  apply (run_sched_sound lost_now demo_rand _ lost_events). vm_compute. reflexivity.
Qed.

(** A pass sends again an acknowledged packet that is past its
    deadline when an unacknowledged packet is ahead of it: the window
    front cannot move past packet 1, and packet 2, already acknowledged,
    is retransmitted and counted. *)
Example checkPass_resends_acked :
  (checkPass demo_now behind_st).(numRetrans) = 1 /\
  (checkPass demo_now behind_st).(slidingWindowFront) = 1 /\
  (checkPass demo_now behind_st).(sent) =
    [createPacketString (setTimeout (demo_now 2) 1000 behind_p2) false] /\
  behind_p2.(ack) = 1.
Proof. split_and!; vm_compute; reflexivity. Qed.

(** Consequence of a leading blank in the drop list: a sender
    started with a drop queue whose head is at most 0 never pops it, so no
    packet is ever dropped on the operator's request. *)
Theorem user_drops_lost now rand cs0 t size range mode x0 q n l y :
  1 <= size -> Z.of_nat (length cs0) < 2 ^ 31 -> x0 <= 0 ->
  rtc (sstep now rand) (Reading cs0, initSender t size range mode (x0 :: q) n l) y ->
  y.2.(errorDrop) = x0 :: q.
Proof.
  intros Hs Hl Hx Hr.
  refine (proj2 (rtc_invariant _ (fun z => window_inv cs0 z.1 z.2 /\ z.2.(errorDrop) = x0 :: q) _ _ _ _ Hr)).
  - intros a b [Ha Hd] Hab. split; [by eapply window_inv_step|by eapply drop_head_step].
  - split; [by apply window_inv_init|done].
Qed.

(** Witness: the drop list " 1" read as [0; 1]. *)
Lemma user_drops_lost_witness :
  (rtc (sstep demo_now demo_rand) (Reading [[65]], initSender 1000 2 0 ErrUser [0; 1] [] [])
     (Checking [], processChunkData demo_now demo_rand (initSender 1000 2 0 ErrUser [0; 1] [] []) [65])) /\
  (processChunkData demo_now demo_rand (initSender 1000 2 0 ErrUser [0; 1] [] []) [65]).(errorDrop) = [0; 1].
Proof.
  assert (H : rtc (sstep demo_now demo_rand) (Reading [[65]], initSender 1000 2 0 ErrUser [0; 1] [] [])
     (Checking [], processChunkData demo_now demo_rand (initSender 1000 2 0 ErrUser [0; 1] [] []) [65]))
    by (eapply rtc_l; [constructor|constructor]).
  split; [exact H|]. exact (user_drops_lost demo_now demo_rand [[65]] 1000 2 0 ErrUser 0 [1] [] [] _
                              ltac:(lia) ltac:(cbn; lia) ltac:(lia) H).
Defined.

End Sender.
