(* ===== verification/Receiver.v ===== *)
(** * The receiver: [src/receiver.cpp]

    The receiver keeps, in global variables and in locals of [main], the
    reorder buffer [packetBuffer], the output file [senderFile], the next
    expected sequence number [curPktNum], the parameters of the handshake,
    the duplicate set [donePackets] and statistics.  Each iteration of the
    [while (1)] loop of [main] (lines 211-304) reads one message, answers
    PING probes, decodes the packet, replies with an ACK or NACK
    ([sendAckMessage]), drops invalid and duplicate packets, handles the
    handshake (sequence 0), inserts the packet in the buffer (at the front
    when it is the expected one, by [push_back] and [sort] otherwise) and
    flushes the in-order run ([processPacketBuffer]).

    Here: the state record, [processPacketBuffer], [sendAckMessage], one
    iteration as [step], the loop over a list of messages as [run]; the
    invariant that the reorder buffer is strictly sorted above [curPktNum]
    and that the file holds exactly the payloads [1 .. curPktNum - 1]; one
    reply per packet; duplicate suppression; the exit of the loop before the
    handshake; each iteration counts at most one packet received and
    marks at most as many packets done ([step_counts], [run_counts]). *)

From S2P Require Import Prelude Bitset Checksum Codec Handshake.
From stdpp Require Import gmap sorting.
Open Scope Z_scope.
Open Scope proto_scope.

Module Receiver.

Import Codec.

Record Receiver := mkReceiver {
  packetBuffer : list Packet;        (** [vector<unique_ptr<Packet>> packetBuffer] *)
  senderFile : option (list Z);      (** [ofstream senderFile]: [None] until opened *)
  outputFileName : list Z;
  curPktNum : Z;
  lastPktNum : Z;
  numPackets : Z;
  fileSize : Z;
  packetSize : Z;
  slidingWindowSize : Z;
  seqNumRange : Z;
  protocol : list Z;
  donePackets : gset Z;              (** [map<int, bool> donePackets], used as a set *)
  numReceived : Z;                   (** locals of [main] *)
  lastReceived : Z;
  replies : list (list Z)            (** the strings passed to [sendData], in order *)
}.

(** The globals' initial values and [main]'s locals before the loop,
    with the replies already sent (the PING echoes before the handshake). *)
Definition initReplies (replies : list (list Z)) : Receiver :=
  mkReceiver [] None [] 0 0 0 0 0 0 0 Handshake.SR ∅ 0 0 replies.

Definition init : Receiver := initReplies [].

(** [senderFile.write(...)]: a stream never opened does not write. *)
Definition fileWrite (f : option (list Z)) (d : list Z) : option (list Z) :=
  match f with Some bytes => Some (bytes ++ d) | None => None end.

(** [comparePacketSeq], as the relation [sort] orders by. *)
Definition seq_le (p q : Packet) : Prop := getSeqNum p <= getSeqNum q.
#[export] Instance seq_le_dec : RelDecision seq_le.
Proof. intros p q. unfold seq_le. apply _. Defined.

(** [sort(packetBuffer.begin(), packetBuffer.end(), comparePacketSeq)].
    [std::sort] leaves the order of equal keys unspecified; the buffer's
    keys are pairwise distinct (see [buffer_ok]), so any sort gives this
    list. *)
Definition sortBuffer (buf : list Packet) : list Packet := merge_sort seq_le buf.

(** [processPacketBuffer()]: write and drop the front packet while its
    sequence number is not above [curPktNum]. *)
Fixpoint flush (buf : list Packet) (cur : Z) (file : option (list Z))
  : list Packet * Z * option (list Z) :=
  match buf with
  | [] => ([], cur, file)
  | p :: rest =>
      if cur <? getSeqNum p then (buf, cur, file)
      else flush rest (cur + 1) (fileWrite file p.(data))
  end.

Definition processPacketBuffer (st : Receiver) : Receiver :=
  let '(buf, cur, file) := flush st.(packetBuffer) st.(curPktNum) st.(senderFile) in
  mkReceiver buf file st.(outputFileName) cur st.(lastPktNum) st.(numPackets) st.(fileSize)
    st.(packetSize) st.(slidingWindowSize) st.(seqNumRange) st.(protocol) st.(donePackets)
    st.(numReceived) st.(lastReceived) st.(replies).

(** [sendAckMessage(clientSocket, seqNum, validChecksum)]: the reply
    packet carries one zero byte of data. *)
Definition ackString (seqNumRange seq : Z) (valid : bool) : list Z :=
  createPacketString
    (setData [0] (setAck (if valid then ACK_OK else ACK_FAIL)
      (setSeqNumRange seqNumRange (setSeqNum seq newPacket)))) false.

Definition PING : list Z := [80; 73; 78; 71].

(** [numReceived++], [lastReceived = showSeqNum()] and the reply sent by
    [sendAckMessage] (lines 224-250). *)
Definition acknowledge (st : Receiver) (p : Packet) (valid : bool) : Receiver :=
  mkReceiver st.(packetBuffer) st.(senderFile) st.(outputFileName) st.(curPktNum)
    st.(lastPktNum) st.(numPackets) st.(fileSize) st.(packetSize) st.(slidingWindowSize)
    st.(seqNumRange) st.(protocol) st.(donePackets) (st.(numReceived) + 1) (showSeqNum p)
    (st.(replies) ++ [ackString st.(seqNumRange) (getSeqNum p) valid]).

(** [donePackets[seq] = 1] and the update of [lastPktNum] (lines 261-266). *)
Definition markDone (st : Receiver) (seq : Z) : Receiver :=
  mkReceiver st.(packetBuffer) st.(senderFile) st.(outputFileName) st.(curPktNum)
    (if st.(lastPktNum) <? seq then seq else st.(lastPktNum)) st.(numPackets) st.(fileSize)
    st.(packetSize) st.(slidingWindowSize) st.(seqNumRange) st.(protocol)
    ({[seq]} ∪ st.(donePackets)) st.(numReceived) st.(lastReceived) st.(replies).

(** [readInitialPacket] sets the globals and opens the file; then
    [curPktNum++] (lines 269-273). *)
Definition applyHandshake (st : Receiver) (hp : Handshake.Params) : Receiver :=
  mkReceiver st.(packetBuffer) (Some []) hp.(Handshake.outputFileName) (st.(curPktNum) + 1)
    st.(lastPktNum) hp.(Handshake.numPackets) hp.(Handshake.fileSize) hp.(Handshake.packetSize)
    hp.(Handshake.slidingWindowSize) hp.(Handshake.seqNumRange) hp.(Handshake.protocol)
    st.(donePackets) st.(numReceived) st.(lastReceived) st.(replies).

(** Lines 276-284: the expected packet goes to the front, any other one
    is appended and the buffer sorted. *)
Definition insertPacket (st : Receiver) (p : Packet) : Receiver :=
  let buf := if st.(curPktNum) =? getSeqNum p then p :: st.(packetBuffer)
             else sortBuffer (st.(packetBuffer) ++ [p]) in
  mkReceiver buf st.(senderFile) st.(outputFileName) st.(curPktNum)
    st.(lastPktNum) st.(numPackets) st.(fileSize) st.(packetSize) st.(slidingWindowSize)
    st.(seqNumRange) st.(protocol) st.(donePackets) st.(numReceived) st.(lastReceived)
    st.(replies).

Definition setPacketSize (st : Receiver) (n : Z) : Receiver :=
  mkReceiver st.(packetBuffer) st.(senderFile) st.(outputFileName) st.(curPktNum)
    st.(lastPktNum) st.(numPackets) st.(fileSize) n st.(slidingWindowSize)
    st.(seqNumRange) st.(protocol) st.(donePackets) st.(numReceived) st.(lastReceived)
    st.(replies).

Definition sendPing (st : Receiver) : Receiver :=
  mkReceiver st.(packetBuffer) st.(senderFile) st.(outputFileName) st.(curPktNum)
    st.(lastPktNum) st.(numPackets) st.(fileSize) st.(packetSize) st.(slidingWindowSize)
    st.(seqNumRange) st.(protocol) st.(donePackets) st.(numReceived) st.(lastReceived)
    (st.(replies) ++ [PING]).

(** Lines 289-297: stop when every packet is in, or size the read of the
    last packet to [fileSize % packetSize] when that is not 0. *)
Definition endOfPacket (st : Receiver) : res (Receiver * bool) :=
  if st.(curPktNum) =? st.(numPackets) then Ok (st, true)
  else if st.(curPktNum) + 1 =? st.(numPackets) then
    newPacketSize <- c_rem st.(fileSize) st.(packetSize) ;;
    Ok (if 0 <? newPacketSize then setPacketSize st newPacketSize else st, false)
  else Ok (st, false).

(** One iteration of the loop (lines 212-303) on the string read; the
    boolean is [true] when the loop breaks. *)
Definition step (st : Receiver) (socketData : list Z) : res (Receiver * bool) :=
  if Nat.eqb (length socketData) 0 then Ok (st, true)
  else if bool_decide (take 4 socketData = PING) then Ok (sendPing st, false)
  else
    dp <- reversePacket socketData newPacket ;;
    let dataPacket := setSeqNumRange st.(seqNumRange) dp in
    let validChecksum := isValid dataPacket in
    let seq := getSeqNum dataPacket in
    let isDuplicate := bool_decide (seq ∈ st.(donePackets)) in
    let st1 := acknowledge st dataPacket validChecksum in
    if negb validChecksum || isDuplicate then Ok (st1, false)
    else
      let st2 := markDone st1 seq in
      if seq =? 0 then
        hp <- Handshake.readInitialPacket dataPacket.(data) ;;
        Ok (applyHandshake st2 hp, false)
      else endOfPacket (processPacketBuffer (insertPacket st2 dataPacket)).

(** The loop of [main] over the strings [getFromSocket] returns. *)
Fixpoint run (st : Receiver) (msgs : list (list Z)) : res Receiver :=
  match msgs with
  | [] => Ok st
  | m :: ms =>
      r <- step st m ;;
      let '(st', stop) := r in
      if stop then Ok st' else run st' ms
  end.

(** ** The reorder buffer *)

Definition lt_seq (p q : Packet) : Prop := getSeqNum p < getSeqNum q.

#[export] Instance seq_le_total : Total seq_le.
Proof. intros p q. unfold seq_le. lia. Qed.
#[export] Instance seq_le_trans : Transitive seq_le.
Proof. intros p q r. unfold seq_le. lia. Qed.

Lemma strict_nodup l : StronglySorted lt_seq l -> NoDup (map getSeqNum l).
Proof.
  induction 1 as [|p l _ IH Hall]; simpl; constructor; [|done].
  intros Hin. apply list_elem_of_In, in_map_iff in Hin as (q & Hq & Hin).
  rewrite Forall_forall in Hall. specialize (Hall q (proj2 (list_elem_of_In _ _) Hin)).
  unfold lt_seq in Hall. lia.
Qed.

Lemma le_nodup_strict l :
  StronglySorted seq_le l -> NoDup (map getSeqNum l) -> StronglySorted lt_seq l.
Proof.
  induction 1 as [|p l _ IH Hall]; simpl; intros Hnd; constructor.
  - apply IH. by apply NoDup_cons in Hnd as [_ ?].
  - apply NoDup_cons in Hnd as [Hn _]. rewrite Forall_forall in Hall |- *.
    intros q Hq. specialize (Hall q Hq). unfold seq_le, lt_seq in *.
    destruct (Z.eq_dec (getSeqNum p) (getSeqNum q)) as [E|]; [|lia]. exfalso. apply Hn.
    rewrite E. apply list_elem_of_In, in_map, list_elem_of_In, Hq.
Qed.

(** The sorted buffer is strictly increasing when its keys are distinct. *)
Lemma sortBuffer_strict l :
  NoDup (map getSeqNum l) -> StronglySorted lt_seq (sortBuffer l) /\ sortBuffer l ≡ₚ l.
Proof.
  intros Hnd. pose proof (merge_sort_Permutation seq_le l) as Hp. split; [|exact Hp].
  apply le_nodup_strict.
  - apply Sorted_StronglySorted; [apply _|]. apply Sorted_merge_sort. apply _.
  - by rewrite Hp.
Qed.

(** ** In-order delivery *)

Section Delivery.

(** [chunk n] is the payload the sender puts in packet [n]. *)
Variable chunk : Z -> list Z.

(** The payloads of packets [1 .. cur - 1], in order. *)
Definition delivered (cur : Z) : list Z := concat (map chunk (zrange 1 (Z.to_nat (cur - 1)))).

Lemma delivered_succ cur : 1 <= cur -> delivered (cur + 1) = delivered cur ++ chunk cur.
Proof.
  intros H. unfold delivered.
  replace (Z.to_nat (cur + 1 - 1)) with (S (Z.to_nat (cur - 1))) by lia.
  rewrite zrange_S, !map_app, concat_app. cbn. rewrite app_nil_r. do 3 f_equal. lia.
Qed.

(** A packet of the buffer: above [lo], recorded as done, carrying the
    payload of its number. *)
Definition pkt_ok (lo : Z) (done : gset Z) (p : Packet) : Prop :=
  lo < getSeqNum p /\ getSeqNum p ∈ done /\ p.(data) = chunk (getSeqNum p).

Definition buffer_ok (lo : Z) (done : gset Z) (buf : list Packet) : Prop :=
  StronglySorted lt_seq buf /\ Forall (pkt_ok lo done) buf.

Definition below_done (cur : Z) (done : gset Z) : Prop :=
  forall i, 0 <= i < cur -> i ∈ done.

(** [processPacketBuffer] on a buffer whose front may be the expected
    packet: it writes the run of consecutive packets from [cur] on and
    leaves a buffer above the new [cur]. *)
Lemma flush_spec buf cur done :
  1 <= cur -> StronglySorted lt_seq buf -> Forall (pkt_ok (cur - 1) done) buf ->
  below_done cur done ->
  exists buf' cur',
    flush buf cur (Some (delivered cur)) = (buf', cur', Some (delivered cur')) /\
    cur <= cur' /\ buffer_ok cur' done buf' /\ below_done cur' done.
Proof.
  unfold buffer_ok, below_done.
  revert cur; induction buf as [|p rest IH]; intros cur Hc Hs Hok Hb; cbn [flush].
  - exists [], cur. split; [done|]. split; [lia|]. split; [split; constructor|exact Hb].
  - apply StronglySorted_inv in Hs as [Hs Hall]. inversion Hok as [|? ? Hp Hrest]; subst.
    destruct Hp as (Hlo & Hin & Hd).
    destruct (Z.ltb_spec cur (getSeqNum p)).
    + exists (p :: rest), cur. split; [done|]. split; [lia|]. split; [|done].
      split; [constructor; assumption|]. constructor; [unfold pkt_ok; auto|].
      eapply Forall_impl; [apply Forall_and; exact (conj Hrest Hall)|].
      intros q [(? & ? & ?) Hq]. unfold lt_seq in Hq. repeat split; auto; lia.
    + assert (getSeqNum p = cur) as Eq by lia. cbn [fileWrite]. rewrite Hd, Eq, <- delivered_succ by lia.
      assert (Hok' : Forall (pkt_ok (cur + 1 - 1) done) rest).
      { eapply Forall_impl; [apply Forall_and; exact (conj Hrest Hall)|].
        intros q [(? & ? & ?) Hq]. unfold lt_seq in Hq. repeat split; auto; lia. }
      assert (Hb' : forall i, 0 <= i < cur + 1 -> i ∈ done).
      { intros i Hi. destruct (Z.eq_dec i cur); [subst; congruence|]. apply Hb; lia. }
      destruct (IH (cur + 1) ltac:(lia) Hs Hok' Hb') as (buf' & cur' & E & Hle & Hbo & Hbd).
      exists buf', cur'. split; [exact E|]. split; [lia|]. split; [exact Hbo|exact Hbd].
Qed.

Lemma pkt_ok_mono lo lo' done done' p :
  lo' <= lo -> done ⊆ done' -> pkt_ok lo done p -> pkt_ok lo' done' p.
Proof. intros Hlo Hd (? & ? & ?). repeat split; auto; lia. Qed.

Lemma buffer_keys_done lo done buf q :
  Forall (pkt_ok lo done) buf -> getSeqNum q ∉ done -> getSeqNum q ∉ map getSeqNum buf.
Proof.
  intros Hall Hq Hin. apply list_elem_of_In, in_map_iff in Hin as (r & Hr & Hin).
  rewrite Forall_forall in Hall. destruct (Hall r (proj2 (list_elem_of_In _ _) Hin)) as (_ & Hd & _).
  congruence.
Qed.

(** Lines 276-284 keep the buffer strictly sorted: the new packet is not
    a duplicate, so its number is new and not below [curPktNum]. *)
Lemma insert_buffer cur done buf p :
  buffer_ok cur done buf -> cur <= getSeqNum p -> getSeqNum p ∉ done ->
  p.(data) = chunk (getSeqNum p) ->
  let buf' := if cur =? getSeqNum p then p :: buf else sortBuffer (buf ++ [p]) in
  StronglySorted lt_seq buf' /\ Forall (pkt_ok (cur - 1) ({[getSeqNum p]} ∪ done)) buf'.
Proof.
  intros [Hs Hall] Hc Hnd Hd buf'.
  assert (Hp : pkt_ok (cur - 1) ({[getSeqNum p]} ∪ done) p) by (repeat split; [lia|set_solver|done]).
  assert (Hall' : Forall (pkt_ok (cur - 1) ({[getSeqNum p]} ∪ done)) buf).
  { eapply Forall_impl; [exact Hall|]. intros q. apply pkt_ok_mono; [lia|set_solver]. }
  subst buf'. destruct (Z.eqb_spec cur (getSeqNum p)) as [E|E].
  - split; [|by constructor]. constructor; [done|].
    eapply Forall_impl; [exact Hall|]. intros q (? & _ & _). unfold lt_seq. lia.
  - destruct (sortBuffer_strict (buf ++ [p])) as [Hss Hperm].
    + rewrite map_app. apply NoDup_app. split; [by apply strict_nodup|]. split.
      * intros x Hx Hx'. apply list_elem_of_singleton in Hx'. cbn in Hx'. subst x.
        by apply (buffer_keys_done cur done buf p).
      * cbn. apply NoDup_singleton.
    + split; [exact Hss|]. rewrite Hperm. apply Forall_app. split; [exact Hall'|by constructor].
Qed.

(** The receiver's invariant between two iterations of its loop. *)
Definition recv_inv (st : Receiver) : Prop :=
  match st.(senderFile) with
  | None => st.(curPktNum) = 0 /\ st.(numPackets) = 0 /\ st.(packetBuffer) = []
  | Some out => 1 <= st.(curPktNum) /\ out = delivered st.(curPktNum) /\
      below_done st.(curPktNum) st.(donePackets) /\
      buffer_ok st.(curPktNum) st.(donePackets) st.(packetBuffer)
  end.

(** What the loop leaves in the file: the payloads [1 .. curPktNum - 1]. *)
Definition file_ok (st : Receiver) : Prop :=
  forall out, st.(senderFile) = Some out -> out = delivered st.(curPktNum).

(** A message of the sender: it decodes to a packet with a non-negative
    number whose payload, for a data packet, is [chunk] of that number. *)
Definition msg_ok (m : list Z) : Prop :=
  forall p, reversePacket m newPacket = Ok p ->
    0 <= getSeqNum p /\ (getSeqNum p <> 0 -> p.(data) = chunk (getSeqNum p)).

Lemma recv_inv_file_ok st : recv_inv st -> file_ok st.
Proof. unfold recv_inv, file_ok. intros H out E. rewrite E in H. tauto. Qed.

(** The fields the invariant reads. *)
Definition same_core (st st' : Receiver) : Prop :=
  st'.(packetBuffer) = st.(packetBuffer) /\ st'.(senderFile) = st.(senderFile) /\
  st'.(curPktNum) = st.(curPktNum) /\ st'.(donePackets) = st.(donePackets) /\
  st'.(numPackets) = st.(numPackets).

Lemma recv_inv_same st st' : same_core st st' -> recv_inv st -> recv_inv st'.
Proof. intros (E1 & E2 & E3 & E4 & E5). unfold recv_inv. by rewrite E1, E2, E3, E4, E5. Qed.

Lemma endOfPacket_same st st' b : endOfPacket st = Ok (st', b) -> same_core st st'.
Proof.
  unfold endOfPacket, c_rem. intros E.
  destruct (_ =? _); [by invc E|]. destruct (_ =? _); [|by invc E].
  destruct (_ =? _); [done|]. cbn in E. destruct (0 <? _); invc E; done.
Qed.

Lemma flush_none buf cur : exists buf' cur', flush buf cur None = (buf', cur', None).
Proof.
  revert cur; induction buf as [|p rest IH]; intros cur; cbn; [eauto|].
  destruct (cur <? getSeqNum p); [eauto|apply IH].
Qed.

Lemma sortBuffer_single p : sortBuffer [p] = [p].
Proof. reflexivity. Qed.

(** A data packet that is new and valid, after the handshake. *)
Lemma step_data_inv st p out :
  recv_inv st -> st.(senderFile) = Some out -> 0 < getSeqNum p ->
  getSeqNum p ∉ st.(donePackets) -> p.(data) = chunk (getSeqNum p) ->
  recv_inv (processPacketBuffer (insertPacket (markDone st (getSeqNum p)) p)).
Proof.
  unfold recv_inv. intros Hinv Ef Hpos Hnd Hd. rewrite Ef in Hinv.
  destruct Hinv as (Hc & -> & Hbd & Hbuf).
  assert (Hge : st.(curPktNum) <= getSeqNum p).
  { destruct (Z_le_gt_dec st.(curPktNum) (getSeqNum p)); [done|].
    exfalso. apply Hnd, Hbd. lia. }
  destruct (insert_buffer _ _ _ p Hbuf Hge Hnd Hd) as [Hs Hall].
  assert (Hbd' : below_done st.(curPktNum) ({[getSeqNum p]} ∪ st.(donePackets))).
  { intros i Hi. apply Hbd in Hi. set_solver. }
  destruct (flush_spec _ _ _ Hc Hs Hall Hbd') as (buf' & cur' & E & Hle & Hbo & Hbd'').
  unfold processPacketBuffer, insertPacket, markDone. cbn [packetBuffer curPktNum senderFile
    donePackets]. rewrite Ef, E. cbn. repeat split; auto; try lia; apply Hbo.
Qed.

(** Before the handshake a data packet stays in the buffer and the loop
    exits: [curPktNum] and [numPackets] are both still 0. *)
Lemma before_handshake st p :
  recv_inv st -> st.(senderFile) = None -> 0 < getSeqNum p ->
  endOfPacket (processPacketBuffer (insertPacket st p)) =
    Ok (processPacketBuffer (insertPacket st p), true) /\
  (processPacketBuffer (insertPacket st p)).(senderFile) = None.
Proof.
  unfold recv_inv. intros Hinv Hf Hp. rewrite Hf in Hinv. destruct Hinv as (Hc & Hn & Hb).
  unfold processPacketBuffer, insertPacket. cbn [packetBuffer curPktNum senderFile].
  rewrite Hc, Hb, Hf. replace (0 =? getSeqNum p) with false by (symmetry; apply Z.eqb_neq; lia).
  cbn [app]. rewrite sortBuffer_single. cbn [flush].
  replace (0 <? getSeqNum p) with true by (symmetry; apply Z.ltb_lt; lia).
  unfold endOfPacket. cbn [curPktNum numPackets senderFile]. rewrite Hn. split; reflexivity.
Qed.

(** One iteration keeps the invariant, and the file holds the in-order
    payloads when the loop stops. *)
Lemma step_inv st m st' b :
  recv_inv st -> msg_ok m -> step st m = Ok (st', b) ->
  file_ok st' /\ (b = false \/ st'.(senderFile) <> None -> recv_inv st').
Proof.
  intros Hinv Hm. unfold step.
  destruct (Nat.eqb _ 0). { intros E; invc E. split; [by apply recv_inv_file_ok|intros _; done]. }
  destruct (bool_decide _).
  { intros E; invc E. assert (recv_inv (sendPing st)) by (by apply (recv_inv_same st)).
    split; [by apply recv_inv_file_ok|intros _; done]. }
  destruct (reversePacket m newPacket) as [dp|] eqn:Edp; [cbn [res_bind]|discriminate].
  destruct (Hm dp Edp) as [Hnn Hdata].
  set (p := setSeqNumRange (seqNumRange st) dp).
  change (getSeqNum p) with (getSeqNum dp). change (data p) with (data dp).
  destruct (negb (isValid p) || bool_decide (getSeqNum dp ∈ donePackets st)) eqn:Eb.
  { intros E; invc E. assert (recv_inv (acknowledge st p (isValid p))) by (by apply (recv_inv_same st)).
    split; [by apply recv_inv_file_ok|intros _; done]. }
  apply orb_false_iff in Eb as [_ Hnd]. apply bool_decide_eq_false in Hnd.
  destruct (Z.eqb_spec (getSeqNum dp) 0) as [E0|E0].
  - destruct (Handshake.readInitialPacket (data dp)) as [hp|];
      [cbn [res_bind] | cbn; intros E; discriminate E].
    intros E; invc E.
    assert (Hn : st.(senderFile) = None).
    { unfold recv_inv in Hinv. destruct (senderFile st); [|done].
      exfalso. apply Hnd. rewrite E0. apply Hinv. lia. }
    unfold recv_inv in Hinv. rewrite Hn in Hinv. destruct Hinv as (Hc & _ & Hb).
    assert (recv_inv (applyHandshake (markDone (acknowledge st p (isValid p)) (getSeqNum dp)) hp)).
    { unfold recv_inv; cbn. rewrite Hc, Hb, E0. repeat split; try lia; try constructor.
      intros i Hi. assert (Hi0 : i = 0) by lia. rewrite Hi0. clear. set_solver. }
    split; [by apply recv_inv_file_ok|intros _; done].
  - intros E. apply endOfPacket_same in E as Hsame. revert E.
    destruct (senderFile st) as [out|] eqn:Ef.
    + intros _. assert (Hi : recv_inv (processPacketBuffer (insertPacket
          (markDone (acknowledge st p (isValid p)) (getSeqNum dp)) p))).
      { apply (step_data_inv (acknowledge st p (isValid p)) p out).
        - by apply (recv_inv_same st).
        - exact Ef.
        - change (getSeqNum p) with (getSeqNum dp); lia.
        - exact Hnd.
        - exact (Hdata E0). }
      apply (recv_inv_same _ st') in Hi; [|done].
      split; [by apply recv_inv_file_ok|intros _; done].
    + set (st2 := markDone (acknowledge st p (isValid p)) (getSeqNum dp)).
      assert (Hi2 : recv_inv st2).
      { unfold recv_inv, st2, markDone, acknowledge in *.
        cbn [senderFile curPktNum numPackets packetBuffer] in *. rewrite Ef in *. exact Hinv. }
      destruct (before_handshake st2 p Hi2 Ef ltac:(change (getSeqNum p) with (getSeqNum dp); lia))
        as [-> Hf]. intros E; invc E. split; [intros out E; congruence|intros [E|E]; congruence].
Qed.

Lemma recv_inv_init : recv_inv init.
Proof. unfold recv_inv; cbn. auto. Qed.

Lemma run_file_ok msgs st st' :
  recv_inv st -> Forall msg_ok msgs -> run st msgs = Ok st' -> file_ok st'.
Proof.
  revert st; induction msgs as [|m ms IH]; intros st Hinv Hms; cbn [run].
  - intros E; invc E. by apply recv_inv_file_ok.
  - inversion Hms as [|? ? Hm Hms']; subst.
    destruct (step st m) as [[st1 b]|] eqn:Es; cbn [res_bind]; [|discriminate].
    destruct (step_inv st m st1 b Hinv Hm Es) as [Hf Hi].
    destruct b; [intros E; invc E; exact Hf|]. apply IH; auto.
Qed.

(** C12. In-order delivery: whatever the order, duplication or corruption
    of the sender's packets, the output file of the receiver's loop holds
    exactly the payloads of packets [1 .. curPktNum - 1], in order. *)
Theorem run_in_order msgs st :
  Forall msg_ok msgs -> run init msgs = Ok st ->
  forall out, st.(senderFile) = Some out -> out = delivered st.(curPktNum).
Proof. intros Hms Hrun. exact (run_file_ok msgs init st recv_inv_init Hms Hrun). Qed.

(** A loop that stops with the file open leaves the invariant. *)
Lemma run_inv_opened msgs st st' :
  recv_inv st -> Forall msg_ok msgs -> run st msgs = Ok st' -> st'.(senderFile) <> None -> recv_inv st'.
Proof.
  revert st; induction msgs as [|m ms IH]; intros st Hinv Hms; cbn [run].
  - by intros E; invc E.
  - inversion Hms as [|? ? Hm Hms']; subst.
    destruct (step st m) as [[st1 b]|] eqn:Es; cbn [res_bind]; [|discriminate].
    destruct (step_inv st m st1 b Hinv Hm Es) as [_ Hi].
    destruct b; [intros E Hf; invc E; by apply Hi; right|]. intros E. apply (IH st1); auto.
Qed.

End Delivery.

(** ** Counting the packets received *)

Lemma endOfPacket_counts st st' b :
  endOfPacket st = Ok (st', b) ->
  st'.(numReceived) = st.(numReceived) /\ st'.(donePackets) = st.(donePackets).
Proof.
  unfold endOfPacket, c_rem. intros E.
  destruct (_ =? _); [by invc E|]. destruct (_ =? _); [|by invc E].
  destruct (_ =? _); [done|]. cbn in E. destruct (0 <? _); invc E; done.
Qed.

Lemma processPacketBuffer_counts st :
  (processPacketBuffer st).(numReceived) = st.(numReceived) /\
  (processPacketBuffer st).(donePackets) = st.(donePackets).
Proof. unfold processPacketBuffer. by destruct (flush _ _ _) as [[? ?] ?]. Qed.

(** An iteration counts at most one more packet received, and marks at
    most as many packets done as it counts. *)
Lemma step_counts st m st' b :
  step st m = Ok (st', b) ->
  st.(numReceived) <= st'.(numReceived) <= st.(numReceived) + 1 /\
  Z.of_nat (size st'.(donePackets)) + st.(numReceived) <= Z.of_nat (size st.(donePackets)) + st'.(numReceived).
Proof.
  unfold step.
  destruct (Nat.eqb _ 0); [intros E; invc E; lia|].
  destruct (bool_decide _); [intros E; invc E; cbn; lia|].
  destruct (reversePacket m newPacket) as [dp|]; [cbn [res_bind]|discriminate].
  set (p := setSeqNumRange (seqNumRange st) dp).
  pose proof (size_union_singleton (donePackets st) (getSeqNum p)) as Hu.
  destruct (_ || _); [intros E; invc E; cbn; lia|].
  destruct (getSeqNum p =? 0).
  - destruct (Handshake.readInitialPacket _) as [hp|]; [cbn [res_bind]|discriminate].
    intros E; invc E. cbn. lia.
  - intros E. apply endOfPacket_counts in E as [-> ->].
    rewrite (proj1 (processPacketBuffer_counts _)), (proj2 (processPacketBuffer_counts _)). cbn. lia.
Qed.

Lemma run_counts msgs : forall st st',
  run st msgs = Ok st' ->
  st.(numReceived) <= st'.(numReceived) <= st.(numReceived) + Z.of_nat (length msgs) /\
  Z.of_nat (size st'.(donePackets)) + st.(numReceived) <= Z.of_nat (size st.(donePackets)) + st'.(numReceived).
Proof.
  induction msgs as [|m ms IH]; intros st st'; cbn [run length].
  - intros E; invc E. lia.
  - destruct (step st m) as [[st1 b]|] eqn:Es; cbn [res_bind]; [|discriminate].
    apply step_counts in Es. destruct b; [intros E; invc E; lia|].
    intros E. apply IH in E. lia.
Qed.

(** ** Replies, duplicates and invalid packets *)

Lemma endOfPacket_replies st st' b : endOfPacket st = Ok (st', b) -> st'.(replies) = st.(replies).
Proof.
  unfold endOfPacket, c_rem. intros E.
  destruct (_ =? _); [by invc E|]. destruct (_ =? _); [|by invc E].
  destruct (_ =? _); [done|]. cbn in E. destruct (0 <? _); invc E; done.
Qed.

Lemma replies_processPacketBuffer st : (processPacketBuffer st).(replies) = st.(replies).
Proof. unfold processPacketBuffer. by destruct (flush _ _ _) as [[? ?] ?]. Qed.

(** ** The read size and the handshake parameters *)

(** When the file size is a multiple of the packet size, the end test
    leaves the state as it is. *)
Lemma endOfPacket_params st st' b :
  Z.rem st.(fileSize) st.(packetSize) = 0 -> endOfPacket st = Ok (st', b) -> st' = st.
Proof.
  unfold endOfPacket, c_rem. intros Hr E.
  destruct (_ =? _); [by invc E|]. destruct (_ =? _); [|by invc E].
  destruct (_ =? 0); [done|]. cbn in E. rewrite Hr in E. by invc E.
Qed.

Lemma processPacketBuffer_params st :
  (processPacketBuffer st).(packetSize) = st.(packetSize) /\
  (processPacketBuffer st).(fileSize) = st.(fileSize) /\
  (processPacketBuffer st).(numPackets) = st.(numPackets) /\
  (processPacketBuffer st).(replies) = st.(replies).
Proof. unfold processPacketBuffer. by destruct (flush _ _ _) as [[? ?] ?]. Qed.

(** A message that is not a handshake leaves the read size, the file
    size and the packet count alone when the file size is a multiple of
    the packet size. *)
Lemma step_params st m st' b :
  (forall p, reversePacket m newPacket = Ok p -> getSeqNum p <> 0) ->
  Z.rem st.(fileSize) st.(packetSize) = 0 ->
  step st m = Ok (st', b) ->
  st'.(packetSize) = st.(packetSize) /\ st'.(fileSize) = st.(fileSize) /\
  st'.(numPackets) = st.(numPackets).
Proof.
  intros H0 Hr. unfold step.
  destruct (Nat.eqb _ 0); [intros E; by invc E|].
  destruct (bool_decide _); [intros E; by invc E|].
  destruct (reversePacket m newPacket) as [dp|] eqn:Edp; [cbn [res_bind]|discriminate].
  specialize (H0 dp eq_refl).
  destruct (_ || _); [intros E; by invc E|].
  replace (getSeqNum (setSeqNumRange (seqNumRange st) dp) =? 0) with false
    by (symmetry; apply Z.eqb_neq; exact H0).
  intros E.
  destruct (processPacketBuffer_params (insertPacket (markDone (acknowledge st
    (setSeqNumRange (seqNumRange st) dp) (isValid (setSeqNumRange (seqNumRange st) dp)))
    (getSeqNum (setSeqNumRange (seqNumRange st) dp))) (setSeqNumRange (seqNumRange st) dp)))
    as (P1 & P2 & P3 & _).
  apply endOfPacket_params in E; [subst st'; split_and!; assumption|].
  rewrite P1, P2. exact Hr.
Qed.

Lemma flush_some buf cur f : exists buf' cur' f', flush buf cur (Some f) = (buf', cur', Some f').
Proof.
  revert cur f; induction buf as [|p rest IH]; intros cur f; cbn; [eauto|].
  destruct (cur <? getSeqNum p); [eauto|apply IH].
Qed.

Lemma processPacketBuffer_some st f :
  st.(senderFile) = Some f -> (processPacketBuffer st).(senderFile) <> None.
Proof.
  intros Ef. unfold processPacketBuffer. rewrite Ef.
  by destruct (flush_some st.(packetBuffer) st.(curPktNum) f) as (b' & c' & f' & ->).
Qed.

(** Once the output file is open it stays open. *)
Lemma step_file_some st m st' b :
  st.(senderFile) <> None -> step st m = Ok (st', b) -> st'.(senderFile) <> None.
Proof.
  intros Hf. unfold step.
  destruct (Nat.eqb _ 0); [intros E; by invc E|].
  destruct (bool_decide _); [intros E; by invc E|].
  destruct (reversePacket m newPacket) as [dp|]; [cbn [res_bind]|discriminate].
  destruct (_ || _); [intros E; by invc E|].
  destruct (_ =? 0).
  { destruct (Handshake.readInitialPacket _); cbn [res_bind]; [|discriminate]. intros E; by invc E. }
  intros E. apply endOfPacket_same in E as (_ & -> & _).
  destruct (senderFile st) as [f|] eqn:Ef; [|done]. by eapply processPacketBuffer_some.
Qed.

Lemma endOfPacket_stop st st' :
  endOfPacket st = Ok (st', true) -> st' = st /\ st.(curPktNum) = st.(numPackets).
Proof.
  unfold endOfPacket, c_rem.
  destruct (Z.eqb_spec st.(curPktNum) st.(numPackets)) as [Eq|]; [intros E; by invc E|].
  destruct (_ =? _); [|intros E; by invc E].
  destruct (_ =? 0); [discriminate|]. cbn [res_bind]. destruct (0 <? _); intros E; by invc E.
Qed.

(** The loop ends on an empty read or once every packet is in. *)
Lemma step_stop st m st' :
  step st m = Ok (st', true) -> m = [] \/ st'.(curPktNum) = st'.(numPackets).
Proof.
  unfold step.
  destruct (Nat.eqb_spec (length m) 0) as [E|]; [left; by apply nil_length_inv|].
  destruct (bool_decide _); [intros E; by invc E|].
  destruct (reversePacket m newPacket) as [dp|]; [cbn [res_bind]|discriminate].
  destruct (_ || _); [intros E; by invc E|].
  destruct (_ =? 0).
  { destruct (Handshake.readInitialPacket _); cbn [res_bind]; [|discriminate]. intros E; by invc E. }
  intros E. right. by apply endOfPacket_stop in E as [-> Eq].
Qed.

(** The decoded packet, in the form [step] works on. *)
Lemma step_decoded st m dp :
  length m <> 0%nat -> take 4 m <> PING -> reversePacket m newPacket = Ok dp ->
  step st m =
    (let p := setSeqNumRange st.(seqNumRange) dp in
     let st1 := acknowledge st p (isValid dp) in
     if negb (isValid dp) || bool_decide (getSeqNum dp ∈ st.(donePackets)) then Ok (st1, false)
     else if getSeqNum dp =? 0 then
       hp <- Handshake.readInitialPacket dp.(data) ;;
       Ok (applyHandshake (markDone st1 (getSeqNum dp)) hp, false)
     else endOfPacket (processPacketBuffer (insertPacket (markDone st1 (getSeqNum dp)) p))).
Proof.
  intros Hl Hp Hd. unfold step.
  destruct (Nat.eqb_spec (length m) 0); [lia|]. rewrite bool_decide_eq_false_2 by exact Hp.
  rewrite Hd. reflexivity.
Qed.

(** The reply an iteration sends for a message that decodes. *)
Lemma step_reply st m dp st' b :
  length m <> 0%nat -> take 4 m <> PING -> reversePacket m newPacket = Ok dp ->
  step st m = Ok (st', b) ->
  st'.(replies) = st.(replies) ++ [ackString st.(seqNumRange) (getSeqNum dp) (isValid dp)].
Proof.
  intros Hl Hp Hd. rewrite (step_decoded st m dp Hl Hp Hd). cbv zeta.
  destruct (_ || _); [intros E; invc E; reflexivity|].
  destruct (_ =? 0).
  - destruct (Handshake.readInitialPacket _); cbn [res_bind]; [|discriminate].
    intros E; invc E. reflexivity.
  - intros E. apply endOfPacket_replies in E as ->.
    rewrite replies_processPacketBuffer. reflexivity.
Qed.

(** C15. Every packet is answered: after an iteration on a message that
    decodes, exactly one reply was appended, the ACK (code 1) of its
    number when its checksum is valid and the NACK (code 2) otherwise --
    duplicates included. *)
Theorem step_acknowledges st m dp st' b :
  length m <> 0%nat -> take 4 m <> PING -> reversePacket m newPacket = Ok dp ->
  step st m = Ok (st', b) ->
  st'.(replies) = st.(replies) ++ [ackString st.(seqNumRange) (getSeqNum dp) (isValid dp)].
Proof. exact (step_reply st m dp st' b). Qed.

(** C16. Invalid and duplicate packets are dropped: the iteration only
    counts and answers them; the buffer, the file, [curPktNum] and the
    duplicate set are unchanged, so an invalid packet's retransmission is
    still accepted later. *)
Theorem step_discards st m dp :
  length m <> 0%nat -> take 4 m <> PING -> reversePacket m newPacket = Ok dp ->
  isValid dp = false \/ getSeqNum dp ∈ st.(donePackets) ->
  step st m = Ok (acknowledge st (setSeqNumRange st.(seqNumRange) dp) (isValid dp), false).
Proof.
  intros Hl Hp Hd Hdis. rewrite (step_decoded st m dp Hl Hp Hd). cbv zeta.
  destruct Hdis as [-> | Hin]; [reflexivity|]. rewrite bool_decide_eq_true_2 by exact Hin.
  by rewrite orb_true_r.
Qed.

(** C35. A data packet read before the handshake ends the session: the
    receiver's loop exits ([curPktNum] and [numPackets] are both 0) with
    no output file opened. *)
Theorem step_data_before_handshake m dp :
  length m <> 0%nat -> take 4 m <> PING -> reversePacket m newPacket = Ok dp ->
  isValid dp = true -> 0 < getSeqNum dp ->
  exists st', step init m = Ok (st', true) /\ st'.(senderFile) = None.
Proof.
  intros Hl Hp Hd Hv Hs. rewrite (step_decoded init m dp Hl Hp Hd). cbv zeta.
  rewrite Hv. cbn [negb orb]. rewrite bool_decide_eq_false_2 by set_solver.
  replace (getSeqNum dp =? 0) with false by (symmetry; apply Z.eqb_neq; lia).
  set (p := setSeqNumRange (seqNumRange init) dp).
  set (st2 := markDone (acknowledge init p true) (getSeqNum dp)).
  assert (Hi : recv_inv (fun _ => []) st2) by (unfold recv_inv; cbn; auto).
  destruct (before_handshake (fun _ => []) st2 p Hi eq_refl Hs) as [E Hf].
  eexists; split; [exact E|exact Hf].
Qed.

(** ** Concrete transfers *)

(** The string a sender's packet [n] with payload [d] arrives as. *)
Definition dataPkt (n : Z) (d : list Z) : list Z :=
  createPacketString (setData d (setSeqNum n newPacket)) false.

(** The handshake of a 4-byte file "f" sent in 1-byte packets (five
    packets with the handshake), window 4, Selective Repeat. *)
Definition hsPkt : list Z :=
  match Handshake.initialPayload [102] 4 5 1 4 Handshake.SR 0 with
  | Ok pl => dataPkt 0 pl
  | Crash _ => []
  end.

(** Packet [n] of that file carries the letter [64 + n]. *)
Definition letter (n : Z) : list Z := [64 + n].

Definition msgs1324 : list (list Z) :=
  [hsPkt; dataPkt 1 (letter 1); dataPkt 3 (letter 3); dataPkt 2 (letter 2); dataPkt 4 (letter 4)].

Lemma msgs1324_ok : Forall (msg_ok letter) msgs1324.
Proof.
  unfold msgs1324.
  repeat (constructor; [intros p E; vm_compute in E; injection E as <-; vm_compute;
    (split; [discriminate|]); intros H; first [reflexivity | contradiction]|]).
  constructor.
Qed.

(** Witness of C12: packets 1, 3, 2, 4 give the file "ABCD". *)
Example run_in_order_witness :
  Forall (msg_ok letter) msgs1324 /\
  exists st, run init msgs1324 = Ok st /\ st.(senderFile) = Some [65; 66; 67; 68] /\
             [65; 66; 67; 68] = delivered letter st.(curPktNum).
Proof.
  destruct (run init msgs1324) as [st|c] eqn:Hrun; [|vm_compute in Hrun; discriminate].
  split; [exact msgs1324_ok|]. exists st. split; [reflexivity|].
  assert (Hf : st.(senderFile) = Some [65; 66; 67; 68]).
  { revert Hrun. vm_compute. intros H; injection H as <-. reflexivity. }
  split; [exact Hf|]. exact (run_in_order letter msgs1324 st msgs1324_ok Hrun _ Hf).
Defined.

(** The spec's reordering scenario: after 1 and 3 the file holds "A" and
    packet 3 waits in the buffer; after 2 and 4 the file is "ABCD", the
    buffer is empty and the loop has stopped at [curPktNum = 5]. *)
Example run_1324_buffers :
  (exists st, run init (firstn 3 msgs1324) = Ok st /\ st.(senderFile) = Some [65] /\
              map getSeqNum st.(packetBuffer) = [3]) /\
  (exists st, run init msgs1324 = Ok st /\ st.(senderFile) = Some [65; 66; 67; 68] /\
              st.(packetBuffer) = [] /\ st.(curPktNum) = 5 /\ length st.(replies) = 5%nat).
Proof. split; (eexists; split; [vm_compute; reflexivity|]); vm_compute; auto. Qed.

(** The same transfer announced as Go-Back-N (the handshake then carries
    window 1): the receiver still buffers packet 3 and writes "ABCD";
    the protocol tag is stored and never consulted. *)
Definition hsPktGBN : list Z :=
  match Handshake.initialPayload [102] 4 5 1 4 Handshake.GBN 0 with
  | Ok pl => dataPkt 0 pl
  | Crash _ => []
  end.

Example run_gbn_buffers :
  (exists st, run init [hsPktGBN; dataPkt 1 (letter 1); dataPkt 3 (letter 3)] = Ok st /\
              st.(protocol) = Handshake.GBN /\ st.(slidingWindowSize) = 1 /\
              st.(senderFile) = Some [65] /\ map getSeqNum st.(packetBuffer) = [3]) /\
  (exists st, run init (hsPktGBN :: tail msgs1324) = Ok st /\
              st.(senderFile) = Some [65; 66; 67; 68] /\ st.(packetBuffer) = []).
Proof. split; (eexists; split; [vm_compute; reflexivity|]); vm_compute; auto. Qed.

(** The spec's duplicate scenario: packet 1 fed twice is written once
    and answered twice. *)
Example run_duplicate_once :
  exists st, run init [hsPkt; dataPkt 1 (letter 1); dataPkt 1 (letter 1)] = Ok st /\
             st.(senderFile) = Some [65] /\ length st.(replies) = 3%nat.
Proof. eexists; split; [vm_compute; reflexivity|]. vm_compute; auto. Qed.

Lemma dataPkt_decodes n d : 0 <= n < 2 ^ 32 ->
  reversePacket (dataPkt n d) newPacket =
  Ok (setData d (setChecksum (Checksum.createChecksum d) (setAck 0 (setSeqNum n newPacket)))).
Proof.
  intros Hn. unfold dataPkt. rewrite reversePacket_roundtrip; cbn; [|rewrite Z.mod_small; lia|lia].
  rewrite Z.mod_small by lia. reflexivity.
Qed.

(** Witness of C15: packet 2 answered in the initial state. *)
Example step_acknowledges_witness :
  exists st' b, step init (dataPkt 2 (letter 2)) = Ok (st', b) /\
    st'.(replies) = init.(replies) ++
      [ackString init.(seqNumRange) 2 true].
Proof.
  destruct (step init (dataPkt 2 (letter 2))) as [[st' b]|] eqn:E; [|vm_compute in E; discriminate].
  exists st', b. split; [reflexivity|].
  exact (step_acknowledges init (dataPkt 2 (letter 2)) _ st' b ltac:(vm_compute; intros Hc; discriminate Hc)
           ltac:(vm_compute; intros Hc; discriminate Hc) (dataPkt_decodes 2 (letter 2) ltac:(lia)) E).
Defined.

(** Witness of C16: a second copy of packet 1 after "A" was written. *)
Example step_discards_witness :
  exists st, run init [hsPkt; dataPkt 1 (letter 1)] = Ok st /\
    step st (dataPkt 1 (letter 1)) =
      Ok (acknowledge st (setSeqNumRange st.(seqNumRange)
            (setData (letter 1) (setChecksum (Checksum.createChecksum (letter 1))
               (setAck 0 (setSeqNum 1 newPacket))))) true, false).
Proof.
  destruct (run init [hsPkt; dataPkt 1 (letter 1)]) as [st|] eqn:E; [|vm_compute in E; discriminate].
  exists st. split; [reflexivity|].
  apply (step_discards st (dataPkt 1 (letter 1)) _ ltac:(vm_compute; intros Hc; discriminate Hc) ltac:(vm_compute; intros Hc; discriminate Hc)
           (dataPkt_decodes 1 (letter 1) ltac:(lia))).
  right. revert E. vm_compute. intros H; injection H as <-. set_solver.
Defined.

(** Witness of C35: packet 1 arriving before the handshake. *)
Example step_data_before_handshake_witness :
  exists st', step init (dataPkt 1 (letter 1)) = Ok (st', true) /\ st'.(senderFile) = None.
Proof.
  apply (step_data_before_handshake (dataPkt 1 (letter 1)) _ ltac:(vm_compute; intros Hc; discriminate Hc)
           ltac:(vm_compute; intros Hc; discriminate Hc) (dataPkt_decodes 1 (letter 1) ltac:(lia)));
    [reflexivity|vm_compute; reflexivity].
Defined.

End Receiver.
