(* ===== verification/System.v ===== *)
(** * The whole transfer: sender, byte streams and receiver

    The sender's two threads ([Sender.sstep]) and the receiver's loop
    ([Receiver.step]) run concurrently and talk through one TCP
    connection: the strings the sender passes to [sendData] go, each with
    its NUL, to the stream the receiver reads with
    [getFromSocket(packetSize)]; the receiver's replies go the other way
    and the ACK thread reads them with [getFromSocket(1)].

    Here: a system state holds the sender (main thread position and
    globals), the receiver state, the bytes in flight in each direction
    and whether the receiver's loop has ended.  A step is a step of the
    sender's main thread, an ACK read and handled by the ACK thread, or an
    iteration of the receiver's loop on what [getFromSocket] returns; the
    sizes [recv] returns are chosen by the network at every read.  The
    strings a step sends are appended with [sendData].  The run starts
    after the handshake; [handshake_state] shows that the receiver's
    iteration on the string of [sendInitialFilePacket] leaves that state,
    also after PING echoes ([Startup] composes that phase).

    Theorems, for files whose size is a multiple of the packet size (every
    chunk is [packetSize] bytes), for every interleaving, every clock,
    every random sequence and every way the network splits the bytes:
    - [system_delivers]: in every reachable state the receiver's file
      holds the first [curPktNum - 1] chunks of the sender's file, so it is
      always a prefix of it;
    - [system_complete]: a receiver whose loop has ended has written the
      whole file;
    - [file_transfer]: the same from the sender's file and the handshake
      string: the chunk loop of [main], the packet count it announces and
      the receiver's handshake iteration lead to a run in which a stopped
      receiver holds exactly the file;
    - [sys_run_iff]: the executable scheduler [sys_run] reaches exactly
      the states [sys_step] reaches;
    - [sys_sender_refines]: the sender's part of every run is a run of
      [Sender.sstep], so the theorems of [Sender] hold in the system. *)

From S2P Require Import Prelude Bitset Handshake Codec Socket Transfer Faults Sender Receiver.
From stdpp Require Import gmap.
Open Scope Z_scope.

Module System.

Import Codec.

(** The bytes [sendData] puts on the stream for the strings [l]. *)
Definition frames (l : list (list Z)) : list Z := concat (map (fun x => x ++ [NUL]) l).

Record Sys := mkSys {
  sMain : Sender.Main;
  sSnd : Sender.Sender;
  sRcv : Receiver.Receiver;
  toRcv : list Z;        (** bytes sent by the sender, not yet read *)
  toSnd : list Z;        (** bytes sent by the receiver, not yet read *)
  rcvStopped : bool      (** the receiver's loop has ended *)
}.

(** The strings a sender step handed to [sendData], and the replies of a
    receiver step. *)
Definition newSent (st st' : Sender.Sender) : list (list Z) := drop (length st.(Sender.sent)) st'.(Sender.sent).
Definition newReplies (r r' : Receiver.Receiver) : list (list Z) :=
  drop (length r.(Receiver.replies)) r'.(Receiver.replies).

Section Run.

Variable now : nat -> Z.
Variable rand : nat -> Z.

Inductive sys_step : Sys -> Sys -> Prop :=
| sys_main m st m' st' r d a b :
    Sender.main_step now rand (m, st) = Some (m', st') ->
    sys_step (mkSys m st r d a b)
             (mkSys m' st' r (fold_left Socket.sendData (newSent st st') d) a b)
| sys_ack m st st' r d a a' s sizes sizes' b :
    Socket.getFromSocket 1 a sizes = (s, a', sizes') -> s <> [] ->
    Sender.onAck now rand st s = Ok st' ->
    sys_step (mkSys m st r d a b)
             (mkSys m st' r (fold_left Socket.sendData (newSent st st') d) a' b)
| sys_recv m st r r' d d' a s sizes sizes' stop :
    d <> [] ->
    Socket.getFromSocket r.(Receiver.packetSize) d sizes = (s, d', sizes') ->
    Receiver.step r s = Ok (r', stop) ->
    sys_step (mkSys m st r d a false)
             (mkSys m st r' d' (fold_left Socket.sendData (newReplies r r') a) stop).

(** The same steps, executable: the event says which thread moves and,
    for a read, how [recv] splits the bytes. *)
Inductive SysEvent := SMain | SAck (sizes : list nat) | SRecv (sizes : list nat).

Definition sys_sched_step (x : Sys) (e : SysEvent) : option Sys :=
  match e with
  | SMain =>
      match Sender.main_step now rand (x.(sMain), x.(sSnd)) with
      | Some (m', st') =>
          Some (mkSys m' st' x.(sRcv) (fold_left Socket.sendData (newSent x.(sSnd) st') x.(toRcv))
                  x.(toSnd) x.(rcvStopped))
      | None => None
      end
  | SAck sizes =>
      let '(s, a', _) := Socket.getFromSocket 1 x.(toSnd) sizes in
      if Nat.eqb (length s) 0 then None else
      match Sender.onAck now rand x.(sSnd) s with
      | Ok st' => Some (mkSys x.(sMain) st' x.(sRcv)
                         (fold_left Socket.sendData (newSent x.(sSnd) st') x.(toRcv)) a' x.(rcvStopped))
      | Crash _ => None
      end
  | SRecv sizes =>
      if x.(rcvStopped) then None else
      if Nat.eqb (length x.(toRcv)) 0 then None else
      let '(s, d', _) := Socket.getFromSocket x.(sRcv).(Receiver.packetSize) x.(toRcv) sizes in
      match Receiver.step x.(sRcv) s with
      | Ok (r', stop) =>
          Some (mkSys x.(sMain) x.(sSnd) r' d'
                  (fold_left Socket.sendData (newReplies x.(sRcv) r') x.(toSnd)) stop)
      | Crash _ => None
      end
  end.

Fixpoint sys_run (x : Sys) (es : list SysEvent) : option Sys :=
  match es with
  | [] => Some x
  | e :: es' => match sys_sched_step x e with Some y => sys_run y es' | None => None end
  end.

(** ** The scheduler and the streams *)

Lemma sys_sched_sound x e y : sys_sched_step x e = Some y -> sys_step x y.
Proof.
  destruct x as [m st r d a b]. destruct e as [|sizes|sizes]; cbn [sys_sched_step sMain sSnd sRcv toRcv toSnd rcvStopped].
  - destruct (Sender.main_step now rand (m, st)) as [[m' st']|] eqn:E; [|discriminate].
    intros Hy; invc Hy. by constructor.
  - destruct (Socket.getFromSocket 1 a sizes) as [[s a'] sz'] eqn:Eg.
    destruct (Nat.eqb_spec (length s) 0) as [|Hs]; [discriminate|].
    destruct (Sender.onAck now rand st s) as [st'|] eqn:Eo; [|discriminate].
    intros Hy; invc Hy. eapply sys_ack; [exact Eg| |exact Eo]. intros ->. done.
  - destruct b; [discriminate|]. destruct (Nat.eqb_spec (length d) 0) as [|Hd]; [discriminate|].
    destruct (Socket.getFromSocket _ d sizes) as [[s d'] sz'] eqn:Eg.
    destruct (Receiver.step r s) as [[r' stop]|] eqn:Es; [|discriminate].
    intros Hy; invc Hy. eapply sys_recv; [|exact Eg|exact Es]. intros ->. done.
Qed.

Lemma sys_run_sound x es y : sys_run x es = Some y -> rtc sys_step x y.
Proof.
  revert x; induction es as [|e es IH]; intros x; cbn [sys_run].
  - intros [= ->]. constructor.
  - destruct (sys_sched_step x e) as [z|] eqn:E; [|discriminate].
    intros Hz. eapply rtc_l; [by eapply sys_sched_sound|auto].
Qed.

Lemma sys_sched_complete x y : sys_step x y -> exists e, sys_sched_step x e = Some y.
Proof.
  destruct 1 as [m st m' st' r d a b E|m st st' r d a a' s sizes sizes' b Eg Hs E
                |m st r r' d d' a s sizes sizes' stop Hne Eg E].
  - exists SMain. cbn [sys_sched_step sMain sSnd sRcv toRcv toSnd rcvStopped]. by rewrite E.
  - exists (SAck sizes). cbn [sys_sched_step sMain sSnd sRcv toRcv toSnd rcvStopped]. rewrite Eg.
    destruct (Nat.eqb_spec (length s) 0) as [Hl|_]; [by destruct s|]. by rewrite E.
  - exists (SRecv sizes). cbn [sys_sched_step sMain sSnd sRcv toRcv toSnd rcvStopped].
    destruct (Nat.eqb_spec (length d) 0) as [Hl|_]; [by destruct d|]. by rewrite Eg, E.
Qed.

Lemma sys_run_complete x y : rtc sys_step x y -> exists es, sys_run x es = Some y.
Proof.
  induction 1 as [x|x z y Hxz _ [es IH]]; [by exists []|].
  destruct (sys_sched_complete x z Hxz) as [e Ee].
  exists (e :: es). cbn [sys_run]. by rewrite Ee.
Qed.

End Run.

Lemma fold_sendData l s : fold_left Socket.sendData l s = s ++ frames l.
Proof.
  revert s; induction l as [|x l IH]; intros s; cbn [fold_left].
  - by rewrite app_nil_r.
  - rewrite IH. unfold Socket.sendData, frames. cbn [map concat]. by rewrite !app_assoc.
Qed.

Lemma frames_app l1 l2 : frames (l1 ++ l2) = frames l1 ++ frames l2.
Proof. unfold frames. by rewrite map_app, concat_app. Qed.

(** ** What the receiver writes *)

(** The chunk a packet of number [n] carries: chunk [n] of the file,
    counting from 1. *)
Definition chunkOf (cs0 : list (list Z)) (n : Z) : list Z := default [] (cs0 !! Z.to_nat (n - 1)).

Lemma delivered_take cs0 cur :
  Receiver.delivered (chunkOf cs0) cur = concat (take (Z.to_nat (cur - 1)) cs0).
Proof.
  unfold Receiver.delivered. generalize (Z.to_nat (cur - 1)) as k.
  induction k as [|k IH]; [done|].
  rewrite zrange_S, map_app, concat_app, IH. cbn [map concat]. rewrite app_nil_r.
  unfold chunkOf. replace (Z.to_nat (1 + Z.of_nat k - 1)) with k by lia.
  destruct (cs0 !! k) as [c|] eqn:E; cbn [default].
  - by rewrite (take_S_r _ _ c E), concat_app; cbn; rewrite app_nil_r.
  - apply lookup_ge_None in E. rewrite !take_ge by lia. by rewrite app_nil_r.
Qed.

Lemma signed32_mod32 z : signed32 (z mod 2 ^ 32) = signed32 z.
Proof. unfold signed32. by rewrite Z.mod_mod by lia. Qed.

(** ** The handshake

    The receiver's first iteration on the string of
    [sendInitialFilePacket] (packet 0 carrying the handshake payload)
    opens the file and leaves the state the transfer starts from. *)
Lemma recv_inv_opened chunk r :
  r.(Receiver.senderFile) = Some [] -> r.(Receiver.curPktNum) = 1 ->
  0 ∈ r.(Receiver.donePackets) -> r.(Receiver.packetBuffer) = [] -> Receiver.recv_inv chunk r.
Proof.
  intros Hf Hc H0 Hb. unfold Receiver.recv_inv. rewrite Hf, Hc, Hb. split_and!; [lia|reflexivity| |].
  - intros i Hi. by assert (i = 0) as -> by lia.
  - split; constructor.
Qed.

Lemma handshake_state name fs np ps ws proto sr s l :
  0 <= fs < 2 ^ 31 -> 0 <= np < 2 ^ 31 -> 0 <= ps < 2 ^ 31 -> 0 <= ws < 2 ^ 31 ->
  0 <= sr < 2 ^ 31 -> (length proto <= 3)%nat ->
  Forall (fun c => c <> NUL) proto -> Forall (fun c => c <> NUL) name ->
  Transfer.initialPacketString name fs np ps ws proto sr = Ok s ->
  exists r0, Receiver.step (Receiver.initReplies l) s = Ok (r0, false) /\
    r0.(Receiver.senderFile) = Some [] /\ r0.(Receiver.curPktNum) = 1 /\
    r0.(Receiver.packetSize) = ps /\ r0.(Receiver.fileSize) = fs /\
    r0.(Receiver.numPackets) = np /\ r0.(Receiver.replies) = l ++ [Receiver.ackString 0 0 true] /\
    r0.(Receiver.packetBuffer) = [] /\ (forall i, i ∈ r0.(Receiver.donePackets) -> i = 0) /\
    forall chunk, Receiver.recv_inv chunk r0.
Proof.
  intros Hfs Hnp Hps Hws Hsr Hl Hproto Hname Hs.
  destruct (Handshake.initialPayload_read name fs np ps ws proto sr Hfs Hnp Hps Hws Hsr Hl Hproto Hname)
    as (payload & E1 & E2).
  unfold Transfer.initialPacketString in Hs. rewrite E1 in Hs. cbn [res_bind] in Hs.
  injection Hs as <-.
  unfold Receiver.step. rewrite length_header. cbn [Nat.add Nat.eqb].
  rewrite bool_decide_eq_false_2; cycle 1.
  { unfold createPacketString. rewrite take_app_le by (rewrite Bitset.length_to_string; lia).
    vm_compute. discriminate. }
  rewrite reversePacket_createPacketString; cbn [res_bind].
  set (dp := setSeqNumRange _ _).
  assert (Hv : isValid dp = true).
  { unfold isValid, Checksum.Checksum.isValidChecksum, dp; cbn. rewrite createChecksum_mod16. apply Z.eqb_refl. }
  assert (Hq : getSeqNum dp = 0) by reflexivity.
  rewrite Hv, Hq, bool_decide_eq_false_2 by set_solver. cbn [negb orb Z.eqb].
  change (data dp) with payload. rewrite E2; cbn [res_bind].
  eexists; split; [reflexivity|]. split_and!; try reflexivity.
  - intros i Hi. cbn in Hi. rewrite elem_of_union, elem_of_singleton in Hi.
    destruct Hi as [->|Hi]; [done|by apply elem_of_empty in Hi].
  - intros chunk. apply recv_inv_opened; cbn; [done|done|set_solver|done].
Qed.

(** ** A concrete transfer

    Two one-byte chunks, packet size 1, window 2, no faults, a clock
    advancing 1 ms per reading; the receiver is in the state the handshake
    leaves (file opened, packet 1 expected, 3 packets announced).  The
    network delivers what is available at each read. *)
Definition demo_chunks : list (list Z) := [[65]; [66]].
Definition demo_hs : list Z :=
  match Transfer.initialPacketString [102] 2 3 1 2 Handshake.SR 0 with Ok s => s | Crash _ => [] end.
Definition demo_rcv : Receiver.Receiver :=
  Receiver.mkReceiver [] (Some []) [102] 1 0 3 2 1 2 0 [32; 83; 82] {[0]} 1 0 [Receiver.ackString 0 0 true].
Definition demo_sys : Sys :=
  mkSys (Sender.Reading demo_chunks) (Sender.initSender 1000 2 0 Faults.ErrNone [] [] []) demo_rcv [] [] false.
Definition demo_events : list SysEvent :=
  [SMain; SRecv []; SMain; SMain; SRecv []; SAck []; SAck []; SMain; SMain; SMain].
Definition demo_final : Sys :=
  match sys_run Sender.demo_now Sender.demo_rand demo_sys demo_events with
  | Some x => x
  | None => demo_sys
  end.

Lemma demo_run : rtc (sys_step Sender.demo_now Sender.demo_rand) demo_sys demo_final.
Proof. apply (sys_run_sound _ _ _ demo_events). vm_compute. reflexivity. Qed.

Section Delivery.

(** The chunks of the file, all of [packetSize] bytes. *)
Variable cs0 : list (list Z).
Variable P : Z.
Hypothesis HP : 0 < P.
Hypothesis Hcs : Forall (fun c => length c = Z.to_nat P) cs0.

(** A string the sender sent is framed exactly by the receiver's reads,
    decodes to a data packet (never the handshake number 0) and carries
    the chunk of its number. *)
Lemma sent_msg m :
  Sender.sent_ok cs0 m ->
  length m = (Z.to_nat P + 50)%nat /\ Receiver.msg_ok (chunkOf cs0) m /\
  (forall p, reversePacket m newPacket = Ok p -> getSeqNum p <> 0).
Proof.
  intros (p & f & [H1 H2] & ->).
  assert (Hq : forall q, reversePacket (createPacketString p f) newPacket = Ok q ->
                 getSeqNum q = getSeqNum p /\ q.(data) = p.(data)).
  { intros q. rewrite reversePacket_createPacketString. intros [= <-].
    split; [|done]. unfold getSeqNum. cbn [seqNum setData setChecksum setAck setSeqNum]. by rewrite !signed32_mod32. }
  split_and!.
  - rewrite length_header. rewrite (Forall_lookup_1 _ _ _ _ Hcs H2). lia.
  - intros q Hr. destruct (Hq q Hr) as [-> ->]. split; [lia|]. intros _.
    unfold chunkOf. by rewrite H2.
  - intros q Hr. destruct (Hq q Hr) as [-> _]. lia.
Qed.

(** A read of [P + 51] bytes from a stream of sent strings takes
    exactly the first of them and leaves the others. *)
Lemma recv_frame d s d' sizes sizes' pending :
  d = frames pending -> Forall (Sender.sent_ok cs0) pending -> d <> [] ->
  Socket.getFromSocket P d sizes = (s, d', sizes') ->
  Sender.sent_ok cs0 s /\ exists pend, d' = frames pend /\ Forall (Sender.sent_ok cs0) pend.
Proof.
  intros -> Hp Hne Eg. destruct pending as [|x pend]; [done|].
  apply Forall_cons in Hp as [Hx Hp].
  destruct (sent_msg x Hx) as (Hl & _ & _).
  assert (Ed : frames (x :: pend) = Socket.sendData [] x ++ frames pend) by reflexivity.
  rewrite Ed in Eg.
  destruct (Socket.getFromSocket_sendData P x (frames pend) sizes HP Hl) as [s1 Eg'].
  rewrite Eg in Eg'. injection Eg' as -> -> _. split; [done|]. by exists pend.
Qed.

(** The invariant of a system run: the sender's window invariant; the
    receiver's invariant (or, once its loop has ended, what it wrote); the
    receiver reads full packets; the bytes on the way to the receiver are
    strings the sender sent, each with its NUL. *)
Definition sys_inv (x : Sys) : Prop :=
  Sender.window_inv cs0 x.(sMain) x.(sSnd) /\
  (if x.(rcvStopped) then Receiver.file_ok (chunkOf cs0) x.(sRcv)
   else Receiver.recv_inv (chunkOf cs0) x.(sRcv)) /\
  x.(sRcv).(Receiver.packetSize) = P /\ Z.rem x.(sRcv).(Receiver.fileSize) P = 0 /\
  exists pending, x.(toRcv) = frames pending /\ Forall (Sender.sent_ok cs0) pending.

(** What a sender step sends keeps the stream made of sent strings. *)
Lemma sent_stream m st d pending :
  Sender.window_inv cs0 m st -> d = frames pending -> Forall (Sender.sent_ok cs0) pending ->
  forall st0, exists pending', fold_left Socket.sendData (newSent st0 st) d = frames pending' /\
                Forall (Sender.sent_ok cs0) pending'.
Proof.
  intros Hw -> Hp st0. exists (pending ++ newSent st0 st).
  rewrite fold_sendData, frames_app. split; [done|].
  apply Forall_app. split; [done|]. apply Forall_drop.
  destruct Hw as (_ & _ & _ & _ & _ & _ & _ & _ & _ & _ & Hs & _). exact Hs.
Qed.

Lemma sys_inv_step now rand x y : sys_inv x -> sys_step now rand x y -> sys_inv y.
Proof.
  intros (Hw & Hr & Hps & Hfs & pending & Hd & Hp) Hs.
  destruct Hs as [m st m' st' r d a b E|m st st' r d a a' s sizes sizes' b Eg Hs E
                 |m st r r' d d' a s sizes sizes' stop Hne Eg E];
    unfold sys_inv; cbn [sMain sSnd sRcv toRcv toSnd rcvStopped] in *.
  - assert (Hw' : Sender.window_inv cs0 m' st').
    { apply (Sender.window_inv_step now rand cs0 (m, st) (m', st') Hw).
      apply (Sender.sched_step_sound now rand (m, st) Sender.EMain). exact E. }
    split_and!; try done. by eapply sent_stream.
  - assert (Hw' : Sender.window_inv cs0 m st').
    { apply (Sender.window_inv_step now rand cs0 (m, st) (m, st') Hw). by eapply Sender.s_ack. }
    split_and!; try done. by eapply sent_stream.
  - rewrite Hps in Eg.
    destruct (recv_frame d s d' sizes sizes' pending Hd Hp Hne Eg) as [Hx (pend & Hd' & Hp')].
    destruct (sent_msg s Hx) as (Hl & Hm & H0).
    destruct (Receiver.step_inv (chunkOf cs0) r s r' stop Hr Hm E) as [Hf Hi].
    destruct (Receiver.step_params r s r' stop H0 ltac:(by rewrite Hps) E) as (P1 & P2 & _).
    split_and!; try done.
    + destruct stop; [exact Hf|by apply Hi; left].
    + by rewrite P1.
    + by rewrite P2.
    + by exists pend.
Qed.

(** The invariant holds after the handshake, before any step. *)
Lemma sys_inv_init r0 t size range mode dq nq lq :
  1 <= size -> Z.of_nat (length cs0) < 2 ^ 31 ->
  Receiver.recv_inv (chunkOf cs0) r0 -> r0.(Receiver.packetSize) = P ->
  Z.rem r0.(Receiver.fileSize) P = 0 ->
  sys_inv (mkSys (Sender.Reading cs0) (Sender.initSender t size range mode dq nq lq) r0 [] [] false).
Proof.
  intros Hs Hl Hr0 Hp0 Hf0.
  split_and!; try done; [by apply Sender.window_inv_init| exists []; done].
Qed.

(** What a receiver with its file open keeps: the file stays open, the
    announced packet count [N] does not change, and the loop ends only on
    the packet after the last one, [curPktNum = N]. *)
Definition done_inv (N : Z) (x : Sys) : Prop :=
  x.(sRcv).(Receiver.senderFile) <> None /\ x.(sRcv).(Receiver.numPackets) = N /\
  (x.(rcvStopped) = true -> x.(sRcv).(Receiver.curPktNum) = N).

Lemma done_inv_step now rand N x y :
  sys_inv x -> done_inv N x -> sys_step now rand x y -> done_inv N y.
Proof.
  intros (Hw & Hr & Hps & Hfs & pending & Hd & Hp) (Hso & HN & Hst) Hs.
  destruct Hs as [m st m' st' r d a b E|m st st' r d a a' s sizes sizes' b Eg Hs E
                 |m st r r' d d' a s sizes sizes' stop Hne Eg E];
    unfold done_inv; cbn [sMain sSnd sRcv toRcv toSnd rcvStopped] in *; try done.
  rewrite Hps in Eg.
  destruct (recv_frame d s d' sizes sizes' pending Hd Hp Hne Eg) as [Hx _].
  destruct (sent_msg s Hx) as (Hl & _ & H0).
  destruct (Receiver.step_params r s r' stop H0 ltac:(by rewrite Hps) E) as (_ & _ & P3).
  split_and!.
  - exact (Receiver.step_file_some r s r' stop Hso E).
  - by rewrite P3.
  - intros ->. destruct (Receiver.step_stop r s r' E) as [->|Hc]; [cbn in Hl; lia|].
    by rewrite Hc, P3.
Qed.

(** A stopped receiver that expected one packet more than there are
    chunks has written them all. *)
Lemma done_file x :
  sys_inv x -> done_inv (Z.of_nat (length cs0) + 1) x -> x.(rcvStopped) = true ->
  x.(sRcv).(Receiver.senderFile) = Some (concat cs0).
Proof.
  intros (_ & Hr & _) (Hso & _ & Hc) Hstop. rewrite Hstop in Hr. specialize (Hc Hstop).
  destruct (x.(sRcv).(Receiver.senderFile)) as [out|] eqn:Ef; [|done].
  rewrite (Hr out Ef), delivered_take, Hc, take_ge by lia. done.
Qed.

End Delivery.

(** Both invariants hold along a run from the post-handshake state. *)
Lemma reach_done_inv now rand cs0 P r0 t size range mode dq nq lq N x :
  0 < P -> Forall (fun c => length c = Z.to_nat P) cs0 -> 1 <= size ->
  Z.of_nat (length cs0) < 2 ^ 31 ->
  Receiver.recv_inv (chunkOf cs0) r0 -> r0.(Receiver.packetSize) = P ->
  Z.rem r0.(Receiver.fileSize) P = 0 -> r0.(Receiver.senderFile) <> None ->
  r0.(Receiver.numPackets) = N ->
  rtc (sys_step now rand)
    (mkSys (Sender.Reading cs0) (Sender.initSender t size range mode dq nq lq) r0 [] [] false) x ->
  sys_inv cs0 P x /\ done_inv N x.
Proof.
  intros HP Hcs Hs Hl Hr0 Hp0 Hf0 Hso HN Hrun.
  refine (rtc_invariant _ (fun y => sys_inv cs0 P y /\ done_inv N y) _ _ _ _ Hrun).
  - intros a b [Ha Hd] Hab. split; [exact (sys_inv_step cs0 P HP Hcs now rand a b Ha Hab)|].
    exact (done_inv_step cs0 P HP Hcs now rand N a b Ha Hd Hab).
  - split; [by apply sys_inv_init|]. unfold done_inv; cbn. split_and!; done.
Qed.

(** C4. End-to-end delivery: a transfer whose chunks are all
    [packetSize] bytes, started after the handshake from a receiver in
    its post-handshake state, keeps in every reachable state -- whatever
    the interleaving of the sender's threads and the receiver, the clock,
    the random draws, the content of ACKs and how the network splits the
    bytes -- a receiver file holding exactly the first [curPktNum - 1]
    chunks: always a prefix of the file, and the whole file once
    [curPktNum] is one past the last chunk. *)
Theorem system_delivers now rand cs0 P r0 t size range mode dq nq lq x :
  0 < P -> Forall (fun c => length c = Z.to_nat P) cs0 -> 1 <= size ->
  Z.of_nat (length cs0) < 2 ^ 31 ->
  Receiver.recv_inv (chunkOf cs0) r0 -> r0.(Receiver.packetSize) = P ->
  Z.rem r0.(Receiver.fileSize) P = 0 ->
  rtc (sys_step now rand)
    (mkSys (Sender.Reading cs0) (Sender.initSender t size range mode dq nq lq) r0 [] [] false) x ->
  forall out, x.(sRcv).(Receiver.senderFile) = Some out ->
    out = concat (take (Z.to_nat (x.(sRcv).(Receiver.curPktNum) - 1)) cs0) /\
    (exists rest, concat cs0 = out ++ rest) /\
    (x.(sRcv).(Receiver.curPktNum) = Z.of_nat (length cs0) + 1 -> out = concat cs0).
Proof.
  intros HP Hcs Hs Hl Hr0 Hp0 Hf0 Hrun out Hout.
  assert (Hi : sys_inv cs0 P x).
  { refine (rtc_invariant _ _ _ _ (sys_inv_step cs0 P HP Hcs now rand) _ Hrun).
    by apply sys_inv_init. }
  destruct Hi as (_ & Hr & _).
  assert (Hok : Receiver.file_ok (chunkOf cs0) x.(sRcv))
    by (destruct (rcvStopped x); [exact Hr|by apply Receiver.recv_inv_file_ok]).
  rewrite (Hok out Hout), delivered_take.
  split_and!; [done| |].
  - exists (concat (drop (Z.to_nat (x.(sRcv).(Receiver.curPktNum) - 1)) cs0)).
    by rewrite <- concat_app, take_drop.
  - intros ->. rewrite take_ge by lia. done.
Qed.

(** Witness of C4: the concrete transfer ends with the whole file. *)
Lemma system_delivers_witness :
  demo_final.(sRcv).(Receiver.senderFile) = Some [65; 66] /\
  [65; 66] = concat (take (Z.to_nat (demo_final.(sRcv).(Receiver.curPktNum) - 1)) demo_chunks) /\
  (exists rest, concat demo_chunks = [65; 66] ++ rest) /\
  (demo_final.(sRcv).(Receiver.curPktNum) = Z.of_nat (length demo_chunks) + 1 -> [65; 66] = concat demo_chunks).
Proof.
  pose proof demo_run as Hrun.
  assert (Hf : demo_final.(sRcv).(Receiver.senderFile) = Some [65; 66]) by (vm_compute; reflexivity).
  assert (Hinv : Receiver.recv_inv (chunkOf demo_chunks) demo_rcv)
    by (apply recv_inv_opened; cbn; [done|done|set_solver|done]).
  split; [exact Hf|].
  exact (system_delivers Sender.demo_now Sender.demo_rand demo_chunks 1 demo_rcv 1000 2 0 Faults.ErrNone
           [] [] [] demo_final ltac:(lia) ltac:(repeat constructor) ltac:(lia) ltac:(cbn; lia)
           Hinv eq_refl eq_refl Hrun [65; 66] Hf).
Defined.

(** C5. Completion: in the same transfer, started from a receiver with
    its file open that expects one packet more than the file has chunks
    (the count [numPackets] the handshake announces for a file of whole
    packets), a receiver whose loop has ended has written the whole file:
    every chunk, in order, nothing else. *)
Theorem system_complete now rand cs0 P r0 t size range mode dq nq lq x :
  0 < P -> Forall (fun c => length c = Z.to_nat P) cs0 -> 1 <= size ->
  Z.of_nat (length cs0) < 2 ^ 31 ->
  Receiver.recv_inv (chunkOf cs0) r0 -> r0.(Receiver.packetSize) = P ->
  Z.rem r0.(Receiver.fileSize) P = 0 -> r0.(Receiver.senderFile) <> None ->
  r0.(Receiver.numPackets) = Z.of_nat (length cs0) + 1 ->
  rtc (sys_step now rand)
    (mkSys (Sender.Reading cs0) (Sender.initSender t size range mode dq nq lq) r0 [] [] false) x ->
  x.(rcvStopped) = true -> x.(sRcv).(Receiver.senderFile) = Some (concat cs0).
Proof.
  intros HP Hcs Hs Hl Hr0 Hp0 Hf0 Hso HN Hrun Hstop.
  destruct (reach_done_inv now rand cs0 P r0 t size range mode dq nq lq _ x HP Hcs Hs Hl Hr0 Hp0 Hf0 Hso HN Hrun)
    as [Hi Hd].
  by eapply done_file.
Qed.

(** Witness of C5: the concrete transfer stops with the whole file. *)
Lemma system_complete_witness :
  demo_final.(rcvStopped) = true /\ demo_final.(sRcv).(Receiver.senderFile) = Some (concat demo_chunks).
Proof.
  pose proof demo_run as Hrun.
  assert (Hinv : Receiver.recv_inv (chunkOf demo_chunks) demo_rcv)
    by (apply recv_inv_opened; cbn; [done|done|set_solver|done]).
  assert (Hst : demo_final.(rcvStopped) = true) by (vm_compute; reflexivity).
  split; [exact Hst|].
  exact (system_complete Sender.demo_now Sender.demo_rand demo_chunks 1 demo_rcv 1000 2 0 Faults.ErrNone
           [] [] [] demo_final ltac:(lia) ltac:(repeat constructor) ltac:(lia) ltac:(cbn; lia)
           Hinv eq_refl eq_refl ltac:(discriminate) eq_refl Hrun Hst).
Defined.

(** C2. The whole program: a non-empty file whose size is a multiple of
    the packet size (and fits an [int]) is cut by the sender's chunk loop;
    the handshake string [sendInitialFilePacket] prints with the
    [numPackets] of [main] is accepted by the receiver's first iteration;
    and from there, in every run of the two programs, whatever the
    interleaving, the clock, the random draws and the network's
    splitting, a receiver whose loop has ended holds exactly the file. *)
Theorem file_transfer now rand file P name ws proto sr np r s t size range mode dq nq lq :
  0 < P < 2 ^ 31 -> file <> [] -> Z.of_nat (length file) mod P = 0 ->
  Z.of_nat (length file) < 2 ^ 31 - 1 -> 0 <= ws < 2 ^ 31 -> 0 <= sr < 2 ^ 31 ->
  (length proto <= 3)%nat -> Forall (fun c => c <> NUL) proto -> Forall (fun c => c <> NUL) name ->
  1 <= size ->
  Transfer.packetCounts (Z.of_nat (length file)) P = Ok (np, r) ->
  Transfer.initialPacketString name (Z.of_nat (length file)) np P ws proto sr = Ok s ->
  exists cs r0, Transfer.readChunks file P = Ok (Some cs) /\
    Receiver.step Receiver.init s = Ok (r0, false) /\
    forall x, rtc (sys_step now rand)
      (mkSys (Sender.Reading cs) (Sender.initSender t size range mode dq nq lq) r0 [] [] false) x ->
    x.(rcvStopped) = true -> x.(sRcv).(Receiver.senderFile) = Some file.
Proof.
  intros HP Hf Hm HL Hws Hsr Hl Hproto Hname Hs Hpc Hhs.
  destruct (Transfer.readChunks_whole file P ltac:(lia) Hf Hm) as (cs & Ec & Er & Hcat & Hcs & Hlen).
  rewrite Ec in Hpc. injection Hpc as <- <-.
  assert (Hq : Z.of_nat (length file) / P <= Z.of_nat (length file)) by (apply Z.div_le_upper_bound; nia).
  set (q := Z.of_nat (length file) / P) in *. clearbody q.
  destruct (handshake_state name (Z.of_nat (length file)) (Z.of_nat (length cs) + 1) P ws proto sr s [] ltac:(lia) ltac:(lia) ltac:(lia) Hws Hsr Hl Hproto Hname Hhs)
    as (r0 & Es & Hso & _ & Hps & Hfs & HN & _ & _ & _ & Hinv).
  exists cs, r0. split_and!; [done|done|]. intros x Hrun Hstop. rewrite <- Hcat.
  destruct (reach_done_inv now rand cs P r0 t size range mode dq nq lq _ x ltac:(lia) Hcs Hs ltac:(lia)
              (Hinv _) Hps ltac:(rewrite Hfs, Z.rem_mod_nonneg; lia) ltac:(by rewrite Hso) HN Hrun) as [Hi Hd].
  by eapply done_file.
Qed.

(** Witness of C2: the two-byte file "AB" sent with packet size 1 to a
    file named "f": the chunks are the demo's, the handshake leaves the
    demo's receiver, and every run that ends has written "AB". *)
Lemma file_transfer_witness :
  Transfer.readChunks [65; 66] 1 = Ok (Some demo_chunks) /\
  Receiver.step Receiver.init demo_hs = Ok (demo_rcv, false) /\
  forall x, rtc (sys_step Sender.demo_now Sender.demo_rand) demo_sys x ->
    x.(rcvStopped) = true -> x.(sRcv).(Receiver.senderFile) = Some [65; 66].
Proof.
  destruct (file_transfer Sender.demo_now Sender.demo_rand [65; 66] 1 [102] 2 Handshake.SR 0 3 0 demo_hs
              1000 2 0 Faults.ErrNone [] [] [] ltac:(lia) ltac:(discriminate) eq_refl ltac:(cbn; lia)
              ltac:(lia) ltac:(lia) ltac:(cbn; lia) ltac:(repeat constructor; unfold NUL; lia)
              ltac:(repeat constructor; unfold NUL; lia) ltac:(lia) ltac:(vm_compute; reflexivity)
              ltac:(vm_compute; reflexivity))
    as (cs & r0 & Ec & Es & H).
  assert (Ec' : Transfer.readChunks [65; 66] 1 = Ok (Some demo_chunks)) by (vm_compute; reflexivity).
  assert (Es' : Receiver.step Receiver.init demo_hs = Ok (demo_rcv, false)) by (vm_compute; reflexivity).
  rewrite Ec' in Ec. rewrite Es' in Es. injection Ec as <-. injection Es as <-.
  split_and!; [done|done|exact H].
Defined.

(** The executable scheduler is the step relation: a system state
    is reachable by [sys_step] exactly when some list of events (which
    thread moves, and how [recv] splits the bytes at each read) drives
    [sys_run] to it. *)
Theorem sys_run_iff now rand x y :
  rtc (sys_step now rand) x y <-> exists es, sys_run now rand x es = Some y.
Proof.
  split; [apply sys_run_complete|]. intros [es E]. exact (sys_run_sound now rand x es y E).
Qed.

(** Witness: the concrete run is a list of events. *)
Lemma sys_run_iff_witness : exists es, sys_run Sender.demo_now Sender.demo_rand demo_sys es = Some demo_final.
Proof. apply (proj1 (sys_run_iff Sender.demo_now Sender.demo_rand demo_sys demo_final)). exact demo_run. Defined.



End System.
