(* ===== verification/Liveness.v ===== *)
(** * Progress of the whole transfer

    [System] shows what every run of the two programs can reach; this file
    shows that the transfer can finish.  Without faults (mode [ErrNone],
    empty fault queues), for every clock and every random sequence, the
    schedule that sends one chunk, lets the receiver read it, lets the ACK
    thread read the reply and runs one pass of [checkPacketQueue], once
    per chunk, and then lets the main thread leave its final
    [checkPacketQueue(true)], is a run of [sys_step] ([sys_run]) of
    [4 * n + 2] steps for a file of [n] chunks.  It ends with the sender
    past its final wait and the receiver stopped with the whole file
    ([schedule_finishes], stated as the property [transfer_finishes];
    [Startup] chains it after the start-up phase).

    A round is described by [at_round k]: [k] chunks sent and
    acknowledged, the window [k + 1 .. k] empty, nothing in flight, the
    receiver expecting packet [k + 1] with the first [k] chunks written.

    The other side of progress: the receiver's loop ends with the last
    packet, so when an ACK is lost at the end (a fault of the "User" or
    "Random" mode) nothing answers the sender's retransmissions any more
    and no run lets it leave its final wait ([lost_ack_never_finishes]);
    a concrete run from the start of the transfer reaches that state.

    The composition of [System] is proved for files of whole packets.  A
    file with a short last packet can crash the receiver in a run with
    no fault at all, only a timeout resending packet 1 before the last
    packet is sent ([short_last_packet_crash]). *)

From S2P Require Import Prelude Bitset Codec Socket Faults Sender Receiver System.
From stdpp Require Import gmap.
Open Scope Z_scope.

Module Liveness.

Import Codec System.

Section Progress.

Variable now rand : nat -> Z.
Variable cs0 : list (list Z).
Variable P t size range : Z.
Hypothesis HP : 0 < P.
Hypothesis Hcs : Forall (fun c => length c = Z.to_nat P) cs0.
Hypothesis Hsize : 1 <= size.
Hypothesis Hlen : Z.of_nat (length cs0) < 2 ^ 31 - 1.

(** The sender after [k] acknowledged chunks. *)
Definition snd_at (k : nat) (retr : Z) (sent : list (list Z)) (clk rd : nat) : Sender.Sender :=
  Sender.mkSender (Z.of_nat k) retr t size (Z.of_nat k + 1) (Z.of_nat k) range []
    Faults.ErrNone [] [] [] sent clk rd.

(** The receiver after [k] packets in order. *)
Definition rcv_at (k : nat) (r : Receiver.Receiver) : Prop :=
  r.(Receiver.packetBuffer) = [] /\ r.(Receiver.senderFile) = Some (concat (take k cs0)) /\
  r.(Receiver.curPktNum) = Z.of_nat k + 1 /\
  r.(Receiver.numPackets) = Z.of_nat (length cs0) + 1 /\
  r.(Receiver.packetSize) = P /\ Z.rem r.(Receiver.fileSize) P = 0 /\
  forall i, i ∈ r.(Receiver.donePackets) -> i <= Z.of_nat k.

Definition at_round (k : nat) (x : Sys) : Prop :=
  x.(sMain) = Sender.Reading (drop k cs0) /\
  (exists retr sent clk rd, x.(sSnd) = snd_at k retr sent clk rd) /\
  rcv_at k x.(sRcv) /\ x.(toRcv) = [] /\ x.(toSnd) = [] /\
  x.(rcvStopped) = bool_decide (k = length cs0).

(** The events of one round, and of the whole transfer. *)
Definition round : list SysEvent := [SMain; SRecv []; SAck []; SMain].

Definition schedule (n : nat) : list SysEvent := concat (repeat round n) ++ [SMain; SMain].

(** ** The sender's part of a round *)

(** The packet of chunk [k + 1]. *)
Definition pkt_at (k : nat) (retr : Z) (sent : list (list Z)) (clk rd : nat) (c : list Z) : Packet :=
  Sender.chunkPacket now (snd_at k retr sent clk rd) c.

(** The sender's globals while packet [k + 1] is in flight. *)
Definition snd_sent (k : nat) (retr : Z) (sent : list (list Z)) (l : list Packet) (clk rd : nat)
    : Sender.Sender :=
  Sender.mkSender (Z.of_nat k + 1) retr t size (Z.of_nat k + 1) (Z.of_nat k + 1) range l
    Faults.ErrNone [] [] [] sent clk rd.

Lemma processChunkData_at k retr sent clk rd c :
  (k < length cs0)%nat ->
  Sender.processChunkData now rand (snd_at k retr sent clk rd) c =
  snd_sent k retr (sent ++ [createPacketString (pkt_at k retr sent clk rd c) false])
    [pkt_at k retr sent clk rd c] (S clk) rd.
Proof.
  intros Hk. unfold Sender.processChunkData, pkt_at. cbn [Faults.popIfHead Sender.errorNACK
    Sender.errorDrop snd_at Sender.curSeqNum].
  unfold Sender.isRandom. cbn [Sender.artificialErrors snd_at].
  rewrite bool_decide_eq_false_2 by discriminate.
  rewrite Z.mod_small by lia. reflexivity.
Qed.

(** The packet of chunk [k + 1] as printed and parsed back. *)
Lemma pkt_at_fields k retr sent clk rd c :
  (k < length cs0)%nat ->
  getSeqNum (pkt_at k retr sent clk rd c) = Z.of_nat k + 1 /\
  (pkt_at k retr sent clk rd c).(data) = c /\ (pkt_at k retr sent clk rd c).(ack) = 0.
Proof.
  intros Hk. unfold pkt_at, Sender.chunkPacket, getSeqNum. cbn.
  rewrite !(Z.mod_small (Z.of_nat k + 1)) by lia. split_and!; [apply signed32_small; lia|done|done].
Qed.

(** A string the sender prints starts with a binary digit, never "PING". *)
Lemma take4_not_PING p f : take 4 (createPacketString p f) <> Receiver.PING.
Proof.
  unfold createPacketString. change 32%nat with (S 31). cbn [Bitset.to_string app take].
  by destruct (Z.testbit _ _).
Qed.

(** The packet of the ACK the receiver sends for packet [n]. *)
Lemma ackString_decodes srange n :
  0 <= n < 2 ^ 31 ->
  exists ap, reversePacket (Receiver.ackString srange n true) newPacket = Ok ap /\
    getSeqNum ap = n /\ ap.(ack) = ACK_OK.
Proof.
  intros Hn. unfold Receiver.ackString. rewrite reversePacket_createPacketString.
  eexists; split; [reflexivity|]. unfold getSeqNum; cbn.
  rewrite !(Z.mod_small n) by lia. split; [apply signed32_small; lia|done].
Qed.

Lemma ev_chunk k retr sent clk rd c cs r b :
  (k < length cs0)%nat ->
  sys_sched_step now rand (mkSys (Sender.Reading (c :: cs)) (snd_at k retr sent clk rd) r [] [] b) SMain =
  Some (mkSys (Sender.Checking cs)
          (snd_sent k retr (sent ++ [createPacketString (pkt_at k retr sent clk rd c) false])
             [pkt_at k retr sent clk rd c] (S clk) rd)
          r (createPacketString (pkt_at k retr sent clk rd c) false ++ [NUL]) [] b).
Proof.
  intros Hk. cbn [sys_sched_step sMain sSnd sRcv toRcv toSnd rcvStopped Sender.main_step].
  rewrite processChunkData_at by done. unfold newSent. cbn [Sender.sent snd_at snd_sent].
  rewrite drop_app_length. reflexivity.
Qed.

(** The ACK thread marks the packet in flight acknowledged. *)
Lemma onAck_at k retr sent q clk rd srange :
  (k < length cs0)%nat -> getSeqNum q = Z.of_nat k + 1 ->
  Sender.onAck now rand (snd_sent k retr sent [q] clk rd) (Receiver.ackString srange (Z.of_nat k + 1) true) =
  Ok (snd_sent k retr sent [setAck 1 (setTimeout (now clk) 500 q)] (S clk) rd).
Proof.
  intros Hk Hs.
  destruct (ackString_decodes srange (Z.of_nat k + 1) ltac:(lia)) as (ap & Ed & Ha & Hack).
  unfold snd_sent, Sender.onAck. rewrite Ed.
  cbn [res_bind Sender.errorLostAck Sender.seqNumRange Faults.popIfHead].
  unfold Sender.isRandom. cbn [Sender.artificialErrors].
  rewrite bool_decide_eq_false_2 by discriminate.
  unfold Sender.handleAck, Sender.findPacketBySeqNum.
  cbn [Sender.packetList Sender.clockReads Sender.curSeqNum Sender.numRetrans Sender.timeoutMS
       Sender.slidingWindowSize Sender.slidingWindowFront Sender.slidingWindowEnd Sender.seqNumRange
       Sender.artificialErrors Sender.errorDrop Sender.errorNACK Sender.errorLostAck Sender.sent
       Sender.randDraws list_find].
  change (getSeqNum (setSeqNumRange range ap)) with (getSeqNum ap).
  rewrite Ha, decide_True by exact Hs. cbn [option_map fst snd].
  change ((setSeqNumRange range ap).(ack)) with ap.(ack). rewrite Hack, Z.eqb_refl.
  reflexivity.
Qed.

Lemma ev_ack k retr sent q clk rd m r srange b :
  (k < length cs0)%nat -> getSeqNum q = Z.of_nat k + 1 ->
  sys_sched_step now rand
    (mkSys m (snd_sent k retr sent [q] clk rd) r [] (Receiver.ackString srange (Z.of_nat k + 1) true ++ [NUL]) b)
    (SAck []) =
  Some (mkSys m (snd_sent k retr sent [setAck 1 (setTimeout (now clk) 500 q)] (S clk) rd) r [] [] b).
Proof.
  intros Hk Hq.
  assert (Hl : length (Receiver.ackString srange (Z.of_nat k + 1) true) = (Z.to_nat 1 + 50)%nat)
    by (unfold Receiver.ackString; rewrite length_header; reflexivity).
  destruct (Socket.getFromSocket_sendData 1 _ [] [] ltac:(lia) Hl) as [sz Eg].
  unfold Socket.sendData in Eg. rewrite app_nil_r in Eg. cbn [app] in Eg.
  cbn [sys_sched_step sMain sSnd sRcv toRcv toSnd rcvStopped]. rewrite Eg.
  replace (Nat.eqb _ 0) with false by (rewrite Hl; reflexivity).
  rewrite onAck_at by done. unfold newSent. cbn [snd_sent Sender.sent]. rewrite drop_all. reflexivity.
Qed.

(** The pass of [checkPacketQueue()] after the ACK drops the packet,
    advances the front and leaves the wait. *)
Lemma ev_pass k retr sent q clk rd cs r b :
  getSeqNum q = Z.of_nat k + 1 -> q.(ack) = 1 ->
  sys_sched_step now rand (mkSys (Sender.Checking cs) (snd_sent k retr sent [q] clk rd) r [] [] b) SMain =
  Some (mkSys (Sender.Reading cs) (snd_at (S k) retr sent clk rd) r [] [] b).
Proof.
  intros Hq Ha. cbn [sys_sched_step sMain sSnd sRcv toRcv toSnd rcvStopped Sender.main_step].
  unfold Sender.checkPass, snd_sent. cbn [Sender.packetList Sender.timeoutMS Sender.slidingWindowFront
    Sender.numRetrans Sender.sent Sender.clockReads Sender.scanList].
  rewrite Hq, Ha, !Z.eqb_refl. cbn [andb Sender.scanList Sender.psFront Sender.psRetrans Sender.psSent
    Sender.psClock].
  unfold Sender.checkExit. cbn [Sender.slidingWindowEnd Sender.slidingWindowFront Sender.slidingWindowSize].
  replace (Z.of_nat k + 1 <? Z.of_nat k + 1 + 1 + size - 1) with true by (symmetry; apply Z.ltb_lt; lia).
  unfold newSent. cbn [Sender.sent]. rewrite drop_all. cbn [fold_left].
  unfold snd_at. replace (Z.of_nat (S k)) with (Z.of_nat k + 1) by lia. reflexivity.
Qed.

(** After the last chunk, the main thread enters and leaves its final wait. *)
Lemma ev_last st r a b :
  sys_sched_step now rand (mkSys (Sender.Reading []) st r [] a b) SMain =
  Some (mkSys Sender.Draining st r [] a b).
Proof.
  cbn [sys_sched_step sMain sSnd sRcv toRcv toSnd rcvStopped Sender.main_step].
  unfold newSent. rewrite drop_all. reflexivity.
Qed.

Lemma ev_done k retr sent clk rd r a b :
  sys_sched_step now rand (mkSys Sender.Draining (snd_at k retr sent clk rd) r [] a b) SMain =
  Some (mkSys Sender.Finished (snd_at k retr sent clk rd) r [] a b).
Proof.
  cbn [sys_sched_step sMain sSnd sRcv toRcv toSnd rcvStopped Sender.main_step].
  unfold newSent. cbn. rewrite drop_all. reflexivity.
Qed.

(** ** The receiver's part of a round *)

Ltac rcv_simpl := cbn [Receiver.packetBuffer Receiver.senderFile Receiver.outputFileName
  Receiver.curPktNum Receiver.lastPktNum Receiver.numPackets Receiver.fileSize Receiver.packetSize
  Receiver.slidingWindowSize Receiver.seqNumRange Receiver.protocol Receiver.donePackets
  Receiver.numReceived Receiver.lastReceived Receiver.replies] in *.

(** With whole packets the end test never resizes the read. *)
Lemma endOfPacket_whole st :
  st.(Receiver.packetSize) = P -> Z.rem st.(Receiver.fileSize) P = 0 ->
  Receiver.endOfPacket st = Ok (st, st.(Receiver.curPktNum) =? st.(Receiver.numPackets)).
Proof.
  intros Hp Hr. unfold Receiver.endOfPacket, c_rem. rewrite Hp, Hr.
  destruct (_ =? _); [done|]. destruct (_ + 1 =? _); [|done].
  replace (P =? 0) with false by lia. reflexivity.
Qed.

(** The receiver's iteration on the string of chunk [k + 1]: it writes
    the chunk, answers with its ACK and stops after the last one. *)
Lemma recv_step_at k r c retr sent clk rd :
  (k < length cs0)%nat -> cs0 !! k = Some c -> rcv_at k r ->
  exists r', Receiver.step r (createPacketString (pkt_at k retr sent clk rd c) false) =
               Ok (r', bool_decide (S k = length cs0)) /\
    rcv_at (S k) r' /\ newReplies r r' = [Receiver.ackString r.(Receiver.seqNumRange) (Z.of_nat k + 1) true].
Proof.
  intros Hk Hc (Hb & Hf & Hcur & HN & Hps & Hfs & Hd).
  destruct (pkt_at_fields k retr sent clk rd c Hk) as (Hs & Hdata & _).
  set (p := pkt_at k retr sent clk rd c) in *.
  rewrite (Receiver.step_decoded r _ _ ltac:(rewrite length_header; lia) (take4_not_PING p false)
             (reversePacket_createPacketString p false newPacket)).
  set (dp := setData _ _).
  assert (Hv : isValid dp = true).
  { unfold isValid, Checksum.Checksum.isValidChecksum, dp; cbn. rewrite createChecksum_mod16. apply Z.eqb_refl. }
  assert (Hq : getSeqNum dp = Z.of_nat k + 1).
  { unfold getSeqNum, dp. cbn [seqNum setData setChecksum setAck setSeqNum]. rewrite !signed32_mod32. exact Hs. }
  cbv zeta. rewrite Hv, Hq, bool_decide_eq_false_2 by (intros Hi; apply Hd in Hi; lia).
  replace (Z.of_nat k + 1 =? 0) with false by lia. cbn [negb orb].
  destruct r as [buf f name cur last np fs ps ws srange proto done nrec lrec reps].
  rcv_simpl. subst buf f cur np ps.
  unfold Receiver.insertPacket, Receiver.markDone, Receiver.acknowledge, Receiver.processPacketBuffer.
  rcv_simpl.
  change (getSeqNum (setSeqNumRange srange dp)) with (getSeqNum dp). rewrite Hq, Z.eqb_refl.
  cbn [Receiver.flush].
  change (getSeqNum (setSeqNumRange srange dp)) with (getSeqNum dp). rewrite Hq, Z.ltb_irrefl. cbn [Receiver.flush Receiver.fileWrite].
  change (data (setSeqNumRange srange dp)) with (data p). rewrite Hdata.
  rewrite endOfPacket_whole by done. cbn [Receiver.curPktNum Receiver.numPackets].
  assert (Hst : (Z.of_nat k + 1 + 1 =? Z.of_nat (length cs0) + 1) = bool_decide (S k = length cs0)).
  { case_bool_decide; [apply Z.eqb_eq|apply Z.eqb_neq]; lia. }
  rewrite Hst.
  eexists; split; [reflexivity|split]; [unfold rcv_at; rcv_simpl; split_and!|].
  - done.
  - by rewrite (take_S_r _ _ _ Hc), concat_app; cbn; rewrite app_nil_r.
  - lia.
  - done.
  - done.
  - done.
  - intros i Hi. apply elem_of_union in Hi as [Hi|Hi];
      [apply elem_of_singleton in Hi; lia|apply Hd in Hi; lia].
  - unfold newReplies. cbn. by rewrite drop_app_length.
Qed.

Lemma ev_recv k r c retr sent clk rd m st :
  (k < length cs0)%nat -> cs0 !! k = Some c -> rcv_at k r ->
  exists r', rcv_at (S k) r' /\
  sys_sched_step now rand
    (mkSys m st r (createPacketString (pkt_at k retr sent clk rd c) false ++ [NUL]) [] false) (SRecv []) =
  Some (mkSys m st r' [] (Receiver.ackString r.(Receiver.seqNumRange) (Z.of_nat k + 1) true ++ [NUL])
          (bool_decide (S k = length cs0))).
Proof.
  intros Hk Hc Hr.
  destruct (recv_step_at k r c retr sent clk rd Hk Hc Hr) as (r' & Es & Hr' & Hrep).
  exists r'. split; [exact Hr'|].
  destruct (pkt_at_fields k retr sent clk rd c Hk) as (_ & Hdata & _).
  assert (Hl : length (createPacketString (pkt_at k retr sent clk rd c) false) = (Z.to_nat P + 50)%nat).
  { rewrite length_header, Hdata, (Forall_lookup_1 _ _ _ _ Hcs Hc). lia. }
  destruct (Socket.getFromSocket_sendData P _ [] [] HP Hl) as [sz Eg].
  unfold Socket.sendData in Eg. rewrite app_nil_r in Eg. cbn [app] in Eg.
  destruct Hr as (_ & _ & _ & _ & Hps & _).
  cbn [sys_sched_step sMain sSnd sRcv toRcv toSnd rcvStopped].
  replace (Nat.eqb _ 0) with false by (rewrite length_app; cbn; lia).
  rewrite Hps, Eg, Es, Hrep. reflexivity.
Qed.

(** ** Rounds *)

Lemma sys_run_app x es1 es2 :
  sys_run now rand x (es1 ++ es2) =
  match sys_run now rand x es1 with Some y => sys_run now rand y es2 | None => None end.
Proof.
  revert x; induction es1 as [|e es1 IH]; intros x; cbn [app sys_run]; [done|].
  destruct (sys_sched_step now rand x e); [apply IH|done].
Qed.

(** One round sends, delivers and acknowledges chunk [k + 1]. *)
Lemma round_at k x :
  (k < length cs0)%nat -> at_round k x ->
  exists y, sys_run now rand x round = Some y /\ at_round (S k) y.
Proof.
  destruct x as [m st r d a b].
  intros Hk (Hm & (retr & sent & clk & rd & Hs) & Hr & Hd & Ha & Hb).
  cbn [sMain sSnd sRcv toRcv toSnd rcvStopped] in *. subst m st d a b.
  destruct (lookup_lt_is_Some_2 cs0 k Hk) as [c Hc]. rewrite (drop_S _ _ _ Hc).
  rewrite bool_decide_eq_false_2 by lia.
  destruct (pkt_at_fields k retr sent clk rd c Hk) as (Hq & _ & _).
  destruct (ev_recv k r c retr sent clk rd (Sender.Checking (drop (S k) cs0))
              (snd_sent k retr (sent ++ [createPacketString (pkt_at k retr sent clk rd c) false])
                 [pkt_at k retr sent clk rd c] (S clk) rd) Hk Hc Hr) as (r' & Hr' & E2).
  unfold round. cbn [sys_run]. rewrite ev_chunk, E2, ev_ack, ev_pass by (done || lia || reflexivity).
  eexists; split; [reflexivity|].
  unfold at_round; cbn [sMain sSnd sRcv toRcv toSnd rcvStopped]. split_and!; try done. by do 4 eexists.
Qed.

Lemma rounds_at k x :
  (k <= length cs0)%nat -> at_round 0 x ->
  exists y, sys_run now rand x (concat (repeat round k)) = Some y /\ at_round k y.
Proof.
  intros Hk Hx. induction k as [|k IH].
  - by exists x.
  - destruct IH as (y & Ey & Hy); [lia|].
    destruct (round_at k y ltac:(lia) Hy) as (z & Ez & Hz).
    exists z. split; [|done].
    change (repeat round (S k)) with (round :: repeat round k).
    rewrite repeat_cons, concat_app, sys_run_app, Ey. cbn [concat]. by rewrite app_nil_r.
Qed.

End Progress.

Lemma schedule_length n : length (schedule n) = (4 * n + 2)%nat.
Proof.
  unfold schedule. rewrite length_app. cbn [length].
  induction n as [|n IH]; [done|]. cbn [repeat concat]. rewrite length_app. cbn [round length]. lia.
Qed.

(** The schedule of [n] rounds and the final wait runs to the end. *)
Lemma schedule_finishes now rand cs0 P t size range r0 :
  0 < P -> Forall (fun c => length c = Z.to_nat P) cs0 -> 1 <= size ->
  Z.of_nat (length cs0) < 2 ^ 31 - 1 -> cs0 <> [] ->
  r0.(Receiver.packetBuffer) = [] -> r0.(Receiver.senderFile) = Some [] ->
  r0.(Receiver.curPktNum) = 1 -> r0.(Receiver.numPackets) = Z.of_nat (length cs0) + 1 ->
  r0.(Receiver.packetSize) = P -> Z.rem r0.(Receiver.fileSize) P = 0 ->
  (forall i, i ∈ r0.(Receiver.donePackets) -> i <= 0) ->
  exists y,
    sys_run now rand
      (mkSys (Sender.Reading cs0) (Sender.initSender t size range Faults.ErrNone [] [] []) r0 [] [] false)
      (schedule (length cs0)) = Some y /\
    length (schedule (length cs0)) = (4 * length cs0 + 2)%nat /\
    y.(sMain) = Sender.Finished /\ y.(rcvStopped) = true /\
    y.(sRcv).(Receiver.senderFile) = Some (concat cs0).
Proof.
  intros HP Hcs Hs Hl Hne Hb Hf Hc HN Hps Hfs Hd.
  set (x0 := mkSys _ _ r0 [] [] false).
  assert (H0 : at_round cs0 P t size range 0 x0).
  { unfold at_round, rcv_at. cbn [sMain sSnd sRcv toRcv toSnd rcvStopped x0].
    split_and!; try done.
    - by exists 0, [], 0%nat, 0%nat.
    - rewrite bool_decide_eq_false_2; [done|]. by destruct cs0. }
  destruct (rounds_at now rand cs0 P t size range HP Hcs Hs Hl (length cs0) x0 ltac:(lia) H0)
    as ([m st r d a b] & Ey & Hy).
  destruct Hy as (Hm & (retr & sent & clk & rd & Hst) & Hr & Hd' & Ha & Hb').
  cbn [sMain sSnd sRcv toRcv toSnd rcvStopped] in *. subst m st d a b.
  rewrite drop_all in Ey.
  eexists. unfold schedule. rewrite sys_run_app, Ey. cbn [sys_run].
  rewrite ev_last, ev_done. split_and!; [reflexivity| | done | by rewrite bool_decide_eq_true_2 |].
  - apply schedule_length.
  - destruct Hr as (_ & Hfile & _). cbn [sRcv]. by rewrite Hfile, take_ge.
Qed.



(** ** A lost last ACK

    The receiver's loop ends with the last packet and [main] returns, so
    nothing reads the sender's packets any more and no ACK comes back.
    A sender that still has a packet not acknowledged at that point (its
    ACK was lost: the "User" lost-ACK list, or the 1/51 draw of the
    "Random" mode) can only pass over it again and again. *)

Lemma getFromSocket_nil P sizes : (Socket.getFromSocket P [] sizes).1.1 = [].
Proof.
  unfold Socket.getFromSocket. cbn [length Socket.readLoop].
  rewrite !take_nil. cbn [length Z.of_nat Z.eqb].
  repeat (case_match; cbn [fst snd take length]); simplify_eq; reflexivity.
Qed.

Lemma checkPass_unacked now st p :
  p ∈ st.(Sender.packetList) -> p.(ack) <> 1 ->
  exists q, q ∈ (Sender.checkPass now st).(Sender.packetList) /\ q.(ack) <> 1.
Proof.
  intros Hin Ha. unfold Sender.checkPass.
  destruct (Sender.scanList_unacked now st.(Sender.timeoutMS) st.(Sender.packetList)
              (Sender.mkPass st.(Sender.slidingWindowFront) st.(Sender.numRetrans) st.(Sender.sent)
                 st.(Sender.clockReads)) p Hin Ha) as (q & Hq & Hqa).
  destruct (Sender.scanList _ _ _) as [l' ps]. cbn in *. exists q. split; [done|congruence].
Qed.

(** The sender after the receiver has stopped with no ACK on the way and
    a packet not acknowledged. *)
Definition stuck (x : Sys) : Prop :=
  x.(rcvStopped) = true /\ x.(toSnd) = [] /\ x.(sMain) <> Sender.Finished /\
  exists p, p ∈ x.(sSnd).(Sender.packetList) /\ p.(ack) <> 1.

Lemma stuck_step now rand x y : stuck x -> sys_step now rand x y -> stuck y.
Proof.
  intros (Hb & Ha & Hm & p & Hp & Hpa) Hs.
  destruct Hs as [m st m' st' r d a b E|m st st' r d a a' s sizes sizes' b Eg Hs E
                 |m st r r' d d' a s sizes sizes' stop Hne Eg E];
    cbn [sMain sSnd sRcv toRcv toSnd rcvStopped] in *; [|subst a|discriminate].
  - unfold stuck; cbn [sMain sSnd toSnd rcvStopped]. split_and!; [done|done| |].
    + destruct m as [[|c cs]|cs| |]; cbn [Sender.main_step] in E.
      * by injection E as <- <-.
      * by injection E as <- <-.
      * by destruct (Sender.checkExit false _); injection E as <- <-.
      * destruct (Sender.checkExit true _) eqn:Ex; injection E as <- <-; [|discriminate].
        destruct (checkPass_unacked now st p Hp Hpa) as (q & Hq & _).
        unfold Sender.checkExit in Ex. apply Nat.eqb_eq, length_zero_iff_nil in Ex. rewrite Ex in Hq. by apply elem_of_nil in Hq.
      * discriminate.
    + destruct m as [[|c cs]|cs| |]; cbn [Sender.main_step] in E; try discriminate.
      * injection E as <- <-. by exists p.
      * injection E as <- <-. destruct (Sender.processChunkData_spec now rand st c) as (_ & _ & _ & _ & _ & _ & Hl & _).
        exists p. rewrite Hl. split; [set_solver|done].
      * destruct (Sender.checkExit false _); injection E as <- <-; by apply (checkPass_unacked now st p).
      * destruct (Sender.checkExit true _); injection E as <- <-; by apply (checkPass_unacked now st p).
  - pose proof (getFromSocket_nil 1 sizes) as H0. rewrite Eg in H0. cbn in H0. done.
Qed.

(** The two-chunk transfer of [System] in the "User" mode with the ACK
    of packet 2 lost: chunk 1 is sent, received and acknowledged; chunk 2
    is sent and received, which ends the receiver's loop; its ACK is
    read and dropped by the lost-ACK list; the pass keeps packet 2. *)
Definition lost_sys : Sys :=
  mkSys (Sender.Reading demo_chunks) (Sender.initSender 1000 2 0 Faults.ErrUser [] [] [2]) demo_rcv [] [] false.
Definition lost_events : list SysEvent :=
  [SMain; SRecv []; SAck []; SMain; SMain; SRecv []; SAck []; SMain].
Definition lost_state : Sys :=
  match sys_run Sender.demo_now Sender.demo_rand lost_sys lost_events with Some x => x | None => lost_sys end.

(** C10. A lost last ACK blocks the end of the transfer: once the
    receiver's loop has ended (it ends at the last packet and [main]
    returns), with no ACK on its way to the sender and a packet not
    acknowledged, every run of the system keeps the sender out of
    [Finished] -- [checkPacketQueue(true)] resends the packet to a
    receiver that no longer reads, for every clock and random sequence. *)
Theorem lost_ack_never_finishes now rand x y :
  stuck x -> rtc (sys_step now rand) x y -> stuck y.
Proof. intros Hx Hr. exact (rtc_invariant _ stuck _ _ (stuck_step now rand) Hx Hr). Qed.

(** Witness of C10: the run above reaches such a state from the start of
    the transfer, and three more steps of the main thread (a pass, the
    end of the chunks, a pass of the final wait) leave the sender in its
    final wait with packet 2 unacknowledged. *)
Lemma lost_ack_never_finishes_witness :
  rtc (sys_step Sender.demo_now Sender.demo_rand) lost_sys lost_state /\
  exists y, sys_run Sender.demo_now Sender.demo_rand lost_state [SMain; SMain; SMain] = Some y /\
    stuck y.
Proof.
  split; [apply (sys_run_sound _ _ _ lost_events); vm_compute; reflexivity|].
  eexists; split; [vm_compute; reflexivity|].
  apply (lost_ack_never_finishes Sender.demo_now Sender.demo_rand lost_state).
  - split_and!; [vm_compute; reflexivity|vm_compute; reflexivity|vm_compute; discriminate|].
    eexists. split; [vm_compute; left|vm_compute; discriminate].
  - apply (sys_run_sound _ _ _ [SMain; SMain; SMain]). vm_compute. reflexivity.
Defined.

(** ** A short last packet after a retransmission *)

(** A file of 3 bytes sent in packets of 2 bytes ("AB", then "C"): the
    receiver after the handshake expects 3 packets and reads 2 + 51
    bytes; the sender's timeout is 1 ms and its clock advances 100 ms
    per reading, so packet 1 is past its deadline at the first pass.  No
    faults. *)
Definition short_rcv : Receiver.Receiver :=
  Receiver.mkReceiver [] (Some []) [102] 1 0 3 3 2 2 0 [32; 83; 82] {[0]} 1 0 [Receiver.ackString 0 0 true].
Definition short_clock (i : nat) : Z := 100 * Z.of_nat i.
Definition short_sys : Sys :=
  mkSys (Sender.Reading [[65; 66]; [67]]) (Sender.initSender 1 2 0 Faults.ErrNone [] [] []) short_rcv [] [] false.
(** Packet 1 is sent, the pass resends it, packet 2 is sent; the receiver
    reads packet 1 (and from then on [fileSize % packetSize = 1] + 51
    bytes), then the resent packet 1 cut by one byte, a duplicate. *)
Definition short_events : list SysEvent := [SMain; SMain; SMain; SRecv []; SRecv []].
Definition short_state : Sys :=
  match sys_run short_clock Sender.demo_rand short_sys short_events with Some x => x | None => short_sys end.

(** The bytes left for the receiver hold more than one read. *)
Lemma short_toRcv_long : (Z.to_nat 1 + 51 <= length short_state.(toRcv))%nat.
Proof. vm_compute. lia. Qed.

(** The receiver's next read, the resent packet 1 cut by one byte, is not
    a packet. *)
Lemma short_next_crash :
  Receiver.step short_state.(sRcv) (take (Z.to_nat 1 + 50) short_state.(toRcv)) = Crash ExcInvalidArgument.
Proof. vm_compute. reflexivity. Qed.

(** C11. A file whose size is not a multiple of the packet size can crash
    the receiver without any fault: when a timeout resends packet 1
    before the short last packet is sent, the receiver, which switched
    to the last packet's size after packet 1, reads the resent copy cut
    by one byte and then the byte left over with the last packet's
    header; however the network splits the bytes, that string is not a
    binary header and [reversePacket] throws [std::invalid_argument],
    ending the receiver with the file incomplete. *)
Theorem short_last_packet_crash :
  rtc (sys_step short_clock Sender.demo_rand) short_sys short_state /\
  short_state.(rcvStopped) = false /\ short_state.(sRcv).(Receiver.senderFile) = Some [65; 66] /\
  forall sizes s d' sizes',
    Socket.getFromSocket short_state.(sRcv).(Receiver.packetSize) short_state.(toRcv) sizes = (s, d', sizes') ->
    Receiver.step short_state.(sRcv) s = Crash ExcInvalidArgument.
Proof.
  split; [apply (sys_run_sound _ _ _ short_events); vm_compute; reflexivity|].
  split; [vm_compute; reflexivity|]. split; [vm_compute; reflexivity|].
  intros sizes s d' sizes' E.
  assert (Hp : short_state.(sRcv).(Receiver.packetSize) = 1) by (vm_compute; reflexivity).
  rewrite Hp in E.
  destruct (Socket.getFromSocket_exact 1 short_state.(toRcv) sizes ltac:(lia) short_toRcv_long)
    as [sz E']. rewrite E' in E.
  pose proof (f_equal (fun p : list Z * list Z * list nat => match p with (a, _, _) => a end) E) as Es.
  cbv beta iota in Es. rewrite <- Es. exact short_next_crash.
Qed.

End Liveness.
