(* ===== verification/AckSound.v ===== *)
(** * Soundness of the acknowledgements

    [System] shows that the receiver's file is always a prefix of the
    file; [Liveness] that a fault-free schedule finishes.  This file shows
    the other half of the contract of the sliding window: the sender never
    reports success too early.  Whatever the faults (dropped packets,
    forced NACKs, lost ACKs, random errors), the interleaving of the three
    threads and the network's splitting, once the sender's main thread
    is past its final [checkPacketQueue(true)] (sender.cpp, lines 700-706)
    the receiver's loop has ended and its file holds every chunk
    ([finished_delivered]).

    The argument follows the three places a number travels:
    - the receiver answers [ACK_OK] only for a packet whose checksum is
      valid, and every such packet is in [donePackets] once the iteration
      ends (receiver.cpp, lines 224-266: [step_ok_done]);
    - an [ACK_OK] read by [readACKMessages] marks at most the packet it
      names, and [checkPacketQueue] only erases an acknowledged packet at
      the window front (sender.cpp, lines 215-240 and 335-372:
      [acked_in], [onAck_acked], [checkPass_acked]);
    - every number the receiver records is either below [curPktNum] or in
      its reorder buffer ([done_bound], receiver.cpp, lines 261-284), so a
      receiver that has recorded [1 .. n] expects packet [n + 1];
    - the receiver never expects a packet past [numPackets] and its loop
      runs only while it expects one below it ([count_inv]); with
      [numPackets = n + 1] a receiver expecting [n + 1] has stopped. *)

From S2P Require Import Prelude Codec Handshake Socket Faults Sender Receiver System Liveness.
From stdpp Require Import gmap sorting.
Open Scope Z_scope.

Module AckSound.

Import Codec Faults.

(** ** The sender: acknowledged numbers are received numbers *)

(** A packet marked acknowledged ([ack == 1]) has a number in [D]. *)
Definition acked (D : gset Z) (p : Packet) : Prop := p.(ack) = 1 -> getSeqNum p ∈ D.

(** Every number the window front has passed and every acknowledged
    packet of the list is in [D]. *)
Definition acked_in (D : gset Z) (st : Sender.Sender) : Prop :=
  (forall k, 1 <= k < st.(Sender.slidingWindowFront) -> k ∈ D) /\
  Forall (acked D) st.(Sender.packetList).

Lemma acked_mono D D' p : D ⊆ D' -> acked D p -> acked D' p.
Proof. unfold acked. intros HD H Ha. apply HD, H, Ha. Qed.

Lemma acked_in_mono D D' st : D ⊆ D' -> acked_in D st -> acked_in D' st.
Proof.
  intros HD [Hf Hl]. split; [intros k Hk; apply HD, Hf, Hk|].
  eapply Forall_impl; [exact Hl|]. intros p. by apply acked_mono.
Qed.

Lemma acked_setTimeout D a b p : acked D p -> acked D (setTimeout a b p).
Proof. exact id. Qed.

#[local] Hint Resolve acked_setTimeout : core.

Section Env.

Variable now : nat -> Z.
Variable rand : nat -> Z.

(** A pass of [checkPacketQueue] erases only the acknowledged packet at
    the front and moves the front past it. *)
Lemma scanList_acked D t l ps :
  (forall k, 1 <= k < ps.(Sender.psFront) -> k ∈ D) -> Forall (acked D) l ->
  (forall k, 1 <= k < (Sender.scanList now t l ps).2.(Sender.psFront) -> k ∈ D) /\
  Forall (acked D) (Sender.scanList now t l ps).1.
Proof.
  revert ps; induction l as [|p l IH]; intros ps Hf Hl; cbn [Sender.scanList fst snd];
    [split; [exact Hf|constructor]|].
  apply Forall_cons in Hl as [Hp Hl].
  destruct ((getSeqNum p =? Sender.psFront ps) && (ack p =? 1)) eqn:E.
  - apply andb_true_iff in E as [E1 E2]. apply Z.eqb_eq in E1, E2.
    apply IH; [|exact Hl]. cbn. intros k Hk.
    destruct (Z.eq_dec k (Sender.psFront ps)) as [->|]; [rewrite <- E1; exact (Hp E2)|apply Hf; lia].
  - destruct (hasTimedOut _ _);
      [set (ps1 := Sender.mkPass _ _ _ _)|set (ps1 := Sender.mkPass _ _ _ _)];
      destruct (IH ps1 Hf Hl) as [H1 H2];
      destruct (Sender.scanList now t l ps1) as [l1 q1]; cbn in *;
      (split; [exact H1|constructor; auto]).
Qed.

Lemma checkPass_acked D st : acked_in D st -> acked_in D (Sender.checkPass now st).
Proof.
  intros [Hf Hl]. unfold Sender.checkPass.
  destruct (scanList_acked D st.(Sender.timeoutMS) st.(Sender.packetList)
              (Sender.mkPass st.(Sender.slidingWindowFront) st.(Sender.numRetrans) st.(Sender.sent)
                 st.(Sender.clockReads)) Hf Hl) as [H1 H2].
  destruct (Sender.scanList _ _ _ _) as [l' ps]. split; [exact H1|exact H2].
Qed.

(** A new packet is not acknowledged. *)
Lemma processChunkData_acked D st c : acked_in D st -> acked_in D (Sender.processChunkData now rand st c).
Proof.
  intros [Hf Hl]. destruct (Sender.processChunkData_spec now rand st c) as (_ & _ & Ef & _ & _ & _ & El & _).
  split; [rewrite Ef; exact Hf|]. rewrite El. apply Forall_app. split; [exact Hl|].
  constructor; [|constructor]. discriminate.
Qed.

Lemma main_step_acked D x y :
  Sender.main_step now rand x = Some y -> acked_in D x.2 -> acked_in D y.2.
Proof.
  destruct x as [[[|c cs]|cs| |] st]; cbn; intros E;
    [injection E as <-; done|injection E as <-; apply processChunkData_acked
    |injection E as <-; apply checkPass_acked|injection E as <-; apply checkPass_acked|discriminate].
Qed.

(** [handleAck] marks the packet an ACK names only when its code is
    [ACK_OK]. *)
Lemma handleAck_acked D st a :
  ((a.(ack) =? ACK_OK) = true -> getSeqNum a ∈ D) ->
  acked_in D st -> acked_in D (Sender.handleAck now st a).
Proof.
  intros Ha [Hf Hl]. unfold Sender.handleAck, Sender.findPacketBySeqNum.
  destruct (list_find _ _) as [[i p]|] eqn:E; [|split; assumption].
  apply list_find_Some in E as (Hi & Hs & _).
  pose proof (Forall_lookup_1 _ _ _ _ Hl Hi) as Hp.
  destruct (a.(ack) =? ACK_OK) eqn:Eo; (split; [exact Hf|apply Forall_insert; [exact Hl|]]).
  - intros _. cbn. change (getSeqNum p ∈ D). rewrite Hs. exact (Ha eq_refl).
  - auto.
Qed.

(** The string of an ACK decodes to the number and code it was built
    with. *)
Lemma ackString_decodes_any srange n v :
  - 2 ^ 31 <= n < 2 ^ 31 ->
  exists ap, reversePacket (Receiver.ackString srange n v) newPacket = Ok ap /\
    getSeqNum ap = n /\ ap.(ack) = if v then ACK_OK else ACK_FAIL.
Proof.
  intros Hn. unfold Receiver.ackString. rewrite reversePacket_createPacketString.
  eexists; split; [reflexivity|]. unfold getSeqNum; cbn.
  rewrite !System.signed32_mod32, signed32_int by lia.
  split; [done|by destruct v].
Qed.

(** An ACK string whose [ACK_OK] names a number of [D], read by
    [readACKMessages], keeps [acked_in D] -- lost, ignored or handled. *)
Lemma onAck_acked D st srange n v st' :
  - 2 ^ 31 <= n < 2 ^ 31 -> (v = true -> n ∈ D) ->
  Sender.onAck now rand st (Receiver.ackString srange n v) = Ok st' ->
  acked_in D st -> acked_in D st'.
Proof.
  intros Hn Hv. destruct (ackString_decodes_any srange n v Hn) as (ap & Ed & Es & Ea).
  unfold Sender.onAck. rewrite Ed. cbn [res_bind].
  assert (Hok : ((setSeqNumRange st.(Sender.seqNumRange) ap).(ack) =? ACK_OK) = true ->
                getSeqNum (setSeqNumRange st.(Sender.seqNumRange) ap) ∈ D).
  { change (getSeqNum (setSeqNumRange _ ap)) with (getSeqNum ap).
    change (ack (setSeqNumRange _ ap)) with (ack ap). rewrite Ea, Es.
    destruct v; [intros _; by apply Hv|discriminate]. }
  destruct (popIfHead _ _) as [lost qL].
  destruct lost; [intros [= <-]; intros [Hf Hl]; by split|].
  destruct (Sender.isRandom st); [destruct (randomFault _)|]; intros [= <-] Hi;
    [by destruct Hi; split| |]; apply handleAck_acked; try exact Hok; [|exact Hi].
  destruct Hi as [Hf Hl]. by split.
Qed.

End Env.

(** ** The receiver: every recorded number is accounted for *)

(** Every number of [donePackets] is below [curPktNum] or the number of
    a packet waiting in the reorder buffer. *)
Definition done_bound (r : Receiver.Receiver) : Prop :=
  0 <= r.(Receiver.curPktNum) /\
  forall i, i ∈ r.(Receiver.donePackets) ->
    i < r.(Receiver.curPktNum) \/ i ∈ map getSeqNum r.(Receiver.packetBuffer).

(** [processPacketBuffer] only drops packets below the new [curPktNum]. *)
Lemma flush_keys buf cur f :
  cur <= (Receiver.flush buf cur f).1.2 /\
  forall k, k ∈ map getSeqNum buf ->
    k < (Receiver.flush buf cur f).1.2 \/ k ∈ map getSeqNum (Receiver.flush buf cur f).1.1.
Proof.
  revert cur f; induction buf as [|p rest IH]; intros cur f; cbn [Receiver.flush].
  - cbn. split; [lia|intros k Hk; by right].
  - destruct (Z.ltb_spec cur (getSeqNum p)); [cbn; split; [lia|intros k Hk; by right]|].
    destruct (IH (cur + 1) (Receiver.fileWrite f p.(data))) as [Hc Hk].
    split; [lia|]. cbn [map]. intros k [->|Hin]%elem_of_cons; [left; lia|by apply Hk].
Qed.

Lemma processPacketBuffer_done st :
  (Receiver.processPacketBuffer st).(Receiver.donePackets) = st.(Receiver.donePackets).
Proof. unfold Receiver.processPacketBuffer. by destruct (Receiver.flush _ _ _) as [[? ?] ?]. Qed.

(** [insertPacket] adds the packet's number to the buffer's numbers. *)
Lemma insert_keys st p :
  map getSeqNum (Receiver.insertPacket st p).(Receiver.packetBuffer) ≡ₚ
  getSeqNum p :: map getSeqNum st.(Receiver.packetBuffer).
Proof.
  unfold Receiver.insertPacket; cbn [Receiver.packetBuffer].
  destruct (_ =? _); [done|]. unfold Receiver.sortBuffer.
  etrans; [apply Permutation_map, merge_sort_Permutation|].
  rewrite map_app. cbn. symmetry. apply Permutation_cons_append.
Qed.

(** A new data packet: its number is recorded and buffered, then the
    buffer is flushed. *)
Lemma data_bound st p :
  done_bound st ->
  done_bound (Receiver.processPacketBuffer (Receiver.insertPacket (Receiver.markDone st (getSeqNum p)) p)).
Proof.
  intros [H0 Hb]. pose proof (insert_keys (Receiver.markDone st (getSeqNum p)) p) as Hk.
  unfold Receiver.processPacketBuffer.
  destruct (flush_keys (Receiver.insertPacket (Receiver.markDone st (getSeqNum p)) p).(Receiver.packetBuffer)
              st.(Receiver.curPktNum) st.(Receiver.senderFile)) as [Hc Hf].
  cbn [Receiver.curPktNum Receiver.senderFile Receiver.insertPacket Receiver.markDone] in Hk, Hc, Hf |- *.
  destruct (Receiver.flush _ _ _) as [[buf' cur'] f']. cbn [fst snd] in Hc, Hf.
  unfold done_bound; cbn [Receiver.curPktNum Receiver.donePackets Receiver.packetBuffer].
  split; [lia|]. intros i [->%elem_of_singleton|Hi]%elem_of_union.
  - apply Hf. rewrite Hk. by left.
  - destruct (Hb i Hi) as [Hl|Hin]; [left; lia|]. apply Hf. rewrite Hk. by right.
Qed.

Lemma done_bound_same st st' : Receiver.same_core st st' -> done_bound st -> done_bound st'.
Proof.
  intros (E1 & _ & E3 & E4 & _) [H0 Hb]. unfold done_bound. rewrite E1, E3, E4. by split.
Qed.

(** An iteration of the loop keeps [done_bound] and forgets no number. *)
Lemma step_done r m r' b :
  done_bound r -> Receiver.step r m = Ok (r', b) ->
  done_bound r' /\ r.(Receiver.donePackets) ⊆ r'.(Receiver.donePackets).
Proof.
  intros Hb. unfold Receiver.step.
  destruct (Nat.eqb _ 0); [intros [= <- _]; done|].
  destruct (bool_decide _); [intros [= <- _]; done|].
  destruct (reversePacket m newPacket) as [dp|]; cbn [res_bind]; [cbv zeta|discriminate].
  destruct (_ || _); [intros [= <- _]; done|].
  destruct (_ =? 0) eqn:E0.
  - destruct (Handshake.readInitialPacket _) as [hp|]; cbn [res_bind]; [|discriminate].
    intros [= <- _]. destruct Hb as [H0 Hb]. apply Z.eqb_eq in E0.
    unfold done_bound. cbn. rewrite E0. split; [split; [lia|]|set_solver].
    intros i [->%elem_of_singleton|Hi]%elem_of_union; [left; lia|].
    destruct (Hb i Hi); [left; lia|by right].
  - intros E. pose proof (Receiver.endOfPacket_same _ _ _ E) as Hs.
    split; [exact (done_bound_same _ _ Hs (data_bound (Receiver.acknowledge r _ _) _ Hb))|].
    destruct Hs as (_ & _ & _ & -> & _). rewrite processPacketBuffer_done. cbn. set_solver.
Qed.

(** A message with a valid checksum is recorded by the iteration that
    acknowledges it. *)
Lemma step_ok_done r m dp r' b :
  length m <> 0%nat -> take 4 m <> Receiver.PING -> reversePacket m newPacket = Ok dp ->
  isValid dp = true -> Receiver.step r m = Ok (r', b) ->
  getSeqNum dp ∈ r'.(Receiver.donePackets).
Proof.
  intros Hl Hp Hd Hv. rewrite (Receiver.step_decoded r m dp Hl Hp Hd), Hv. cbv zeta. cbn [negb orb].
  case_bool_decide as Hin; [intros [= <- _]; exact Hin|].
  destruct (_ =? 0).
  - destruct (Handshake.readInitialPacket _); cbn [res_bind]; [|discriminate].
    intros [= <- _]. cbn. set_solver.
  - intros E. destruct (Receiver.endOfPacket_same _ _ _ E) as (_ & _ & _ & -> & _).
    rewrite processPacketBuffer_done. cbn. set_solver.
Qed.

(** A receiver with its file open that has recorded the numbers
    [1 .. n] expects a packet after [n]: its buffer holds only numbers
    above [curPktNum]. *)
Lemma recorded_cur chunk r n :
  Receiver.recv_inv chunk r -> r.(Receiver.senderFile) <> None -> done_bound r ->
  (forall k, 1 <= k <= n -> k ∈ r.(Receiver.donePackets)) ->
  n + 1 <= r.(Receiver.curPktNum).
Proof.
  unfold Receiver.recv_inv. intros Hi Hs [_ Hb] Hn.
  destruct (Receiver.senderFile r) as [out|]; [|done].
  destruct Hi as (Hc & _ & _ & _ & Hbuf).
  destruct (Z_le_gt_dec (n + 1) r.(Receiver.curPktNum)) as [|Hlt]; [done|exfalso].
  destruct (Hb _ (Hn r.(Receiver.curPktNum) ltac:(lia))) as [|Hin]; [lia|].
  apply list_elem_of_In, in_map_iff in Hin as (q & Hq & Hin).
  rewrite Forall_forall in Hbuf. destruct (Hbuf q (proj2 (list_elem_of_In _ _) Hin)) as (Hlo & _). lia.
Qed.

(** [processPacketBuffer] on a sorted buffer of numbers from [cur] to
    [n] stops at [n + 1] at the latest: each packet it writes is the
    expected one. *)
Lemma flush_bound n buf cur f :
  StronglySorted Receiver.lt_seq buf -> Forall (fun p => cur <= getSeqNum p <= n) buf ->
  cur <= n + 1 ->
  (Receiver.flush buf cur f).1.2 <= n + 1 /\
  Forall (fun p => getSeqNum p <= n) (Receiver.flush buf cur f).1.1.
Proof.
  revert cur f; induction buf as [|p rest IH]; intros cur f Hs Hb Hc; cbn [Receiver.flush].
  - split; [exact Hc|constructor].
  - apply StronglySorted_inv in Hs as [Hs Hall]. apply Forall_cons in Hb as [Hp Hb].
    destruct (Z.ltb_spec cur (getSeqNum p)); cbn [fst snd].
    + split; [exact Hc|]. constructor; [lia|]. eapply Forall_impl; [exact Hb|]. cbn. lia.
    + apply IH; [exact Hs| |lia].
      eapply Forall_impl; [apply Forall_and; exact (conj Hb Hall)|].
      unfold Receiver.lt_seq. cbn. lia.
Qed.

(** A new data packet numbered at most [n], on a receiver expecting at
    most [n + 1] with a buffer numbered at most [n]: the same holds after
    it is buffered and the buffer flushed. *)
Lemma data_count chunk st p n :
  Receiver.recv_inv chunk st -> st.(Receiver.senderFile) <> None -> 0 < getSeqNum p <= n ->
  getSeqNum p ∉ st.(Receiver.donePackets) -> p.(data) = chunk (getSeqNum p) ->
  st.(Receiver.curPktNum) <= n + 1 -> Forall (fun q => getSeqNum q <= n) st.(Receiver.packetBuffer) ->
  let st' := Receiver.processPacketBuffer (Receiver.insertPacket (Receiver.markDone st (getSeqNum p)) p) in
  st'.(Receiver.curPktNum) <= n + 1 /\ Forall (fun q => getSeqNum q <= n) st'.(Receiver.packetBuffer).
Proof.
  intros Hinv Hs Hp Hnd Hd Hc Hn st'. unfold Receiver.recv_inv in Hinv.
  destruct (Receiver.senderFile st) as [out|] eqn:Ef; [|done].
  destruct Hinv as (H1 & _ & Hbd & Hbuf).
  assert (Hge : st.(Receiver.curPktNum) <= getSeqNum p).
  { destruct (Z_le_gt_dec st.(Receiver.curPktNum) (getSeqNum p)); [done|].
    exfalso. apply Hnd, Hbd. lia. }
  destruct (Receiver.insert_buffer chunk _ _ _ p Hbuf Hge Hnd Hd) as [Hsort Hall].
  match type of Hsort with StronglySorted _ ?b => set (buf' := b) in * end.
  assert (Hkeys : Forall (fun q => getSeqNum q <= n) buf').
  { subst buf'. destruct (_ =? _); [constructor; [lia|exact Hn]|].
    unfold Receiver.sortBuffer. rewrite (merge_sort_Permutation _ _).
    apply Forall_app. split; [exact Hn|constructor; [lia|constructor]]. }
  subst st'. unfold Receiver.processPacketBuffer. cbn [Receiver.packetBuffer Receiver.curPktNum
    Receiver.senderFile Receiver.insertPacket Receiver.markDone].
  destruct (flush_bound n buf' st.(Receiver.curPktNum) st.(Receiver.senderFile) Hsort) as [Hc' Hb'].
  - eapply Forall_impl; [apply Forall_and; exact (conj Hall Hkeys)|].
    intros q [(Hlo & _ & _) Hq]. lia.
  - exact Hc.
  - destruct (Receiver.flush _ _ _) as [[b c] o]. split; [exact Hc'|exact Hb'].
Qed.

Lemma endOfPacket_go st st' :
  Receiver.endOfPacket st = Ok (st', false) -> st.(Receiver.curPktNum) <> st.(Receiver.numPackets).
Proof.
  unfold Receiver.endOfPacket.
  by destruct (Z.eqb_spec st.(Receiver.curPktNum) st.(Receiver.numPackets)).
Qed.

(** ** The whole system *)

(** A reply on its way to the sender: an ACK or NACK string of the
    receiver whose [ACK_OK] names a number of [D]. *)
Definition ack_ok (D : gset Z) (s : list Z) : Prop :=
  exists srange n v, s = Receiver.ackString srange n v /\
    - 2 ^ 31 <= n < 2 ^ 31 /\ (v = true -> n ∈ D).

(** The invariant of a run: the receiver accounts for what it recorded,
    the sender acknowledged only recorded numbers, and the bytes on the
    way to the sender are such replies, each with its NUL. *)
Definition ack_inv (x : System.Sys) : Prop :=
  done_bound x.(System.sRcv) /\
  acked_in x.(System.sRcv).(Receiver.donePackets) x.(System.sSnd) /\
  exists pend, x.(System.toSnd) = System.frames pend /\
    Forall (ack_ok x.(System.sRcv).(Receiver.donePackets)) pend.

Lemma ack_ok_mono D D' s : D ⊆ D' -> ack_ok D s -> ack_ok D' s.
Proof.
  intros HD (sr & n & v & -> & Hn & Hv). exists sr, n, v.
  split; [done|split; [done|]]. intros Hv'. apply HD, Hv, Hv'.
Qed.

Lemma ack_ok_shape D t : ack_ok D t -> exists sr n v, t = Receiver.ackString sr n v.
Proof. intros (sr & n & v & E & _). eauto. Qed.

Lemma length_ackString sr n v : length (Receiver.ackString sr n v) = (Z.to_nat 1 + 50)%nat.
Proof. unfold Receiver.ackString. by rewrite length_header. Qed.

(** The ACK thread's [getFromSocket(1)] on a stream of replies takes
    exactly the first one. *)
Lemma reply_frame (Q : list Z -> Prop) pend sizes s a' sizes' :
  (forall t, Q t -> exists sr n v, t = Receiver.ackString sr n v) ->
  Forall Q pend -> Socket.getFromSocket 1 (System.frames pend) sizes = (s, a', sizes') ->
  s <> [] ->
  Q s /\ exists rest, a' = System.frames rest /\ Forall Q rest.
Proof.
  intros HQ Hp Eg Hs. destruct pend as [|x rest].
  { apply (f_equal (fun t => t.1.1)) in Eg. by rewrite Liveness.getFromSocket_nil in Eg. }
  apply Forall_cons in Hp as [Hx Hp].
  assert (Hl : length x = (Z.to_nat 1 + 50)%nat).
  { destruct (HQ x Hx) as (sr & n & v & ->). apply length_ackString. }
  destruct (Socket.getFromSocket_sendData 1 x (System.frames rest) sizes ltac:(lia) Hl) as [s1 E].
  change (System.frames (x :: rest)) with (Socket.sendData [] x ++ System.frames rest) in Eg.
  rewrite Eg in E. injection E as -> -> _. split; [done|]. by exists rest.
Qed.

(** A receiver iteration on a sent packet: its one reply satisfies
    [ack_ok] in the receiver's new state. *)
Lemma recv_reply cs0 m r r' b :
  Sender.sent_ok cs0 m -> Receiver.step r m = Ok (r', b) ->
  Forall (ack_ok r'.(Receiver.donePackets)) (System.newReplies r r').
Proof.
  intros (p & f & _ & ->) E.
  pose proof (reversePacket_createPacketString p f newPacket) as Ed.
  set (dp := setData _ _) in Ed.
  assert (Hl : length (createPacketString p f) <> 0%nat) by (rewrite length_header; lia).
  unfold System.newReplies.
  rewrite (Receiver.step_reply r _ dp r' b Hl (Liveness.take4_not_PING p f) Ed E), drop_app_length.
  constructor; [|constructor].
  exists r.(Receiver.seqNumRange), (getSeqNum dp), (isValid dp).
  split; [done|split; [apply signed32_range|]]. intros Hv. exact (step_ok_done r _ dp r' b Hl (Liveness.take4_not_PING p f) Ed Hv E).
Qed.

Section Run.

Variable cs0 : list (list Z).
Variable P : Z.
Hypothesis HP : 0 < P.
Hypothesis Hcs : Forall (fun c => length c = Z.to_nat P) cs0.

Lemma ack_inv_step now rand x y :
  System.sys_inv cs0 P x -> ack_inv x -> System.sys_step now rand x y -> ack_inv y.
Proof.
  intros (Hw & Hr & Hps & Hfs & pending & Hd & Hp) (Hb & Ha & pend & Ht & Hpend) Hs.
  destruct Hs as [m st m' st' r d a b E|m st st' r d a a' s sizes sizes' b Eg Hs E
                 |m st r r' d d' a s sizes sizes' stop Hne Eg E];
    unfold ack_inv; cbn [System.sMain System.sSnd System.sRcv System.toRcv System.toSnd
                          System.rcvStopped] in *.
  - split_and!; [done|exact (main_step_acked now rand _ (m, st) (m', st') E Ha)|by exists pend].
  - rewrite Ht in Eg.
    destruct (reply_frame _ _ _ _ _ _ (ack_ok_shape _) Hpend Eg Hs) as [(sr & n & v & -> & Hn & Hv) Hrest].
    split_and!; [done|exact (onAck_acked now rand _ st sr n v st' Hn Hv E Ha)|exact Hrest].
  - rewrite Hps in Eg.
    destruct (System.recv_frame cs0 P HP Hcs d s d' sizes sizes' pending Hd Hp Hne Eg) as [Hx _].
    destruct (step_done r s r' stop Hb E) as [Hb' Hsub].
    split_and!; [done|by eapply acked_in_mono|].
    exists (pend ++ System.newReplies r r').
    split; [by rewrite System.fold_sendData, System.frames_app, Ht|].
    apply Forall_app. split; [|exact (recv_reply cs0 s r r' stop Hx E)].
    eapply Forall_impl; [exact Hpend|]. intros t. by apply ack_ok_mono.
Qed.

(** A string the sender sent decodes to a data packet numbered [1 .. n]
    carrying its chunk. *)
Lemma sent_decodes m :
  Sender.sent_ok cs0 m ->
  exists dp, reversePacket m newPacket = Ok dp /\ length m <> 0%nat /\ take 4 m <> Receiver.PING /\
    1 <= getSeqNum dp <= Z.of_nat (length cs0) /\ dp.(data) = System.chunkOf cs0 (getSeqNum dp).
Proof.
  intros (p & f & [H1 H2] & ->). eexists. split; [apply reversePacket_createPacketString|].
  split; [rewrite length_header; lia|]. split; [apply Liveness.take4_not_PING|].
  unfold getSeqNum. cbn [seqNum data setData setChecksum setAck setSeqNum].
  rewrite !System.signed32_mod32. change (signed32 p.(seqNum)) with (getSeqNum p).
  pose proof (lookup_lt_Some _ _ _ H2) as Hlt. split; [lia|].
  unfold System.chunkOf. by rewrite H2.
Qed.

(** The receiver's count: its buffer holds numbers up to [n] and, while
    its loop runs, it expects a packet up to [n]. *)
Definition count_inv (x : System.Sys) : Prop :=
  Forall (fun q => getSeqNum q <= Z.of_nat (length cs0)) x.(System.sRcv).(Receiver.packetBuffer) /\
  (x.(System.rcvStopped) = false -> x.(System.sRcv).(Receiver.curPktNum) < Z.of_nat (length cs0) + 1).

Lemma count_inv_step now rand x y :
  System.sys_inv cs0 P x -> System.done_inv (Z.of_nat (length cs0) + 1) x -> count_inv x ->
  System.sys_step now rand x y -> count_inv y.
Proof.
  intros (Hw & Hr & Hps & Hfs & pending & Hd & Hp) (Hso & HN & _) [Hb Hc] Hs.
  destruct Hs as [m st m' st' r d a b E|m st st' r d a a' s sizes sizes' b Eg Hs E
                 |m st r r' d d' a s sizes sizes' stop Hne Eg E];
    unfold count_inv; cbn [System.sMain System.sSnd System.sRcv System.toRcv System.toSnd
                            System.rcvStopped] in *; [done|done|].
  specialize (Hc eq_refl). rewrite Hps in Eg.
  destruct (System.recv_frame cs0 P HP Hcs d s d' sizes sizes' pending Hd Hp Hne Eg) as [Hx _].
  destruct (sent_decodes s Hx) as (dp & Ed & Hl & Hping & Hseq & Hdata).
  revert E. rewrite (Receiver.step_decoded r s dp Hl Hping Ed). cbv zeta.
  destruct (_ || _) eqn:Ev; [intros [= <- <-]; split; [exact Hb|intros _; exact Hc]|].
  apply orb_false_iff in Ev as [_ Hnd%bool_decide_eq_false].
  rewrite (proj2 (Z.eqb_neq _ 0)) by lia.
  intros E. pose proof (Receiver.endOfPacket_same _ _ _ E) as (E1 & _ & E3 & _ & E5).
  set (st1 := Receiver.acknowledge r _ _) in E.
  assert (Hi1 : Receiver.recv_inv (System.chunkOf cs0) st1) by (by apply (Receiver.recv_inv_same _ r)).
  assert (Hseq' : 0 < getSeqNum (setSeqNumRange r.(Receiver.seqNumRange) dp) <= Z.of_nat (length cs0))
    by (change (getSeqNum (setSeqNumRange r.(Receiver.seqNumRange) dp)) with (getSeqNum dp); lia).
  destruct (data_count (System.chunkOf cs0) st1 (setSeqNumRange r.(Receiver.seqNumRange) dp)
              (Z.of_nat (length cs0)) Hi1 Hso Hseq'
              Hnd Hdata ltac:(cbn; lia) Hb) as [Hc' Hb'].
  subst st1. change (getSeqNum (setSeqNumRange r.(Receiver.seqNumRange) dp)) with (getSeqNum dp) in Hc', Hb'.
  rewrite E1, E3. split; [exact Hb'|]. intros ->. apply endOfPacket_go in E.
  rewrite (proj1 (proj2 (proj2 (Receiver.processPacketBuffer_params _)))) in E. cbn in E. lia.
Qed.

End Run.

(** The receiver in its post-handshake state: file opened, expecting
    packet 1, empty buffer, only the handshake number 0 recorded. *)
Lemma opened_invs chunk r0 :
  r0.(Receiver.senderFile) = Some [] -> r0.(Receiver.curPktNum) = 1 ->
  r0.(Receiver.packetBuffer) = [] -> r0.(Receiver.donePackets) = {[0]} ->
  Receiver.recv_inv chunk r0 /\ done_bound r0.
Proof.
  intros Hf Hc Hb Hd. split; [apply System.recv_inv_opened; [done|done|rewrite Hd; set_solver|done]|].
  split; [lia|]. rewrite Hd, Hc. intros i ->%elem_of_singleton. left. lia.
Qed.

(** All invariants hold along a run from the post-handshake state. *)
Lemma reach_ack_inv now rand cs0 P r0 t size range mode dq nq lq x :
  0 < P -> Forall (fun c => length c = Z.to_nat P) cs0 -> 1 <= size ->
  (1 <= length cs0)%nat -> Z.of_nat (length cs0) < 2 ^ 31 ->
  r0.(Receiver.senderFile) = Some [] -> r0.(Receiver.curPktNum) = 1 ->
  r0.(Receiver.packetBuffer) = [] -> r0.(Receiver.donePackets) = {[0]} ->
  r0.(Receiver.packetSize) = P -> Z.rem r0.(Receiver.fileSize) P = 0 ->
  r0.(Receiver.numPackets) = Z.of_nat (length cs0) + 1 ->
  rtc (System.sys_step now rand)
    (System.mkSys (Sender.Reading cs0) (Sender.initSender t size range mode dq nq lq) r0 [] [] false) x ->
  System.sys_inv cs0 P x /\ System.done_inv (Z.of_nat (length cs0) + 1) x /\ ack_inv x /\ count_inv cs0 x.
Proof.
  intros HP Hcs Hs Hn Hl Hf0 Hc0 Hb0 Hd0 Hp0 Hr0 HN Hrun.
  destruct (opened_invs (System.chunkOf cs0) r0 Hf0 Hc0 Hb0 Hd0) as [Hi0 Hdb0].
  refine (rtc_invariant _ (fun y => System.sys_inv cs0 P y /\
            System.done_inv (Z.of_nat (length cs0) + 1) y /\ ack_inv y /\ count_inv cs0 y) _ _ _ _ Hrun).
  - intros a b (Ha & Hd & Hk & Hc) Hab. split_and!.
    + exact (System.sys_inv_step cs0 P HP Hcs now rand a b Ha Hab).
    + exact (System.done_inv_step cs0 P HP Hcs now rand _ a b Ha Hd Hab).
    + exact (ack_inv_step cs0 P HP Hcs now rand a b Ha Hk Hab).
    + exact (count_inv_step cs0 P HP Hcs now rand a b Ha Hd Hc Hab).
  - split_and!; [by apply System.sys_inv_init| | |].
    + unfold System.done_inv; cbn. rewrite Hf0. split_and!; done.
    + split_and!; [done| |by exists []]. split; [cbn; lia|constructor].
    + unfold count_inv; cbn. rewrite Hb0, Hc0. split; [constructor|intros _; lia].
Qed.

(** The argument of [finished_delivered]. *)
Lemma finished_stopped now rand cs0 P r0 t size range mode dq nq lq x :
  0 < P -> Forall (fun c => length c = Z.to_nat P) cs0 -> 1 <= size ->
  (1 <= length cs0)%nat -> Z.of_nat (length cs0) < 2 ^ 31 ->
  r0.(Receiver.senderFile) = Some [] -> r0.(Receiver.curPktNum) = 1 ->
  r0.(Receiver.packetBuffer) = [] -> r0.(Receiver.donePackets) = {[0]} ->
  r0.(Receiver.packetSize) = P -> Z.rem r0.(Receiver.fileSize) P = 0 ->
  r0.(Receiver.numPackets) = Z.of_nat (length cs0) + 1 ->
  rtc (System.sys_step now rand)
    (System.mkSys (Sender.Reading cs0) (Sender.initSender t size range mode dq nq lq) r0 [] [] false) x ->
  x.(System.sMain) = Sender.Finished ->
  x.(System.rcvStopped) = true /\ x.(System.sRcv).(Receiver.senderFile) = Some (concat cs0).
Proof.
  intros HP Hcs Hs Hn Hl Hf0 Hc0 Hb0 Hd0 Hp0 Hr0 HN Hrun Hfin.
  destruct (reach_ack_inv now rand cs0 P r0 t size range mode dq nq lq x
              HP Hcs Hs Hn Hl Hf0 Hc0 Hb0 Hd0 Hp0 Hr0 HN Hrun) as (Hi & Hd & (Hb & [Hk _] & _) & [_ Hcnt]).
  destruct (x.(System.rcvStopped)) eqn:Est; [split; [done|by eapply System.done_file]|exfalso].
  destruct Hi as (Hw & Hr & _). rewrite Hfin in Hw. rewrite Est in Hr.
  destruct (Sender.finished_window cs0 _ Hw) as (_ & _ & Hfr).
  assert (Hc : Z.of_nat (length cs0) + 1 <= x.(System.sRcv).(Receiver.curPktNum)).
  { apply (recorded_cur (System.chunkOf cs0)); [exact Hr|apply Hd|exact Hb|].
    intros k Hk'. apply Hk. lia. }
  specialize (Hcnt eq_refl). lia.
Qed.

(** C6. Acknowledgement soundness: in a transfer of a non-empty file
    started after the handshake (the receiver's file opened, packet 1
    expected, one packet more announced than the file has chunks),
    whatever the faults ([ErrUser] queues or [ErrRandom]), the
    interleaving of the threads, the clock and the network's splitting:
    once the sender's main thread has left its final
    [checkPacketQueue(true)], the receiver's loop has ended, its file
    holds the whole file, and every packet the sender holds as
    acknowledged, and every number its window front has passed, is one
    the receiver recorded ([acked_in]).  The sender never reports a
    transfer done that is not. *)
Theorem finished_delivered now rand cs0 P r0 t size range mode dq nq lq x :
  0 < P -> Forall (fun c => length c = Z.to_nat P) cs0 -> 1 <= size ->
  (1 <= length cs0)%nat -> Z.of_nat (length cs0) < 2 ^ 31 ->
  r0.(Receiver.senderFile) = Some [] -> r0.(Receiver.curPktNum) = 1 ->
  r0.(Receiver.packetBuffer) = [] -> r0.(Receiver.donePackets) = {[0]} ->
  r0.(Receiver.packetSize) = P -> Z.rem r0.(Receiver.fileSize) P = 0 ->
  r0.(Receiver.numPackets) = Z.of_nat (length cs0) + 1 ->
  rtc (System.sys_step now rand)
    (System.mkSys (Sender.Reading cs0) (Sender.initSender t size range mode dq nq lq) r0 [] [] false) x ->
  x.(System.sMain) = Sender.Finished ->
  x.(System.rcvStopped) = true /\ x.(System.sRcv).(Receiver.senderFile) = Some (concat cs0) /\
  acked_in x.(System.sRcv).(Receiver.donePackets) x.(System.sSnd).
Proof.
  intros HP Hcs Hs Hn Hl Hf0 Hc0 Hb0 Hd0 Hp0 Hr0 HN Hrun Hfin.
  destruct (finished_stopped now rand cs0 P r0 t size range mode dq nq lq x
              HP Hcs Hs Hn Hl Hf0 Hc0 Hb0 Hd0 Hp0 Hr0 HN Hrun Hfin) as [H1 H2].
  destruct (reach_ack_inv now rand cs0 P r0 t size range mode dq nq lq x
              HP Hcs Hs Hn Hl Hf0 Hc0 Hb0 Hd0 Hp0 Hr0 HN Hrun) as (_ & _ & (_ & Ha & _) & _).
  split_and!; assumption.
Qed.

(** Witness of C6: the concrete transfer of [System] ends with the sender
    past its final wait, the receiver stopped and the whole file written. *)
Lemma finished_delivered_witness :
  System.demo_final.(System.sMain) = Sender.Finished /\
  System.demo_final.(System.rcvStopped) = true /\
  System.demo_final.(System.sRcv).(Receiver.senderFile) = Some (concat System.demo_chunks).
Proof.
  pose proof System.demo_run as Hrun.
  assert (Hfin : System.demo_final.(System.sMain) = Sender.Finished) by (vm_compute; reflexivity).
  split; [exact Hfin|].
  destruct (finished_delivered Sender.demo_now Sender.demo_rand System.demo_chunks 1 System.demo_rcv 1000 2 0
           Faults.ErrNone [] [] [] System.demo_final ltac:(lia) ltac:(repeat constructor) ltac:(lia)
           ltac:(cbn; lia) ltac:(cbn; lia) eq_refl eq_refl eq_refl eq_refl eq_refl eq_refl eq_refl Hrun Hfin) as (H1 & H2 & _).
  split; assumption.
Defined.

End AckSound.
