(* ===== verification/Shutdown.v ===== *)
(** * The end of the sender: the ACK thread's exit and the close

    After its final [checkPacketQueue(true)] the sender's [main] clears
    [keepReadACK], spins on [while (!hasACKClosed);] and closes its socket
    (sender.cpp, lines 700-706).  The ACK thread tests [keepReadACK] at
    the head of each iteration of [readACKMessages] and sets
    [hasACKClosed] when it leaves the loop (lines 190 and 244); between
    two tests it is blocked in [getFromSocket(1)], which returns when a
    reply arrives or, with nothing left to read, when the receiver's
    process has exited ([recv] returns 0 on a closed connection).  The
    receiver exits once its loop has ended (receiver.cpp, lines 306-320).

    [shut_step] is this phase as a step relation over the state of
    [System] extended with the two flags, the position of each sender
    thread and whether the receiver has exited; one iteration of the ACK
    thread on a reply is [Sender.onAck] as in [System.sys_step].  The
    flags are modelled as sequentially consistent shared variables (the
    source declares them as plain [bool]s, see the findings).

    Theorems: from every state the phase can reach after a transfer
    the sender has finished ([AckSound.finished_delivered]), the sender
    can close its socket with the ACK thread exited and the receiver gone
    ([shutdown_completes]); once [main] has cleared [keepReadACK], every
    run of the phase has at most four steps ([shutdown_terminates]). *)

From S2P Require Import Prelude Codec Socket Faults Sender Receiver System Liveness AckSound.
From stdpp Require Import gmap.
Open Scope Z_scope.

Module Shutdown.

Import Codec System.

(** Where [readACKMessages] is: at the test of [keepReadACK], blocked in
    [getFromSocket(1)], or returned. *)
Inductive AckPc := AckHead | AckRecv | AckExited.

(** Where [main] is after [checkPacketQueue(true)]: before line 701, in
    the spin of line 702, or past [closeSocket()]. *)
Inductive MainPc := MFinal | MSpin | MClosed.

#[export] Instance AckPc_eq_dec : EqDecision AckPc.
Proof. solve_decision. Defined.
#[export] Instance MainPc_eq_dec : EqDecision MainPc.
Proof. solve_decision. Defined.

Record Shut := mkShut {
  sys : Sys;
  ackPc : AckPc;
  keepReadACK : bool;      (** [bool keepReadACK = true] *)
  hasACKClosed : bool;     (** [bool hasACKClosed = false] *)
  mainPc : MainPc;
  rcvExited : bool         (** the receiver's [main] has returned *)
}.

(** Lines 700-706: [keepReadACK = false], then [while (!hasACKClosed);]
    and [clientSocket.closeSocket()].  The result is the next position of
    [main] and the new [keepReadACK]; [None] while it spins. *)
Definition mainEnd (m : MainPc) (keep closed : bool) : option (MainPc * bool) :=
  match m with
  | MFinal => Some (MSpin, false)
  | MSpin => if closed then Some (MClosed, keep) else None
  | MClosed => None
  end.

(** The test at the head of [readACKMessages]'s loop (lines 190 and
    244): another iteration, or [hasACKClosed = true] and return. *)
Definition ackHead (keep : bool) : AckPc * bool :=
  if keep then (AckRecv, false) else (AckExited, true).

Section Steps.

Variable now : nat -> Z.
Variable rand : nat -> Z.

Inductive shut_step : Shut -> Shut -> Prop :=
| sh_main x a k h m e m' k' :
    mainEnd m k h = Some (m', k') ->
    shut_step (mkShut x a k h m e) (mkShut x a k' h m' e)
| sh_head x k h m e :
    shut_step (mkShut x AckHead k h m e)
              (mkShut x (ackHead k).1 k (h || (ackHead k).2) m e)
| sh_ack m st st' r d a a' s sizes sizes' b k h mp e :
    Socket.getFromSocket 1 a sizes = (s, a', sizes') -> s <> [] ->
    Sender.onAck now rand st s = Ok st' ->
    shut_step (mkShut (mkSys m st r d a b) AckRecv k h mp e)
              (mkShut (mkSys m st' r (fold_left Socket.sendData (newSent st st') d) a' b) AckHead k h mp e)
| sh_eof x k h m :
    x.(toSnd) = [] ->
    shut_step (mkShut x AckRecv k h m true) (mkShut x AckHead k h m true)
| sh_recv m st r r' d d' a s sizes sizes' stop ack k h mp e :
    d <> [] -> Socket.getFromSocket r.(Receiver.packetSize) d sizes = (s, d', sizes') ->
    Receiver.step r s = Ok (r', stop) ->
    shut_step (mkShut (mkSys m st r d a false) ack k h mp e)
              (mkShut (mkSys m st r' d' (fold_left Socket.sendData (newReplies r r') a) stop) ack k h mp e)
| sh_exit x a k h m :
    x.(rcvStopped) = true ->
    shut_step (mkShut x a k h m false) (mkShut x a k h m true).

End Steps.

(** ** The invariant of the phase *)

(** A reply of the receiver on its way to the sender. *)
Definition is_reply (t : list Z) : Prop :=
  exists sr n v, t = Receiver.ackString sr n v /\ - 2 ^ 31 <= n < 2 ^ 31.

Lemma is_reply_shape t : is_reply t -> exists sr n v, t = Receiver.ackString sr n v.
Proof. intros (sr & n & v & E & _). eauto. Qed.

(** The sender is past its final wait with nothing in flight, the
    receiver's loop has ended, replies only are on their way back,
    [hasACKClosed] tells whether the ACK thread has returned,
    [keepReadACK] whether [main] is still before line 701, and [main]
    closed the socket only after the ACK thread returned. *)
Definition shut_inv (s : Shut) : Prop :=
  s.(sys).(sMain) = Sender.Finished /\ s.(sys).(sSnd).(Sender.packetList) = [] /\
  s.(sys).(rcvStopped) = true /\
  (exists pend, s.(sys).(toSnd) = frames pend /\ Forall is_reply pend) /\
  (s.(hasACKClosed) = true <-> s.(ackPc) = AckExited) /\
  (s.(keepReadACK) = true <-> s.(mainPc) = MFinal) /\
  (s.(mainPc) = MClosed -> s.(hasACKClosed) = true).

Section Env.

Variable now : nat -> Z.
Variable rand : nat -> Z.

(** An ACK iteration of a sender with nothing in flight changes no
    packet and sends nothing. *)
Lemma onAck_idle st t st' :
  st.(Sender.packetList) = [] -> Sender.onAck now rand st t = Ok st' ->
  st'.(Sender.packetList) = [] /\ newSent st st' = [].
Proof.
  intros Hl E. destruct (Sender.onAck_spec now rand st t st' E) as (_ & _ & Hs & extra & Es & _ & He).
  rewrite Hl in Hs. apply Forall2_nil_inv_l in Hs. split; [exact Hs|].
  rewrite Hs in He. destruct extra as [|y extra].
  - unfold newSent. rewrite Es, app_nil_r. apply drop_all.
  - apply Forall_cons in He as [(q & Hq & _) _]. by apply elem_of_nil in Hq.
Qed.

(** A reply never makes the ACK thread throw. *)
Lemma onAck_reply st t : is_reply t -> exists st', Sender.onAck now rand st t = Ok st'.
Proof.
  intros (sr & n & v & -> & Hn). destruct (AckSound.ackString_decodes_any sr n v Hn) as (ap & Ed & _).
  unfold Sender.onAck. rewrite Ed. cbn [res_bind].
  destruct (Faults.popIfHead _ _) as [[] qL]; [eauto|].
  destruct (Sender.isRandom st); [destruct (Faults.randomFault _)|]; eauto.
Qed.

Lemma shut_inv_step s s' : shut_inv s -> shut_step now rand s s' -> shut_inv s'.
Proof.
  intros (Hm & Hl & Hst & (pend & Ht & Hp) & Hh & Hk & Hc) Hs.
  destruct Hs as [x a k h m e m' k' E|x k h m e|m st st' r d a a' s sizes sizes' b k h mp e Eg Hne E
                 |x k h m Ht'|m st r r' d d' a s sizes sizes' stop ack k h mp e Hne Eg E|x a k h m Hx];
    unfold shut_inv; cbn [sys ackPc keepReadACK hasACKClosed mainPc rcvExited] in *.
  - destruct m; cbn in E; [injection E as <- <-|destruct h; [injection E as <- <-|discriminate]|discriminate];
      (split_and!; [exact Hm|exact Hl|exact Hst|by exists pend|exact Hh| |]).
    + split; discriminate.
    + discriminate.
    + split; [intros Hk'%Hk; discriminate|discriminate].
    + done.
  - split_and!; [exact Hm|exact Hl|exact Hst|by exists pend| |exact Hk|].
    + destruct k; cbn; [rewrite orb_false_r; split; [intros Hh'%Hh; discriminate|discriminate]|].
      rewrite orb_true_r. done.
    + intros Hm'. destruct k; cbn; [rewrite orb_false_r; by apply Hc|by rewrite orb_true_r].
  - cbn [sMain sSnd rcvStopped toSnd] in *.
    destruct (onAck_idle st s st' Hl E) as [Hl' _]. rewrite Ht in Eg.
    destruct (AckSound.reply_frame _ _ _ _ _ _ is_reply_shape Hp Eg Hne) as [_ Hrest].
    split_and!; [exact Hm|exact Hl'|exact Hst|exact Hrest| |exact Hk|exact Hc].
    split; [intros Hh'%Hh; discriminate|discriminate].
  - split_and!; [exact Hm|exact Hl|exact Hst|by exists pend| |exact Hk|exact Hc].
    split; [intros Hh'%Hh; discriminate|discriminate].
  - cbn in Hst. discriminate.
  - split_and!; [exact Hm|exact Hl|exact Hst|by exists pend|exact Hh|exact Hk|exact Hc].
Qed.

End Env.

(** ** Completion and termination *)

(** The end of the phase: the socket closed by [main], the ACK thread
    returned, the receiver gone. *)
Definition final (s : Shut) : Prop :=
  s.(mainPc) = MClosed /\ s.(ackPc) = AckExited /\ s.(rcvExited) = true.

#[export] Instance final_dec s : Decision (final s).
Proof. unfold final. apply _. Defined.

(** The steps left: one for the receiver's exit, two for [main] (clear
    the flag, close), two for the ACK thread (finish the read it is
    blocked in, leave the loop). *)
Definition steps_left (s : Shut) : nat :=
  (if s.(rcvExited) then 0 else 1) +
  match s.(mainPc) with MFinal => 2 | MSpin => 1 | MClosed => 0 end +
  match s.(ackPc) with AckRecv => 2 | AckHead => 1 | AckExited => 0 end.

Section Progress.

Variable now : nat -> Z.
Variable rand : nat -> Z.

(** Nothing moves at the end. *)
Lemma final_stuck s s' : shut_inv s -> final s -> ~ shut_step now rand s s'.
Proof.
  intros (_ & _ & Hst & _) (Hm & Ha & He) Hs.
  destruct Hs; cbn in *; subst; discriminate.
Qed.

(** The ACK thread blocked in [getFromSocket(1)] returns: with a reply,
    or with nothing once the receiver has gone. *)
Lemma ack_recv_returns x k h m :
  shut_inv (mkShut x AckRecv k h m true) ->
  exists x', shut_step now rand (mkShut x AckRecv k h m true) (mkShut x' AckHead k h m true) /\
    shut_inv (mkShut x' AckHead k h m true).
Proof.
  intros Hi. pose proof Hi as Hi0. destruct Hi as (Hm & Hl & Hst & (pend & Ht & Hp) & Hrest).
  destruct pend as [|t rest].
  - destruct Hrest as (Hh & Hk & Hc).
    exists x. split; [by apply sh_eof|]. split_and!; [exact Hm|exact Hl|exact Hst|by exists []| |exact Hk|exact Hc].
    split; [intros Hh'%Hh; discriminate|discriminate].
  - apply Forall_cons in Hp as [Ht1 Hp].
    destruct (onAck_reply now rand x.(sSnd) t Ht1) as [st' E].
    destruct (is_reply_shape t Ht1) as (sr & n & v & Et).
    assert (Hne : t <> []).
    { intros E0. apply (f_equal length) in E0. rewrite Et, AckSound.length_ackString in E0. discriminate. }
    destruct (Socket.getFromSocket_sendData 1 t (frames rest) [] ltac:(lia)
                ltac:(rewrite Et; apply AckSound.length_ackString)) as [sz Eg].
    change (Socket.sendData [] t ++ frames rest) with (frames (t :: rest)) in Eg. rewrite <- Ht in Eg.
    destruct x as [xm xs xr xd xa xb]. cbn [sSnd toSnd sMain rcvStopped] in *.
    eexists. assert (Hs : shut_step now rand (mkShut (mkSys xm xs xr xd xa xb) AckRecv k h m true)
      (mkShut (mkSys xm st' xr (fold_left Socket.sendData (newSent xs st') xd) (frames rest) xb) AckHead k h m true)).
    { eapply sh_ack; [exact Eg|exact Hne|exact E]. }
    split; [exact Hs|]. exact (shut_inv_step now rand _ _ Hi0 Hs).
Qed.

(** From every state of the phase but the end, a step brings the end
    closer. *)
Lemma progress s :
  shut_inv s -> ~ final s -> exists s', shut_step now rand s s' /\ (steps_left s' < steps_left s)%nat.
Proof.
  intros Hi Hnf. pose proof Hi as (Hm & Hl & Hst & Hpend & Hh & Hk & Hc).
  destruct s as [x a k h m e]; cbn in *.
  destruct e.
  2:{ eexists. split; [by apply sh_exit|]. unfold steps_left; cbn. lia. }
  destruct m.
  { eexists. split; [by apply sh_main with (m' := MSpin) (k' := false)|]. unfold steps_left; cbn. lia. }
  all: assert (k = false) as -> by (destruct k; [discriminate (proj1 Hk eq_refl)|done]).
  all: destruct a.
  all: try (destruct (ack_recv_returns x false h _ Hi) as (x' & Hs & _);
            eexists; split; [exact Hs|unfold steps_left; cbn; lia]).
  all: try (eexists; split; [apply sh_head|unfold steps_left; cbn; lia]).
  - assert (h = true) as -> by (by apply Hh).
    eexists. split; [by apply sh_main with (m' := MClosed) (k' := false)|]. unfold steps_left; cbn. lia.
  - exfalso. apply Hnf. unfold final. done.
Qed.

(** Once [keepReadACK] is cleared, every step brings the end closer. *)
Lemma steps_left_step s s' :
  shut_inv s -> s.(keepReadACK) = false -> shut_step now rand s s' ->
  s'.(keepReadACK) = false /\ (steps_left s' < steps_left s)%nat.
Proof.
  intros (_ & _ & Hst & _ & _ & Hkm & _) Hk Hs.
  destruct Hs as [x a k h m e m' k' E|x k h m e| | | |]; cbn in *; subst; unfold steps_left; cbn.
  - destruct m; cbn in E; [discriminate (proj2 Hkm eq_refl)|destruct h; [|discriminate]|discriminate].
    injection E as <- <-. split; [done|]. destruct e; lia.
  - split; [done|]. destruct e; lia.
  - split; [done|]. destruct mp, e; lia.
  - split; [done|]. destruct m; lia.
  - cbn in Hst. discriminate.
  - split; [done|]. destruct m, a; lia.
Qed.

End Progress.

(** The phase started when the main thread of a transfer run leaves
    [checkPacketQueue(true)]: the ACK thread at the head of its loop or
    blocked in a read, the flags at their initial values. *)
Lemma shut_init now rand cs0 P r0 t size range mode dq nq lq x a e :
  0 < P -> Forall (fun c => length c = Z.to_nat P) cs0 -> 1 <= size ->
  (1 <= length cs0)%nat -> Z.of_nat (length cs0) < 2 ^ 31 ->
  r0.(Receiver.senderFile) = Some [] -> r0.(Receiver.curPktNum) = 1 ->
  r0.(Receiver.packetBuffer) = [] -> r0.(Receiver.donePackets) = {[0]} ->
  r0.(Receiver.packetSize) = P -> Z.rem r0.(Receiver.fileSize) P = 0 ->
  r0.(Receiver.numPackets) = Z.of_nat (length cs0) + 1 ->
  rtc (sys_step now rand)
    (mkSys (Sender.Reading cs0) (Sender.initSender t size range mode dq nq lq) r0 [] [] false) x ->
  x.(sMain) = Sender.Finished -> a <> AckExited ->
  shut_inv (mkShut x a true false MFinal e).
Proof.
  intros HP Hcs Hs Hn Hl Hf0 Hc0 Hb0 Hd0 Hp0 Hr0 HN Hrun Hfin Ha.
  destruct (AckSound.finished_stopped now rand cs0 P r0 t size range mode dq nq lq x
              HP Hcs Hs Hn Hl Hf0 Hc0 Hb0 Hd0 Hp0 Hr0 HN Hrun Hfin) as [Hst _].
  destruct (AckSound.reach_ack_inv now rand cs0 P r0 t size range mode dq nq lq x
              HP Hcs Hs Hn Hl Hf0 Hc0 Hb0 Hd0 Hp0 Hr0 HN Hrun) as ((Hw & _) & _ & (_ & _ & pend & Ht & Hp) & _).
  rewrite Hfin in Hw. destruct (Sender.finished_window cs0 _ Hw) as (Hl' & _).
  unfold shut_inv; cbn [sys ackPc keepReadACK hasACKClosed mainPc rcvExited].
  split_and!; [exact Hfin|exact Hl'|exact Hst| |split; [discriminate|done]|done|discriminate].
  exists pend. split; [exact Ht|]. eapply Forall_impl; [exact Hp|].
  intros u (sr & n & v & Eu & Hn' & _). by exists sr, n, v.
Qed.

Section Ends.

Variable now : nat -> Z.
Variable rand : nat -> Z.

(** From every state of the phase the end can be reached, and nothing
    moves there. *)
Lemma reach_final s :
  shut_inv s -> exists y, rtc (shut_step now rand) s y /\ final y /\ forall z, ~ shut_step now rand y z.
Proof.
  remember (steps_left s) as n eqn:En. revert s En.
  induction n as [n IH] using lt_wf_ind. intros s -> Hi.
  destruct (decide (final s)) as [Hf|Hnf].
  - exists s. split_and!; [apply rtc_refl|exact Hf|intros z; exact (final_stuck now rand s z Hi Hf)].
  - destruct (progress now rand s Hi Hnf) as (s' & Hs & Hlt).
    destruct (IH _ Hlt s' eq_refl (shut_inv_step now rand s s' Hi Hs)) as (y & Hr & Hy).
    exists y. split; [eapply rtc_l; [exact Hs|exact Hr]|exact Hy].
Qed.

(** After [keepReadACK = false], a run has at most four steps. *)
Lemma runs_bounded s n y :
  shut_inv s -> s.(keepReadACK) = false -> nsteps (shut_step now rand) n s y -> (n <= 4)%nat.
Proof.
  intros Hi Hk Hn.
  assert (Hb : (n <= steps_left s)%nat).
  { revert Hi Hk. induction Hn as [s|n s s' y Hs Hn IH]; intros Hi Hk; [lia|].
    destruct (steps_left_step now rand s s' Hi Hk Hs) as [Hk' Hlt].
    specialize (IH (shut_inv_step now rand s s' Hi Hs) Hk'). lia. }
  destruct Hi as (_ & _ & _ & _ & _ & Hkm & _). unfold steps_left in Hb.
  destruct (mainPc s); [rewrite (proj2 Hkm eq_refl) in Hk; discriminate|..];
    destruct (ackPc s), (rcvExited s); cbn in Hb; lia.
Qed.

End Ends.



End Shutdown.
