(* ===== verification/Console.v ===== *)
(** * The window display of both programs: [showSlidingWindow]

    Both programs print the sliding window after it moves: the sender in
    [checkPacketQueue] each time the front advances ([src/sender.cpp],
    lines 53-80), the receiver after each reply ([src/receiver.cpp], lines
    143-167).  Both build the text ["Current window = [a, b, c]"] with a
    [for (int i = front; i <= slidingWindowMax; i++)] loop, where
    [slidingWindowMax = front + slidingWindowSize - 1], and print each
    number modulo [seqNumRange] when that is positive.

    Here the loop is [windowLoop], with [int] arithmetic at its width:
    the sum that gives [slidingWindowMax] and the increment [i++] are
    [signed32] of the exact value (signed overflow is undefined in C++;
    the wrap is what the compiled code does, and in either reading the
    test [i <= INT_MAX] never fails).  The loop's fuel is the measure
    [slidingWindowMax - i + 2]: one round per number and one for the
    final test.  A loop that has not left when its fuel is used up
    returns [None].

    Theorems: with no overflow the display is the reference text, the
    numbers [front .. front + size - 1] separated by [", "]
    ([showSlidingWindow_spec], for both programs); more fuel never changes
    a result ([windowLoop_more_fuel]); when [slidingWindowMax] is
    [INT_MAX] the loop does not end for any fuel
    ([showSlidingWindow_INT_MAX]), and a window size the sender's prompts
    accept leads there. *)

From S2P Require Import Prelude Handshake Codec Faults Config Receiver System.
From stdpp Require Import gmap.
Open Scope Z_scope.

Module Console.

(** ** Texts *)

(** ["Current window = ["] *)
Definition windowHead : list Z :=
  [67; 117; 114; 114; 101; 110; 116; 32; 119; 105; 110; 100; 111; 119; 32; 61; 32; 91].
(** [", "] *)
Definition windowSep : list Z := [44; 32].
(** ["]"] *)
Definition windowTail : list Z := [93].
(** The ['\n'] of [printf("%s\n", ...)]. *)
Definition newline : list Z := [10].

Definition INT_MAX : Z := 2 ^ 31 - 1.
Definition INT_MIN : Z := - 2 ^ 31.

(** Lines 66-70 (sender), 153-157 (receiver): one number of the window. *)
Definition windowNumber (seqNumRange i : Z) : list Z :=
  if 0 <? seqNumRange then Handshake.to_string (Z.rem i seqNumRange)
  else Handshake.to_string i.

(** The [for] loop (sender lines 63-75, receiver lines 150-162). *)
Fixpoint windowLoop (fuel : nat) (i slidingWindowMax seqNumRange : Z) (windowDisplay : list Z)
  : option (list Z) :=
  match fuel with
  | O => None
  | S f =>
      if i <=? slidingWindowMax then
        let d := windowDisplay ++ windowNumber seqNumRange i in
        let d := if negb (i =? slidingWindowMax) then d ++ windowSep else d in
        windowLoop f (signed32 (i + 1)) slidingWindowMax seqNumRange d
      else Some windowDisplay
  end.

(** The fuel: one round per number and one for the test that ends the loop. *)
Definition loopFuel (front slidingWindowMax : Z) : nat := Z.to_nat (slidingWindowMax - front + 2).

(** The text printed from [front] on, or [None] when the loop does not end. *)
Definition showWindow (front slidingWindowSize seqNumRange : Z) : option (list Z) :=
  let slidingWindowMax := signed32 (front + slidingWindowSize - 1) in
  match windowLoop (loopFuel front slidingWindowMax) front slidingWindowMax seqNumRange windowHead with
  | Some d => Some (d ++ windowTail ++ newline)
  | None => None
  end.

(** [showSlidingWindow()] of the sender: nothing when the front is past
    the last packet sent. *)
Definition senderShowSlidingWindow (slidingWindowFront slidingWindowEnd slidingWindowSize
    seqNumRange : Z) : option (list Z) :=
  if slidingWindowEnd <? slidingWindowFront then Some []
  else showWindow slidingWindowFront slidingWindowSize seqNumRange.

(** [showSlidingWindow()] of the receiver: the window starts after
    [curPktNum]. *)
Definition receiverShowSlidingWindow (curPktNum slidingWindowSize seqNumRange : Z)
  : option (list Z) :=
  showWindow (signed32 (curPktNum + 1)) slidingWindowSize seqNumRange.

(** ** The reference text *)

Fixpoint joinWith (sep : list Z) (l : list (list Z)) : list Z :=
  match l with
  | [] => []
  | [x] => x
  | x :: l => x ++ sep ++ joinWith sep l
  end.

Definition windowText (seqNumRange : Z) (ns : list Z) : list Z :=
  windowHead ++ joinWith windowSep (map (windowNumber seqNumRange) ns) ++ windowTail ++ newline.

(** ** The receiver's statistics *)

(** [numRetrans = numReceived - numPackets] and the values printed at
    the end of the receiver's [main] (lines 310-317): the last sequence
    number read, the packet count announced and the retransmissions. *)
Definition receiverStats (st : Receiver.Receiver) : Z * Z * Z :=
  (st.(Receiver.lastReceived), st.(Receiver.numPackets),
   st.(Receiver.numReceived) - st.(Receiver.numPackets)).

(** ** Lemmas *)

Lemma windowLoop_more_fuel f k i M r d x :
  windowLoop f i M r d = Some x -> windowLoop (f + k) i M r d = Some x.
Proof.
  revert i d; induction f as [|f IH]; intros i d; cbn [windowLoop Nat.add]; [done|].
  destruct (i <=? M); [apply IH|done].
Qed.

(** Without overflow the loop runs over [i .. M], one number and one
    separator at a time. *)
Lemma windowLoop_spec M r n : forall i d fuel,
  Z.of_nat n = M - i + 1 -> (n < fuel)%nat -> - 2 ^ 31 <= i -> M < INT_MAX ->
  windowLoop fuel i M r d = Some (d ++ joinWith windowSep (map (windowNumber r) (zrange i n))).
Proof.
  unfold INT_MAX. induction n as [|n IH]; intros i d fuel Hn Hf Hi HM;
    (destruct fuel as [|fuel]; [lia|]); cbn [windowLoop].
  - replace (i <=? M) with false by (symmetry; apply Z.leb_gt; lia). by rewrite app_nil_r.
  - replace (i <=? M) with true by (symmetry; apply Z.leb_le; lia).
    rewrite signed32_int by lia. rewrite zrange_cons. cbn [map].
    destruct n as [|n'].
    + replace (i =? M) with true by (symmetry; apply Z.eqb_eq; lia). cbn [negb].
      rewrite IH by (cbn; lia). by rewrite !app_nil_r.
    + replace (i =? M) with false by (symmetry; apply Z.eqb_neq; lia). cbn [negb].
      rewrite IH by lia. rewrite zrange_cons. cbn [map joinWith]. by rewrite <- !app_assoc.
Qed.

(** Every value an [int] holds is at most [INT_MAX], so the test
    [i <= INT_MAX] never fails. *)
Lemma windowLoop_INT_MAX fuel : forall i r d,
  - 2 ^ 31 <= i <= INT_MAX -> windowLoop fuel i INT_MAX r d = None.
Proof.
  unfold INT_MAX. induction fuel as [|f IH]; intros i r d Hi; cbn [windowLoop]; [done|].
  replace (i <=? 2 ^ 31 - 1) with true by (symmetry; apply Z.leb_le; lia).
  apply IH. pose proof (signed32_range (i + 1)). lia.
Qed.

Lemma showWindow_spec front size r :
  - 2 ^ 31 <= front -> 1 <= size -> front + size - 1 < INT_MAX ->
  showWindow front size r = Some (windowText r (zrange front (Z.to_nat size))).
Proof.
  intros Hf Hs HM. unfold showWindow, windowText, loopFuel.
  rewrite signed32_int by (unfold INT_MAX in HM; lia).
  rewrite (windowLoop_spec _ _ (Z.to_nat size)) by (unfold INT_MAX in *; lia).
  by rewrite <- !app_assoc.
Qed.

(** ** The display *)

(** C25. Both programs print the numbers of the window, [slidingWindowSize]
    of them from its front (the sender's [slidingWindowFront], one past
    the receiver's [curPktNum]), each modulo [seqNumRange] when that is
    positive, whenever [front + size - 1] stays below [INT_MAX]; the
    sender prints nothing when its front is past the last packet sent. *)
Theorem showSlidingWindow_spec front end_ cur size r :
  1 <= size ->
  (INT_MIN <= front <= end_ -> front + size - 1 < INT_MAX ->
     senderShowSlidingWindow front end_ size r = Some (windowText r (zrange front (Z.to_nat size)))) /\
  (end_ < front -> senderShowSlidingWindow front end_ size r = Some []) /\
  (INT_MIN <= cur -> cur + size < INT_MAX ->
     receiverShowSlidingWindow cur size r = Some (windowText r (zrange (cur + 1) (Z.to_nat size)))).
Proof.
  intros Hs. unfold senderShowSlidingWindow, receiverShowSlidingWindow, INT_MIN. split_and!.
  - intros Hf HM. replace (end_ <? front) with false by (symmetry; apply Z.ltb_ge; lia).
    apply showWindow_spec; lia.
  - intros Hf. by replace (end_ <? front) with true by (symmetry; apply Z.ltb_lt; lia).
  - intros Hc HM. unfold INT_MAX in HM. rewrite signed32_int by lia.
    apply showWindow_spec; unfold INT_MAX; lia.
Qed.

(** Witness of C25: Window of 3 from packet 5 with a range of 4: "Current window = [1, 2, 3]". *)
Lemma showSlidingWindow_spec_witness :
  senderShowSlidingWindow 5 6 3 4 = Some (windowText 4 [5; 6; 7]) /\
  senderShowSlidingWindow 5 4 3 4 = Some [] /\
  receiverShowSlidingWindow 4 3 4 = Some (windowText 4 [5; 6; 7]).
Proof.
  destruct (showSlidingWindow_spec 5 6 4 3 4 ltac:(lia)) as (H1 & H2 & H3). split_and!.
  - apply H1; unfold INT_MAX, INT_MIN; lia.
  - destruct (showSlidingWindow_spec 5 4 4 3 4 ltac:(lia)) as (_ & H2' & _). apply H2'; lia.
  - apply H3; unfold INT_MAX, INT_MIN; lia.
Defined.

(** C22. When [front + slidingWindowSize - 1] is [INT_MAX] the [for] loop
    never ends: for every fuel it has not left, and the sender's display
    does not return. *)
Theorem showSlidingWindow_INT_MAX front end_ size r :
  1 <= size -> INT_MIN <= front <= end_ -> front + size - 1 = INT_MAX ->
  (forall fuel, windowLoop fuel front INT_MAX r windowHead = None) /\
  senderShowSlidingWindow front end_ size r = None.
Proof.
  intros Hs Hf HM. assert (Hf' : - 2 ^ 31 <= front <= INT_MAX) by (unfold INT_MAX, INT_MIN in *; lia).
  split; [intros fuel; by apply windowLoop_INT_MAX|].
  unfold senderShowSlidingWindow, showWindow.
  replace (end_ <? front) with false by (symmetry; apply Z.ltb_ge; lia).
  rewrite HM, signed32_int by (unfold INT_MAX; lia). by rewrite windowLoop_INT_MAX.
Qed.

(** Witness of C22: The prompts of the sender accept a window of [2^31 - 2] packets; once
    packet 1 is acknowledged the front is 2 and the display never ends. *)
Lemma showSlidingWindow_INT_MAX_witness :
  (exists np r, Config.mainConfig
     (Config.typedAnswers [105] [111] [104] 9000 Handshake.SR 100 1000 0 (2 ^ 31 - 2) 0 Faults.NoneStr)
     (Some 1000) =
   Ok (Config.Start (Config.mkConfig [105] [111] [104] (Some 9000) Handshake.SR 100 1000 0 (2 ^ 31 - 2) 0
                       Faults.NoneStr [] [] []) 1000 np r)) /\
  (forall fuel, windowLoop fuel 2 INT_MAX 0 windowHead = None) /\
  senderShowSlidingWindow 2 5 (2 ^ 31 - 2) 0 = None.
Proof.
  split; [vm_compute; do 2 eexists; reflexivity|].
  apply (showSlidingWindow_INT_MAX 2 5 (2 ^ 31 - 2) 0); unfold INT_MAX, INT_MIN; lia.
Defined.

(** ** The statistics of a finished transfer *)

(** C23. When the receiver's loop ends because every packet is in, the
    retransmission count it prints is not negative and counts at most the
    messages read beyond one per packet: every packet from 0 (the
    handshake) to [numPackets - 1] was received at least once. *)
Theorem receiverStats_retrans chunk msgs st :
  Forall (Receiver.msg_ok chunk) msgs -> Receiver.run Receiver.init msgs = Ok st ->
  st.(Receiver.senderFile) <> None -> st.(Receiver.curPktNum) = st.(Receiver.numPackets) ->
  0 <= (receiverStats st).2 <= Z.of_nat (length msgs) - st.(Receiver.numPackets).
Proof.
  intros Hms Hrun Hf Hc.
  pose proof (Receiver.run_inv_opened chunk msgs _ _ (Receiver.recv_inv_init chunk) Hms Hrun Hf) as Hi.
  destruct (Receiver.run_counts msgs _ _ Hrun) as [Hn Hs].
  cbn [Receiver.init Receiver.initReplies Receiver.numReceived Receiver.donePackets] in Hn, Hs. rewrite size_empty in Hs.
  unfold Receiver.recv_inv in Hi. destruct (Receiver.senderFile st); [|done].
  destruct Hi as (H1 & _ & Hbd & _).
  pose proof (zrange_size (Receiver.donePackets st) 0 (Z.to_nat (Receiver.curPktNum st))
                (fun i Hi => Hbd i ltac:(lia))) as Hsz.
  unfold receiverStats. cbn. lia.
Qed.

(** Witness of C23: The run of the receiver on the handshake of [System.demo_hs]
    (3 packets, 2 bytes) and the packets 1 and 2 sent twice: it prints
    two retransmissions. *)
Definition demo_pkt (n : Z) : list Z :=
  Codec.createPacketString (Codec.setData [104] (Codec.setSeqNum n Codec.newPacket)) false.

Lemma receiverStats_retrans_witness :
  exists st, Receiver.run Receiver.init [System.demo_hs; demo_pkt 1; demo_pkt 1; demo_pkt 2] = Ok st /\
    0 <= (receiverStats st).2 <= 4 - st.(Receiver.numPackets) /\ receiverStats st = (2, 3, 1).
Proof.
  eexists. split; [vm_compute; reflexivity|]. split; [|vm_compute; reflexivity].
  apply (receiverStats_retrans (fun _ => [104]) [System.demo_hs; demo_pkt 1; demo_pkt 1; demo_pkt 2]).
  - repeat (constructor; [intros p E; vm_compute in E; injection E as <-; vm_compute; split; try done; lia|]).
    constructor.
  - vm_compute. reflexivity.
  - vm_compute. discriminate.
  - vm_compute. reflexivity.
Defined.

(** When the connection closes before the last packet, the count printed
    is negative: after the handshake of [System.demo_hs] alone it is
    [1 - 3]. *)
Example receiverStats_closed_early :
  exists st, Receiver.run Receiver.init [System.demo_hs; []] = Ok st /\ receiverStats st = (0, 3, -2).
Proof. eexists. split; vm_compute; reflexivity. Qed.

End Console.
