(* ===== verification/OldPacket.v ===== *)
(** * The archived packet code: [src/archive/packet.cpp]

    An earlier [Packet] class, kept in [src/archive] and built by neither
    program (its header, with the fields [srcPort], [destPort], [seqNum],
    [ack], [checksum], [data] as a [string] and [type], is not in the
    repository; the fields are held here as integers, at no fixed width).
    [createPacket] prints a TCP-like header of 192 binary digits (ports,
    sequence number, ack, reserved fields, checksum, options) and then
    each payload byte as 8 binary digits; [reversePacket] parses it back,
    but adds the destination port, the sequence number and the ack to the
    ones already in the packet ([+=]) and appends the payload to the one
    it has.  [createChecksum] is the same end-around-carry loop as the
    current [Packet::createChecksum], over the sign-extended bytes.

    Theorems: the archived checksum is the current one; printing then
    parsing gives back the source port, the checksum and the payload, and
    the other fields added to those of the packet parsed into
    ([reversePacket_accumulates]): a packet reused for a second parse, or
    one whose fields the empty constructor left indeterminate, comes out
    wrong; parsing into a zeroed packet is a round trip, with a valid
    checksum. *)

From S2P Require Import Prelude Bitset Checksum.
Open Scope Z_scope.

Module OldPacket.

(** The fields [archive/packet.cpp] uses. *)
Record OldPacket := mkOldPacket {
  srcPort : Z;
  destPort : Z;
  seqNum : Z;
  ack : Z;
  checksum : Z;
  data : list Z;        (** [string data] *)
  pktType : Z           (** [type] *)
}.

(** [Packet::setType(int type) { type = type; }]: the parameter shadows
    the member and is assigned to itself; the packet is unchanged. *)
Definition setType (type : Z) (p : OldPacket) : OldPacket := p.

(** [createChecksum(u_short *buffer, int count)]: the [u_long] sum with
    the end-around carry, complemented and cut to [u_short]. *)
Definition createChecksum (buffer : list Z) : Z :=
  Z.land (Z.lnot (Z.land (fold_left Checksum.add_word buffer 0) 0xFFFF)) 0xFFFF.

(** [dataChecksumArray]: [(unsigned short) bitset<16>(data[i]).to_ulong()]
    for each [char] of the payload. *)
Definition words (d : list Z) : list Z := map Checksum.widen d.

(** [dataBin]: [bitset<8>(data[i]).to_string()] for each byte. *)
Definition dataBin (d : list Z) : list Z := concat (map (Bitset.to_string 8) d).

(** The 192 header digits [createPacket] appends before [dataBin]. *)
Definition header (p : OldPacket) (cs : Z) : list Z :=
  Bitset.to_string 16 p.(srcPort) ++ Bitset.to_string 16 p.(destPort) ++
  Bitset.to_string 32 p.(seqNum) ++ Bitset.to_string 32 p.(ack) ++
  Bitset.to_string 4 0 ++ Bitset.to_string 6 0 ++ Bitset.to_string 6 0 ++
  Bitset.to_string 16 0 ++ Bitset.to_string 16 cs ++ Bitset.to_string 16 0 ++
  Bitset.to_string 32 0.

(** [Packet::createPacket()]: stores the checksum of the payload in the
    packet and returns the printed string. *)
Definition createPacket (p : OldPacket) : OldPacket * list Z :=
  let cs := createChecksum (words p.(data)) in
  (mkOldPacket p.(srcPort) p.(destPort) p.(seqNum) p.(ack) cs p.(data) p.(pktType),
   header p cs ++ dataBin p.(data)).

(** The data loop of [reversePacket]:
    [for (i = 192; i < dataLen; i += 8) data += char(bitset<8>(inputData.substr(i, 8)).to_ulong());]
    over [rest = inputData] from [i] on; [fuel] bounds the iterations
    ([decodeBytes_fuel]: the length of [rest] is enough). *)
Fixpoint decodeBytes (fuel : nat) (rest : list Z) : res (list Z) :=
  match fuel, rest with
  | _, [] => Ok []
  | O, _ :: _ => Ok []
  | S f, _ :: _ =>
      b <- Bitset.of_string 8 (take 8 rest) ;;
      bs <- decodeBytes f (drop 8 rest) ;;
      Ok (b :: bs)
  end.

(** [Packet::reversePacket(inputData)], in the code's order: [srcPort =],
    then [destPort +=], [seqNum +=], [ack +=], [checksum =] (a
    [bitset<32>] read from 16 digits) and the data appended. *)
Definition reversePacket (input : list Z) (p : OldPacket) : res OldPacket :=
  s1 <- substr 0 16 input ;; sp <- Bitset.of_string 16 s1 ;;
  s2 <- substr 16 16 input ;; dp <- Bitset.of_string 16 s2 ;;
  s3 <- substr 32 32 input ;; sq <- Bitset.of_string 32 s3 ;;
  s4 <- substr 64 32 input ;; ak <- Bitset.of_string 32 s4 ;;
  s5 <- substr 128 16 input ;; cs <- Bitset.of_string 32 s5 ;;
  bs <- decodeBytes (length input) (drop 192 input) ;;
  Ok (mkOldPacket sp (p.(destPort) + dp) (p.(seqNum) + sq) (p.(ack) + ak) cs
        (p.(data) ++ bs) p.(pktType)).

(** [Packet::isValidChecksum()]: the stored checksum against a new one. *)
Definition isValidChecksum (p : OldPacket) : bool :=
  p.(checksum) =? createChecksum (words p.(data)).

(** ** Lemmas *)

(** The archived checksum is the current [Packet::createChecksum]. *)
Lemma createChecksum_current d : createChecksum (words d) = Checksum.createChecksum d.
Proof. reflexivity. Qed.

Lemma length_old_header p cs : length (header p cs) = 192%nat.
Proof. unfold header. rewrite !length_app, !Bitset.length_to_string. reflexivity. Qed.

Lemma decodeBytes_fuel fuel rest :
  (length rest <= fuel)%nat -> forall fuel', (length rest <= fuel')%nat ->
  decodeBytes fuel rest = decodeBytes fuel' rest.
Proof.
  revert rest; induction fuel as [|f IH]; intros rest Hl fuel' Hl'.
  - destruct rest; [destruct fuel'; reflexivity|simpl in Hl; lia].
  - destruct rest as [|c rest]; [destruct fuel'; reflexivity|].
    destruct fuel' as [|f']; [simpl in Hl'; lia|]. cbn [decodeBytes].
    assert (length (drop 8 (c :: rest)) <= f)%nat by (rewrite length_drop; simpl in *; lia).
    assert (length (drop 8 (c :: rest)) <= f')%nat by (rewrite length_drop; simpl in *; lia).
    by rewrite (IH _ ltac:(eassumption) f').
Qed.

Lemma drop_to_string_app n v rest k :
  drop (n + k) (Bitset.to_string n v ++ rest) = drop k rest.
Proof. rewrite drop_app_ge; rewrite Bitset.length_to_string; [f_equal; lia|lia]. Qed.

(** The fields of the printed header, by their offsets. *)
Lemma header_fields p cs rest :
  let H := header p cs ++ rest in
  take 16 (drop 0 H) = Bitset.to_string 16 p.(srcPort) /\
  take 16 (drop 16 H) = Bitset.to_string 16 p.(destPort) /\
  take 32 (drop 32 H) = Bitset.to_string 32 p.(seqNum) /\
  take 32 (drop 64 H) = Bitset.to_string 32 p.(ack) /\
  take 16 (drop 128 H) = Bitset.to_string 16 cs /\
  drop 192 H = rest.
Proof.
  unfold header. rewrite <- !app_assoc.
  change 16%nat with (16 + 0)%nat at 3.
  change 32%nat with (16 + (16 + 0))%nat at 4.
  change 64%nat with (16 + (16 + (32 + 0)))%nat.
  change 128%nat with (16 + (16 + (32 + (32 + (4 + (6 + (6 + (16 + 0))))))))%nat.
  change 192%nat with
    (16 + (16 + (32 + (32 + (4 + (6 + (6 + (16 + (16 + (16 + (32 + 0)))))))))))%nat.
  rewrite !drop_to_string_app, !drop_0, !Bitset.take_to_string_app. repeat split.
Qed.

(** Each byte printed as 8 digits is read back. *)
Lemma decodeBytes_dataBin d fuel :
  bytes_ok d -> (length (dataBin d) <= fuel)%nat -> decodeBytes fuel (dataBin d) = Ok d.
Proof.
  intros Hd. revert fuel. induction Hd as [|b d Hb Hd IH]; intros fuel Hl; [destruct fuel; reflexivity|].
  unfold dataBin in *; cbn [map concat] in *.
  rewrite length_app, Bitset.length_to_string in Hl.
  destruct fuel as [|f]; [lia|].
  destruct (Bitset.to_string 8 b ++ concat (map (Bitset.to_string 8) d)) eqn:E.
  { apply (f_equal length) in E. rewrite length_app, Bitset.length_to_string in E. discriminate. }
  rewrite <- E. cbn [decodeBytes].
  rewrite Bitset.take_to_string_app, Bitset.of_string_to_string. cbn [res_bind].
  rewrite drop_app_length' by (symmetry; apply Bitset.length_to_string).
  rewrite IH by lia. cbn [res_bind]. unfold byte_ok in Hb. rewrite Z.mod_small by (simpl; lia).
  reflexivity.
Qed.

Lemma length_dataBin d : length (dataBin d) = (8 * length d)%nat.
Proof.
  unfold dataBin. induction d as [|b d IH]; [reflexivity|].
  cbn [map concat length]. rewrite length_app, Bitset.length_to_string, IH. lia.
Qed.

(** Parsing what [createPacket] printed, into any packet [q]. *)
Lemma reversePacket_createPacket p q :
  bytes_ok p.(data) ->
  reversePacket (createPacket p).2 q =
  Ok (mkOldPacket (p.(srcPort) mod 2 ^ 16) (q.(destPort) + p.(destPort) mod 2 ^ 16)
        (q.(seqNum) + p.(seqNum) mod 2 ^ 32) (q.(ack) + p.(ack) mod 2 ^ 32)
        (Checksum.createChecksum p.(data)) (q.(data) ++ p.(data)) q.(pktType)).
Proof.
  intros Hd. unfold reversePacket, createPacket; cbn [fst snd].
  set (cs := createChecksum (words p.(data))).
  destruct (header_fields p cs (dataBin p.(data))) as (E1 & E2 & E3 & E4 & E5 & E6).
  assert (Hl : length (header p cs ++ dataBin p.(data)) = (192 + 8 * length p.(data))%nat)
    by (rewrite length_app, length_old_header, length_dataBin; lia).
  rewrite !substr_ok by lia.
  rewrite E1; cbn [res_bind]; rewrite Bitset.of_string_to_string; cbn [res_bind].
  rewrite E2; cbn [res_bind]; rewrite Bitset.of_string_to_string; cbn [res_bind].
  rewrite E3; cbn [res_bind]; rewrite Bitset.of_string_to_string; cbn [res_bind].
  rewrite E4; cbn [res_bind]; rewrite Bitset.of_string_to_string; cbn [res_bind].
  rewrite E5; cbn [res_bind]. unfold Bitset.of_string. rewrite take_ge by (rewrite Bitset.length_to_string; lia).
  rewrite Bitset.of_digits_to_string; cbn [res_bind].
  rewrite E6, (decodeBytes_dataBin _ _ Hd) by (rewrite Hl, length_dataBin; lia). cbn [res_bind].
  do 2 f_equal. subst cs. rewrite createChecksum_current.
  pose proof (Checksum.createChecksum_range p.(data)). rewrite Z.mod_small; simpl; lia.
Qed.

(** C40. The archived [reversePacket] accumulates: parsing the string the
    archived [createPacket] printed into a packet [q] gives back the
    source port and the payload, with the checksum of the current code,
    but adds the destination port, the sequence number and the ack to the
    ones [q] holds and appends the payload to [q]'s; so only a packet
    whose fields are 0 and payload empty is a round trip, and then it
    passes [isValidChecksum]. *)
Theorem reversePacket_accumulates p q :
  bytes_ok p.(data) ->
  exists q', reversePacket (createPacket p).2 q = Ok q' /\
    q'.(srcPort) = p.(srcPort) mod 2 ^ 16 /\
    q'.(destPort) = q.(destPort) + p.(destPort) mod 2 ^ 16 /\
    q'.(seqNum) = q.(seqNum) + p.(seqNum) mod 2 ^ 32 /\
    q'.(ack) = q.(ack) + p.(ack) mod 2 ^ 32 /\
    q'.(data) = q.(data) ++ p.(data) /\
    (q.(data) = [] -> isValidChecksum q' = true).
Proof.
  intros Hd. eexists. split; [exact (reversePacket_createPacket p q Hd)|].
  cbn. do 5 (split; [reflexivity|]). intros ->. unfold isValidChecksum; cbn.
  rewrite createChecksum_current. apply Z.eqb_refl.
Qed.

(** Witness of C40: ports 1000 and 5020, sequence number 10 and payload "Hi",
    parsed into a packet whose destination port is already 7. *)
Lemma reversePacket_accumulates_witness :
  bytes_ok [72; 105] /\
  exists q', reversePacket (createPacket (mkOldPacket 1000 5020 10 0 0 [72; 105] 0)).2
               (mkOldPacket 0 7 0 0 0 [] 0) = Ok q' /\ q'.(destPort) = 5027.
Proof.
  assert (Hb : bytes_ok [72; 105]) by (repeat constructor; unfold byte_ok; lia).
  split; [exact Hb|].
  destruct (reversePacket_accumulates (mkOldPacket 1000 5020 10 0 0 [72; 105] 0)
              (mkOldPacket 0 7 0 0 0 [] 0) Hb) as (q' & E & _ & Ed & _).
  exists q'. split; [exact E|]. rewrite Ed. reflexivity.
Defined.

End OldPacket.
