(* ===== verification/OldThreads.v ===== *)
(** * The archived thread-per-chunk sender: [src/archive/sender copy.cpp]

    The oldest version of the sender, kept in [src/archive] and built by
    neither program.  [main] reads a file name, a packet size and a window
    size from [std::cin], asks the file's size, computes
    [numPackets = fileSize / packetSize + 1] and the last read's size
    [packetSizeFinal = fileSize % packetSize - 1], allocates the two read
    buffers, and reads the file chunk by chunk; each buffer is handed to
    [processChunkData] as a C string.  [processChunkData] starts a thread
    ([myMagicThread]) that appends its chunk to the shared vector
    [endData] under [pktMutex], queues it in [threadList], and once the
    queue holds [slidingWindowSize] threads pops and joins the oldest; at
    the end [main] joins the rest in queue order and prints [endData].

    Here: the prompts with the [std::cin] model of [Config]; the reads as
    [readLoop] over the file's bytes (a short read fills a prefix of the
    buffer and sets [eofbit]); [oldBuffers] and [oldMain], with the
    [std::length_error] of a [vector] of negative size and the undefined
    read of a buffer without NUL taken as a C string
    ([Handshake.c_str]); the threads as a step relation [ot_step] over
    the created threads, the queue and [main]'s position, with the
    executable [mainStep] and [threadStep].

    Theorems: the reads never reach the file's last byte, and a file
    whose size is a multiple of the packet size makes the second
    [vector] throw; in every run the threads started and not joined are
    at most the window; a finished run prints the chunks in some order,
    and with a window of 2 the order of [endData] can be the reverse of
    the file's. *)

From S2P Require Import Prelude Handshake Config.
From stdpp Require Import list.
Open Scope Z_scope.

Module OldThreads.

(** ** Reading the file *)

(** The [ifstream] after [seekg(0)]: the bytes not yet read and [eofbit]. *)
Record Ifs := mkIfs { rest : list Z; eof : bool }.

(** [inFile.read(buf.data(), n)] into a buffer of [n] bytes: a short read
    copies the bytes left into the front of the buffer, keeps the rest of
    its old contents and sets [eofbit] (and [failbit]). *)
Definition readInto (buf : list Z) (f : Ifs) : list Z * Ifs :=
  let n := length buf in
  if Nat.leb n (length f.(rest)) then (take n f.(rest), mkIfs (drop n f.(rest)) false)
  else (f.(rest) ++ drop (length f.(rest)) buf, mkIfs [] true).

(** The [while (!inFile.eof())] loop of lines 184-203: the buffers handed
    to [processChunkData], in order.  [curChunkNum] is incremented first;
    read [numPackets] goes into [fileBuffFinal] and ends the loop; the
    loop runs at most [numPackets] times, its fuel. *)
Fixpoint readLoop (fuel : nat) (numPackets curChunkNum : Z) (fileBuff fileBuffFinal : list Z)
    (f : Ifs) : list (list Z) :=
  match fuel with
  | O => []
  | S fuel' =>
      if f.(eof) then [] else
      let cur := curChunkNum + 1 in
      if cur =? numPackets then [(readInto fileBuffFinal f).1]
      else
        let '(b, f') := readInto fileBuff f in
        b :: readLoop fuel' numPackets cur b fileBuffFinal f'
  end.

(** [vector<char> v(n, 0)] for an [int] [n]: a negative [n] converted to
    [size_t] exceeds [max_size()] and throws [std::length_error]. *)
Definition newBuffer (n : Z) : res (list Z) :=
  if n <? 0 then Crash ExcLengthError else Ok (repeat 0 (Z.to_nat n)).

(** Lines 123-132 and the loop: the counts, the two buffers and the
    buffers read, for a file of [fileSize] bytes as [tellg()] told. *)
Definition oldBuffers (fileSize packetSize : Z) (file : list Z) : res (list (list Z)) :=
  q <- c_div fileSize packetSize ;;
  r <- c_rem fileSize packetSize ;;
  let numPackets := q + 1 in
  let packetSizeFinal := r - 1 in
  fileBuff <- newBuffer packetSize ;;
  fileBuffFinal <- newBuffer packetSizeFinal ;;
  Ok (readLoop (Z.to_nat numPackets) numPackets 0 fileBuff fileBuffFinal (mkIfs file false)).

(** [processChunkData(fileBuff.data())]: each buffer becomes a [string]
    by [strlen]; a buffer without NUL is read past its end. *)
Fixpoint cStrings (bufs : list (list Z)) : res (list (list Z)) :=
  match bufs with
  | [] => Ok []
  | b :: bs => s <- Handshake.c_str b ;; ss <- cStrings bs ;; Ok (s :: ss)
  end.

(** How [main] ends before the threads: [return 1] or the chunks handed
    to [processChunkData] with the window size. *)
Inductive Outcome :=
| Exit (code : Z)
| Chunks (slidingWindowSize : Z) (chunks : list (list Z)).

(** [main] up to the thread phase (lines 62-203): [cin >> fileName],
    [cin >> packetSize] into an uninitialised [int], [cin >> slidingWindowSize]
    into the global that starts at -1, [tellg()], the counts and reads.
    [file] is the content of the named file, [None] when it does not open. *)
Definition oldMain (input : list Z) (file : option (list Z)) : res Outcome :=
  let s := Config.mkIstream input false false in
  let '(s, fileName) := Config.readWord s [] in
  let '(s, ps) := Config.readInt s in
  let '(s, win) := Config.readInt s in
  let slidingWindowSize := default (-1) win in
  let fileSize := Config.tellgInt (option_map (fun f => Z.of_nat (length f)) file) in
  if fileSize <? 0 then Ok (Exit 1) else
  packetSize <- (match ps with Some p => Ok p | None => Crash Indeterminate end) ;;
  bufs <- oldBuffers fileSize packetSize (default [] file) ;;
  chunks <- cStrings bufs ;;
  Ok (Chunks slidingWindowSize chunks).

(** ** The threads *)

(** A thread started by [processChunkData]: [myMagicThread]'s arguments
    and whether it has returned. *)
Record Thread := mkThread { aNum : Z; tdata : list Z; finished : bool }.

(** Where [main] is: in the read loop with the chunks still to hand to
    [processChunkData], joining thread [k] in [processChunkData] (the
    [Thread Hold] of lines 51-57), in the final [while (!threadList.empty())],
    joining thread [k] there, or past it. *)
Inductive Pc :=
| PLoop (cs : list (list Z))
| PHold (k : nat) (cs : list (list Z))
| PDrain
| PJoin (k : nat)
| PDone.

(** The globals, with every thread started so far ([threads], by creation
    order) and [threadList] as the indices of the queued ones. *)
Record Old := mkOld {
  endData : list (list Z);
  curSeqNum : Z;
  slidingWindowSize : Z;
  threads : list Thread;
  threadList : list nat;
  pc : Pc
}.

Definition initOld (chunks : list (list Z)) (size : Z) : Old :=
  mkOld [] 0 size [] [] (PLoop chunks).

Definition isFinished (st : Old) (k : nat) : bool :=
  match st.(threads) !! k with Some t => t.(finished) | None => false end.

(** [processChunkData(chunkData)] (lines 41-60) up to the join: the
    thread is started and queued; with a positive window that the queue
    now fills, the oldest is popped and [main] blocks in its [join]. *)
Definition processChunkData (st : Old) (chunkData : list Z) (cs : list (list Z)) : Old :=
  let k := length st.(threads) in
  let ths := st.(threads) ++ [mkThread st.(curSeqNum) chunkData false] in
  let q := st.(threadList) ++ [k] in
  if (0 <? st.(slidingWindowSize)) && (Z.of_nat (length q) =? st.(slidingWindowSize)) then
    match q with
    | j :: q' => mkOld st.(endData) st.(curSeqNum) st.(slidingWindowSize) ths q' (PHold j cs)
    | [] => mkOld st.(endData) (st.(curSeqNum) + 1) st.(slidingWindowSize) ths q (PLoop cs)
    end
  else mkOld st.(endData) (st.(curSeqNum) + 1) st.(slidingWindowSize) ths q (PLoop cs).

Definition setPc (st : Old) (q : list nat) (p : Pc) (inc : Z) : Old :=
  mkOld st.(endData) (st.(curSeqNum) + inc) st.(slidingWindowSize) st.(threads) q p.

(** The next step of [main]; [None] while it is blocked in a [join] or
    has returned. *)
Definition mainStep (st : Old) : option Old :=
  match st.(pc) with
  | PLoop (c :: cs) => Some (processChunkData st c cs)
  | PLoop [] => Some (setPc st st.(threadList) PDrain 0)
  | PHold k cs => if isFinished st k then Some (setPc st st.(threadList) (PLoop cs) 1) else None
  | PDrain =>
      match st.(threadList) with
      | k :: q => Some (setPc st q (PJoin k) 0)
      | [] => Some (setPc st [] PDone 0)
      end
  | PJoin k => if isFinished st k then Some (setPc st st.(threadList) PDrain 0) else None
  | PDone => None
  end.

(** [myMagicThread] of thread [k] (lines 24-33): under [pktMutex] it
    appends its chunk to [endData], then returns. *)
Definition threadStep (k : nat) (st : Old) : option Old :=
  match st.(threads) !! k with
  | Some t =>
      if t.(finished) then None
      else Some (mkOld (st.(endData) ++ [t.(tdata)]) st.(curSeqNum) st.(slidingWindowSize)
                   (<[k := mkThread t.(aNum) t.(tdata) true]> st.(threads)) st.(threadList) st.(pc))
  | None => None
  end.

(** One step of the program: of [main] or of a started thread. *)
Inductive ot_step : Old -> Old -> Prop :=
| ot_main st st' : mainStep st = Some st' -> ot_step st st'
| ot_thread k st st' : threadStep k st = Some st' -> ot_step st st'.

(** A schedule: [None] for [main], [Some k] for thread [k]. *)
Fixpoint ot_run (st : Old) (sched : list (option nat)) : option Old :=
  match sched with
  | [] => Some st
  | e :: sched' =>
      match (match e with None => mainStep st | Some k => threadStep k st end) with
      | Some st' => ot_run st' sched'
      | None => None
      end
  end.

(** ** Lemmas *)

Lemma ot_run_sound st sched st' : ot_run st sched = Some st' -> rtc ot_step st st'.
Proof.
  revert st; induction sched as [|e sched IH]; intros st; cbn [ot_run]; [by intros [= ->]|].
  destruct e as [k|];
    [destruct (threadStep k st) as [x|] eqn:E|destruct (mainStep st) as [x|] eqn:E];
    try discriminate; intros H; eapply rtc_l; [by econstructor|by apply IH| |by apply IH];
    by econstructor.
Qed.

(** The chunks not yet handed to [processChunkData]. *)
Definition remaining (p : Pc) : list (list Z) :=
  match p with PLoop cs | PHold _ cs => cs | _ => [] end.

(** The thread [main] is joining. *)
Definition joining (p : Pc) : list nat :=
  match p with PHold k _ | PJoin k => [k] | _ => [] end.

Definition isLoop (p : Pc) : bool := match p with PLoop _ => true | _ => false end.

(** What every reachable state satisfies, for the chunks [cs0]: the
    threads carry the chunks handed over so far, in order; [endData] holds
    the chunks of the returned threads, in some order; a thread neither
    queued nor being joined has returned; the queue and the join hold
    started threads; the run ends with an empty queue; and with a
    positive window, at most [slidingWindowSize] threads are queued or
    joined, fewer than that while reading. *)
Definition ot_inv (cs0 : list (list Z)) (st : Old) : Prop :=
  map tdata st.(threads) ++ remaining st.(pc) = cs0 /\
  st.(endData) ≡ₚ map tdata (filter (fun t => t.(finished) = true) st.(threads)) /\
  (forall k t, st.(threads) !! k = Some t -> k ∉ st.(threadList) ++ joining st.(pc) ->
     t.(finished) = true) /\
  Forall (fun k => k < length st.(threads))%nat (st.(threadList) ++ joining st.(pc)) /\
  (st.(pc) = PDone -> st.(threadList) = []) /\
  (0 < st.(slidingWindowSize) ->
     Z.of_nat (length (st.(threadList) ++ joining st.(pc))) <= st.(slidingWindowSize) /\
     (isLoop st.(pc) = true -> Z.of_nat (length st.(threadList)) < st.(slidingWindowSize))).

Lemma ot_inv_init cs0 size : ot_inv cs0 (initOld cs0 size).
Proof.
  split_and!; cbn; try done. intros H. split; [lia|done].
Qed.

(** A thread returning adds its chunk to the returned ones. *)
Lemma filter_finish ths k t :
  ths !! k = Some t -> t.(finished) = false ->
  map tdata (filter (fun t => t.(finished) = true) (<[k := mkThread t.(aNum) t.(tdata) true]> ths))
  ≡ₚ map tdata (filter (fun t => t.(finished) = true) ths) ++ [t.(tdata)].
Proof.
  revert k; induction ths as [|t0 ths IH]; intros k Hk Hf; [by rewrite lookup_nil in Hk|].
  destruct k as [|k]; cbn in Hk |- *.
  - injection Hk as <-. rewrite Hf.
    case_decide; [|done]. case_decide; [discriminate|]. apply Permutation_cons_append.
  - case_decide; cbn; [|by apply IH]. by rewrite IH.
Qed.

Lemma map_tdata_insert ths k t b :
  ths !! k = Some t -> map tdata (<[k := mkThread t.(aNum) t.(tdata) b]> ths) = map tdata ths.
Proof.
  revert k; induction ths as [|t0 ths IH]; intros [|k] Hk; cbn in *; try done.
  - by injection Hk as ->.
  - by rewrite IH.
Qed.

Lemma threadStep_inv cs0 k st st' : ot_inv cs0 st -> threadStep k st = Some st' -> ot_inv cs0 st'.
Proof.
  unfold threadStep. destruct (st.(threads) !! k) as [t|] eqn:Ek; [|discriminate].
  destruct (finished t) eqn:Ef; [discriminate|]. intros (H1 & H2 & H3 & H4 & H5 & H6) [= <-].
  unfold ot_inv; cbn. rewrite map_tdata_insert, length_insert by done. split_and!; try done.
  - rewrite filter_finish by done. by rewrite H2.
  - intros k' t' Hk' Hn. destruct (decide (k' = k)) as [->|Hne].
    + rewrite list_lookup_insert_eq in Hk' by (by eapply lookup_lt_Some). by simplify_eq.
    + rewrite list_lookup_insert_ne in Hk' by done. eauto.
Qed.

Lemma elem_rotate (x j : nat) q : x ∈ j :: q <-> x ∈ q ++ [j].
Proof. rewrite elem_of_cons, elem_of_app, list_elem_of_singleton. tauto. Qed.

(** The new thread is queued: what the queue covers. *)
Lemma started_queued st t0 k' t :
  (forall k t, st.(threads) !! k = Some t -> k ∉ st.(threadList) -> t.(finished) = true) ->
  (st.(threads) ++ [t0]) !! k' = Some t -> k' ∉ st.(threadList) ++ [length st.(threads)] ->
  t.(finished) = true.
Proof.
  intros H3 Hk Hn. apply lookup_app_Some in Hk as [Hk|[Hge Hk]].
  - apply (H3 k' t Hk). set_solver.
  - apply list_lookup_singleton_Some in Hk as [Hz _].
    destruct Hn. apply elem_of_app. right. replace k' with (length st.(threads)) by lia. set_solver.
Qed.

Lemma processChunkData_inv cs0 st c cs :
  st.(pc) = PLoop (c :: cs) -> ot_inv cs0 st -> ot_inv cs0 (processChunkData st c cs).
Proof.
  intros Hpc (H1 & H2 & H3 & H4 & H5 & H6). rewrite Hpc in H1, H3, H4, H6. cbn in H1, H3, H4, H6.
  rewrite app_nil_r in H3, H4.
  assert (F1 : map tdata (st.(threads) ++ [mkThread st.(curSeqNum) c false]) ++ cs = cs0)
    by (rewrite map_app, <- app_assoc; exact H1).
  assert (F2 : filter (fun t => t.(finished) = true) (st.(threads) ++ [mkThread st.(curSeqNum) c false])
               = filter (fun t => t.(finished) = true) st.(threads))
    by (rewrite filter_app; cbn; case_decide; [discriminate|by rewrite app_nil_r]).
  assert (F4 : Forall (fun k => k < length (st.(threads) ++ [mkThread st.(curSeqNum) c false]))%nat
                 (st.(threadList) ++ [length st.(threads)])).
  { rewrite length_app; cbn. apply Forall_app; split; [|constructor; [lia|done]].
    eapply Forall_impl; [exact H4|]. cbn; lia. }
  pose proof (started_queued st (mkThread st.(curSeqNum) c false)) as F3.
  unfold processChunkData.
  destruct ((0 <? slidingWindowSize st) && _) eqn:Eh.
  - apply andb_true_iff in Eh as [Hp Hl]. apply Z.ltb_lt in Hp. apply Z.eqb_eq in Hl.
    destruct (st.(threadList) ++ [length st.(threads)]) as [|j q'] eqn:Eq;
      [by destruct st.(threadList)|].
    unfold ot_inv; cbn. rewrite F2. split_and!; try done.
    + intros k' t Hk Hn. apply (F3 k' t H3 Hk). by rewrite elem_rotate.
    + apply Forall_app; inversion F4; auto.
    + intros _. rewrite length_app, Nat.add_comm. cbn in Hl |- *. split; [lia|done].
  - unfold ot_inv; cbn. rewrite F2, app_nil_r. split_and!; try done.
    + intros k' t Hk Hn. exact (F3 k' t H3 Hk Hn).
    + intros Hp. rewrite length_app. cbn.
      apply andb_false_iff in Eh as [Hp'|Hl]; [apply Z.ltb_ge in Hp'; lia|].
      apply Z.eqb_neq in Hl. rewrite length_app in Hl. cbn in Hl.
      pose proof (proj2 (H6 Hp) eq_refl). split; [lia|intros _; lia].
Qed.

Lemma isFinished_spec st k : isFinished st k = true -> exists t, st.(threads) !! k = Some t /\ t.(finished) = true.
Proof. unfold isFinished. destruct (st.(threads) !! k); [eauto|discriminate]. Qed.

(** Ending a join: the joined thread has returned, the queue is as it was. *)
Lemma join_done_inv cs0 st k p inc :
  ot_inv cs0 st -> isFinished st k = true -> joining st.(pc) = [k] -> joining p = [] ->
  remaining p = remaining st.(pc) -> p <> PDone ->
  (isLoop p = true -> 0 < st.(slidingWindowSize) ->
     Z.of_nat (length st.(threadList)) < st.(slidingWindowSize)) ->
  ot_inv cs0 (setPc st st.(threadList) p inc).
Proof.
  intros (H1 & H2 & H3 & H4 & H5 & H6) Hf Hj Hp Hr Hd Hl. apply isFinished_spec in Hf as (tk & Ek & Fk).
  rewrite Hj in H3, H4, H6. unfold ot_inv, setPc; cbn. rewrite Hp, Hr, app_nil_r.
  split_and!; try done.
  - intros k' t Hk' Hn. destruct (decide (k' = k)) as [->|Hne]; [congruence|].
    apply (H3 k' t Hk'). rewrite not_elem_of_app, list_elem_of_singleton. tauto.
  - by apply Forall_app in H4 as [? _].
  - intros Hs. rewrite length_app in H6. cbn in H6. split; [lia|]. intros Hlp. by apply Hl.
Qed.

Lemma mainStep_inv cs0 st st' : ot_inv cs0 st -> mainStep st = Some st' -> ot_inv cs0 st'.
Proof.
  intros Hi. unfold mainStep. destruct (pc st) as [[|c cs]|k cs| |k|] eqn:Ep.
  - intros [= <-]. destruct Hi as (H1 & H2 & H3 & H4 & H5 & H6). rewrite Ep in *. cbn in *.
    unfold ot_inv, setPc; cbn. split_and!; try done. intros Hs. split; [|done].
    destruct (H6 Hs) as [_ Hl]. specialize (Hl eq_refl). lia.
  - intros [= <-]. apply processChunkData_inv; done.
  - destruct (isFinished st k) eqn:Ef; [intros [= <-]|discriminate].
    apply (join_done_inv _ _ k); rewrite ?Ep; try done.
    intros _ Hs. destruct Hi as (_ & _ & _ & _ & _ & H6). rewrite Ep in H6. cbn in H6.
    rewrite length_app in H6. cbn in H6. destruct (H6 Hs). lia.
  - destruct Hi as (H1 & H2 & H3 & H4 & H5 & H6). rewrite Ep in *. cbn in *.
    destruct (threadList st) as [|k q] eqn:Eq; intros [= <-]; unfold ot_inv, setPc; cbn.
    + split_and!; try done; try (intros Hs; split; [lia|done]).
    + split_and!; try done.
      * intros k' t Hk' Hn. apply (H3 k' t Hk'). rewrite app_nil_r, elem_rotate. exact Hn.
      * apply Forall_app. rewrite app_nil_r in H4. inversion H4; auto.
      * intros Hs. rewrite length_app, Nat.add_comm. cbn. split; [|done].
        destruct (H6 Hs) as [Hl _]. rewrite app_nil_r in Hl. cbn in Hl. lia.
  - destruct (isFinished st k) eqn:Ef; [intros [= <-]|discriminate].
    apply (join_done_inv _ _ k); rewrite ?Ep; done.
  - discriminate.
Qed.

Lemma ot_inv_reach cs0 size x : rtc ot_step (initOld cs0 size) x -> ot_inv cs0 x.
Proof.
  apply rtc_invariant; [|apply ot_inv_init].
  intros a b Ha Hs. destruct Hs; [eapply mainStep_inv|eapply threadStep_inv]; eassumption.
Qed.

Lemma filter_all_finished (ths : list Thread) :
  (forall k t, ths !! k = Some t -> t.(finished) = true) ->
  filter (fun t => t.(finished) = true) ths = ths.
Proof.
  induction ths as [|t ths IH]; intros H; [done|].
  rewrite filter_cons_True by exact (H 0%nat t eq_refl).
  f_equal. apply IH. intros k t' Hk. exact (H (S k) t' Hk).
Qed.

(** At the end of a run every started thread has returned. *)
Lemma done_all_finished cs0 x :
  ot_inv cs0 x -> x.(pc) = PDone ->
  map tdata x.(threads) = cs0 /\ x.(endData) ≡ₚ map tdata x.(threads).
Proof.
  intros (H1 & H2 & H3 & _ & H5 & _) Hd. rewrite Hd in H1, H3. cbn in H1, H3.
  rewrite app_nil_r in H1, H3. split; [done|].
  rewrite H2, filter_all_finished; [done|]. intros k t Hk. apply (H3 k t Hk).
  rewrite (H5 Hd). apply not_elem_of_nil.
Qed.

(** C38. The archived sender's threads append the chunks to [endData] in
    the order they run: in every run of [main] and its threads that ends
    (all threads joined), [endData] holds exactly the chunks handed to
    [processChunkData], each once, in some order -- not necessarily the
    file's. *)
Theorem oldThreads_output cs0 size x :
  rtc ot_step (initOld cs0 size) x -> x.(pc) = PDone -> x.(endData) ≡ₚ cs0.
Proof.
  intros Hr Hd. destruct (done_all_finished cs0 x (ot_inv_reach cs0 size x Hr) Hd) as [<- H].
  exact H.
Qed.

(** Witness of C38: with a window of 2 and the chunks "A" and "B", the
    second [processChunkData] holds on the first thread; the second
    thread runs first, and the run ends with [endData] = "B", "A". *)
Lemma oldThreads_output_witness :
  exists x, rtc ot_step (initOld [[65]; [66]] 2) x /\ x.(pc) = PDone /\
    x.(endData) ≡ₚ [[65]; [66]] /\ x.(endData) = [[66]; [65]].
Proof.
  assert (Hr : rtc ot_step (initOld [[65]; [66]] 2)
     (mkOld [[66]; [65]] 2 2 [mkThread 0 [65] true; mkThread 1 [66] true] [] PDone)).
  { apply (ot_run_sound _ [None; None; Some 1%nat; Some 0%nat; None; None; None; None; None]).
    reflexivity. }
  eexists. split; [exact Hr|]. split; [reflexivity|].
  split; [exact (oldThreads_output _ 2 _ Hr eq_refl)|reflexivity].
Defined.

Lemma ot_step_size a b : ot_step a b -> b.(slidingWindowSize) = a.(slidingWindowSize).
Proof.
  intros Hs. destruct Hs as [st st' E|k st st' E].
  - unfold mainStep in E. repeat case_match; simplify_eq; try reflexivity.
    unfold processChunkData. repeat case_match; reflexivity.
  - unfold threadStep in E. repeat case_match; simplify_eq; reflexivity.
Qed.

(** With a positive window, the threads queued or being joined are never
    more than [slidingWindowSize]. *)
Lemma oldThreads_window cs0 size x :
  0 < size -> rtc ot_step (initOld cs0 size) x ->
  Z.of_nat (length (x.(threadList) ++ joining x.(pc))) <= size.
Proof.
  intros Hs Hr. pose proof (ot_inv_reach cs0 size x Hr) as (_ & _ & _ & _ & _ & H6).
  assert (Hsz : x.(slidingWindowSize) = size).
  { change size with (initOld cs0 size).(slidingWindowSize). clear H6.
    induction Hr as [|a b c Hab Hbc IH]; [done|]. rewrite IH. by apply ot_step_size. }
  rewrite Hsz in H6. by destruct (H6 Hs).
Qed.

(** ** The reads *)

(** With [k] full reads and the last one left, and the bytes for them,
    the loop reads [k] buffers of [length buf] bytes, then one of
    [length bf] bytes, consecutively. *)
Lemma readLoop_concat k fuel np cur buf bf bytes :
  (S k <= fuel)%nat -> np = cur + Z.of_nat k + 1 ->
  (k * length buf + length bf <= length bytes)%nat ->
  concat (readLoop fuel np cur buf bf (mkIfs bytes false)) = take (k * length buf + length bf) bytes.
Proof.
  revert fuel cur buf bytes; induction k as [|k IH]; intros fuel cur buf bytes Hf Hnp Hl;
    (destruct fuel as [|fuel]; [lia|]); cbn [readLoop eof].
  - replace (cur + 1 =? np) with true by lia. unfold readInto; cbn.
    replace (Nat.leb (length bf) (length bytes)) with true by (symmetry; apply Nat.leb_le; lia).
    cbn. by rewrite app_nil_r.
  - replace (cur + 1 =? np) with false by lia. unfold readInto at 1; cbn [rest].
    replace (Nat.leb (length buf) (length bytes)) with true by (symmetry; apply Nat.leb_le; lia).
    cbn [concat]. rewrite Nat.mul_succ_l in Hl |- *.
    assert (Hb : length (take (length buf) bytes) = length buf) by (rewrite length_take; lia).
    rewrite (IH fuel) by (rewrite ?Hb, ?length_drop; lia). rewrite Hb.
    rewrite take_take_drop. f_equal. lia.
Qed.

(** C39. The archived sender never reads the last byte of the file, or
    throws: with a positive packet size, a file whose size is a multiple
    of it gives [packetSizeFinal = -1] and [vector<char> fileBuffFinal(-1, 0)]
    throws [std::length_error]; otherwise the [numPackets - 1] full reads
    and the last read of [fileSize % packetSize - 1] bytes cover the file
    without its last byte. *)
Theorem oldBuffers_last_byte f P :
  0 < P ->
  (Z.of_nat (length f) mod P = 0 -> oldBuffers (Z.of_nat (length f)) P f = Crash ExcLengthError) /\
  (Z.of_nat (length f) mod P <> 0 ->
     exists bufs, oldBuffers (Z.of_nat (length f)) P f = Ok bufs /\
                  concat bufs = take (length f - 1) f).
Proof.
  intros HP. set (n := Z.of_nat (length f)).
  unfold oldBuffers, c_div, c_rem. replace (P =? 0) with false by lia. cbn [res_bind].
  rewrite Z.quot_div_nonneg, Z.rem_mod_nonneg by lia.
  unfold newBuffer. replace (P <? 0) with false by lia. cbn [res_bind].
  pose proof (Z.mod_pos_bound n P HP) as Hr. pose proof (Z.div_mod n P ltac:(lia)) as Hd.
  pose proof (Z.div_pos n P ltac:(lia) HP) as Hq.
  split; intros Hm.
  - rewrite Hm. reflexivity.
  - replace (n mod P - 1 <? 0) with false by lia. cbn [res_bind]. eexists. split; [reflexivity|].
    assert (Hk : (Z.to_nat (n / P) * Z.to_nat P + Z.to_nat (n mod P - 1) = length f - 1)%nat).
    { apply Nat2Z.inj. rewrite Nat2Z.inj_add, Nat2Z.inj_mul, !Z2Nat.id, Nat2Z.inj_sub by lia.
      fold n. lia. }
    rewrite (readLoop_concat (Z.to_nat (n / P))); rewrite ?repeat_length; [by rewrite Hk| lia | lia | lia].
Qed.

(** Witness of C39: the 3-byte file "ABC" in packets of 2 bytes is read as
    "AB" and an empty last buffer; the 2-byte file "AB" throws. *)
Lemma oldBuffers_last_byte_witness :
  oldBuffers 2 2 [65; 66] = Crash ExcLengthError /\
  exists bufs, oldBuffers 3 2 [65; 66; 67] = Ok bufs /\ concat bufs = [65; 66].
Proof.
  split; [apply (oldBuffers_last_byte [65; 66] 2); [lia|reflexivity]|].
  apply (oldBuffers_last_byte [65; 66; 67] 2); [lia|discriminate].
Defined.

End OldThreads.
