(* ===== verification/OldSender.v ===== *)
(** * The sender copy appended to [src/receiver.cpp] (lines 323-836)

    After the receiver's [main], [src/receiver.cpp] carries a later copy of
    the sender ("sender copy.cpp"): the same globals as [src/sender.cpp]
    without the fault injection and sequence range, a [showSlidingWindow]
    without the "Current window" prefix, a [sendInitialFilePacket] with
    three fields, a [readACKMessages] that erases an acknowledged packet
    at once and answers a NACK by sending back the reply it received, a
    [processChunkData], a [checkPacketQueue] that only waits for room in
    the window, and a [main] whose chunk loop reads each chunk in pieces
    until it has [amountToRead] bytes.  The copy defines a second [main],
    so the file does not link; it is modelled as written, against the
    current [Packet] and [NetSocket] classes (its [setData] takes the
    chunk's characters).

    Here: the globals as [OldS]; [oldShowSlidingWindow]; the handshake
    packet and its wait; [processChunkData]; one ACK as [onAck]; one pass
    of [checkPacketQueue] and its exit test; [main]'s set-up as
    [oldStart]; the chunk loop, its inner read loop ([fillStep]) and the
    two threads as the step relation [ostep] over [main]'s position and
    the globals.  The clock is the oracle [now] (the i-th reading).

    Theorems: the inner read loop never ends with a chunk -- a buffer
    without NUL is read past its end and one with a NUL leaves bytes still
    to read, so it runs until the end of the file and then retries the
    failed read forever ([fillChunk_never_done]); hence no run of the
    copy, whatever the ACK thread receives, ever hands a chunk to
    [processChunkData] ([old_never_sends_data]); a NACK makes
    [readACKMessages] send back the reply it received and leave the
    packet list alone ([onAck_nack_echo]). *)

From S2P Require Import Prelude Bitset Checksum Handshake Codec Config NetSocket Receiver Console OldThreads.
From stdpp Require Import list.
Open Scope Z_scope.

Module OldSender.

Import Codec.

(** The globals (lines 344-353) the threads share, and the strings
    handed to [clientSocket.sendData] and the clock readings so far;
    [numChunks] and [finalChunkSize] are [main]'s locals the loop reads. *)
Record OldS := mkOldS {
  curSeqNum : Z;                 (** [unsigned int curSeqNum = 0] *)
  numRetrans : Z;
  timeoutMS : Z;
  slidingWindowSize : Z;
  slidingWindowFront : Z;
  slidingWindowEnd : Z;
  packetList : list Packet;
  packetSize : Z;
  numChunks : Z;
  finalChunkSize : Z;
  sent : list (list Z);
  clockReads : nat
}.

(** [showSlidingWindow()] (lines 361-377): nothing when the front is
    past the end, else ["[a, b, c]\n"] from the front to
    [slidingWindowFront + slidingWindowSize - 1], with the loop of the
    current code; [None] when that loop does not end. *)
Definition oldShowSlidingWindow (front wend size : Z) : option (list Z) :=
  if wend <? front then Some []
  else
    let slidingWindowMax := signed32 (front + size - 1) in
    match Console.windowLoop (Console.loopFuel front slidingWindowMax) front slidingWindowMax 0 [91] with
    | Some d => Some (d ++ [93; 10])
    | None => None
    end.

(** The payload of [sendInitialFilePacket] (lines 394-418): file size,
    chunk count and packet size, each padded to 16 digits, and the name. *)
Definition initialData (outFileName : list Z) (fileSize numPackets packetSize : Z) : res (list Z) :=
  padFileSize <- Handshake.pad_left 16 48 (Handshake.to_string fileSize) ;;
  padNumPackets <- Handshake.pad_left 16 48 (Handshake.to_string numPackets) ;;
  padPacketSize <- Handshake.pad_left 16 48 (Handshake.to_string packetSize) ;;
  Ok (padFileSize ++ padNumPackets ++ padPacketSize ++ outFileName).

(** The packet sent first: number 0 with that payload. *)
Definition initialPacket (d : list Z) : Packet := setData d (setSeqNum 0 newPacket).

(** The wait of lines 424-437 on the strings [getFromSocket()] returns:
    the first non-empty one is decoded and ends the loop; [None] while
    none arrives. *)
Fixpoint awaitReply (reads : list (list Z)) : option (res unit) :=
  match reads with
  | [] => None
  | s :: rs =>
      if Nat.eqb (length s) 0 then awaitReply rs
      else Some (_ <- reversePacket s newPacket ;; Ok tt)
  end.

Section Clock.

(** The i-th reading of [system_clock::now()], in ms. *)
Variable now : nat -> Z.

(** [processChunkData(chunkData)] (lines 521-551), under the lock. *)
Definition processChunkData (st : OldS) (chunkData : list Z) : OldS :=
  let cur := (st.(curSeqNum) + 1) mod 2 ^ 32 in
  let p := setData chunkData (setSeqNum cur (setTimeout (now st.(clockReads)) st.(timeoutMS) newPacket)) in
  mkOldS cur st.(numRetrans) st.(timeoutMS) st.(slidingWindowSize) st.(slidingWindowFront)
    (st.(slidingWindowEnd) + 1) (st.(packetList) ++ [p]) st.(packetSize) st.(numChunks)
    st.(finalChunkSize) (st.(sent) ++ [createPacketString p false]) (S st.(clockReads)).

Definition withList (st : OldS) (l : list Packet) (front : Z) : OldS :=
  mkOldS st.(curSeqNum) st.(numRetrans) st.(timeoutMS) st.(slidingWindowSize) front
    st.(slidingWindowEnd) l st.(packetSize) st.(numChunks) st.(finalChunkSize) st.(sent)
    st.(clockReads).

(** One iteration of [readACKMessages] (lines 449-513) on a non-empty
    string read from the socket.  [ACK_OK]: the first packet with that
    number is erased, and when it was at the window front the front moves
    to the next packet of the list, or past it when the list is empty.
    Any other code: the reply itself gets a deadline and is sent back,
    and [numRetrans] counts it (without the lock). *)
Definition onAck (st : OldS) (socketData : list Z) : res OldS :=
  ackPacket <- reversePacket socketData newPacket ;;
  if ackPacket.(ack) =? ACK_OK then
    let findSeqNum := getSeqNum ackPacket in
    match list_find (fun p => getSeqNum p = findSeqNum) st.(packetList) with
    | None => Ok st
    | Some (i, _) =>
        let l := delete i st.(packetList) in
        let front :=
          if st.(slidingWindowFront) =? getSeqNum ackPacket then
            match l with q :: _ => getSeqNum q | [] => getSeqNum ackPacket + 1 end
          else st.(slidingWindowFront) in
        Ok (withList st l front)
    end
  else
    let a := setTimeout (now st.(clockReads)) st.(timeoutMS) ackPacket in
    Ok (mkOldS st.(curSeqNum) (st.(numRetrans) + 1) st.(timeoutMS) st.(slidingWindowSize)
          st.(slidingWindowFront) st.(slidingWindowEnd) st.(packetList) st.(packetSize)
          st.(numChunks) st.(finalChunkSize) (st.(sent) ++ [createPacketString a false])
          (S st.(clockReads))).

(** The inner loop of [checkPacketQueue] (lines 565-582): each packet
    past its deadline gets a new one and is sent again; a clock reading
    per test and per new deadline. *)
Fixpoint scanOld (timeout : Z) (l : list Packet) (sent0 : list (list Z)) (retrans : Z) (clock : nat)
  : list Packet * list (list Z) * Z * nat :=
  match l with
  | [] => ([], sent0, retrans, clock)
  | p :: rest =>
      if hasTimedOut (now clock) p then
        let p' := setTimeout (now (S clock)) timeout p in
        let '(l', s', r', c') :=
          scanOld timeout rest (sent0 ++ [createPacketString p' false]) (retrans + 1) (S (S clock)) in
        (p' :: l', s', r', c')
      else
        let '(l', s', r', c') := scanOld timeout rest sent0 retrans (S clock) in
        (p :: l', s', r', c')
  end.

(** One iteration of the [while (1)] of [checkPacketQueue] (lines 559-592). *)
Definition checkPass (st : OldS) : OldS :=
  let '(l', s', r', c') := scanOld st.(timeoutMS) st.(packetList) st.(sent) st.(numRetrans) st.(clockReads) in
  mkOldS st.(curSeqNum) r' st.(timeoutMS) st.(slidingWindowSize) st.(slidingWindowFront)
    st.(slidingWindowEnd) l' st.(packetSize) st.(numChunks) st.(finalChunkSize) s' c'.

(** Its exit test (lines 587-591): room in the window. *)
Definition checkExit (st : OldS) : bool :=
  st.(slidingWindowEnd) <? st.(slidingWindowFront) + st.(slidingWindowSize) - 1.

End Clock.

(** ** [main] *)

(** Where [main] is in its chunk loop (lines 713-808) and after it:
    at the loop test with the chunk number and the bytes carried over;
    in the inner [while (chunkLeftToRead > 0)] read loop; in
    [checkPacketQueue()] after a chunk; in the final [checkPacketQueue()];
    past [closeSocket()].  [nextFileBuff] is empty at both loop tests. *)
Inductive OMain :=
| OHead (curChunkNum : Z) (curFileBuff : list Z) (f : OldThreads.Ifs)
| OFill (curChunkNum amountToRead chunkLeftToRead : Z) (curFileBuff : list Z) (f : OldThreads.Ifs)
| OCheck (curChunkNum : Z) (curFileBuff : list Z) (f : OldThreads.Ifs)
| OFinal
| OClosed.

(** How [main] goes on after its set-up (lines 604-706). *)
Inductive Start :=
| SExit (code : Z)
| SRun (m : OMain) (st : OldS).

(** Lines 604-706: the prompts ([serverPort] is an uninitialised local,
    [packetSize], [timeoutMS] and [slidingWindowSize] globals starting at
    0, 0 and -1), the file's size, the chunk counts, the connection, the
    handshake and its wait; then the loop starts at chunk 0 with the
    window front at 1.  [replies]: what [getFromSocket()] returns;
    [None] when no reply comes. *)
Definition oldStart (input : list Z) (file : option (list Z)) (k : NetSocket.Kernel)
    (v : NetSocket.Verdicts) (replies : list (list Z)) : option (res Start) :=
  let s := Config.mkIstream input false false in
  let '(s, inputFileName) := Config.readWord s [] in
  let '(s, outputFileName) := Config.readWord s [] in
  let '(s, serverHost) := Config.readWord s [] in
  let '(s, serverPort) := Config.readInt s in
  let '(s, ps) := Config.readInt s in
  let packetSize := default 0 ps in
  let '(s, tmo) := Config.readInt s in
  let timeoutMS := default 0 tmo in
  let '(s, win) := Config.readInt s in
  let slidingWindowSize := default (-1) win in
  let fileSize := Config.tellgInt (option_map (fun f => Z.of_nat (length f)) file) in
  if fileSize <? 0 then Some (Ok (SExit 1)) else
  match c_div fileSize packetSize, c_rem fileSize packetSize with
  | Crash e, _ | _, Crash e => Some (Crash e)
  | Ok q, Ok finalChunkSize =>
      let numChunks := if 0 <? finalChunkSize then q + 1 else q in
      match serverPort with
      | None => Some (Crash Indeterminate)
      | Some port =>
          match NetSocket.senderConnect k v port with
          | None => Some (Ok (SExit 1))
          | Some _ =>
              match initialData outputFileName fileSize numChunks packetSize with
              | Crash e => Some (Crash e)
              | Ok d =>
                  match awaitReply replies with
                  | None => None
                  | Some (Crash e) => Some (Crash e)
                  | Some (Ok _) =>
                      Some (Ok (SRun (OHead 0 [] (OldThreads.mkIfs (default [] file) false))
                        (mkOldS 0 0 timeoutMS slidingWindowSize 1 0 [] packetSize numChunks
                           finalChunkSize [createPacketString (initialPacket d) false] 0)))
                  end
              end
          end
      end
  end.

Section Run.

Variable now : nat -> Z.

(** The loop test and the start of an iteration (lines 713-719):
    [chunkLeftToRead] is computed in [size_t] and narrowed to [int]. *)
Definition headStep (cur : Z) (cb : list Z) (f : OldThreads.Ifs) (st : OldS) : OMain :=
  if f.(OldThreads.eof) then OFinal
  else
    let cur' := cur + 1 in
    let amountToRead :=
      if (cur' =? st.(numChunks)) && (0 <? st.(finalChunkSize)) then st.(finalChunkSize)
      else st.(packetSize) in
    OFill cur' amountToRead (signed32 (amountToRead - Z.of_nat (length cb))) cb f.

(** One round of the inner read loop (lines 721-749), when
    [chunkLeftToRead > 0]: a failed read ("Read Failed", [sleep(5)],
    [continue]) changes nothing but the stream; a read of the whole
    buffer appends the buffer taken as a C string.  [None]: the buffer
    has no NUL and is read past its end. *)
Definition fillStep (cur amount left : Z) (cb : list Z) (f : OldThreads.Ifs) : option OMain :=
  if f.(OldThreads.eof) then Some (OFill cur amount left cb f)
  else
    let '(b, f') := OldThreads.readInto (repeat 0 (Z.to_nat left)) f in
    if f'.(OldThreads.eof) then Some (OFill cur amount left cb f')
    else
      match Handshake.c_str b with
      | Ok t => Some (OFill cur amount (left - Z.of_nat (length t)) (cb ++ t) f')
      | Crash _ => None
      end.

(** After the inner loop (lines 752-767): the chunk is cut to
    [amountToRead] bytes (the comparison is in [size_t]) -- or emptied
    when it is not longer -- and handed to [processChunkData]. *)
Definition chunkOut (amount : Z) (cb : list Z) : list Z * list Z :=
  if (0 <=? amount) && (amount <? Z.of_nat (length cb)) then
    (take (Z.to_nat amount) cb, drop (Z.to_nat amount) cb)
  else ([], []).

(** The steps of [main] and of the ACK thread; each runs under
    [ackMutex] but the NACK branch of [onAck], which is atomic here. *)
Inductive ostep : OMain * OldS -> OMain * OldS -> Prop :=
| o_head cur cb f st : ostep (OHead cur cb f, st) (headStep cur cb f st, st)
| o_fill cur amount left cb f st m :
    0 < left -> fillStep cur amount left cb f = Some m -> ostep (OFill cur amount left cb f, st) (m, st)
| o_chunk cur amount left cb f st :
    left <= 0 ->
    ostep (OFill cur amount left cb f, st)
          (OCheck cur (chunkOut amount cb).2 f, processChunkData now st (chunkOut amount cb).1)
| o_check cur cb f st :
    ostep (OCheck cur cb f, st)
          (if checkExit (checkPass now st) then (if cur =? st.(numChunks) then OFinal else OHead cur cb f)
           else OCheck cur cb f, checkPass now st)
| o_final st :
    ostep (OFinal, st) (if checkExit (checkPass now st) then OClosed else OFinal, checkPass now st)
| o_ack m st socketData st' :
    m <> OClosed -> length socketData <> 0%nat -> onAck now st socketData = Ok st' ->
    ostep (m, st) (m, st').

(** The same steps of [main], executable: [None] once it has returned or
    when a buffer is read past its end. *)
Definition mainNext (x : OMain * OldS) : option (OMain * OldS) :=
  let '(m, st) := x in
  match m with
  | OHead cur cb f => Some (headStep cur cb f st, st)
  | OFill cur amount lft cb f =>
      if 0 <? lft then option_map (fun m' => (m', st)) (fillStep cur amount lft cb f)
      else Some (OCheck cur (chunkOut amount cb).2 f, processChunkData now st (chunkOut amount cb).1)
  | OCheck cur cb f =>
      Some (if checkExit (checkPass now st) then (if cur =? st.(numChunks) then OFinal else OHead cur cb f)
            else OCheck cur cb f, checkPass now st)
  | OFinal => Some (if checkExit (checkPass now st) then OClosed else OFinal, checkPass now st)
  | OClosed => None
  end.

Fixpoint mainRun (n : nat) (x : OMain * OldS) : option (OMain * OldS) :=
  match n with
  | O => Some x
  | S n' => match mainNext x with Some y => mainRun n' y | None => None end
  end.

End Run.

(** ** Lemmas *)

(** A C string read from a buffer is shorter than the buffer. *)
Lemma c_str_shorter b t : Handshake.c_str b = Ok t -> (length t < length b)%nat.
Proof.
  revert t; induction b as [|c b IH]; intros t; cbn; [discriminate|].
  destruct (c =? NUL); [intros [= <-]; cbn; lia|].
  destruct (Handshake.c_str b) as [t'|] eqn:E; cbn; [intros [= <-]|discriminate].
  specialize (IH t' eq_refl). cbn. lia.
Qed.

(** A round of the inner read loop leaves bytes still to read. *)
Lemma fillStep_left cur amount left cb f m :
  0 < left -> fillStep cur amount left cb f = Some m ->
  exists left' cb' f', m = OFill cur amount left' cb' f' /\ 0 < left'.
Proof.
  intros Hl. unfold fillStep. destruct (OldThreads.eof f); [intros [= <-]; eauto|].
  destruct (OldThreads.readInto _ f) as [b f'] eqn:Er.
  destruct (OldThreads.eof f') eqn:Ee; [intros [= <-]; eauto|].
  destruct (Handshake.c_str b) as [t|] eqn:Ec; [intros [= <-]|discriminate].
  apply c_str_shorter in Ec. unfold OldThreads.readInto in Er.
  destruct (Nat.leb _ _); injection Er as <- <-; [|discriminate].
  rewrite length_take, repeat_length in Ec. do 3 eexists. split; [reflexivity|lia].
Qed.

(** What [main] reads in the loop and [processChunkData] writes. *)
Definition loopCfg (st : OldS) : Z * Z * Z * Z :=
  (st.(curSeqNum), st.(packetSize), st.(numChunks), st.(finalChunkSize)).

Lemma onAck_cfg now st s st' : onAck now st s = Ok st' -> loopCfg st' = loopCfg st.
Proof.
  unfold onAck. destruct (reversePacket s newPacket) as [a|]; cbn [res_bind]; [|discriminate].
  destruct (ack a =? ACK_OK); [|by intros [= <-]].
  destruct (list_find _ _) as [[i p]|]; by intros [= <-].
Qed.

Lemma onAck_empty now st s st' :
  st.(packetList) = [] -> onAck now st s = Ok st' -> st'.(packetList) = [].
Proof.
  intros He. unfold onAck. rewrite He.
  destruct (reversePacket s newPacket) as [a|]; cbn [res_bind]; [|discriminate].
  destruct (ack a =? ACK_OK); by intros [= <-].
Qed.

(** The state [oldStart] hands to the loop. *)
Lemma oldStart_run input file k v replies m st :
  oldStart input file k v replies = Some (Ok (SRun m st)) ->
  m = OHead 0 [] (OldThreads.mkIfs (default [] file) false) /\ st.(packetList) = [] /\
  st.(curSeqNum) = 0 /\ st.(packetSize) <= 2 ^ 31 - 1 /\
  (0 < st.(packetSize) -> 0 <= st.(finalChunkSize) < st.(packetSize)).
Proof.
  unfold oldStart.
  repeat match goal with |- context [let '(_, _) := ?e in _] => destruct e as [? ?] eqn:? end.
  repeat case_match; try discriminate.
  all: intros [= <- <-]; cbn; split_and!; try done; [|intros Hp].
  all: match goal with
       | H : Config.readInt _ = (_, ?o) |- default 0 ?o <= _ =>
           destruct o eqn:Eo; cbn; [apply Config.readInt_range in H|]; lia
       | Er : c_rem _ _ = Ok ?r, Ef : (?fs <? 0) = false |- 0 <= ?r < _ =>
           unfold c_rem in Er; destruct (_ =? 0); [discriminate|]; injection Er as <-;
           apply Z.ltb_ge in Ef; rewrite Z.rem_mod_nonneg by lia; apply Z.mod_pos_bound; lia
       end.
Qed.

Lemma mainNext_sound now x y : mainNext now x = Some y -> ostep now x y.
Proof.
  destruct x as [m st]. unfold mainNext.
  destruct m as [cur cb f|cur amount lft cb f|cur cb f| |]; try discriminate;
    try (intros [= <-]; constructor).
  destruct (Z.ltb_spec 0 lft) as [Hl|Hl].
  - destruct (fillStep cur amount lft cb f) eqn:E; cbn; [intros [= <-]|discriminate]. by constructor.
  - intros [= <-]. by constructor.
Qed.

Lemma mainRun_sound now n x y : mainRun now n x = Some y -> rtc (ostep now) x y.
Proof.
  revert x; induction n as [|n IH]; intros x; cbn; [intros [= ->]; constructor|].
  destruct (mainNext now x) eqn:E; [|discriminate]. intros H.
  eapply rtc_l; [by apply mainNext_sound|by apply IH].
Qed.

(** While [main] has not handed over a chunk: no packet, the chunk loop's
    parameters unchanged, [main] at the first loop test or in the inner
    read loop with bytes still to read. *)
Definition stuckInv (P N F : Z) (f0 : OldThreads.Ifs) (x : OMain * OldS) : Prop :=
  x.2.(packetList) = [] /\ loopCfg x.2 = (0, P, N, F) /\
  (x.1 = OHead 0 [] f0 \/ exists cur a l cb f, x.1 = OFill cur a l cb f /\ 0 < l).

Lemma fill_stuck_step now P N F f0 x y :
  0 < P <= 2 ^ 31 - 1 -> 0 <= F < P -> f0.(OldThreads.eof) = false ->
  stuckInv P N F f0 x -> ostep now x y -> stuckInv P N F f0 y.
Proof.
  intros HP HF Hf (Hl & Hc & Hm) Hs. destruct Hs; cbn in *.
  - destruct Hm as [Hm|(? & ? & ? & ? & ? & Hm & _)]; [|discriminate]. injection Hm as -> -> ->.
    split_and!; [done|done|right]. unfold loopCfg in Hc. injection Hc as _ HP' HN HF'.
    unfold headStep. rewrite Hf. rewrite HP', HN, HF'. do 5 eexists. split; [reflexivity|].
    cbn [length Z.of_nat]. rewrite Z.sub_0_r.
    destruct ((0 + 1 =? N) && (0 <? F)) eqn:E;
      [apply andb_true_iff in E as [_ E]; apply Z.ltb_lt in E|];
      rewrite signed32_small by lia; lia.
  - split_and!; [done|done|right].
    destruct (fillStep_left _ _ _ _ _ _ H H0) as (l' & cb' & f' & -> & Hl'). eauto 7.
  - destruct Hm as [Hm|(? & ? & l' & ? & ? & Hm & Hl')]; [discriminate|].
    injection Hm as _ _ <- _ _. lia.
  - destruct Hm as [Hm|(? & ? & ? & ? & ? & Hm & _)]; discriminate.
  - destruct Hm as [Hm|(? & ? & ? & ? & ? & Hm & _)]; discriminate.
  - split_and!; [by eapply onAck_empty| |done]. pose proof (onAck_cfg _ _ _ _ H1) as E.
    unfold loopCfg in *. cbn [snd] in *. congruence.
Qed.

(** C37. The chunk loop of the sender copy in [src/receiver.cpp] never
    hands a chunk over: whatever the input, file, network and clock, once
    [main] has started its chunk loop with a positive packet size, in
    every interleaving with the ACK thread (whatever replies it reads)
    [main] stays in the inner read loop of the first chunk --
    [processChunkData] is never called, no packet is in flight,
    [checkPacketQueue] is never entered and the socket is never closed.
    Each read buffer is taken as a C string: a buffer without NUL is read
    past its end, one with a NUL yields fewer bytes than asked, so the
    count still to read stays positive until the file is exhausted, and a
    failed read is retried forever. *)
Theorem old_never_sends_data now input file k v replies m st x :
  oldStart input file k v replies = Some (Ok (SRun m st)) -> 0 < st.(packetSize) ->
  rtc (ostep now) (m, st) x ->
  x.2.(packetList) = [] /\ x.2.(curSeqNum) = 0 /\ x.1 <> OFinal /\ x.1 <> OClosed /\
  (forall cur cb f, x.1 <> OCheck cur cb f).
Proof.
  intros Hs HP Hr. destruct (oldStart_run _ _ _ _ _ _ _ Hs) as (-> & Hl & Hc & HP' & HF).
  specialize (HF HP).
  assert (Hi : stuckInv st.(packetSize) st.(numChunks) st.(finalChunkSize)
                 (OldThreads.mkIfs (default [] file) false) x).
  { refine (rtc_invariant _ _ _ x (fun a b Ha Hab => fill_stuck_step now _ _ _ (OldThreads.mkIfs (default [] file) false) a b _ HF eq_refl Ha Hab) _ Hr);
      [lia|].
    split_and!; [done|unfold loopCfg; cbn; by rewrite Hc|by left]. }
  destruct Hi as (Hl' & Hc' & Hm). injection Hc' as Hc' _ _ _.
  split_and!; [done|done| | |intros cur cb f];
    destruct Hm as [->|(? & ? & ? & ? & ? & -> & _)]; discriminate.
Qed.

(** Witness of C37: the answers "a b c 1 2 100 3" (port 1, packets of 2
    bytes), the file "A\0\0\0", a successful connection and an ACK as the
    handshake reply: after the first loop test the inner loop reads "A\0"
    (one byte of the chunk), then "\0" twice (none), then fails at the
    end of the file, and from there retries forever with one byte to
    read. *)
Lemma old_never_sends_data_witness :
  exists m st x,
    oldStart [97; 32; 98; 32; 99; 32; 49; 32; 50; 32; 49; 48; 48; 32; 51] (Some [65; 0; 0; 0]) ∅
      (NetSocket.mkVerdicts true true true true true true) [Receiver.ackString 0 0 true]
      = Some (Ok (SRun m st)) /\
    0 < st.(packetSize) /\ rtc (ostep (fun _ => 0)) (m, st) x /\
    x.1 = OFill 1 2 1 [65] (OldThreads.mkIfs [] true) /\ x.2.(packetList) = [].
Proof.
  set (st := mkOldS 0 0 100 3 1 0 [] 2 2 0
    [createPacketString (initialPacket (match initialData [98] 4 2 2 with Ok d => d | Crash _ => [] end)) false] 0).
  set (m := OHead 0 [] (OldThreads.mkIfs [65; 0; 0; 0] false)).
  assert (Hs : oldStart [97; 32; 98; 32; 99; 32; 49; 32; 50; 32; 49; 48; 48; 32; 51] (Some [65; 0; 0; 0]) ∅
      (NetSocket.mkVerdicts true true true true true true) [Receiver.ackString 0 0 true]
      = Some (Ok (SRun m st))) by reflexivity.
  assert (Hr : rtc (ostep (fun _ => 0)) (m, st) (OFill 1 2 1 [65] (OldThreads.mkIfs [] true), st))
    by (apply (mainRun_sound _ 6); reflexivity).
  exists m, st, (OFill 1 2 1 [65] (OldThreads.mkIfs [] true), st).
  split; [exact Hs|]. split; [cbn; lia|]. split; [exact Hr|]. split; [reflexivity|].
  exact (proj1 (old_never_sends_data _ _ _ _ _ _ _ _ _ Hs ltac:(cbn; lia) Hr)).
Defined.

(** A NACK answered with the reply: when the string read decodes to
    a reply whose ack code is not [ACK_OK], [readACKMessages] gives that
    reply a deadline, prints it with [createPacketString()] and sends it
    back to the receiver -- a packet with the reply's number, ack code
    and payload, not the data packet the NACK is about -- counts a
    retransmission, and leaves the in-flight list and the window as they
    were: the data packet is only sent again when its deadline passes. *)
Theorem onAck_nack_echo now st socketData a :
  reversePacket socketData newPacket = Ok a -> a.(ack) <> ACK_OK ->
  exists st', onAck now st socketData = Ok st' /\
    st'.(sent) = st.(sent) ++ [createPacketString (setTimeout (now st.(clockReads)) st.(timeoutMS) a) false] /\
    st'.(packetList) = st.(packetList) /\ st'.(slidingWindowFront) = st.(slidingWindowFront) /\
    st'.(numRetrans) = st.(numRetrans) + 1.
Proof.
  intros Hd Ha. unfold onAck. rewrite Hd; cbn [res_bind].
  replace (ack a =? ACK_OK) with false by lia. eexists. split; [reflexivity|]. done.
Qed.

(** Witness: the receiver's NACK for packet 1 is sent back as a
    packet numbered 1 with ack code 2 and the reply's one-byte payload. *)
Lemma onAck_nack_echo_witness :
  let st := mkOldS 1 0 100 3 1 1 [] 2 2 0 [] 0 in
  reversePacket (Receiver.ackString 0 1 false) newPacket = Ok (mkPacket 1 0 2 (Checksum.createChecksum [0]) [0] 0) /\
  exists st', onAck (fun _ => 5) st (Receiver.ackString 0 1 false) = Ok st' /\
    st'.(sent) = [createPacketString (mkPacket 1 0 2 (Checksum.createChecksum [0]) [0] 105) false].
Proof.
  intros st. assert (Hd : reversePacket (Receiver.ackString 0 1 false) newPacket =
                          Ok (mkPacket 1 0 2 (Checksum.createChecksum [0]) [0] 0)) by reflexivity.
  split; [exact Hd|].
  destruct (onAck_nack_echo (fun _ => 5) st _ _ Hd ltac:(cbn; discriminate)) as (st' & E & Hs & _).
  exists st'. split; [exact E|]. rewrite Hs. reflexivity.
Defined.

End OldSender.
